(* ===== verification/_CoqProject ===== *)
-Q . S2P
Prelude.v
DList.v
Bytes.v
Faults.v
Ring.v
Common.v
KStdio.v
Procfs.v
Alloc.v
AllocSpec.v
AllocRefine.v
AllocPmm.v
OsTrap.v
Kthreads.v
KthreadsProps.v
Exclusion.v
Kmt.v
Input.v
InputProps.v
KString.v
Device.v
Ext2.v
Ext2Props.v
Vfs.v
VfsProps.v
Video.v
VideoProps.v
Tty.v
TtyProps.v
TtyScreen.v
Shell.v
ShellProps.v
Kvdb.v
KvdbProps.v
KvdbLog.v
Insertion.v
Snake.v
SnakeProps.v
Pstree.v
PstreeProps.v
Sperf.v
SperfProps.v
Frecov.v
FrecovProps.v
FrecovDisk.v
FrecovEnds.v
Libco.v
LibcoProps.v
Crepl.v
Vme.v
VmeProps.v
VmeSpaces.v
VmeInit.v
AddressSpaces.v
Cte.v
CteProps.v
Boot.v
BootProps.v
