(* ===== verification/Prelude.v ===== *)
(** * A verification of os-workbench

    os-workbench is a small operating system for x86 with its laboratory
    programs.  This development models, in a shallow embedding, the kernel of
    os-workbench/kernel (page allocator, threads, trap table, devices, file
    systems, shell), what the abstract machine gives it on x86 (address spaces,
    interrupts and contexts, the boot loader), the C library klib, the key-value
    database of libkvdb, the coroutines of libco, and the programs amgame (snake),
    pstree, sperf, frecov and crepl, and proves that they do what they are meant
    to, or exactly how they fail to.

    ** How code is modelled

    A C function is a run in the monad [M S A] of this file: from a state it
    returns a value and a new state, or stops with a [fault] (a failed assertion
    or panic, an access outside an array, a null pointer, a division by zero, a
    wait that nobody can end, or fuel that ran out).  The state of a component is
    a record with the fields of its C structures; pointers into an array are
    indices of it; a component works inside a larger state through [zoom].
    Machine integers are [Z] with their truncations written where C truncates
    ([u8], [u16], [u32], [u64], [i32]).  Memory that the code treats as bytes is
    a map from addresses to bytes.  Statements about runs use [wp], a total
    weakest precondition: a fault satisfies nothing, so every theorem of the form
    [m s = Ret (a, s')] says that the code ends without undefined behaviour.

    ** The parts

    - Prelude.v (this file): integers, the monad, loops, arrays, [wp] and its
      tactics.  DList.v: doubly linked lists.  Bytes.v: little-endian integers,
      fields and C strings in bytes.  Faults.v: runs that may stop with some
      faults.  Insertion.v: insertion into ordered lists.  Ring.v: ring buffers.
    - Common.v (kernel/include/common.h): constants and the naive lock.
    - KStdio.v (klib/src/stdio.c): number, vsprintf, sprintf, printf.
      KString.v (klib/src/string.c, stdlib.c): strings and memory, rand, atoi.
    - Alloc.v (kernel/src/alloc.c): kalloc, kfree and the free list they keep in
      a pool of blocks.  AllocSpec.v: the abstract heap of free and used extents.
      AllocRefine.v, AllocPmm.v: the free list represents it.
    - OsTrap.v (kernel/src/os.c, include/os.h): the table of interrupt handlers.
    - Kthreads.v (kernel/src/kthreads.c): tasks, the scheduler, spinlocks and
      semaphores.  KthreadsProps.v: their properties; Exclusion.v: when one task
      runs on two processors.  Kmt.v: the interface that
      the devices use (class [Kmt]: a counted resource with wait and signal, and
      the nesting of disabled interrupts), and its instance by Kthreads.v.
    - Procfs.v (kernel/src/fs/procfs.c): the table of processes.
    - Device.v (kernel/src/devices/dev.c, ramdisk.c): the table of devices, the
      RAM disk, and the interface of a block device (class [BlockDevice]).
      Ext2.v (kernel/src/fs/ext2fs.c): the file system on any block device.
      Vfs.v (kernel/src/fs/vfs.c): the tree of names over ext2, procfs and the
      terminals.  Ext2Props.v, VfsProps.v: their properties.
    - Input.v (kernel/src/devices/input): the keyboard driver.  Video.v
      (devices/video): the frame buffer.  Tty.v (devices/tty/tty.c): the
      terminals.  InputProps.v, VideoProps.v, TtyProps.v (the line discipline),
      TtyScreen.v (the screen): their properties, over any [Kmt].
    - Shell.v (devices/tty/shell.c): the commands, over the file system and any
      terminal (class [Terminal], implemented by Tty.v).  ShellProps.v.
    - Kvdb.v (libkvdb/kvdb.c): the database.  KvdbProps.v: it is a finite map.
      KvdbLog.v: its log and the recovery after a crash.
    - Snake.v (amgame/src/game.c): the snake game with its font, drawing and
      loop.  SnakeProps.v: it plays by the rules of an abstract snake.
    - Pstree.v (pstree/pstree.c): options, status files, the lists of children and
      the drawing.  PstreeProps.v: the drawing is that of the tree.
    - Sperf.v (sperf/sperf.c): the list of system calls with floating-point times
      and the lines of strace.  SperfProps.v: the profile is right.
    - Libco.v (libco/co.c): coroutines as saved places of stacks, the choice of
      the next one.  LibcoProps.v: what calls keep, and how main gets lost.
    - Frecov.v (frecov/frecov.c): the search of a FAT32 image for directory
      entries.  FrecovProps.v: what a search finds; FrecovDisk.v: recovery of a
      volume's files; FrecovEnds.v: the program ends on every image.
    - Crepl.v (crepl/crepl.c): the read-eval-print loop with its early ends.  The
      limit on descriptors, the calls the system refuses, the compiler and what
      comes of running its output are parameters.
    - Vme.v (abstract-machine/am/src/x86/qemu/vme.c): page directories and tables in
      pages of the program's allocator (class [PageAllocator]).  VmeProps.v: what
      owns each page, one operation at a time; VmeSpaces.v: protect, map and
      unprotect on the maps; VmeInit.v: the kernel's tables; AddressSpaces.v:
      sequences of operations.
    - Cte.v (am/src/x86/qemu/cte.c, cte_trap.S, ucontext of vme.c): an interrupt from
      the processor through the assembly and C code to the return, with the
      program's handler as a parameter, the gates and new contexts.  CteProps.v.
    - Boot.v (am/src/x86/qemu/boot/main.c): the boot loader on an ATA disk.
      BootProps.v: it loads the segments of the image.

    ** What the theorems show

    The properties carry the numbers C1, C2, ... in their comments.
    - Refinement: the allocator implements the abstract heap; waiting and
      signalling implement a counter with a queue of sleepers; the RAM disk
      implements the block device; the keyboard's and the terminal's rings
      implement a queue and the lines being edited; the database implements a
      finite map; path lookup implements the walk along a path; the page tables of
      an address space implement the finite map of what was mapped in it.
    - Invariants: allocated blocks are disjoint, rings of links stay rings, a task
      stays on one processor unless it is woken too early,
      tables stay sorted, the screen stays inside its arrays and every cell that
      changes is marked; coroutines stay counted and resumable; pages of address
      spaces come back when the spaces end.
    - Round trips: allocation and freeing, inodes and blocks on disk, the database's
      log and its replay after a crash, files listed by a volume's directories and
      the files recovered from its image, the registers that an interrupt saves and
      a return restores.
    - Functional behaviour: the scheduler's choice, the trap handlers' order, the
      keyboard's decoding, the screen, the numerals that are printed, the shell's
      dispatch, the sessions of crepl, the kernel's address space, the start of a
      thread, the segments that the boot loader loads.
    - Termination and liveness: the fuel of a loop is enough wherever its C loop
      ends; the recovery of files ends on damaged images too; a switch between
      coroutines ends as soon as the random numbers allow it; the one loop that
      may not end (the rounding of a request above 2^31) is characterised exactly.
    - Behaviour that goes wrong, stated as it is: interrupts that stay masked, a
      task run on two processors, descriptors never given back, a half-written
      last block, a directory entry that survives its removal, cat's stale text,
      the log lost by a second crash, a main program that never runs again.

    ** Fuel

    A loop that is not a fold over a list takes fuel.  [sched_fuel] covers every
    slot of the task table; [list_fuel] (Alloc.v) exceeds the pool; [chain_fuel]
    (Vfs.v) exceeds the number of vinodes; [bm_fuel] (Ext2.v) exceeds the bytes
    of a bitmap; [read_fuel] (Tty.v) the line buffer; [redo_fuel] (Kvdb.v) the
    characters of the log; vsprintf's fuel is the length of its format.  Each
    theorem about such a loop shows that the fuel does not run out.  The two
    loops of the shell that only the user ends (cat, cat >) take theirs as an
    argument.  [dfs_fuel] (Pstree.v) is the depth of the arrays and one more,
    [walk_fuel] and [BUF_SIZE] (Sperf.v) the nodes and the line buffer,
    [deep_fuel] (Frecov.v) the sectors that can be marked and one more; a choice
    of the next coroutine (Libco.v) takes as many turns as numbers of rand are
    left, and the state's list of them stands for an endless sequence: running out
    of it is a wait for the next number.  The game's loop (Snake.v) runs over the
    keys that its steps read.  [addr_fuel] (Vme.v) is the number of steps around the
    32-bit addresses; the loops of the boot loader have the number of sectors,
    bytes or headers they cover and one or two more, its wait for the disk the
    number of polls left and one more.

    ** The hardware

    What the processor and the devices do is part of the model where code is proved
    against it: [translate] (Vme.v) is the walk of the page tables, [interrupt],
    [iret] and the stack instructions (Cte.v) work on the registers and a memory of
    words, and the ports of Boot.v answer as an ATA disk.  The translation buffer is
    not modelled.  In Cte.v the stack frames of the C code, which lie below the
    trap frame, are left out, and so is the answer of the handler lying in them:
    a context is a value.

    ** Not modelled

    - The rest of the abstract machine (abstract-machine/am): the start in 16-bit
      assembly, the start of processors, interrupt controllers, timers and other
      devices, and the native back end on a host.  What the kernel uses of it
      appears as parameters: the screen's size, the font, key codes, the
      processor's number, the interrupt flag of each processor.
    - The start of the kernel (kernel/framework/main.c), which calls the modules'
      initialisations in turn, and its printing aids.
    - The applications and libraries under abstract-machine/apps and libs other
      than klib: third-party code, data and tables.
    - The host's part of the programs: starting processes (fork, exec, pipe, wait),
      dynamic loading, terminal control and waits on the clock.  What such code
      returns (lines of strace, status files, an image, a compiler's verdict) is an
      argument; fork succeeds, and the code of an expression given to crepl does
      not touch crepl's own files and descriptors.
    - Concurrency is modelled where the code's correctness turns on it: the steps
      of wait, signal and a context switch interleave in Exclusion.v.
      Elsewhere an operation runs to its end, which is what its lock ensures.
    - The memory of C objects is modelled per component, not as one address
      space: a write outside an array is the fault [OutOfBounds] and nothing is
      said about the object it would hit.  Messages printed on stderr or the
      console are left out unless a later read can see them. *)
From stdpp Require Export base numbers list list_numbers gmap strings.
From Stdlib Require Sorted.

(** ** Machine integers

    C's fixed-width integers are [Z] values; every operation of the source
    that can wrap is followed by one of these truncations.  The platform is
    x86 (ILP32): [int], [unsigned], [size_t] and pointers have 32 bits. *)

Definition u8 (z : Z) : Z := (z `mod` 2 ^ 8)%Z.
Definition u16 (z : Z) : Z := (z `mod` 2 ^ 16)%Z.
Definition u32 (z : Z) : Z := (z `mod` 2 ^ 32)%Z.
Definition u64 (z : Z) : Z := (z `mod` 2 ^ 64)%Z.
Definition i32 (z : Z) : Z := ((z + 2 ^ 31) `mod` 2 ^ 32 - 2 ^ 31)%Z.

Lemma u32_small z : (0 ≤ z < 2 ^ 32)%Z → u32 z = z.
Proof. intros. by apply Z.mod_small. Qed.

Lemma u64_small z : (0 ≤ z < 2 ^ 64)%Z → u64 z = z.
Proof. intros. by apply Z.mod_small. Qed.

Lemma u8_small z : (0 ≤ z < 2 ^ 8)%Z → u8 z = z.
Proof. intros. by apply Z.mod_small. Qed.

Lemma i32_small z : (- 2 ^ 31 ≤ z < 2 ^ 31)%Z → i32 z = z.
Proof. intros. unfold i32. rewrite Z.mod_small; lia. Qed.

(** Truncations inside a truncated expression do not matter. *)
Lemma i32_ext x y : (x `mod` 2 ^ 32 = y `mod` 2 ^ 32)%Z → i32 x = i32 y.
Proof. intros H. unfold i32. by rewrite <-(Zplus_mod_idemp_l x), H, Zplus_mod_idemp_l. Qed.

Lemma i32_mod z : (i32 z `mod` 2 ^ 32 = z `mod` 2 ^ 32)%Z.
Proof. unfold i32. rewrite Zminus_mod_idemp_l. f_equal. lia. Qed.

Lemma i32_add_l a b : i32 (i32 a + b) = i32 (a + b).
Proof. apply i32_ext. by rewrite <-Zplus_mod_idemp_l, i32_mod, Zplus_mod_idemp_l. Qed.

Lemma i32_mul_l a b : i32 (i32 a * b) = i32 (a * b).
Proof. apply i32_ext. by rewrite <-Zmult_mod_idemp_l, i32_mod, Zmult_mod_idemp_l. Qed.

Lemma u32_range z : (0 ≤ u32 z < 2 ^ 32)%Z.
Proof. apply Z.mod_pos_bound. lia. Qed.

Lemma u8_range z : (0 ≤ u8 z < 2 ^ 8)%Z.
Proof. apply Z.mod_pos_bound. lia. Qed.

Lemma u64_range z : (0 ≤ u64 z < 2 ^ 64)%Z.
Proof. apply Z.mod_pos_bound. lia. Qed.

(** ** Faults and the state-and-fault monad

    Code runs in [M S A]: a state transformer that returns a value and the new
    state or stops with a fault.  [Halt] is a failed [assert], a [panic] that
    stops the machine or a [_halt]; the next constructors are the undefined
    behaviours the source can reach; [Spin] is a busy-wait that can never end;
    [OutOfFuel] marks a loop cut by its fuel (a theorem shows it unreachable
    wherever the source's loop terminates). *)

Inductive fault :=
  | Halt
  | OutOfBounds
  | NullDeref
  | DivByZero
  | Spin
  | OutOfFuel.

#[export] Instance fault_eq_dec : EqDecision fault.
Proof. solve_decision. Defined.

Inductive res (A : Type) :=
  | Ret (a : A)
  | Err (f : fault).
Arguments Ret {A} _.
Arguments Err {A} _.

Definition M (S A : Type) : Type := S → res (A * S).

#[export] Instance M_ret {S} : MRet (M S) := λ A a s, Ret (a, s).
#[export] Instance M_bind {S} : MBind (M S) := λ A B k m s,
  match m s with
  | Ret (a, s') => k a s'
  | Err f => Err f
  end.

Definition fail {S A} (f : fault) : M S A := λ _, Err f.
Definition get {S} : M S S := λ s, Ret (s, s).
Definition gets {S A} (f : S → A) : M S A := λ s, Ret (f s, s).
Definition modify {S} (f : S → S) : M S unit := λ s, Ret (tt, f s).

(** [assert(b)] of klib.h and assert.h: a failed assertion halts. *)
Definition assert {S} (b : bool) : M S unit := if b then mret tt else fail Halt.

(** An access that is undefined when the [option] is [None]. *)
Definition deref {S A} (f : fault) (o : option A) : M S A :=
  match o with Some a => mret a | None => fail f end.

Definition when {S} (b : bool) (m : M S unit) : M S unit := if b then m else mret tt.

(** What a run from a given state returns and leaves ([d] after a fault). *)
Definition value_of {S A} (r : res (A * S)) : res A := match r with Ret (a, _) => Ret a | Err f => Err f end.
Definition state_of {S A} (d : S) (r : res (A * S)) : S := match r with Ret (_, s) => s | Err _ => d end.

Lemma run_eta {S A} (r : res (A * S)) a d : value_of r = Ret a → r = Ret (a, state_of d r).
Proof. destruct r as [[b s]|]; simpl; congruence. Qed.

(** A component's operations run inside a larger state through a getter and a
    setter of the part they use. *)
Definition zoom {S T A} (g : S → T) (p : T → S → S) (m : M T A) : M S A := λ s,
  match m (g s) with
  | Ret (a, t) => Ret (a, p t s)
  | Err f => Err f
  end.

(** ** Loops *)

Fixpoint while {S} (fuel : nat) (c : M S bool) (body : M S unit) : M S unit :=
  match fuel with
  | O => fail OutOfFuel
  | Datatypes.S n =>
      b ← c;
      if (b : bool) then body;; while n c body else mret tt
  end.

Fixpoint for_each {S A} (l : list A) (body : A → M S unit) : M S unit :=
  match l with
  | [] => mret tt
  | x :: l' => body x;; for_each l' body
  end.

(** [for (int i = lo; i < hi; i++) body]. *)
Definition for_range {S} (lo hi : Z) (body : Z → M S unit) : M S unit :=
  for_each (seqZ lo (hi - lo)) body.

(** [for (i = 0; i < n; i++) if (p(a[i])) return i;] over an array: the first
    index whose element satisfies [p]. *)
Fixpoint first_index {A} (p : A → bool) (l : list A) : option nat :=
  match l with
  | [] => None
  | x :: l' => if p x then Some O else S <$> first_index p l'
  end.

(** ** Arrays indexed by a C [int] *)

Definition aget {A} (l : list A) (i : Z) : option A :=
  if decide (0 ≤ i)%Z then l !! Z.to_nat i else None.

Definition aset {A} (l : list A) (i : Z) (x : A) : option (list A) :=
  if decide (0 ≤ i < Z.of_nat (length l))%Z then Some (<[Z.to_nat i := x]> l) else None.

(** ** Memory as the byte at each offset *)

Definition blit (off : Z) (l : list Z) (m : Z → Z) : Z → Z := λ a,
  if decide (off ≤ a < off + Z.of_nat (length l))%Z then default 0%Z (l !! Z.to_nat (a - off)) else m a.

Definition slice (off : Z) (n : nat) (m : Z → Z) : list Z := (λ k, m (off + Z.of_nat k)%Z) <$> seq 0 n.

(** The characters of a string, as bytes. *)
Definition string_bytes (s : string) : list Z :=
  (λ a, Z.of_N (Ascii.N_of_ascii a)) <$> String.list_ascii_of_string s.
Definition bytes_string (l : list Z) : string :=
  String.string_of_list_ascii ((λ b, Ascii.ascii_of_N (Z.to_N b)) <$> l).

(** ** Weakest preconditions (total: a fault satisfies nothing) *)

Definition wp {S A} (m : M S A) (Q : A → S → Prop) (s : S) : Prop :=
  match m s with Ret (a, s') => Q a s' | Err _ => False end.

Section wp.
Context {S : Type}.

Lemma wp_run {A} (m : M S A) Q s :
  wp m Q s ↔ ∃ a s', m s = Ret (a, s') ∧ Q a s'.
Proof.
  unfold wp. destruct (m s) as [[a s']|f]; split.
  - intros. by exists a, s'.
  - by intros (? & ? & [= <- <-] & ?).
  - done.
  - by intros (? & ? & ? & _).
Qed.

Lemma wp_run_ret {A} (m : M S A) (P : S → Prop) s a :
  wp m (λ b s', b = a ∧ P s') s → ∃ s', m s = Ret (a, s') ∧ P s'.
Proof. intros (b & s' & Hrun & -> & HP)%wp_run. by exists s'. Qed.

Lemma wp_ret {A} (a : A) (Q : A → S → Prop) s : Q a s → wp (mret a) Q s.
Proof. done. Qed.

Lemma wp_bind {A B} (m : M S A) (k : A → M S B) Q s :
  wp m (λ a s', wp (k a) Q s') s → wp (m ≫= k) Q s.
Proof. unfold wp, mbind, M_bind. destruct (m s) as [[a s']|f]; done. Qed.

Lemma wp_bind_nested {A B C} (m : M S A) (k : A → M S B) (r : B → M S C) Q s :
  wp (m ≫= k) (λ b s', wp (r b) Q s') s → wp m (λ a s', wp (k a ≫= r) Q s') s.
Proof.
  unfold wp, mbind, M_bind. destruct (m s) as [[a s']|f]; [|done].
  by destruct (k a s') as [[b s'']|f].
Qed.

Lemma wp_mono {A} (m : M S A) (P Q : A → S → Prop) s :
  wp m P s → (∀ a s', P a s' → Q a s') → wp m Q s.
Proof. unfold wp. destruct (m s) as [[a s']|f]; naive_solver. Qed.

Lemma wp_get (Q : S → S → Prop) s : Q s s → wp get Q s.
Proof. done. Qed.

Lemma wp_gets {A} (f : S → A) (Q : A → S → Prop) s : Q (f s) s → wp (gets f) Q s.
Proof. done. Qed.

Lemma wp_modify (f : S → S) (Q : unit → S → Prop) s : Q tt (f s) → wp (modify f) Q s.
Proof. done. Qed.

Lemma wp_assert b (Q : unit → S → Prop) s : b = true → Q tt s → wp (assert b) Q s.
Proof. by intros ->. Qed.

Lemma wp_deref {A} f (o : option A) a (Q : A → S → Prop) s :
  o = Some a → Q a s → wp (deref f o) Q s.
Proof. by intros ->. Qed.

Lemma wp_when b (m : M S unit) (Q : unit → S → Prop) s :
  (b = true → wp m Q s) → (b = false → Q tt s) → wp (when b m) Q s.
Proof. intros Ht Hf. destruct b; [by apply Ht|apply wp_ret; by apply Hf]. Qed.

Lemma wp_zoom {T A} (g : S → T) (p : T → S → S) (m : M T A) (Q : A → S → Prop) s :
  wp m (λ a t, Q a (p t s)) (g s) → wp (zoom g p m) Q s.
Proof. unfold wp, zoom. destruct (m (g s)) as [[a t]|f]; done. Qed.

Lemma wp_if {A} (b : bool) (m1 m2 : M S A) Q s :
  (b = true → wp m1 Q s) → (b = false → wp m2 Q s) → wp (if b then m1 else m2) Q s.
Proof. destruct b; auto. Qed.

Lemma wp_decide {A} P `{Decision P} (m1 m2 : M S A) Q s :
  (P → wp m1 Q s) → (¬ P → wp m2 Q s) → wp (if decide P then m1 else m2) Q s.
Proof. intros H1 H2. case_decide; auto. Qed.

(** Sequencing seen from the equations of the two halves. *)
Lemma bind_run {A B} (m : M S A) (k : A → M S B) s a s' :
  m s = Ret (a, s') → (m ≫= k) s = k a s'.
Proof. unfold mbind, M_bind. by intros ->. Qed.

Lemma bind_err {A B} (m : M S A) (k : A → M S B) s f :
  m s = Err f → (m ≫= k) s = Err f.
Proof. unfold mbind, M_bind. by intros ->. Qed.

Lemma bind_inv {A B} (m : M S A) (k : A → M S B) s b s' :
  (m ≫= k) s = Ret (b, s') →
  ∃ a s1, m s = Ret (a, s1) ∧ k a s1 = Ret (b, s').
Proof. unfold mbind, M_bind. destruct (m s) as [[a s1]|f]; naive_solver. Qed.

(** Counted loops keep an invariant indexed by the part already walked. *)
Lemma wp_for_each_gen {A} (I : list A → S → Prop) (body : A → M S unit) todo :
  ∀ walked s, I walked s →
  (∀ w x t s, walked ++ todo = w ++ x :: t → I w s →
     wp (body x) (λ _ s', I (w ++ [x]) s') s) →
  wp (for_each todo body) (λ _ s', I (walked ++ todo) s') s.
Proof.
  induction todo as [|x todo IH]; intros walked s HI Hstep; simpl.
  - rewrite app_nil_r. by apply wp_ret.
  - apply wp_bind. eapply wp_mono; [by eapply Hstep|].
    intros [] s1 HI1. rewrite cons_middle, (assoc_L (++)).
    apply IH; [done|]. intros w y t s2 Heq. apply (Hstep w y t).
    rewrite <-Heq, <-(assoc_L (++)). done.
Qed.

Lemma wp_for_each {A} (I : list A → S → Prop) (l : list A) (body : A → M S unit) s :
  I [] s →
  (∀ w x t s, l = w ++ x :: t → I w s → wp (body x) (λ _ s', I (w ++ [x]) s') s) →
  wp (for_each l body) (λ _ s', I l s') s.
Proof. intros HI Hstep. apply (wp_for_each_gen I body l []); done. Qed.

(** [for (i = lo; i < hi; i++)] keeps an invariant indexed by [i]. *)
Lemma wp_for_range (I : Z → S → Prop) lo hi (body : Z → M S unit) s :
  (lo ≤ hi)%Z → I lo s →
  (∀ i s, (lo ≤ i < hi)%Z → I i s → wp (body i) (λ _ s', I (i + 1)%Z s') s) →
  wp (for_range lo hi body) (λ _ s', I hi s') s.
Proof.
  intros Hle HI Hstep. unfold for_range.
  eapply wp_mono.
  - apply (wp_for_each (λ w s, I (lo + Z.of_nat (length w))%Z s)).
    + by rewrite Z.add_0_r.
    + intros w x t s1 Heq HI1.
      assert (Hx : seqZ lo (hi - lo) !! length w = Some x).
      { rewrite Heq. by apply list_lookup_middle. }
      apply lookup_seqZ in Hx as [-> Hlt].
      eapply wp_mono; [apply Hstep; [lia|done]|].
      intros [] s2. rewrite length_app. simpl.
      by replace (lo + Z.of_nat (length w) + 1)%Z
        with (lo + Z.of_nat (length w + 1))%Z by lia.
  - intros [] s1. rewrite length_seqZ. by replace (lo + Z.of_nat (Z.to_nat (hi - lo)))%Z with hi by lia.
Qed.
End wp.

(** A step of symbolic execution for the goal [wp m Q s]. *)
Ltac wp_step :=
  lazymatch goal with
  | |- wp (_ ≫= _) _ _ => apply wp_bind
  | |- wp (mret _) _ _ => apply wp_ret
  | |- wp get _ _ => apply wp_get
  | |- wp (gets _) _ _ => apply wp_gets
  | |- wp (modify _) _ _ => apply wp_modify
  | |- wp (deref _ _) _ _ => eapply wp_deref; [eassumption || reflexivity |]
  | |- wp (assert _) _ _ => apply wp_assert
  end.
Ltac wp_steps := repeat wp_step.

(** ** Generic lemmas: [first_index], [aget], [aset] *)

Lemma first_index_Some {A} (p : A → bool) l i :
  first_index p l = Some i ↔
  (∃ x, l !! i = Some x ∧ p x = true) ∧
  (∀ j y, j < i → l !! j = Some y → p y = false).
Proof.
  revert i. induction l as [|x l IH]; intros i; simpl.
  - split; [done|]. by intros [(x & Hx & _) _].
  - destruct (p x) eqn:Hp.
    + split.
      * intros [= <-]. split; [by exists x|lia].
      * intros [(y & Hy & Hpy) Hall]. destruct i as [|i]; [done|].
        specialize (Hall 0 x). rewrite Hall in Hp; [done|lia|done].
    + rewrite fmap_Some. split.
      * intros (i' & [Hex Hall]%IH & ->). split; [done|].
        intros [|j] y Hlt Hy; simplify_eq/=; [done|]. apply (Hall j); [lia|done].
      * intros [(y & Hy & Hpy) Hall]. destruct i as [|i]; simplify_eq/=; [congruence|].
        exists i. split; [|done]. apply IH. split; [by exists y|].
        intros j z Hlt Hz. apply (Hall (S j)); [lia|done].
Qed.

Lemma first_index_None {A} (p : A → bool) l :
  first_index p l = None ↔ ∀ i x, l !! i = Some x → p x = false.
Proof.
  induction l as [|x l IH]; simpl; [naive_solver|].
  destruct (p x) eqn:Hp.
  - split; [done|]. intros H. by rewrite (H 0 x) in Hp.
  - rewrite fmap_None, IH. split.
    + intros H [|i] y Hy; simplify_eq/=; eauto.
    + intros H i y Hy. by apply (H (S i)).
Qed.

Lemma first_index_lt {A} (p : A → bool) l i : first_index p l = Some i → i < length l.
Proof. intros [(x & Hx & _) _]%first_index_Some. by apply lookup_lt_Some in Hx. Qed.

Lemma aget_Some {A} (l : list A) i x :
  aget l i = Some x ↔ (0 ≤ i)%Z ∧ l !! Z.to_nat i = Some x.
Proof. unfold aget. case_decide; naive_solver. Qed.

Lemma aget_lt {A} (l : list A) i x :
  aget l i = Some x → (0 ≤ i < Z.of_nat (length l))%Z.
Proof. intros [? ?%lookup_lt_Some]%aget_Some. lia. Qed.

Lemma aget_is_Some {A} (l : list A) i :
  (0 ≤ i < Z.of_nat (length l))%Z → ∃ x, aget l i = Some x.
Proof.
  intros Hi. destruct (lookup_lt_is_Some_2 l (Z.to_nat i)) as [x Hx]; [lia|].
  exists x. apply aget_Some. split; [lia|done].
Qed.

Lemma aset_Some {A} (l : list A) i x :
  (0 ≤ i < Z.of_nat (length l))%Z → aset l i x = Some (<[Z.to_nat i := x]> l).
Proof. intros. unfold aset. by rewrite decide_True. Qed.

Lemma aset_inv {A} (l l' : list A) i x :
  aset l i x = Some l' →
  (0 ≤ i < Z.of_nat (length l))%Z ∧ l' = <[Z.to_nat i := x]> l.
Proof. unfold aset. case_decide; naive_solver. Qed.

Lemma aget_aset_eq {A} (l l' : list A) i x : aset l i x = Some l' → aget l' i = Some x.
Proof.
  intros [Hi ->]%aset_inv. apply aget_Some. split; [lia|].
  apply list_lookup_insert_eq. lia.
Qed.

Lemma aget_aset_ne {A} (l l' : list A) i j x :
  aset l i x = Some l' → i ≠ j → aget l' j = aget l j.
Proof.
  intros [Hi ->]%aset_inv Hne. unfold aget. case_decide; [|done].
  apply list_lookup_insert_ne. lia.
Qed.

(** ** Generic lemmas on lists *)

Lemma swap_Permutation {A} (l : list A) i j x y :
  i < j → l !! i = Some x → l !! j = Some y → <[j:=x]> (<[i:=y]> l) ≡ₚ l.
Proof.
  intros Hij Hx Hy. apply list_elem_of_split_length in Hx as (l1 & l2 & -> & ->).
  rewrite lookup_app_r in Hy by lia.
  destruct (j - length l1) as [|k] eqn:Hk; [lia|]. simpl in Hy.
  apply list_elem_of_split_length in Hy as (l3 & l4 & -> & ->).
  replace j with (length l1 + S (length l3)) by lia.
  replace (length l1) with (length l1 + 0) at 2 by lia.
  rewrite !insert_app_r. simpl. replace (length l3) with (length l3 + 0) at 1 by lia.
  rewrite insert_app_r. simpl. solve_Permutation.
Qed.

Lemma StronglySorted_lookup {A} (R : A → A → Prop) l :
  (∀ i j x y, i < j → l !! i = Some x → l !! j = Some y → R x y) → Sorted.StronglySorted R l.
Proof.
  induction l as [|z l IH]; intros Hl; constructor.
  - apply IH. intros i j x y Hij Hx Hy. by apply (Hl (S i) (S j) x y); [lia| |].
  - apply Forall_forall. intros y [j Hj]%list_elem_of_lookup. by apply (Hl 0 (S j) z y); [lia| |].
Qed.

Lemma lookup_insert_cases {A} (l : list A) i j (x y : A) :
  <[i:=x]> l !! j = Some y → (i = j ∧ y = x) ∨ (i ≠ j ∧ l !! j = Some y).
Proof. intros [(-> & -> & _)|[? ?]]%list_lookup_insert_Some; auto. Qed.

(** ** Generic lemmas on memory *)

Lemma slice_length off n m : length (slice off n m) = n.
Proof. unfold slice. by rewrite length_fmap, length_seq. Qed.

Lemma slice_lookup off n m i : i < n → slice off n m !! i = Some (m (off + Z.of_nat i)%Z).
Proof. intros Hi. unfold slice. rewrite list_lookup_fmap, lookup_seq_lt by done. done. Qed.

Lemma slice_ext a n m m' : (∀ k, (a ≤ k < a + Z.of_nat n)%Z → m k = m' k) → slice a n m = slice a n m'.
Proof.
  intros Heq. unfold slice. apply list_fmap_ext. intros i k Hk. apply lookup_seq in Hk as [-> ?]. apply Heq. lia.
Qed.

Lemma blit_in off l m a x : l !! Z.to_nat (a - off) = Some x → (off ≤ a)%Z → blit off l m a = x.
Proof.
  intros Hx Ha. pose proof (lookup_lt_Some _ _ _ Hx). unfold blit. rewrite decide_True by lia. by rewrite Hx.
Qed.

Lemma blit_out off l m a : (a < off ∨ off + Z.of_nat (length l) ≤ a)%Z → blit off l m a = m a.
Proof. intros Ha. unfold blit. by rewrite decide_False by lia. Qed.
