(* ===== verification/DList.v ===== *)
(** * Doubly linked lists

    The shape predicate shared by the structures the source links through
    [prev] and [next] pointers: the free list of the page allocator
    (kernel/src/alloc.c) and the profile of sperf (sperf/sperf.c) are lists
    between two sentinels.  [linked nxt prv l] reads "walking [nxt] visits [l]
    and [prv] undoes each step"; the two functions are partial because a
    pointer may be null. *)
From S2P Require Import Prelude.

Section linked.
Context {P : Type} `{EqDecision P}.
Implicit Types (p q b : P) (l : list P).

Fixpoint linked (nxt prv : P → option P) l : Prop :=
  match l with
  | p :: (q :: _) as l' => nxt p = Some q ∧ prv q = Some p ∧ linked nxt prv l'
  | _ => True
  end.

Lemma linked_cons2 nxt prv p q l :
  linked nxt prv (p :: q :: l) ↔
  nxt p = Some q ∧ prv q = Some p ∧ linked nxt prv (q :: l).
Proof. done. Qed.

(** A list is linked when both halves are, sharing the middle node. *)
Lemma linked_app nxt prv l1 p l2 :
  linked nxt prv (l1 ++ p :: l2) ↔
  linked nxt prv (l1 ++ [p]) ∧ linked nxt prv (p :: l2).
Proof.
  induction l1 as [|x l1 IH]; simpl app; [simpl; tauto|].
  destruct l1 as [|y l1]; simpl app in *; rewrite !linked_cons2; [|tauto].
  simpl linked at 3. tauto.
Qed.

Lemma linked_middle nxt prv l1 p q l2 :
  linked nxt prv (l1 ++ p :: q :: l2) → nxt p = Some q ∧ prv q = Some p.
Proof. rewrite linked_app, linked_cons2. tauto. Qed.

Lemma linked_ext nxt prv nxt' prv' l :
  (∀ x, x ∈ l → nxt' x = nxt x) → (∀ x, x ∈ l → prv' x = prv x) →
  linked nxt prv l → linked nxt' prv' l.
Proof.
  induction l as [|p [|q l] IH]; intros Hn Hp; [done..|].
  rewrite !linked_cons2. intros (? & ? & ?).
  rewrite Hn, Hp by set_solver. split_and!; [done..|].
  apply IH; [set_solver..|done].
Qed.

(** The left part is unaffected by a change of its last node's [nxt]. *)
Lemma linked_ext_last nxt prv nxt' prv' l p :
  p ∉ l →
  (∀ x, x ∈ l → nxt' x = nxt x) →
  (∀ x, x ∈ l ++ [p] → prv' x = prv x) →
  linked nxt prv (l ++ [p]) → linked nxt' prv' (l ++ [p]).
Proof.
  induction l as [|x l IH]; intros Hni Hn Hp; [done|].
  destruct l as [|y l]; simpl app in *; rewrite !linked_cons2; intros (? & ? & ?).
  - rewrite Hn, Hp by set_solver. done.
  - rewrite Hn, Hp by set_solver. split_and!; [done..|].
    apply IH; [set_solver..|done].
Qed.

(** The right part is unaffected by a change of its first node's [prv]. *)
Lemma linked_ext_first nxt prv nxt' prv' q l :
  q ∉ l →
  (∀ x, x ∈ q :: l → nxt' x = nxt x) →
  (∀ x, x ∈ l → prv' x = prv x) →
  linked nxt prv (q :: l) → linked nxt' prv' (q :: l).
Proof.
  destruct l as [|y l]; intros Hni Hn Hp; [done|].
  rewrite !linked_cons2. intros (? & ? & ?).
  rewrite Hn, Hp by set_solver. split_and!; [done..|].
  apply (linked_ext nxt prv); [set_solver..|done].
Qed.

(** Linking [b] between two neighbours [p] and [q]. *)
Lemma linked_insert nxt prv nxt' prv' l1 p b q l2 :
  NoDup (l1 ++ p :: q :: l2) → b ∉ l1 ++ p :: q :: l2 →
  linked nxt prv (l1 ++ p :: q :: l2) →
  (∀ x, x ≠ p → x ≠ b → nxt' x = nxt x) → nxt' p = Some b → nxt' b = Some q →
  (∀ x, x ≠ q → x ≠ b → prv' x = prv x) → prv' b = Some p → prv' q = Some b →
  linked nxt' prv' (l1 ++ p :: b :: q :: l2).
Proof.
  intros Hnd Hb Hl Hn Hnp Hnb Hp Hpb Hpq.
  apply NoDup_app in Hnd as (Hnd1 & Hd & Hnd2).
  apply NoDup_cons in Hnd2 as [Hp2 Hnd2]. apply NoDup_cons in Hnd2 as [Hq2 _].
  rewrite linked_app in Hl. destruct Hl as [Hl1 Hl2].
  rewrite linked_cons2 in Hl2. destruct Hl2 as (_ & _ & Hl2).
  rewrite linked_app, !linked_cons2. split_and!; try done.
  - eapply linked_ext_last; [..|exact Hl1]; [set_solver| |].
    + intros x Hx. apply Hn; intros ->; set_solver.
    + intros x Hx. apply Hp; intros ->; set_solver.
  - eapply linked_ext_first; [..|exact Hl2]; [done| |].
    + intros x Hx. apply Hn; intros ->; set_solver.
    + intros x Hx. apply Hp; intros ->; set_solver.
Qed.

(** Unlinking [b] from between its neighbours [p] and [q]. *)
Lemma linked_remove nxt prv nxt' prv' l1 p b q l2 :
  NoDup (l1 ++ p :: b :: q :: l2) →
  linked nxt prv (l1 ++ p :: b :: q :: l2) →
  (∀ x, x ≠ p → x ≠ b → nxt' x = nxt x) → nxt' p = Some q →
  (∀ x, x ≠ q → x ≠ b → prv' x = prv x) → prv' q = Some p →
  linked nxt' prv' (l1 ++ p :: q :: l2).
Proof.
  intros Hnd Hl Hn Hnp Hp Hpq.
  apply NoDup_app in Hnd as (Hnd1 & Hd & Hnd2).
  apply NoDup_cons in Hnd2 as [Hp2 Hnd2]. apply NoDup_cons in Hnd2 as [Hb2 Hnd2].
  apply NoDup_cons in Hnd2 as [Hq2 _].
  rewrite linked_app in Hl. destruct Hl as [Hl1 Hl2].
  rewrite !linked_cons2 in Hl2. destruct Hl2 as (_ & _ & _ & _ & Hl2).
  rewrite linked_app, !linked_cons2. split_and!; try done.
  - eapply linked_ext_last; [..|exact Hl1]; [set_solver| |].
    + intros x Hx. apply Hn; intros ->; set_solver.
    + intros x Hx. apply Hp; intros ->; set_solver.
  - eapply linked_ext_first; [..|exact Hl2]; [done| |].
    + intros x Hx. apply Hn; intros ->; set_solver.
    + intros x Hx. apply Hp; intros ->; set_solver.
Qed.
End linked.
