(* ===== verification/Bytes.v ===== *)
(** * Bytes on a disk and in a buffer

    Little-endian integers, fields at a byte offset and C strings in arrays of
    bytes, shared by the file systems, the frame buffer and the recovery tool. *)
From S2P Require Import Prelude.

(** Little-endian integers. *)
Fixpoint le (n : nat) (v : Z) : list Z :=
  match n with O => [] | S n' => (v mod 256)%Z :: le n' (v / 256) end.
Fixpoint unle (l : list Z) : Z :=
  match l with [] => 0%Z | b :: l' => (b + 256 * unle l')%Z end.

(** Fields at a byte offset. *)
Definition field (off n : nat) (l : list Z) : list Z := take n (drop off l).

(** The characters before the first NUL; [None] when there is none. *)
Fixpoint cstring (l : list Z) : option (list Z) :=
  match l with
  | [] => None
  | b :: l' => if decide (b = 0)%Z then Some [] else cons b <$> cstring l'
  end.

(** The characters before the first NUL, if there is one. *)
Fixpoint cut0 (l : list Z) : list Z :=
  match l with [] => [] | c :: l' => if decide (c = 0)%Z then [] else c :: cut0 l' end.

(** What [strncpy(dst, src, n)] stores, for [src] at the start of the [n] bytes [l]. *)
Definition strncpy_bytes (l : list Z) : list Z := let s := cut0 l in s ++ replicate (length l - length s) 0%Z.

(** ** Lemmas *)

Lemma le_length n v : length (le n v) = n.
Proof. revert v. induction n as [|n IH]; intros v; simpl; [done|by rewrite IH]. Qed.

Lemma unle_le n v : (0 ≤ v < 256 ^ Z.of_nat n)%Z → unle (le n v) = v.
Proof.
  revert v. induction n as [|n IH]; intros v Hv; simpl.
  { simpl in Hv. lia. }
  rewrite Nat2Z.inj_succ, Z.pow_succ_r in Hv by lia. rewrite IH.
  - pose proof (Z.div_mod v 256). lia.
  - split; [apply Z.div_pos; lia|]. apply Z.div_lt_upper_bound; lia.
Qed.

Lemma unle_bound l : Forall (λ b, 0 ≤ b < 256)%Z l → (0 ≤ unle l < 256 ^ Z.of_nat (length l))%Z.
Proof.
  induction 1 as [|b l Hb _ IH]; [cbn; lia|]. cbn [unle length]. rewrite Nat2Z.inj_succ, Z.pow_succ_r by lia. lia.
Qed.

Lemma field_here n l1 l2 : length l1 = n → field 0 n (l1 ++ l2) = l1.
Proof. intros <-. unfold field. rewrite drop_0. by rewrite take_app_length. Qed.

Lemma field_skip off n l1 l2 :
  length l1 ≤ off → field off n (l1 ++ l2) = field (off - length l1) n l2.
Proof. intros Hl. unfold field. by rewrite drop_app_ge. Qed.

Lemma field_all n l : length l = n → field 0 n l = l.
Proof. intros <-. unfold field. by rewrite drop_0, firstn_all. Qed.

Lemma cut0_prefix c : ∀ l, Forall (λ x, x ≠ 0%Z) c → take (length c) l = c →
  length l = length c ∨ l !! length c = Some 0%Z → cut0 l = c.
Proof.
  induction c as [|x c IH]; intros [|y l] Hc Ht He; simpl in *; try done.
  - destruct He as [?|[= ->]]; [lia|]. by rewrite decide_True.
  - apply Forall_cons in Hc as [Hx Hc]. injection Ht as -> Ht. rewrite decide_False by done. f_equal. apply IH; [done|done|].
    destruct He as [?|?]; [left; lia|by right].
Qed.

Lemma cstring_Some l x : cstring l = Some x ↔ (∃ r, l = x ++ 0%Z :: r) ∧ 0%Z ∉ x.
Proof.
  revert x. induction l as [|b l IH]; intros x; cbn.
  - split; [done|]. by intros [[r Hr] _]; destruct x.
  - case_decide as Hb; subst.
    + split.
      * intros [= <-]. split; [by exists l|apply not_elem_of_nil].
      * intros [[r Hr] Hx]. destruct x as [|c x]; simplify_eq/=; [done|set_solver].
    + rewrite fmap_Some. split.
      * intros (y & [[r ->] Hy]%IH & ->). split; [by exists r|]. set_solver.
      * intros [[r Hr] Hx]. destruct x as [|c x]; simplify_eq/=.
        exists x. split; [|done]. apply IH. split; [by exists r|set_solver].
Qed.

Lemma cut0_cstring l : 0%Z ∈ l → cstring l = Some (cut0 l).
Proof.
  induction l as [|b l IH]; [by intros ?%not_elem_of_nil|]. cbn. intros Hl. case_decide; [done|].
  rewrite IH; [done|]. apply elem_of_cons in Hl as [?|?]; [congruence|done].
Qed.

Lemma cut0_app_zero l r : cut0 (l ++ 0%Z :: r) = cut0 l.
Proof. induction l as [|b l IH]; cbn; [done|]. case_decide; [done|by f_equal]. Qed.
