(* ===== verification/Faults.v ===== *)
(** * Runs that may stop with some faults

    [wpe E m Q s]: from [s] the run returns to a state that satisfies [Q] or stops
    with a fault that [E] allows.  With no fault allowed it is [wp]. *)
From S2P Require Import Prelude.

Section wpe.
Context {S : Type} (E : fault → Prop).
Implicit Types (s : S).

Definition wpe {A} (m : M S A) (Q : A → S → Prop) s : Prop :=
  match m s with Ret (a, s') => Q a s' | Err f => E f end.

Lemma wp_wpe {A} (m : M S A) Q s : wp m Q s → wpe m Q s.
Proof. unfold wp, wpe. by destruct (m s) as [[a s']|]. Qed.
Lemma wpe_ret {A} (a : A) (Q : A → S → Prop) s : Q a s → wpe (mret a) Q s.
Proof. done. Qed.
Lemma wpe_get (Q : S → S → Prop) s : Q s s → wpe get Q s.
Proof. done. Qed.
Lemma wpe_modify f (Q : unit → S → Prop) s : Q tt (f s) → wpe (modify f) Q s.
Proof. done. Qed.
Lemma wpe_fail {A} f (Q : A → S → Prop) s : E f → wpe (fail f) Q s.
Proof. done. Qed.
Lemma wpe_bind {A B} (m : M S A) (k : A → M S B) Q s : wpe m (λ a s', wpe (k a) Q s') s → wpe (m ≫= k) Q s.
Proof. unfold wpe, mbind, M_bind. by destruct (m s) as [[a s']|]. Qed.
Lemma wpe_mono {A} (m : M S A) (P Q : A → S → Prop) s :
  wpe m P s → (∀ a s', P a s' → Q a s') → wpe m Q s.
Proof. unfold wpe. destruct (m s) as [[a s']|]; auto. Qed.
Lemma wpe_deref {A} f (o : option A) (Q : A → S → Prop) s :
  E f → (∀ a, o = Some a → Q a s) → wpe (deref f o) Q s.
Proof. destruct o; [intros _ H; by apply H|done]. Qed.
Lemma wpe_assert b (Q : unit → S → Prop) s : E Halt → (b = true → Q tt s) → wpe (assert b) Q s.
Proof. destruct b; [intros _ H; by apply H|done]. Qed.
Lemma wpe_when b (m : M S unit) (Q : unit → S → Prop) s : wpe m Q s → Q tt s → wpe (when b m) Q s.
Proof. by destruct b. Qed.
Lemma wpe_decide {A} P `{Decision P} (m1 m2 : M S A) Q s :
  (P → wpe m1 Q s) → (¬ P → wpe m2 Q s) → wpe (if decide P then m1 else m2) Q s.
Proof. intros H1 H2. case_decide; auto. Qed.

Lemma wpe_for_each {A} (I : S → Prop) (l : list A) body : (∀ x s, I s → wpe (body x) (λ _ s', I s') s) →
  ∀ s, I s → wpe (for_each l body) (λ _ s', I s') s.
Proof.
  intros Hb. induction l as [|x l IH]; intros s Hs; cbn [for_each]; [done|]. apply wpe_bind.
  eapply wpe_mono; [by apply Hb|]. intros [] s' Hs'. by apply IH.
Qed.

Lemma wpe_run {A} (m : M S A) Q s a s' : wpe m Q s → m s = Ret (a, s') → Q a s'.
Proof. unfold wpe. intros H Hr. by rewrite Hr in H. Qed.
End wpe.

Ltac wpe_step :=
  lazymatch goal with
  | |- wpe _ (_ ≫= _) _ _ => apply wpe_bind
  | |- wpe _ (mret _) _ _ => apply wpe_ret
  | |- wpe _ get _ _ => apply wpe_get
  | |- wpe _ (modify _) _ _ => apply wpe_modify
  | |- wpe _ (deref _ _) _ _ => apply wpe_deref; [done|intros ? ?]
  | |- wpe _ (fail _) _ _ => by apply wpe_fail
  | |- wpe _ (when _ _) _ _ => apply wpe_when
  | |- wpe _ (if decide _ then _ else _) _ _ => apply wpe_decide; intros ?
  end.
