(* ===== verification/Ring.v ===== *)
(** * Ring buffers

    The layout shared by the semaphores' queues, the input queue and the
    terminals' line buffers: [l] lies in [buf] from index [front] on, wrapping
    at the end of the array. *)
From S2P Require Import Prelude.

Definition at_ring {A} (buf : list A) (i : Z) : option A := aget buf (i `mod` Z.of_nat (length buf)).

Definition ring_holds {A} (buf : list A) (front : Z) (l : list A) : Prop :=
  ∀ k y, l !! k = Some y → at_ring buf (front + Z.of_nat k) = Some y.

Lemma mod_neq h i j n : (0 ≤ i < n)%Z → (0 ≤ j < n)%Z → i ≠ j → ((h + i) mod n ≠ (h + j) mod n)%Z.
Proof.
  intros Hi Hj Hne Heq. pose proof (Z.div_mod (h + i) n ltac:(lia)). pose proof (Z.div_mod (h + j) n ltac:(lia)).
  set (a := ((h + i) / n)%Z) in *. set (b := ((h + j) / n)%Z) in *.
  assert (i - j = n * a - n * b)%Z by lia. assert (a = b ∨ a ≤ b - 1 ∨ b ≤ a - 1)%Z as [->|[?|?]] by lia; nia.
Qed.

Section ring.
Context {A : Type}.
Implicit Types (buf l : list A) (front : Z) (x y : A).

Lemma ring_index buf i : length buf ≠ 0 → (0 ≤ i `mod` Z.of_nat (length buf) < Z.of_nat (length buf))%Z.
Proof. intros. apply Z.mod_pos_bound. lia. Qed.

Lemma at_ring_mod buf i : at_ring buf (i `mod` Z.of_nat (length buf)) = at_ring buf i.
Proof. unfold at_ring. destruct buf; [by rewrite !Zmod_0_r|]. by rewrite Z.mod_mod. Qed.

Lemma at_ring_shift buf i j : at_ring buf (i `mod` Z.of_nat (length buf) + j) = at_ring buf (i + j).
Proof. by rewrite <-at_ring_mod, Zplus_mod_idemp_l, at_ring_mod. Qed.

Lemma at_ring_pred buf i : at_ring buf (i - 1) = at_ring buf (i + (Z.of_nat (length buf) - 1)).
Proof.
  unfold at_ring. f_equal. destruct buf as [|x buf]; [by rewrite !Zmod_0_r|].
  replace (i + (Z.of_nat (length (x :: buf)) - 1))%Z with (i - 1 + 1 * Z.of_nat (length (x :: buf)))%Z by lia.
  by rewrite Z.mod_add.
Qed.

(** Writing one cell of the ring. *)
Lemma at_ring_set_eq buf buf' i x :
  aset buf (i `mod` Z.of_nat (length buf)) x = Some buf' → at_ring buf' i = Some x.
Proof.
  intros Hs. pose proof (aset_inv _ _ _ _ Hs) as [_ ->]. unfold at_ring. rewrite length_insert.
  by eapply aget_aset_eq.
Qed.

Lemma at_ring_set_ne buf buf' f i j x :
  aset buf ((f + i) `mod` Z.of_nat (length buf)) x = Some buf' →
  (0 ≤ i < Z.of_nat (length buf))%Z → (0 ≤ j < Z.of_nat (length buf))%Z → i ≠ j →
  at_ring buf' (f + j) = at_ring buf (f + j).
Proof.
  intros Hs Hi Hj Hne. pose proof (aset_inv _ _ _ _ Hs) as [_ Hb]. unfold at_ring.
  rewrite Hb at 2. rewrite length_insert. eapply aget_aset_ne; [done|]. by apply mod_neq.
Qed.

Lemma ring_holds_push buf buf' front l x :
  ring_holds buf front l → length l < length buf →
  aset buf ((front + Z.of_nat (length l)) `mod` Z.of_nat (length buf)) x = Some buf' →
  ring_holds buf' front (l ++ [x]).
Proof.
  intros Hl Hroom Hset k y Hk. destruct (decide (k = length l)) as [->|Hne].
  - rewrite lookup_app_r, Nat.sub_diag in Hk by lia. injection Hk as <-. by eapply at_ring_set_eq.
  - assert (k < length l) by (apply lookup_lt_Some in Hk; rewrite length_app in Hk; simpl in Hk; lia).
    rewrite lookup_app_l in Hk by done. rewrite <-(Hl k y Hk). eapply at_ring_set_ne; [done|lia..].
Qed.

Lemma ring_holds_pop buf front x l :
  ring_holds buf front (x :: l) →
  at_ring buf front = Some x ∧ ring_holds buf ((front + 1) `mod` Z.of_nat (length buf)) l.
Proof.
  intros Hl. split.
  - rewrite <-(Hl 0 x eq_refl). by rewrite Z.add_0_r.
  - intros k y Hk. rewrite at_ring_shift, <-(Hl (S k) y Hk). f_equal. lia.
Qed.

(** Writing outside the part in use. *)
Lemma ring_holds_set buf buf' front l i x :
  ring_holds buf front l → (Z.of_nat (length l) ≤ i < Z.of_nat (length buf))%Z →
  aset buf ((front + i) `mod` Z.of_nat (length buf)) x = Some buf' → ring_holds buf' front l.
Proof.
  intros Hl Hi Hset k y Hk. rewrite <-(Hl k y Hk). pose proof (lookup_lt_Some _ _ _ Hk).
  eapply at_ring_set_ne; [done|lia..].
Qed.

Lemma ring_holds_app buf front l l' : ring_holds buf front (l ++ l') → ring_holds buf front l.
Proof. intros Hl k y Hk. apply Hl. by apply lookup_app_l_Some. Qed.

(** Advancing an index by one is a step of the ring. *)
Lemma ring_succ front i n : (0 < n)%Z →
  (Z.rem ((front + i) `mod` n + 1) n = (front + (i + 1)) `mod` n)%Z.
Proof.
  intros Hn. pose proof (Z.mod_pos_bound (front + i) n Hn). rewrite Z.rem_mod_nonneg by lia.
  rewrite Zplus_mod_idemp_l. f_equal. lia.
Qed.
End ring.
