(* ===== verification/Common.v ===== *)
(** * Kernel-wide definitions (kernel/include/common.h)

    The constants every kernel component shares and the naive lock, the
    busy-waiting lock of the allocator, the task table and the trap handler. *)
From S2P Require Import Prelude.

Definition UNLOCKED : Z := 0.
Definition LOCKED : Z := 1.
Definition NONE_CPU : Z := (-1).
Definition KB (n : Z) : Z := (n * 1024)%Z.
Definition MAX_TASK : nat := 32.
Definition MAX_FILE : nat := 32.
Definition MAX_CPU : nat := 8.

(** [_atomic_xchg(lock, v)] on a lock word reached through [rd] and [wr]. *)
Definition atomic_xchg {S} (rd : S → Z) (wr : Z → S → S) (v : Z) : M S Z :=
  old ← gets rd; modify (wr v);; mret old.

(** [naivelock_lock]: [while (_atomic_xchg(lock, LOCKED)) SLEEP(16);].  Within
    one sequential run nobody else can release the lock, so finding it taken is
    a wait that never ends. *)
Definition naivelock_lock {S} (rd : S → Z) (wr : Z → S → S) : M S unit :=
  old ← atomic_xchg rd wr LOCKED;
  if decide (old = UNLOCKED) then mret tt else fail Spin.

(** [naivelock_unlock]: [_atomic_xchg(lock, UNLOCKED)]. *)
Definition naivelock_unlock {S} (rd : S → Z) (wr : Z → S → S) : M S unit :=
  atomic_xchg rd wr UNLOCKED;; mret tt.

Lemma wp_naivelock_lock {S} (rd : S → Z) (wr : Z → S → S) Q s :
  rd s = UNLOCKED → Q tt (wr LOCKED s) → wp (naivelock_lock rd wr) Q s.
Proof.
  intros Hrd HQ. unfold naivelock_lock, atomic_xchg. wp_steps. by rewrite decide_True.
Qed.

Lemma wp_naivelock_unlock {S} (rd : S → Z) (wr : Z → S → S) (Q : unit → S → Prop) s :
  Q tt (wr UNLOCKED s) → wp (naivelock_unlock rd wr) Q s.
Proof. done. Qed.

(** A lock found taken stops a sequential run for good. *)
Lemma naivelock_lock_spins {S} (rd : S → Z) (wr : Z → S → S) s :
  rd s ≠ UNLOCKED → naivelock_lock rd wr s = Err Spin.
Proof.
  intros Hrd. unfold naivelock_lock, atomic_xchg, mbind, M_bind, gets, modify, mret, M_ret.
  by rewrite decide_False.
Qed.

(** ** File modes (kernel/include/fs/vfs.h) *)

Definition UNUSED_MODE : Z := 0x0000.
Definition EX_ABLE : Z := 0x0001.
Definition WR_ABLE : Z := 0x0002.
Definition RD_ABLE : Z := 0x0004.
Definition TYPE_FILE : Z := 0x0010.
Definition TYPE_DIR : Z := 0x0020.
Definition TYPE_LINK : Z := 0x0040.
Definition MNT_ABLE : Z := 0x0100.
Definition UNMNT_ABLE : Z := 0x0200.
Definition ALLOCED : Z := 0x8000.

(** The members of a [vinode_t] that a file system's [readdir] fills in. *)
Record dirent := Dirent { d_name : string; d_ridx : Z; d_mode : Z }.

(** [strcpy(dst, src)] into a [char dst[size]]: undefined when the text and its
    terminator do not fit. *)
Definition strcpy_buf {S} (size : nat) (src : string) : M S string :=
  if decide (String.length src < size) then mret src else fail OutOfBounds.

Lemma wp_strcpy_buf {S} size src (Q : string → S → Prop) s :
  String.length src < size → Q src s → wp (strcpy_buf size src) Q s.
Proof. intros. unfold strcpy_buf. by rewrite decide_True. Qed.
