(* ===== verification/KStdio.v ===== *)
(** * Formatted output (abstract-machine/libs/klib/src/stdio.c)

    [number] and [vsprintf] of the kernel's C library.  The output buffer is
    modelled by the list of characters written so far; a call appends. *)
From S2P Require Import Prelude.
From Stdlib Require Import Ascii.

Definition ZEROPAD : Z := 1.
Definition SIGN : Z := 2.

Definition chars (s : string) : list ascii := String.list_ascii_of_string s.
Definition unchars (l : list ascii) : string := String.string_of_list_ascii l.

Lemma unchars_chars s : unchars (chars s) = s.
Proof. apply String.string_of_list_ascii_of_string. Qed.

Lemma chars_unchars l : chars (unchars l) = l.
Proof. apply String.list_ascii_of_string_of_list_ascii. Qed.

(** The table [digit[16]]. *)
Definition digit (d : Z) : ascii :=
  default "000"%char (chars "0123456789abcdef" !! Z.to_nat d).

(** [while (num != 0) { tmp[i++] = digit[num % base]; num = num / base; }]:
    [tmp[0..i)], least significant digit first.  [tmp] has 66 cells; a 32-bit
    number has at most 10 digits in the two bases allowed. *)
Fixpoint digits (fuel : nat) (num base : Z) : list ascii :=
  match fuel with
  | O => []
  | S n =>
      if decide (num = 0)%Z then []
      else digit (num `mod` base) :: digits n (num `div` base) base
  end.

Definition number_fuel : nat := 32.

(** [number(str, num, base, flags, length)]: what it writes at [str]. *)
Definition number (num base flags length : Z) : res (list ascii) :=
  if decide (base = 10 ∨ base = 16)%Z then
    let '(num, sign) :=
      if decide (Z.land flags SIGN ≠ 0 ∧ num < 0)%Z
      then (i32 (- num), ["-"%char]) else (num, []) in
    let tmp :=
      if decide (num = 0)%Z then ["0"%char]
      else digits number_fuel (u32 num) base in
    let pad :=
      replicate (Z.to_nat length - List.length tmp)
        (if decide (Z.land flags ZEROPAD ≠ 0)%Z then "0"%char else " "%char) in
    Ret (sign ++ pad ++ rev tmp)
  else Err Halt.

(** The variadic arguments, one constructor per way [va_arg] is used. *)
Inductive varg :=
  | VStr (s : list ascii)
  | VLong (z : Z).

(** [Repeat_Mode]: the run of ['0'] after the percent sign. *)
Fixpoint parse_mode (fmt : list ascii) (flags : Z) : list ascii * Z :=
  match fmt with
  | "0"%char :: fmt' => parse_mode fmt' (Z.lor flags ZEROPAD)
  | _ => (fmt, flags)
  end.

Definition is_digit (c : ascii) : bool :=
  (48 <=? nat_of_ascii c)%nat && (nat_of_ascii c <=? 57)%nat.

(** [Repeat_Length]: the field width. *)
Fixpoint parse_length (fmt : list ascii) (length : Z) : list ascii * Z :=
  match fmt with
  | c :: fmt' =>
      if is_digit c
      then parse_length fmt' (i32 (length * 10 + (Z.of_nat (nat_of_ascii c) - 48)))
      else (fmt, length)
  | [] => (fmt, length)
  end.

(** The [char] a [long] argument becomes in [char ch = va_arg(ap, long)]. *)
Definition char_of_long (z : Z) : ascii := ascii_of_N (Z.to_N (u8 z)).

(** One conversion, after the percent sign: the characters written, the rest of
    the format and the rest of the arguments. *)
Definition convert (fmt : list ascii) (ap : list varg)
    : res (list ascii * list ascii * list varg) :=
  let '(fmt1, flags) := parse_mode fmt 0%Z in
  let '(fmt2, length) := parse_length fmt1 0%Z in
  match fmt2 with
  | [] => Err OutOfBounds (* [fmt++] then steps over the terminator *)
  | "s"%char :: fmt3 =>
      match ap with
      | VStr s :: ap' =>
          let pad := replicate (Z.to_nat length - List.length s)
            (if decide (Z.land flags ZEROPAD ≠ 0)%Z then "0"%char else " "%char) in
          Ret (s ++ pad, fmt3, ap')
      | _ => Err OutOfBounds
      end
  | "c"%char :: fmt3 =>
      match ap with
      | VLong z :: ap' => Ret ([char_of_long z], fmt3, ap')
      | _ => Err OutOfBounds
      end
  | c :: fmt3 =>
      match ap with
      | VLong z :: ap' =>
          let base := if decide (c = "x"%char) then 16%Z else 10%Z in
          let flags := if decide (c = "d"%char) then Z.lor flags SIGN else flags in
          match number z base flags length with
          | Ret out => Ret (out, fmt3, ap')
          | Err f => Err f
          end
      | _ => Err OutOfBounds
      end
  end.

Fixpoint vsprintf_loop (fuel : nat) (fmt : list ascii) (ap : list varg) (out : list ascii)
    : res (list ascii) :=
  match fuel with
  | O => Err OutOfFuel
  | S n =>
      match fmt with
      | [] => Ret out
      | "%"%char :: fmt' =>
          match convert fmt' ap with
          | Ret (w, fmt'', ap') => vsprintf_loop n fmt'' ap' (out ++ w)
          | Err f => Err f
          end
      | c :: fmt' => vsprintf_loop n fmt' ap (out ++ [c])
      end
  end.

(** [vsprintf(out, fmt, ap)]: every round consumes a character of the format,
    so its length bounds the rounds. *)
Definition vsprintf (fmt : list ascii) (ap : list varg) : res (list ascii) :=
  vsprintf_loop (S (List.length fmt)) fmt ap [].

(** [sprintf(out, fmt, ...)]: the string left at [out] (its length is the value
    returned). *)
Definition sprintf (fmt : string) (ap : list varg) : res string :=
  match vsprintf (chars fmt) ap with
  | Ret out => Ret (unchars out)
  | Err f => Err f
  end.

(** The C string a buffer holds: its characters up to the first NUL. *)
Fixpoint until_nul (l : list ascii) : list ascii :=
  match l with
  | [] => []
  | c :: l' => if decide (c = "000"%char) then [] else c :: until_nul l'
  end.

(** [printf(fmt, ...)]: the characters sent to [_putc]; a text that does not fit
    [printf_buf] has already overrun it when the assertion looks. *)
Definition PRINTF_BUF_SIZE : nat := 512.
Definition printf (fmt : string) (ap : list varg) : res string :=
  match vsprintf (chars fmt) ap with
  | Ret out =>
      if decide (List.length out < PRINTF_BUF_SIZE)
      then Ret (unchars (until_nul out)) else Err OutOfBounds
  | Err f => Err f
  end.

(** A newline, for the string literals of the source. *)
Definition nl : string := String "010"%char EmptyString.

(** ** Reading a number back *)

Definition digit_value (c : ascii) : Z :=
  let n := Z.of_nat (nat_of_ascii c) in
  if decide (97 ≤ n)%Z then (n - 87)%Z else (n - 48)%Z.

(** The value of a digit string, least significant digit first. *)
Fixpoint digits_value (base : Z) (l : list ascii) : Z :=
  match l with
  | [] => 0
  | c :: l' => (digit_value c + base * digits_value base l')%Z
  end.

Lemma digit_value_digit d : (0 ≤ d < 16)%Z → digit_value (digit d) = d.
Proof.
  intros Hd. assert (d ∈ seqZ 0 16) as Hin by (apply elem_of_seqZ; lia).
  clear Hd. revert d Hin. apply Forall_forall.
  vm_compute seqZ. repeat (constructor; [done|]). constructor.
Qed.

Lemma digits_value_digits base n num :
  (2 ≤ base ≤ 16)%Z → (0 ≤ num < base ^ Z.of_nat n)%Z →
  digits_value base (digits n num base) = num.
Proof.
  intros Hb. revert num. induction n as [|n IH]; intros num Hn; simpl.
  - change (base ^ 0)%Z with 1%Z in Hn. lia.
  - case_decide as Hz; simpl; [by subst|].
    rewrite digit_value_digit by (pose proof (Z.mod_pos_bound num base); lia).
    rewrite IH.
    + pose proof (Z.div_mod num base). lia.
    + split; [apply Z.div_pos; lia|]. apply Z.div_lt_upper_bound; [lia|].
      rewrite Nat2Z.inj_succ, Z.pow_succ_r in Hn by lia. lia.
Qed.

(** The characters [digits] writes, and the last of them, the leading digit. *)
Definition digit_of (base : Z) (c : ascii) : Prop := c ∈ take (Z.to_nat base) (chars "0123456789abcdef").

Lemma digit_of_digit base d : (2 ≤ base ≤ 16)%Z → (0 ≤ d < base)%Z → digit_of base (digit d).
Proof.
  intros Hb Hd. unfold digit_of, digit. apply list_elem_of_lookup. exists (Z.to_nat d).
  rewrite lookup_take_lt by lia. destruct (lookup_lt_is_Some_2 (chars "0123456789abcdef") (Z.to_nat d)) as [c ->]; [cbn; lia|done].
Qed.

Lemma digits_chars n num base : (2 ≤ base ≤ 16)%Z → Forall (digit_of base) (digits n num base).
Proof.
  intros Hb. revert num. induction n as [|n IH]; intros num; simpl; [constructor|].
  case_decide; constructor; [|done].
  apply digit_of_digit; [done|]. pose proof (Z.mod_pos_bound num base). lia.
Qed.

Lemma digits_leading base n num : (2 ≤ base ≤ 16)%Z → (0 < num < base ^ Z.of_nat n)%Z →
  ∃ l c, digits n num base = l ++ [c] ∧ c ≠ "0"%char.
Proof.
  intros Hb. revert num. induction n as [|n IH]; intros num Hn.
  { change (base ^ Z.of_nat 0)%Z with 1%Z in Hn. lia. }
  cbn [digits]. rewrite decide_False by lia. rewrite Nat2Z.inj_succ, Z.pow_succ_r in Hn by lia.
  destruct (decide (num `div` base = 0)%Z) as [Hz|Hz].
  - exists [], (digit (num `mod` base)). pose proof (Z.div_mod num base). rewrite Hz in *.
    split; [by destruct n; simpl; rewrite ?decide_True by done|].
    intros Heq. apply (f_equal digit_value) in Heq. rewrite digit_value_digit in Heq by (pose proof (Z.mod_pos_bound num base); lia).
    change (digit_value "0") with 0%Z in Heq. lia.
  - destruct (IH (num `div` base)%Z) as (l & c & -> & Hc).
    { pose proof (Z.div_pos num base). split; [lia|]. apply Z.div_lt_upper_bound; lia. }
    by exists (digit (num `mod` base) :: l), c.
Qed.

(** ** The numeral of a number *)

(** [ds] is the way to write [n] in a base: digits of the base, the leading one not
    0 unless it is the only one, worth [n]. *)
Record numeral (base : Z) (ds : list ascii) (n : Z) : Prop := {
  num_digits : Forall (digit_of base) ds;
  num_some : ds ≠ [];
  num_leading : head ds = Some "0"%char → ds = ["0"%char];
  num_value : foldl (λ v c, v * base + digit_value c)%Z 0%Z ds = n
}.

Lemma foldl_digits base l v : foldl (λ v c, v * base + digit_value c)%Z v (rev l) = (digits_value base l + v * base ^ Z.of_nat (length l))%Z.
Proof.
  revert v. induction l as [|c l IH]; intros v; [simpl; lia|]. cbn [rev digits_value length].
  rewrite foldl_app, IH. cbn [foldl]. rewrite Nat2Z.inj_succ, Z.pow_succ_r by lia. lia.
Qed.

(** What [number] leaves in [tmp]. *)
Definition number_digits (num base : Z) : list ascii :=
  if decide (num = 0)%Z then ["0"%char] else digits number_fuel (u32 num) base.

Lemma number_digits_spec num base :
  (base = 10 ∨ base = 16)%Z → (- 2 ^ 31 ≤ num < 2 ^ 32)%Z →
  numeral base (rev (number_digits num base)) (u32 num).
Proof.
  intros Hb Hn. unfold number_digits. case_decide as Hz.
  - subst. split; [by destruct Hb as [-> | ->]; repeat constructor|done..].
  - assert (Hpos : (0 < u32 num < base ^ Z.of_nat number_fuel)%Z).
    { assert (2 ^ 32 ≤ base ^ Z.of_nat number_fuel)%Z by (destruct Hb; subst; by vm_compute).
      pose proof (u32_range num). assert (u32 num ≠ 0)%Z; [|lia]. unfold u32. intros Hu.
      apply Z.mod_divide in Hu as [k Hk]; lia. }
    destruct (digits_leading base number_fuel (u32 num)) as (l & c & Hl & Hc); [lia|done|].
    split.
    + apply Forall_rev, digits_chars. lia.
    + rewrite Hl, rev_app_distr. done.
    + rewrite Hl, rev_app_distr. cbn. congruence.
    + rewrite foldl_digits, digits_value_digits by lia. lia.
Qed.

(** [number] as sign, padding and digits. *)
Lemma number_eq num base flags length :
  (base = 10 ∨ base = 16)%Z →
  number num base flags length =
  let neg := bool_decide (Z.land flags SIGN ≠ 0 ∧ num < 0)%Z in
  let tmp := number_digits (if neg then i32 (- num) else num) base in
  Ret ((if neg then ["-"%char] else []) ++
       replicate (Z.to_nat length - List.length tmp)
         (if decide (Z.land flags ZEROPAD ≠ 0)%Z then "0"%char else " "%char) ++ rev tmp).
Proof.
  intros Hb. unfold number. rewrite decide_True by done. unfold number_digits.
  destruct (decide (Z.land flags SIGN ≠ 0 ∧ num < 0)%Z).
  - rewrite bool_decide_true by done. done.
  - rewrite bool_decide_false by done. done.
Qed.

Lemma land_flag flags i : (0 ≤ i)%Z → Z.land flags (2 ^ i) ≠ 0%Z ↔ Z.testbit flags i = true.
Proof.
  intros Hi. split.
  - intros Hz. destruct (Z.testbit flags i) eqn:Hb; [done|]. exfalso. apply Hz, Z.bits_inj'. intros j Hj.
    rewrite Z.land_spec, Z.bits_0, Z.pow2_bits_eqb by done. destruct (Z.eqb_spec i j) as [<-|]; [by rewrite Hb|apply andb_false_r].
  - intros Hb Hz. apply (f_equal (λ z, Z.testbit z i)) in Hz.
    rewrite Z.land_spec, Z.bits_0, Z.pow2_bits_true, Hb in Hz by done. done.
Qed.

(** C17. [number] writes an [int] as its flags ask: with SIGN the sign and the magnitude
    (of INT_MIN too, whose negation overflows), without it the number modulo 2^32;
    the numeral is in the base asked, decimal or hexadecimal, without superfluous
    zeros, and zeros or spaces as ZEROPAD says stand between the sign and the
    numeral as long as the numeral is shorter than [length].  Any other base halts
    the machine. *)
Theorem number_prints num base flags length : (- 2 ^ 31 ≤ num < 2 ^ 31)%Z →
  let negative := Z.testbit flags 1 && bool_decide (num < 0)%Z in
  let sign := if negative then ["-"%char] else [] in
  let pad := if Z.testbit flags 0 then "0"%char else " "%char in
  ((base = 10 ∨ base = 16)%Z → ∃ ds, numeral base ds (if Z.testbit flags 1 then Z.abs num else num `mod` 2 ^ 32)%Z ∧
    number num base flags length = Ret (sign ++ replicate (Z.to_nat length - List.length ds) pad ++ ds)) ∧
  (¬ (base = 10 ∨ base = 16)%Z → number num base flags length = Err Halt).
Proof.
  intros Hn negative sign pad. split; [|intros Hb; unfold number; by rewrite decide_False].
  intros Hb. rewrite number_eq by done. cbv zeta.
  assert (Hneg : bool_decide (Z.land flags SIGN ≠ 0 ∧ num < 0)%Z = negative).
  { unfold negative. rewrite bool_decide_and. f_equal. apply eq_bool_prop_intro. rewrite bool_decide_spec.
    change SIGN with (2 ^ 1)%Z. rewrite land_flag by lia. by destruct (Z.testbit flags 1). }
  rewrite Hneg. fold sign.
  assert (Hpad : (if decide (Z.land flags ZEROPAD ≠ 0)%Z then "0"%char else " "%char) = pad).
  { unfold pad. change ZEROPAD with (2 ^ 0)%Z. destruct (Z.testbit flags 0) eqn:Hz, (decide (Z.land flags (2 ^ 0) ≠ 0)%Z) as [Hd|Hd]; try done; exfalso.
    - by apply Hd, land_flag.
    - apply land_flag in Hd; [|lia]. congruence. }
  rewrite Hpad. eexists. split; [|rewrite length_rev; reflexivity].
  replace (if Z.testbit flags 1 then _ else _) with (u32 (if negative then i32 (- num) else num)).
  { apply number_digits_spec; [done|]. destruct negative; [|lia].
    unfold i32. pose proof (Z.mod_pos_bound (- num + 2 ^ 31) (2 ^ 32)). lia. }
  clear Hneg Hpad. unfold negative. destruct (Z.testbit flags 1); cbn [andb]; [|done]. case_bool_decide; [|by rewrite u32_small by lia; lia].
  destruct (decide (num = - 2 ^ 31)%Z) as [->|]; [done|]. rewrite i32_small, u32_small by lia. lia.
Qed.

(** ** [vsprintf] terminates *)

Lemma parse_mode_length fmt flags : List.length (parse_mode fmt flags).1 ≤ List.length fmt.
Proof.
  revert flags. induction fmt as [|c fmt IH]; intros flags; [done|].
  destruct c as [[] [] [] [] [] [] [] []]; try (simpl; lia).
  specialize (IH (Z.lor flags ZEROPAD)). simpl in *. lia.
Qed.

Lemma parse_length_length fmt n : List.length (parse_length fmt n).1 ≤ List.length fmt.
Proof.
  revert n. induction fmt as [|c fmt IH]; intros n; simpl; [done|].
  destruct (is_digit c); simpl; [|done]. etrans; [apply IH|lia].
Qed.

Lemma convert_length fmt ap out fmt' ap' :
  convert fmt ap = Ret (out, fmt', ap') → List.length fmt' < List.length fmt.
Proof.
  unfold convert. pose proof (parse_mode_length fmt 0).
  destruct (parse_mode fmt 0) as [fmt1 flags]. pose proof (parse_length_length fmt1 0).
  destruct (parse_length fmt1 0) as [fmt2 length]. simpl in *.
  destruct fmt2 as [|c fmt3]; [done|]. intros Hc. assert (fmt' = fmt3) as ->; [|simpl in *; lia].
  revert Hc. repeat case_match; intros; simplify_eq; done.
Qed.

Lemma convert_fuel fmt ap : convert fmt ap ≠ Err OutOfFuel.
Proof.
  unfold convert, number. repeat case_match; try done; intros; simplify_eq.
Qed.

(** [vsprintf] always returns: whatever the format string and arguments,
    each round consumes part of the format, so the loop over it ends (with the
    text, or with the fault of a conversion the arguments do not fit). *)
Theorem vsprintf_terminates fmt ap : vsprintf fmt ap ≠ Err OutOfFuel.
Proof.
  unfold vsprintf.
  cut (∀ n fmt ap out, List.length fmt < n → vsprintf_loop n fmt ap out ≠ Err OutOfFuel);
    [intros H; apply H; lia|].
  clear. intros n. induction n as [|n IH]; intros fmt ap out Hlt; [lia|].
  destruct fmt as [|c fmt]; [done|]. simpl in Hlt. simpl.
  destruct (decide (c = "%"%char)) as [->|Hne].
  - pose proof (convert_fuel fmt ap).
    destruct (convert fmt ap) as [[[w fmt'] ap']|f] eqn:Hc; [|congruence].
    apply IH. apply convert_length in Hc. lia.
  - destruct c as [[] [] [] [] [] [] [] []]; try (apply IH; lia). done.
Qed.

(** A negative hexadecimal number and a signed one in a field of five. *)
Lemma number_prints_witness :
  (∃ ds, numeral 16 ds 0xfffffffb ∧ number (-5) 16 0 10 = Ret (replicate (10 - length ds) " "%char ++ ds)) ∧
  (∃ ds, numeral 10 ds 5 ∧ number (-5) 10 SIGN 5 = Ret ("-"%char :: replicate (5 - length ds) " "%char ++ ds)) ∧
  number 1 8 0 0 = Err Halt.
Proof.
  split; [|split].
  - apply (number_prints (-5) 16 0 10); [lia|by right].
  - apply (number_prints (-5) 10 SIGN 5); [lia|by left].
  - apply (number_prints 1 8 0 0); lia.
Defined.

Example number_space_pads : number (-5) 10 SIGN 5 = Ret (chars "-    5").
Proof. reflexivity. Qed.
