(* ===== verification/Procfs.v ===== *)
(** * The process file system (kernel/src/fs/procfs.c)

    The table of processes the scheduler and the allocator keep up to date, and
    the read-only files made from it. *)
From S2P Require Import Prelude Common KStdio.

Definition MAX_PROC : nat := 64.
Definition PROC_NAME_LENGTH : nat := 16.

Record proc := Proc {
  inode : Z;         (* uint32_t *)
  cpu_number : Z;    (* uint32_t *)
  sche_times : Z;    (* uint32_t *)
  memo_size : Z;     (* uint32_t *)
  name : string      (* char[16] *)
}.

Record procfs_st := ProcfsSt {
  procs : list proc;     (* proc_t procs[MAX_PROC] *)
  running : list Z;      (* int running[MAX_CPU] *)
  total_proc : Z;
  mem_total : Z;         (* uint64_t *)
  mem_used : Z           (* uint64_t *)
}.

Definition proc_zero : proc := Proc 0 0 0 0 "".

(** The globals' initial values. *)
Definition procfs_boot : procfs_st :=
  ProcfsSt (replicate MAX_PROC proc_zero) (replicate MAX_CPU 0%Z) 4 0 0.

Definition set_procs (f : list proc → list proc) (s : procfs_st) : procfs_st :=
  ProcfsSt (f (procs s)) (running s) (total_proc s) (mem_total s) (mem_used s).
Definition set_running (r : list Z) (s : procfs_st) : procfs_st :=
  ProcfsSt (procs s) r (total_proc s) (mem_total s) (mem_used s).
Definition set_total_proc (n : Z) (s : procfs_st) : procfs_st :=
  ProcfsSt (procs s) (running s) n (mem_total s) (mem_used s).
Definition set_mem_total (n : Z) (s : procfs_st) : procfs_st :=
  ProcfsSt (procs s) (running s) (total_proc s) n (mem_used s).
Definition set_mem_used (n : Z) (s : procfs_st) : procfs_st :=
  ProcfsSt (procs s) (running s) (total_proc s) (mem_total s) n.

(** [procs[idx] = f(procs[idx])]. *)
Definition upd_proc (idx : Z) (f : proc → proc) : M procfs_st unit :=
  s ← get;
  p ← deref OutOfBounds (aget (procs s) idx);
  ps ← deref OutOfBounds (aset (procs s) idx (f p));
  modify (set_procs (λ _, ps)).

(** The macro [procfs_add(idx, _name)]; the value is [idx]. *)
Definition procfs_add (_name : string) : M procfs_st Z :=
  idx ← gets total_proc;
  modify (set_total_proc (idx + 1));;
  nm ← strcpy_buf PROC_NAME_LENGTH _name;
  upd_proc idx (λ p, Proc (u32 (idx - 4)) (u32 (-1)) 0 0 nm);;
  mret idx.

(** [procfs_addproc]: the index stands for the pointer [&procs[idx]]. *)
Definition procfs_addproc (name : string) : M procfs_st (option Z) :=
  n ← gets total_proc;
  if decide (n = Z.of_nat MAX_PROC - 1)%Z then mret None
  else idx ← procfs_add name; mret (Some idx).

(** [procfs_schdule(oldproc, newproc)] run on processor [cpu]. *)
Definition procfs_schdule (cpu : Z) (oldproc newproc : option Z) : M procfs_st unit :=
  match oldproc with
  | Some o => upd_proc o (λ p, Proc (inode p) (u32 (-1)) (sche_times p) (memo_size p) (name p))
  | None => mret tt
  end;;
  match newproc with
  | Some n =>
      upd_proc n (λ p, Proc (inode p) (u32 cpu) (u32 (sche_times p + 1)) (memo_size p) (name p));;
      s ← get;
      p ← deref OutOfBounds (aget (procs s) n);
      r ← deref OutOfBounds (aset (running s) cpu (i32 (inode p)));
      modify (set_running r)
  | None => mret tt
  end.

(** [procfs_mem_trace(size, mode)]. *)
Definition procfs_mem_trace (size mode : Z) : M procfs_st unit :=
  if decide (mode = 0)%Z then modify (λ s, set_mem_used (u64 (mem_used s + size)) s)
  else if decide (mode = 1)%Z then modify (λ s, set_mem_used (u64 (mem_used s - size)) s)
  else fail Halt.

Definition procfs_init : M procfs_st Z :=
  _total_proc ← gets total_proc;
  modify (set_total_proc 0);;
  procfs_add ".";; procfs_add "..";; procfs_add "cpuinfo";; procfs_add "meminfo";;
  modify (set_total_proc _total_proc);;
  mret 1%Z.

(** A [%d] argument of 32 bits, and one of 64 bits (two words of the stack, of
    which the conversion reads the low one and leaves the other). *)
Definition arg32 (z : Z) : list varg := [VLong (i32 z)].
Definition arg64 (z : Z) : list varg := [VLong (i32 z); VLong (i32 (z `div` 2 ^ 32))].

Definition sprintf_m {S} (fmt : string) (ap : list varg) : M S string := λ s,
  match sprintf fmt ap with Ret out => Ret (out, s) | Err f => Err f end.

(** [procfs_readdir(fs, ridx, kth, buf)]: [None] for the value 0. *)
Definition procfs_readdir (kth : Z) : M procfs_st (option dirent) :=
  s ← get;
  match list_find (λ k, k + 1 = kth)%Z (seqZ 0 (total_proc s)) with
  | None => mret None
  | Some (_, k) =>
      p ← deref OutOfBounds (aget (procs s) k);
      if decide (k = 0 ∨ k = 1)%Z then mret (Some (Dirent (name p) k TYPE_DIR))
      else if decide (k = 2 ∨ k = 3)%Z
      then mret (Some (Dirent (name p) k (Z.lor TYPE_FILE RD_ABLE)))
      else
        nm ← sprintf_m "%d" (arg32 (inode p));
        mret (Some (Dirent nm k (Z.lor TYPE_FILE RD_ABLE)))
  end.

(** The lines of /proc/cpuinfo for the processors [i .. ncpu). *)
Fixpoint cpuinfo_lines (cpus : list Z) : M procfs_st string :=
  match cpus with
  | [] => mret ""
  | i :: cpus' =>
      s ← get;
      k ← deref OutOfBounds (aget (running s) i);
      p ← deref OutOfBounds (aget (procs s) (k + 4));
      l1 ← sprintf_m "  [cpu %d]: " (arg32 (cpu_number p));
      l2 ← sprintf_m ("%s" +:+ nl) [VStr (chars (name p))];
      rest ← cpuinfo_lines cpus';
      mret (l1 +:+ l2 +:+ rest)
  end.

(** [procfs_read(ridx, offset, buf)] on a machine of [ncpu] processors: the text
    left in [buf]; its length is the value returned. *)
Definition procfs_read (ncpu ridx offset : Z) : M procfs_st string :=
  if decide (offset ≠ 0)%Z then mret "" else
  if decide (ridx = 2)%Z then
    hd ← sprintf_m (nl +:+ "  cpuinfo  " +:+ nl) [];
    rest ← cpuinfo_lines (seqZ 0 ncpu);
    mret (hd +:+ rest)
  else if decide (ridx = 3)%Z then
    s ← get;
    let mem_free := u64 (mem_total s - mem_used s) in
    hd ← sprintf_m (nl +:+ "  meminfo  " +:+ nl) [];
    l1 ← sprintf_m ("  [total]: %d KB" +:+ nl) (arg64 (mem_total s `div` 1024));
    l2 ← sprintf_m ("  [used]: %d KB" +:+ nl) (arg64 (mem_used s `div` 1024));
    l3 ← sprintf_m ("  [free]: %d KB" +:+ nl) (arg64 (mem_free `div` 1024));
    mret (hd +:+ l1 +:+ l2 +:+ l3)
  else
    s ← get;
    p ← deref OutOfBounds (aget (procs s) ridx);
    hd ← sprintf_m (nl +:+ "  taskinfo  " +:+ nl) [];
    l1 ← sprintf_m ("  pid: %d" +:+ nl) (arg32 (inode p));
    l2 ← sprintf_m ("  name: %s" +:+ nl) [VStr (chars (name p))];
    l3 ← sprintf_m ("  cpu: %d" +:+ nl) (arg32 (cpu_number p));
    l4 ← sprintf_m ("  mem: %d" +:+ nl) (arg32 (memo_size p));
    l5 ← sprintf_m ("  schduel_times: %d" +:+ nl) (arg32 (sche_times p));
    mret (hd +:+ l1 +:+ l2 +:+ l3 +:+ l4 +:+ l5).

(** ** The table's invariant and the operations on it *)

Record procfs_ok (s : procfs_st) : Prop := {
  ok_procs : length (procs s) = MAX_PROC;
  ok_running : length (running s) = MAX_CPU;
  ok_total : (4 ≤ total_proc s < Z.of_nat MAX_PROC)%Z
}.
Arguments ok_procs {_} _.
Arguments ok_running {_} _.
Arguments ok_total {_} _.

Definition proc_at (s : procfs_st) (i : Z) : option proc := aget (procs s) i.

Lemma wp_upd_proc idx f (Q : unit → procfs_st → Prop) s p :
  aget (procs s) idx = Some p →
  Q tt (set_procs (λ _, <[Z.to_nat idx := f p]> (procs s)) s) → wp (upd_proc idx f) Q s.
Proof.
  intros Hp HQ. pose proof (aget_lt _ _ _ Hp). unfold upd_proc.
  wp_steps. eapply wp_deref; [by apply aset_Some|]. by wp_steps.
Qed.

Lemma aget_insert_eq {A} (l : list A) i x :
  (0 ≤ i < Z.of_nat (length l))%Z → aget (<[Z.to_nat i := x]> l) i = Some x.
Proof. intros Hi. apply aget_Some. split; [lia|]. apply list_lookup_insert_eq. lia. Qed.

Lemma aget_insert_ne {A} (l : list A) i j x :
  (0 ≤ i)%Z → i ≠ j → aget (<[Z.to_nat i := x]> l) j = aget l j.
Proof.
  intros Hi Hne. unfold aget. case_decide; [|done]. apply list_lookup_insert_ne. lia.
Qed.

(** A process added to a table with room appears in the next entry: not
    running, never scheduled, with pid its rank after the four fixed entries; no
    other entry changes. *)
Theorem procfs_addproc_spec nm s :
  procfs_ok s → (total_proc s < Z.of_nat MAX_PROC - 1)%Z →
  String.length nm < PROC_NAME_LENGTH →
  ∃ s', procfs_addproc nm s = Ret (Some (total_proc s), s') ∧ procfs_ok s' ∧
    total_proc s' = (total_proc s + 1)%Z ∧
    proc_at s' (total_proc s) = Some (Proc (total_proc s - 4) (u32 (-1)) 0 0 nm) ∧
    (∀ i, i ≠ total_proc s → proc_at s' i = proc_at s i) ∧
    running s' = running s ∧ mem_total s' = mem_total s ∧ mem_used s' = mem_used s.
Proof.
  intros Hok Hroom Hnm. pose proof (ok_total Hok) as Ht. pose proof (ok_procs Hok) as Hp.
  destruct (aget_is_Some (procs s) (total_proc s)) as [p Hget]; [lia|].
  enough (wp (procfs_addproc nm) (λ r s', r = Some (total_proc s) ∧ procfs_ok s' ∧
    total_proc s' = (total_proc s + 1)%Z ∧
    proc_at s' (total_proc s) = Some (Proc (total_proc s - 4) (u32 (-1)) 0 0 nm) ∧
    (∀ i, i ≠ total_proc s → proc_at s' i = proc_at s i) ∧
    running s' = running s ∧ mem_total s' = mem_total s ∧ mem_used s' = mem_used s) s) as Hwp.
  { apply wp_run in Hwp as (r & s' & Hrun & -> & Hrest). by exists s'. }
  unfold procfs_addproc. wp_steps. rewrite decide_False by lia. wp_steps.
  unfold procfs_add. wp_steps. apply wp_strcpy_buf; [done|]. wp_steps.
  eapply wp_upd_proc; [exact Hget|]. wp_steps. unfold proc_at. simpl.
  rewrite u32_small by (unfold MAX_PROC in *; lia).
  split_and!; try done.
  - split; simpl; [by rewrite length_insert|apply (ok_running Hok)|lia].
  - apply aget_insert_eq. lia.
  - intros i Hi. apply aget_insert_ne; [lia|done].
Qed.

Lemma procfs_boot_ok : procfs_ok procfs_boot.
Proof. by split. Qed.

Lemma procfs_addproc_spec_witness :
  ∃ s', procfs_addproc "tty1" procfs_boot = Ret (Some 4%Z, s') ∧ procfs_ok s'.
Proof.
  destruct (procfs_addproc_spec "tty1" procfs_boot procfs_boot_ok) as (s' & Hrun & Hok & _).
  - done.
  - apply (bool_decide_eq_true_1 _). reflexivity.
  - exists s'. split; [exact Hrun|exact Hok].
Defined.
