(* ===== verification/Alloc.v ===== *)
(** * The physical memory allocator (kernel/src/alloc.c)

    A pool of block descriptors; the unallocated ones are threaded, in address
    order, on the doubly linked list [free] between two sentinel nodes. *)
From S2P Require Import Prelude DList Common Procfs.

Definition POOL_SIZE : nat := 4096.

(** ** State *)

Inductive block_state := UNUSED | UNALLOCATED | ALLOCATED.

#[export] Instance block_state_eq_dec : EqDecision block_state.
Proof. solve_decision. Defined.

(** A [mem_block_t *]: null, [&special[i]] or [&pool[i]]. *)
Inductive ptr :=
  | Null
  | Special (i : nat)
  | Pool (i : nat).

#[export] Instance ptr_eq_dec : EqDecision ptr.
Proof. solve_decision. Defined.

Record mem_block := MemBlock {
  id : Z;
  state : block_state;
  size : Z;      (* size_t *)
  begin : Z;     (* uintptr_t *)
  end_ : Z;      (* uintptr_t *)
  prev : ptr;
  next : ptr
}.

Record alloc_st := AllocSt {
  memoplk : Z;
  pool : list mem_block;
  special : list mem_block;
  head : ptr;           (* free.head *)
  tail : ptr;           (* free.tail *)
  list_size : Z;        (* free.list_size, a size_t *)
  pm_start : Z;
  pm_end : Z;
  procfs : procfs_st
}.

Definition block_zero : mem_block := MemBlock 0 UNUSED 0 0 0 Null Null.

Definition alloc_boot (p : procfs_st) : alloc_st :=
  AllocSt UNLOCKED (replicate POOL_SIZE block_zero) (replicate 2 block_zero)
    Null Null 0 0 0 p.

Definition set_memoplk (v : Z) (s : alloc_st) : alloc_st :=
  AllocSt v (pool s) (special s) (head s) (tail s) (list_size s) (pm_start s) (pm_end s) (procfs s).
Definition set_pool (l : list mem_block) (s : alloc_st) : alloc_st :=
  AllocSt (memoplk s) l (special s) (head s) (tail s) (list_size s) (pm_start s) (pm_end s) (procfs s).
Definition set_special (l : list mem_block) (s : alloc_st) : alloc_st :=
  AllocSt (memoplk s) (pool s) l (head s) (tail s) (list_size s) (pm_start s) (pm_end s) (procfs s).
Definition set_ends (h t : ptr) (s : alloc_st) : alloc_st :=
  AllocSt (memoplk s) (pool s) (special s) h t (list_size s) (pm_start s) (pm_end s) (procfs s).
Definition set_list_size (n : Z) (s : alloc_st) : alloc_st :=
  AllocSt (memoplk s) (pool s) (special s) (head s) (tail s) n (pm_start s) (pm_end s) (procfs s).
Definition set_pm (lo hi : Z) (s : alloc_st) : alloc_st :=
  AllocSt (memoplk s) (pool s) (special s) (head s) (tail s) (list_size s) lo hi (procfs s).
Definition set_procfs (p : procfs_st) (s : alloc_st) : alloc_st :=
  AllocSt (memoplk s) (pool s) (special s) (head s) (tail s) (list_size s) (pm_start s) (pm_end s) p.

Definition set_prev (p : ptr) (b : mem_block) : mem_block :=
  MemBlock (id b) (state b) (size b) (begin b) (end_ b) p (next b).
Definition set_next (p : ptr) (b : mem_block) : mem_block :=
  MemBlock (id b) (state b) (size b) (begin b) (end_ b) (prev b) p.
Definition set_state (st : block_state) (b : mem_block) : mem_block :=
  MemBlock (id b) st (size b) (begin b) (end_ b) (prev b) (next b).
Definition set_extent (lo hi sz : Z) (b : mem_block) : mem_block :=
  MemBlock (id b) (state b) sz lo hi (prev b) (next b).

(** The block a pointer designates. *)
Definition blk (s : alloc_st) (p : ptr) : option mem_block :=
  match p with
  | Null => None
  | Special i => special s !! i
  | Pool i => pool s !! i
  end.

Definition upd_blk (p : ptr) (f : mem_block → mem_block) (s : alloc_st) : alloc_st :=
  match p with
  | Null => s
  | Special i => set_special (alter f i (special s)) s
  | Pool i => set_pool (alter f i (pool s)) s
  end.

(** [*p] and [p->field = ...]: undefined through a null or wild pointer. *)
Definition load (p : ptr) : M alloc_st mem_block :=
  s ← get; deref NullDeref (blk s p).
Definition store (p : ptr) (f : mem_block → mem_block) : M alloc_st unit :=
  load p;; modify (upd_blk p f).

(** ** Pool helpers *)

Definition get_unused_block : M alloc_st nat :=
  s ← get;
  deref Halt (first_index (λ b, bool_decide (state b = UNUSED)) (pool s)).

Definition find_allocated_block (begin0 : Z) : M alloc_st nat :=
  s ← get;
  deref Halt (first_index
    (λ b, bool_decide (state b = ALLOCATED) && bool_decide (begin b = begin0)) (pool s)).

(** ** Operations on the list [free] *)

Definition free_init (begin0 end0 : Z) : M alloc_st unit :=
  for_range 0 (Z.of_nat POOL_SIZE) (λ i,
    store (Pool (Z.to_nat i))
      (λ b, MemBlock i UNUSED (size b) (begin b) (end_ b) (prev b) (next b)));;
  modify (set_ends (Special 0) (Special 1));;
  h ← gets head; t ← gets tail;
  store h (set_prev Null);; store h (set_next (Pool 0));;
  store t (set_prev (Pool 0));; store t (set_next Null);;
  store (Pool 0) (set_state UNALLOCATED);;
  store (Pool 0) (set_prev h);; store (Pool 0) (set_next t);;
  store (Pool 0) (set_extent begin0 end0 (u32 (end0 - begin0)));;
  modify (set_list_size 1).

(** The [while] of [free_check], [cnt] blocks seen before [block]. *)
Fixpoint free_check_loop (fuel : nat) (block : ptr) (cnt : Z) : M alloc_st Z :=
  match fuel with
  | O => fail OutOfFuel
  | S n =>
      t ← gets tail;
      if decide (block = t) then mret cnt
      else
        b ← load block;
        nb ← load (next b);
        assert (bool_decide (prev nb = block));;
        pb ← load (prev b);
        assert (bool_decide (next pb = block));;
        free_check_loop n (next b) (cnt + 1)
  end.

(** A list visits every pool block at most once: [POOL_SIZE + 1] rounds. *)
Definition list_fuel : nat := S (S POOL_SIZE).

Lemma list_fuel_gt n : n ≤ POOL_SIZE → n < list_fuel.
Proof. unfold list_fuel. lia. Qed.

Lemma POOL_SIZE_small : (0 < Z.of_nat POOL_SIZE < 2 ^ 31)%Z.
Proof. by vm_compute. Qed.

Lemma POOL_SIZE_large : 1024 < POOL_SIZE.
Proof. by apply Nat.ltb_lt. Qed.

#[global] Opaque POOL_SIZE list_fuel.

Definition free_check : M alloc_st unit :=
  h ← gets head;
  hb ← load h;
  cnt ← free_check_loop list_fuel (next hb) 0;
  n ← gets list_size;
  assert (bool_decide (cnt = n)).

Definition free_cut (block : ptr) (size0 : Z) : M alloc_st unit :=
  newid ← get_unused_block;
  b ← load block;
  assert (bool_decide (state b = UNALLOCATED));;
  let newblock := Pool newid in
  nb ← load newblock;
  assert (bool_decide (id nb = Z.of_nat newid));;
  assert (bool_decide (state nb = UNUSED));;
  store newblock (set_prev block);;
  b ← load block;
  store newblock (set_next (next b));;
  b ← load block;
  store (next b) (set_prev newblock);;
  store block (set_next newblock);;
  b ← load block;
  store newblock (set_extent (u32 (begin b + size0)) (end_ b) (u32 (size b - size0)));;
  store block (set_extent (begin b) (u32 (begin b + size0)) size0);;
  store newblock (set_state UNALLOCATED);;
  n ← gets list_size;
  modify (set_list_size (u32 (n + 1))).

Definition free_adjcent (p q : ptr) : M alloc_st bool :=
  h ← gets head; t ← gets tail;
  if decide (p = h ∨ q = t) then mret false
  else
    assert (bool_decide (p ≠ t));;
    assert (bool_decide (q ≠ h));;
    pb ← load p; qb ← load q;
    mret (bool_decide (end_ pb = begin qb)).

Definition free_merge (former latter : ptr) : M alloc_st unit :=
  adj ← free_adjcent former latter;
  assert adj;;
  h ← gets head; t ← gets tail;
  assert (bool_decide (former ≠ h));;
  assert (bool_decide (latter ≠ t));;
  fb ← load former;
  assert (bool_decide (state fb = UNALLOCATED));;
  lb ← load latter;
  assert (bool_decide (state lb = UNALLOCATED));;
  (* delete latter *)
  store former (set_next (next lb));;
  lb ← load latter;
  store (next lb) (set_prev former);;
  store latter (set_prev Null);;
  store latter (set_next Null);;
  (* resize the former *)
  fb ← load former; lb ← load latter;
  assert (bool_decide (u32 (end_ lb - begin fb) = u32 (size fb + size lb)));;
  store former (set_extent (begin fb) (end_ lb) (u32 (end_ lb - begin fb)));;
  (* set the latter UNUSED *)
  store latter (set_state UNUSED);;
  n ← gets list_size;
  modify (set_list_size (u32 (n - 1)));;
  free_check.

Definition free_cmp (p q : ptr) : M alloc_st bool :=
  h ← gets head; t ← gets tail;
  if decide (p = h ∨ q = t) then mret true
  else
    assert (bool_decide (p ≠ t));;
    assert (bool_decide (q ≠ h));;
    pb ← load p; qb ← load q;
    assert (bool_decide (begin pb ≠ begin qb));;
    mret (bool_decide (begin pb < begin qb)%Z).

(** [free_cmp(former, block) && free_cmp(block, latter)], short-circuited. *)
Definition free_fits (former block latter : ptr) : M alloc_st bool :=
  c1 ← free_cmp former block;
  if c1 : bool then free_cmp block latter else mret false.

(** The search of [free_insert]: the neighbours the block goes between. *)
Fixpoint free_insert_loop (fuel : nat) (block former latter : ptr) : M alloc_st (ptr * ptr) :=
  match fuel with
  | O => fail OutOfFuel
  | S n =>
      c ← free_fits former block latter;
      if c : bool then mret (former, latter)
      else
        t ← gets tail;
        assert (bool_decide (latter ≠ t));;
        fb ← load former; lb ← load latter;
        free_insert_loop n block (next fb) (next lb)
  end.

Definition free_insert (block : ptr) : M alloc_st unit :=
  b ← load block;
  assert (bool_decide (state b = ALLOCATED));;
  former ← gets head;
  fb ← load former;
  '(former, latter) ← free_insert_loop list_fuel block former (next fb);
  c ← free_fits former block latter;
  assert c;;
  (* link *)
  store block (set_prev former);; store block (set_next latter);;
  store former (set_next block);; store latter (set_prev block);;
  store block (set_state UNALLOCATED);;
  n ← gets list_size;
  modify (set_list_size (u32 (n + 1)));;
  (* don't change their order *)
  adj ← free_adjcent block latter;
  when adj (free_merge block latter);;
  adj ← free_adjcent former block;
  when adj (free_merge former block);;
  free_check.

Definition free_delete (block : ptr) : M alloc_st unit :=
  h ← gets head; t ← gets tail;
  assert (bool_decide (block ≠ h));;
  assert (bool_decide (block ≠ t));;
  b ← load block;
  assert (bool_decide (state b = UNALLOCATED));;
  let former := prev b in
  let latter := next b in
  store former (set_next latter);;
  store latter (set_prev former);;
  store block (set_prev Null);; store block (set_next Null);;
  store block (set_state ALLOCATED);;
  n ← gets list_size;
  modify (set_list_size (u32 (n - 1))).

(** [size_t newsz = 1 KB; while (newsz < size) newsz <<= 1;] *)
Fixpoint round_up (fuel : nat) (newsz size0 : Z) : option Z :=
  match fuel with
  | O => None
  | S n =>
      if decide (newsz < size0)%Z then round_up n (u32 (Z.shiftl newsz 1)) size0
      else Some newsz
  end.

(** From 1 KB, 22 doublings reach 2^32: the loop ends within 23 rounds or never. *)
Definition round_fuel : nat := 24.

(** The first-fit search of [free_find]. *)
Fixpoint free_find_loop (fuel : nat) (newsz : Z) (block : ptr) : M alloc_st ptr :=
  match fuel with
  | O => fail OutOfFuel
  | S n =>
      t ← gets tail;
      if decide (block = t) then mret block
      else
        b ← load block;
        if decide (size b < newsz)%Z then
          assert (bool_decide (state b = UNALLOCATED));;
          free_find_loop n newsz (next b)
        else mret block
  end.

Definition free_find (size0 : Z) : M alloc_st ptr :=
  newsz ← deref OutOfFuel (round_up round_fuel (KB 1) size0);
  h ← gets head;
  hb ← load h;
  block ← free_find_loop list_fuel newsz (next hb);
  t ← gets tail;
  assert (bool_decide (block ≠ t));;
  b ← load block;
  assert (bool_decide (newsz ≤ size b)%Z);;
  when (bool_decide (u32 (2 * newsz) ≤ size b)%Z) (free_cut block newsz);;
  free_delete block;;
  mret block.

(** ** The interface [pmm] *)

Definition pmm_init (heap_start heap_end : Z) : M alloc_st unit :=
  naivelock_lock memoplk set_memoplk;;
  modify (set_pm heap_start heap_end);;
  s ← get;
  modify (set_procfs (set_mem_total (u64 (u32 (heap_end - heap_start))) (procfs s)));;
  free_init heap_start heap_end;;
  naivelock_unlock memoplk set_memoplk.

(** The value is the address returned, 0 for [NULL]. *)
Definition kalloc (size0 : Z) : M alloc_st Z :=
  if decide (size0 = 0)%Z then mret 0%Z
  else
    naivelock_lock memoplk set_memoplk;;
    block ← free_find size0;
    b ← load block;
    zoom procfs set_procfs (procfs_mem_trace (size b) 0);;
    assert (bool_decide (block ≠ Null));;
    free_check;;
    b ← load block;
    assert (bool_decide (begin b ≠ 0)%Z);;
    naivelock_unlock memoplk set_memoplk;;
    b ← load block;
    mret (begin b).

Definition kfree (p : Z) : M alloc_st unit :=
  naivelock_lock memoplk set_memoplk;;
  idx ← find_allocated_block p;
  b ← load (Pool idx);
  zoom procfs set_procfs (procfs_mem_trace (size b) 1);;
  free_insert (Pool idx);;
  naivelock_unlock memoplk set_memoplk.
