(* ===== verification/AllocSpec.v ===== *)
(** * Abstract heap: what the page allocator promises

    The allocator's contract without links, pools or sentinels: a sorted list
    of free extents and a map of used extents that together tile the heap.
    [take_fit] is first-fit allocation with a split when the remainder is at
    least as large as the request; [give_back] is deallocation with coalescing
    on both sides.  AllocRefine.v shows that alloc.c implements this. *)
From Stdlib Require Export Sorted.
From S2P Require Import Prelude.

Abbreviation extent := (Z * Z)%type.

Record heap := Heap {
  free_ext : list extent;   (* [begin, end) of each free block, in address order *)
  used : gmap Z Z           (* begin ↦ end of each allocated block *)
}.

Fixpoint take_fit (n : Z) (l : list extent) : option (extent * list extent) :=
  match l with
  | [] => None
  | (b, e) :: l' =>
      if decide (n ≤ e - b)%Z then
        if decide (2 * n ≤ e - b)%Z
        then Some ((b, b + n), (b + n, e) :: l')%Z
        else Some ((b, e), l')
      else
        match take_fit n l' with
        | Some (x, l'') => Some (x, (b, e) :: l'')
        | None => None
        end
  end.

(** The extent [(b, e)] in front of [l], joined with its first extent when they
    touch. *)
Definition join_front (b e : Z) (l : list extent) : list extent :=
  match l with
  | (b', e') :: l' => if decide (e = b')%Z then (b, e') :: l' else (b, e) :: l
  | [] => [(b, e)]
  end.

Fixpoint give_back (b e : Z) (l : list extent) : list extent :=
  match l with
  | [] => [(b, e)]
  | (b', e') :: l' =>
      if decide (b < b')%Z then join_front b e l
      else if decide (e' = b)%Z then join_front b' e l'
      else (b', e') :: give_back b e l'
  end.

Definition heap_alloc (n : Z) (h : heap) : option (Z * heap) :=
  match take_fit n (free_ext h) with
  | Some ((b, e), l) => Some (b, Heap l (<[b := e]> (used h)))
  | None => None
  end.

Definition heap_free (b : Z) (h : heap) : option heap :=
  match used h !! b with
  | Some e => Some (Heap (give_back b e (free_ext h)) (delete b (used h)))
  | None => None
  end.

(** ** The invariant *)

Definition before (x y : extent) : Prop := (x.2 < y.1)%Z.
Definition disjoint_ext (x y : extent) : Prop := (x.2 ≤ y.1 ∨ y.2 ≤ x.1)%Z.
Definition inside (a : Z) (x : extent) : Prop := (x.1 ≤ a < x.2)%Z.
Definition bounded (lo hi : Z) (x : extent) : Prop := (lo ≤ x.1 ∧ x.1 < x.2 ∧ x.2 ≤ hi)%Z.

(** Free extents are in address order and no two touch ([before] is strict), used
    extents are disjoint from one another and from the free ones, and together
    they cover the heap [lo, hi). *)
Record heap_ok (lo hi : Z) (h : heap) : Prop := {
  hk_free : Forall (bounded lo hi) (free_ext h);
  hk_used : ∀ b e, used h !! b = Some e → bounded lo hi (b, e);
  hk_sorted : StronglySorted before (free_ext h);
  hk_used_disjoint : ∀ b e b' e',
    used h !! b = Some e → used h !! b' = Some e' → b ≠ b' → disjoint_ext (b, e) (b', e');
  hk_free_disjoint : ∀ b e x,
    used h !! b = Some e → x ∈ free_ext h → disjoint_ext (b, e) x;
  hk_cover : ∀ a, (lo ≤ a < hi)%Z →
    (∃ x, x ∈ free_ext h ∧ inside a x) ∨ (∃ b e, used h !! b = Some e ∧ inside a (b, e))
}.

(** ** [take_fit] *)

(** How an allocation changes the free list: some free extent is removed, or
    keeps its upper part. *)
Lemma take_fit_inv n l b e l' :
  take_fit n l = Some ((b, e), l') →
  (n ≤ e - b)%Z ∧
  ∃ l1 l2 e0, l = l1 ++ (b, e0) :: l2 ∧
    Forall (λ x, x.2 - x.1 < n)%Z l1 ∧
    ((e0 = e ∧ (e - b < 2 * n)%Z ∧ l' = l1 ++ l2) ∨
     (e = (b + n)%Z ∧ (b + 2 * n ≤ e0)%Z ∧ l' = l1 ++ (e, e0) :: l2)).
Proof.
  revert l'. induction l as [|[b0 e0] l IH]; intros l' Ht; simpl in Ht; [done|].
  case_decide as Hn; [case_decide as H2n|]; simplify_eq.
  - split; [lia|]. exists [], l, e0. split; [done|]. split; [constructor|].
    right. split; [done|]. split; [lia|done].
  - split; [lia|]. exists [], l', e. split; [done|]. split; [constructor|].
    left. split; [done|]. split; [lia|done].
  - destruct (take_fit n l) as [[x l'']|]; [|done]. simplify_eq.
    destruct (IH l'') as (? & l1 & l2 & e1 & -> & ? & Hl); [done|]. split; [done|].
    exists ((b0, e0) :: l1), l2, e1. split; [done|]. split; [constructor; simpl; [lia|done]|].
    destruct Hl as [(? & ? & ->)|(? & ? & ->)]; naive_solver.
Qed.

Lemma take_fit_None n l : take_fit n l = None ↔ Forall (λ x, x.2 - x.1 < n)%Z l.
Proof.
  induction l as [|[b e] l IH]; simpl; [done|]. rewrite Forall_cons. simpl.
  repeat case_decide; split; try done; try lia.
  - intros Ht. split; [lia|]. apply IH. by destruct (take_fit n l) as [[]|].
  - intros [_ Ht]. by apply IH in Ht as ->.
Qed.

Lemma sorted_app l1 l2 :
  StronglySorted before (l1 ++ l2) ↔
  StronglySorted before l1 ∧ StronglySorted before l2 ∧
  (∀ x y, x ∈ l1 → y ∈ l2 → before x y).
Proof.
  induction l1 as [|x l1 IH]; simpl.
  - split; [|naive_solver]. intros. split_and!; [constructor|done|set_solver].
  - split.
    + intros [H1 H2]%StronglySorted_inv. apply IH in H1 as (? & ? & ?).
      rewrite Forall_forall in H2. split_and!; [|done|].
      * constructor; [done|]. apply Forall_forall. set_solver.
      * intros y z [->|]%elem_of_cons ?; [apply H2; set_solver|auto].
    + intros ([H1 H2]%StronglySorted_inv & ? & Hxy). constructor.
      * apply IH. split_and!; [done..|set_solver].
      * apply Forall_app. split; [done|]. apply Forall_forall. set_solver.
Qed.

Lemma sorted_cons x l :
  StronglySorted before (x :: l) ↔ StronglySorted before l ∧ (∀ y, y ∈ l → before x y).
Proof.
  split.
  - intros [? H]%StronglySorted_inv. rewrite Forall_forall in H. done.
  - intros [? ?]. constructor; [done|]. by apply Forall_forall.
Qed.

(** ** Allocation preserves the invariant *)

Lemma heap_alloc_ok lo hi n h b h' :
  (0 < n)%Z → heap_ok lo hi h → heap_alloc n h = Some (b, h') →
  heap_ok lo hi h' ∧
  ∃ e, used h' = <[b := e]> (used h) ∧ used h !! b = None ∧ (n ≤ e - b)%Z ∧ bounded lo hi (b, e).
Proof.
  intros Hn [Hf Hu Hs Hud Hfd Hc]. unfold heap_alloc.
  destruct (take_fit n (free_ext h)) as [[[b0 e] l']|] eqn:Ht; [|done].
  intros [= <- <-].
  apply take_fit_inv in Ht as (Hne & l1 & l2 & e0 & Hl & _ & Hcase).
  rewrite Hl in Hf, Hs, Hfd, Hc.
  apply Forall_app in Hf as [Hf1 Hf2]. apply Forall_cons in Hf2 as [Hb Hf2].
  apply sorted_app in Hs as (Hs1 & Hs2 & Hs12). apply sorted_cons in Hs2 as [Hs2 Hb2].
  assert (He0 : (b0 < e ≤ e0)%Z) by (destruct Hcase; lia).
  unfold bounded in Hb. simpl in *.
  assert (Hfresh : used h !! b0 = None).
  { destruct (used h !! b0) as [e'|] eqn:E; [|done].
    specialize (Hu _ _ E). specialize (Hfd _ _ (b0, e0) E ltac:(set_solver)).
    unfold disjoint_ext, bounded in *. simpl in *. lia. }
  assert (Hin : ∀ x, x ∈ l' → x ∈ l1 ++ (b0, e0) :: l2 ∨ (x = (e, e0) ∧ e < e0)%Z).
  { destruct Hcase as [(-> & _ & ->)|(-> & ? & ->)]; intros x; rewrite !elem_of_app, ?elem_of_cons;
      [naive_solver|]. intros [?|[->|?]]; [naive_solver| |naive_solver]. right. split; [done|lia]. }
  split; [|exists e; simpl; split_and!; [done..|lia|unfold bounded; simpl; lia]].
  split; simpl.
  - destruct Hcase as [(-> & _ & ->)|(-> & ? & ->)]; rewrite Forall_app, ?Forall_cons; [done|].
    split_and!; [done| |done]. unfold bounded; simpl; lia.
  - intros b' e' [[<- <-]|[? ?]]%lookup_insert_Some; [unfold bounded; simpl; lia|eauto].
  - destruct Hcase as [(-> & _ & ->)|(-> & ? & ->)]; apply sorted_app; rewrite ?sorted_cons.
    + split_and!; [done..|set_solver].
    + split_and!; [done..| |].
      * intros y Hy. specialize (Hb2 y Hy). unfold before in *. simpl in *. lia.
      * intros x y Hx [->|Hy]%elem_of_cons; [|set_solver].
        specialize (Hs12 x (b0, e0) Hx ltac:(set_solver)). unfold before in *. simpl in *. lia.
  - intros b1 e1 b2 e2 H1 H2 Hne12.
    apply lookup_insert_Some in H1 as [[<- <-]|[? H1]];
      apply lookup_insert_Some in H2 as [[<- <-]|[? H2]]; [done| | |by eauto].
    + specialize (Hfd _ _ (b0, e0) H2 ltac:(set_solver)). unfold disjoint_ext in *; simpl in *; lia.
    + specialize (Hfd _ _ (b0, e0) H1 ltac:(set_solver)). unfold disjoint_ext in *; simpl in *; lia.
  - intros b1 e1 x H1 Hx. apply lookup_insert_Some in H1 as [[<- <-]|[? H1]].
    + assert (x ∈ l1 ∨ x ∈ l2 ∨ x = (e, e0)) as [Hx1|[Hx2| ->]].
      { destruct Hcase as [(-> & _ & ->)|(-> & ? & ->)]; set_solver. }
      * specialize (Hs12 x (b0, e0) Hx1 ltac:(set_solver)). unfold disjoint_ext, before in *; simpl in *; lia.
      * specialize (Hb2 x Hx2). unfold disjoint_ext, before in *; simpl in *; lia.
      * unfold disjoint_ext; simpl; lia.
    + destruct (Hin x Hx) as [?|[-> ?]]; [eauto|].
      specialize (Hfd _ _ (b0, e0) H1 ltac:(set_solver)). unfold disjoint_ext in *; simpl in *; lia.
  - intros a Ha. destruct (Hc a Ha) as [(x & Hx & Hax)|(b1 & e1 & H1 & Ha1)].
    + destruct (decide (x = (b0, e0))) as [->|Hne0].
      * destruct (decide (a < e)%Z).
        { right. exists b0, e. split; [apply lookup_insert_eq|]. unfold inside in *; simpl in *; lia. }
        left. exists (e, e0). destruct Hcase as [(-> & _ & ->)|(-> & ? & ->)].
        { unfold inside in *; simpl in *; lia. }
        split; [set_solver|]. unfold inside in *; simpl in *; lia.
      * left. exists x. split; [|done]. destruct Hcase as [(-> & _ & ->)|(-> & ? & ->)]; set_solver.
    + right. exists b1, e1. split; [|done]. rewrite lookup_insert_ne; [done|congruence].
Qed.

(** ** Deallocation *)

(** [join_front] absorbs at most the first extent. *)
Lemma join_front_inv b e l lo hi :
  (b < e)%Z → Forall (bounded lo hi) l → StronglySorted before l → (∀ y, y ∈ l → e ≤ y.1)%Z →
  ∃ L l2 E, l = L ++ l2 ∧ join_front b e l = (b, E) :: l2 ∧
    ((L = [] ∧ E = e) ∨ L = [(e, E)]) ∧ (e ≤ E)%Z ∧ (∀ y, y ∈ l2 → E < y.1)%Z.
Proof.
  intros Hbe Hf Hs Hl. destruct l as [|[b' e'] l]; simpl.
  { exists [], [], e. split_and!; [done|done|by left|lia|set_solver]. }
  apply sorted_cons in Hs as [_ Hb'].
  pose proof (Hl (b', e') ltac:(set_solver)) as Hle. simpl in Hle.
  apply Forall_cons in Hf as [[_ [Hb _]] _]. simpl in Hb.
  case_decide as Heq.
  - exists [(b', e')], l, e'. subst. split_and!; [done|done|by right|lia|].
    intros y Hy. apply (Hb' y Hy).
  - exists [], ((b', e') :: l), e. split_and!; [done|done|by left|lia|].
    intros y [->|Hy]%elem_of_cons; simpl; [lia|].
    specialize (Hb' y Hy). unfold before in *. simpl in *. lia.
Qed.

#[local] Arguments join_front : simpl never.

(** [give_back] absorbs at most one extent on each side and touches nothing else. *)
Lemma give_back_inv b e l lo hi :
  (b < e)%Z → Forall (bounded lo hi) l → StronglySorted before l →
  (∀ x, x ∈ l → disjoint_ext (b, e) x) →
  ∃ l1 F L l2 B E, l = l1 ++ F ++ L ++ l2 ∧ give_back b e l = l1 ++ (B, E) :: l2 ∧
    ((F = [] ∧ B = b) ∨ F = [(B, b)]) ∧ ((L = [] ∧ E = e) ∨ L = [(e, E)]) ∧
    (B ≤ b)%Z ∧ (e ≤ E)%Z ∧ (∀ x, x ∈ l1 → x.2 < B)%Z ∧ (∀ y, y ∈ l2 → E < y.1)%Z.
Proof.
  intros Hbe. induction l as [|[b' e'] l IH]; intros Hf Hs Hd; simpl.
  { exists [], [], [], [], b, e. split_and!; [done|done|by left|by left|lia|lia|set_solver|set_solver]. }
  apply Forall_cons in Hf as [Hb' Hf]. pose proof Hs as Hs0. apply sorted_cons in Hs as [Hs Hbef].
  unfold bounded in Hb'. simpl in Hb'. pose proof (Hd (b', e') ltac:(set_solver)) as Hd'.
  unfold disjoint_ext in Hd'. simpl in Hd'.
  case_decide as Hlt; [|case_decide as Htouch].
  - destruct (join_front_inv b e ((b', e') :: l) lo hi) as (L & l2 & E & Hl & -> & ? & ? & ?);
      [done|by constructor|done| |].
    { intros y [->|Hy]%elem_of_cons; simpl; [lia|].
      specialize (Hbef y Hy). unfold before in *. simpl in *. lia. }
    exists [], [], L, l2, b, E. split_and!; [done|done|by left|done|lia|done|set_solver|done].
  - destruct (join_front_inv b' e l lo hi) as (L & l2 & E & -> & -> & ? & ? & ?);
      [lia|done|done| |].
    { intros y Hy. specialize (Hbef y Hy). specialize (Hd y ltac:(set_solver)).
      rewrite Forall_forall in Hf. specialize (Hf y Hy).
      unfold before, disjoint_ext, bounded in *. simpl in *. lia. }
    subst. exists [], [(b', b)], L, l2, b', E.
    split_and!; [done|done|by right|done|lia|done|set_solver|done].
  - destruct IH as (l1 & F & L & l2 & B & E & -> & -> & HF & HL & ? & ? & H1 & ?); [done..| |].
    { intros x Hx. apply Hd. set_solver. }
    exists ((b', e') :: l1), F, L, l2, B, E. split_and!; [done..| |done].
    intros x [->|Hx]%elem_of_cons; [|auto]. simpl.
    destruct HF as [[-> ->]| ->]; [lia|].
    specialize (Hbef (B, b) ltac:(set_solver)). unfold before in *. done.
Qed.

(** Freeing a used extent: the address ranges stay a tiling of the heap, the
    free list stays coalesced, and the range is free again. *)
Lemma heap_free_ok lo hi b h h' :
  heap_ok lo hi h → heap_free b h = Some h' →
  heap_ok lo hi h' ∧ used h' = delete b (used h) ∧
  ∃ e, used h !! b = Some e ∧ ∀ a, inside a (b, e) → ∃ x, x ∈ free_ext h' ∧ inside a x.
Proof.
  intros [Hf Hu Hs Hud Hfd Hc]. unfold heap_free.
  destruct (used h !! b) as [e|] eqn:Hbe; [|done]. intros [= <-]. simpl.
  pose proof (Hu _ _ Hbe) as [Hlo [Hlt Hhi]]. simpl in *.
  destruct (give_back_inv b e (free_ext h) lo hi) as
    (l1 & F & L & l2 & B & E & Hl & -> & HF & HL & HB & HE & H1 & H2); [done..|intros x Hx; by apply (Hfd b)|].
  rewrite Hl in Hf, Hs, Hfd, Hc.
  assert (HBE : (lo ≤ B ∧ E ≤ hi)%Z).
  { rewrite !Forall_app in Hf. destruct Hf as (_ & Hf1 & Hf2 & _). split.
    - destruct HF as [[-> ->]| ->]; [done|]. apply Forall_cons in Hf1 as [[? _] _]. done.
    - destruct HL as [[-> ->]| ->]; [done|]. apply Forall_cons in Hf2 as [[_ [_ ?]] _]. done. }
  assert (Hin : ∀ a, inside a (B, E) ↔ inside a (b, e) ∨ ∃ x, x ∈ F ++ L ∧ inside a x).
  { intros a. unfold inside. simpl. split.
    - intros Ha. destruct (decide (a < b)%Z); [|destruct (decide (a < e)%Z); [left; lia|]].
      + right. destruct HF as [[-> ->]| ->]; [lia|]. exists (B, b). split; [set_solver|simpl; lia].
      + right. destruct HL as [[-> ->]| ->]; [lia|]. exists (e, E). split; [set_solver|simpl; lia].
    - intros [?|(x & Hx & ?)]; [lia|]. apply elem_of_app in Hx as [Hx|Hx].
      + destruct HF as [[-> ->]| ->]; [set_solver|]. apply list_elem_of_singleton in Hx as ->. simpl in *. lia.
      + destruct HL as [[-> ->]| ->]; [set_solver|]. apply list_elem_of_singleton in Hx as ->. simpl in *. lia. }
  split; [|split; [done|]].
  2:{ exists e. split; [done|]. intros a Ha. exists (B, E). split; [set_solver|]. apply Hin. by left. }
  rewrite !Forall_app in Hf. destruct Hf as (Hf1 & HfF & HfL & Hf2).
  rewrite !sorted_app in Hs. destruct Hs as (Hs1 & (_ & (_ & Hs2 & _) & _) & Hs12).
  split; simpl.
  - rewrite Forall_app, Forall_cons. split_and!; [done| |done]. unfold bounded; simpl; lia.
  - intros b' e' [_ H']%lookup_delete_Some. eauto.
  - apply sorted_app. rewrite sorted_cons. split_and!; [done..| |].
    + intros y Hy. apply (H2 y Hy).
    + intros x y Hx [->|Hy]%elem_of_cons; [apply (H1 x Hx)|]. apply Hs12; set_solver.
  - intros b1 e1 b2 e2 [_ ?]%lookup_delete_Some [_ ?]%lookup_delete_Some ?. by eapply Hud.
  - intros b1 e1 x [Hne Hb1]%lookup_delete_Some Hx.
    assert (x ∈ l1 ∨ x ∈ l2 ∨ x = (B, E)) as [?|[?| ->]] by set_solver; [apply (Hfd b1); [done|set_solver]..|].
    assert (Hd : disjoint_ext (b1, e1) (b, e)) by (by eapply Hud).
    pose proof (Hu _ _ Hb1) as [_ [Hlt1 _]]. unfold disjoint_ext in *. simpl in *.
    destruct HF as [[-> ->]| ->]; [|pose proof (Hfd _ _ (B, b) Hb1 ltac:(set_solver))];
    (destruct HL as [[-> ->]| ->]; [|pose proof (Hfd _ _ (e, E) Hb1 ltac:(set_solver))]); simpl in *; lia.
  - intros a Ha. destruct (Hc a Ha) as [(x & Hx & Hax)|(b1 & e1 & Hb1 & Ha1)].
    + left. assert (x ∈ l1 ∨ x ∈ l2 ∨ x ∈ F ++ L) as [?|[?|?]] by set_solver; [exists x; set_solver..|].
      exists (B, E). split; [set_solver|]. apply Hin. eauto.
    + destruct (decide (b1 = b)) as [->|].
      * simplify_eq. left. exists (B, E). split; [set_solver|]. apply Hin. by left.
      * right. exists b1, e1. split; [|done]. by rewrite lookup_delete_ne.
Qed.

Lemma give_back_skip b e l1 l2 :
  (∀ x, x ∈ l1 → x.1 ≤ b ∧ x.2 < b)%Z → give_back b e (l1 ++ l2) = l1 ++ give_back b e l2.
Proof.
  induction l1 as [|[b' e'] l1 IH]; intros H; simpl; [done|].
  pose proof (H (b', e') ltac:(left)) as H'. simpl in H'.
  rewrite !decide_False by lia. f_equal. apply IH. intros x Hx. apply H. by right.
Qed.

(** Allocating and freeing again leaves the heap as it was: the split, if any,
    is undone by coalescing. *)
Lemma heap_alloc_free lo hi n h b h' :
  (0 < n)%Z → heap_ok lo hi h → heap_alloc n h = Some (b, h') → heap_free b h' = Some h.
Proof.
  intros Hn Hok Ha. destruct (heap_alloc_ok lo hi n h b h') as (_ & e & Hu & Hfresh & Hne & _); [done..|].
  unfold heap_free. rewrite Hu, lookup_insert_eq, delete_insert_eq, (delete_id (used h)) by done.
  revert Ha. unfold heap_alloc. destruct (take_fit n (free_ext h)) as [[[b0 e0] l']|] eqn:Ht; [|done].
  intros [= -> <-]. simpl in Hu.
  assert (e0 = e) as -> by (apply (f_equal (.!! b)) in Hu; rewrite !lookup_insert_eq in Hu; congruence).
  apply take_fit_inv in Ht as (_ & l1 & l2 & e0 & Hl & _ & Hcase).
  destruct Hok as [Hf _ Hs _ _ _]. rewrite Hl in Hf, Hs.
  apply Forall_app in Hf as [Hf1 Hf2]. apply Forall_cons in Hf2 as [Hb Hf2].
  apply sorted_app in Hs as (_ & Hs2 & Hs12). apply sorted_cons in Hs2 as [_ Hb2].
  assert (Hskip : ∀ x, x ∈ l1 → (x.1 ≤ b ∧ x.2 < b)%Z).
  { intros x Hx. rewrite Forall_forall in Hf1. specialize (Hf1 x Hx).
    specialize (Hs12 x (b, e0) Hx ltac:(left)). unfold before, bounded in *. simpl in *. lia. }
  destruct h as [fr us]. simpl in *. subst fr. do 2 f_equal. unfold bounded in Hb. simpl in Hb.
  destruct Hcase as [(-> & _ & ->)|(-> & ? & ->)]; rewrite give_back_skip by done; f_equal.
  - destruct l2 as [|[b' e'] l2]; [done|]. specialize (Hb2 (b', e') ltac:(left)).
    unfold before in Hb2. simpl in *. rewrite decide_True by lia.
    unfold join_front. by rewrite decide_False by lia.
  - simpl. rewrite decide_True by lia. unfold join_front. by rewrite decide_True by lia.
Qed.

Lemma give_back_split b e l1 l2 :
  (∀ x, x ∈ l1 → x.1 ≤ b ∧ x.2 < b)%Z → (∀ y, y ∈ l2 → b < y.1)%Z →
  give_back b e (l1 ++ l2) = l1 ++ join_front b e l2.
Proof.
  intros H1 H2. rewrite give_back_skip by done. f_equal.
  destruct l2 as [|[b' e'] l2]; [done|]. specialize (H2 (b', e') ltac:(left)). simpl in *.
  by rewrite decide_True.
Qed.

Lemma give_back_split_join b e l1 b0 l2 :
  (∀ x, x ∈ l1 → x.1 ≤ b ∧ x.2 < b)%Z → (b0 < b)%Z →
  give_back b e (l1 ++ (b0, b) :: l2) = l1 ++ join_front b0 e l2.
Proof.
  intros H1 H0. rewrite give_back_skip by done. f_equal. simpl.
  by rewrite decide_False, decide_True by lia.
Qed.

(** A used extent splits the sorted free list. *)
Lemma free_split lo hi b e l :
  (b < e)%Z → Forall (bounded lo hi) l → StronglySorted before l →
  (∀ x, x ∈ l → disjoint_ext (b, e) x) →
  ∃ l1 l2, l = l1 ++ l2 ∧ (∀ x, x ∈ l1 → x.1 < b ∧ x.2 ≤ b)%Z ∧ (∀ y, y ∈ l2 → e ≤ y.1)%Z.
Proof.
  intros Hbe. induction l as [|[b' e'] l IH]; intros Hf Hs Hd.
  { exists [], []. set_solver. }
  apply Forall_cons in Hf as [Hb' Hf]. apply sorted_cons in Hs as [Hs Hbef].
  unfold bounded in Hb'. simpl in Hb'. pose proof (Hd (b', e') ltac:(set_solver)) as Hd'.
  unfold disjoint_ext in Hd'. simpl in Hd'.
  destruct (decide (e ≤ b')%Z).
  - exists [], ((b', e') :: l). split_and!; [done|set_solver|].
    intros y [->|Hy]%elem_of_cons; simpl; [lia|].
    specialize (Hbef y Hy). unfold before in *. simpl in *. lia.
  - destruct IH as (l1 & l2 & -> & H1 & H2); [done..| |].
    { intros x Hx. apply Hd. set_solver. }
    exists ((b', e') :: l1), l2. split_and!; [done| |done].
    intros x [->|Hx]%elem_of_cons; simpl; [lia|auto].
Qed.

(** [give_back] as the two coalescing steps of the code, one after the other. *)
Lemma give_back_join_cases b e l1 l2 E l2' lo hi xs :
  Forall (bounded lo hi) l1 → StronglySorted before l1 →
  (∀ x, x ∈ l1 → x.1 < b ∧ x.2 ≤ b)%Z → (∀ y, y ∈ l2 → e ≤ y.1)%Z → (b < e)%Z →
  join_front b e l2 = (b, E) :: l2' →
  ((∀ x, last l1 = Some x → x.2 ≠ b) ∧ xs = l1 ++ (b, E) :: l2' ∨
   ∃ l1' b0, l1 = l1' ++ [(b0, b)] ∧ xs = l1' ++ (b0, E) :: l2') →
  give_back b e (l1 ++ l2) = xs.
Proof.
  intros Hf Hs H1 H2 Hbe Hj Hcase.
  assert (Hlast : ∀ l1' x, l1 = l1' ++ [x] → ∀ y, y ∈ l1' → (y.1 ≤ b ∧ y.2 < b)%Z).
  { intros l1' x -> y Hy. apply sorted_app in Hs as (_ & _ & Hs).
    specialize (Hs y x Hy ltac:(set_solver)). pose proof (H1 y ltac:(set_solver)).
    pose proof (H1 x ltac:(set_solver)). unfold before in Hs. lia. }
  destruct Hcase as [[Hne ->]|(l1' & b0 & -> & ->)].
  - rewrite give_back_split, Hj; [done| |].
    + intros x Hx. destruct l1 as [|z l1 _] using rev_ind; [set_solver|].
      apply elem_of_app in Hx as [Hx| ->%list_elem_of_singleton]; [by eapply Hlast|].
      specialize (Hne z ltac:(by rewrite last_snoc)). specialize (H1 z ltac:(set_solver)). lia.
    + intros y Hy. specialize (H2 y Hy). lia.
  - rewrite <-(assoc_L (++)). simpl. rewrite give_back_split_join.
    + f_equal. unfold join_front in *. destruct l2 as [|[m e'] l2]; [congruence|].
      case_decide; congruence.
    + by eapply Hlast.
    + by destruct (H1 (b0, b) ltac:(set_solver)).
Qed.
