(* ===== verification/AllocRefine.v ===== *)
(** * alloc.c implements the abstract heap

    [repr s ids h] relates a state of alloc.c to an abstract heap: [ids] are the
    pool indices on the list [free], the sentinels and links form a doubly
    linked list, the listed blocks carry the free extents of [h] in order, and
    the ALLOCATED blocks carry its used extents.  Each operation is shown to
    move [repr] as the abstract operation does. *)
From S2P Require Import Prelude DList Common Procfs Alloc AllocSpec.

(** ** Views of a state: links and contents *)

Record core := Core { c_id : Z; c_state : block_state; c_size : Z; c_begin : Z; c_end : Z }.

Definition core_of (b : mem_block) : core := Core (id b) (state b) (size b) (begin b) (end_ b).
Definition nx (s : alloc_st) (p : ptr) : option ptr := next <$> blk s p.
Definition pv (s : alloc_st) (p : ptr) : option ptr := prev <$> blk s p.
Definition info (s : alloc_st) (p : ptr) : option core := core_of <$> blk s p.

(** The contents of the pool block [i] holding the extent [x] in state [st]. *)
Definition mk (i : nat) (st : block_state) (x : extent) : core :=
  Core (Z.of_nat i) st (x.2 - x.1) x.1 x.2.

Definition path (ids : list nat) : list ptr := Special 0 :: (Pool <$> ids) ++ [Special 1].

(** The list structure: sentinels, links, length. *)
Record links (s : alloc_st) (ids : list nat) : Prop := {
  lk_head : head s = Special 0;
  lk_tail : tail s = Special 1;
  lk_pool : length (pool s) = POOL_SIZE;
  lk_special : length (special s) = 2;
  lk_nodup : NoDup ids;
  lk_linked : linked (nx s) (pv s) (path ids);
  lk_count : list_size s = Z.of_nat (length ids)
}.

(** The blocks' contents, as a view [v] of the pool. *)
Record contents (v : ptr → option core) (ids : list nat) (h : heap) : Prop := {
  ct_free : Forall2 (λ i x, v (Pool i) = Some (mk i UNALLOCATED x)) ids (free_ext h);
  ct_id : ∀ i d, v (Pool i) = Some d → c_id d = Z.of_nat i;
  ct_listed : ∀ i d, v (Pool i) = Some d → c_state d = UNALLOCATED → i ∈ ids;
  ct_used : ∀ b e, used h !! b = Some e → ∃ i, v (Pool i) = Some (mk i ALLOCATED (b, e));
  ct_alloc : ∀ i d, v (Pool i) = Some d → c_state d = ALLOCATED →
    used h !! c_begin d = Some (c_end d) ∧ c_size d = (c_end d - c_begin d)%Z;
  ct_inj : ∀ i j d d', v (Pool i) = Some d → v (Pool j) = Some d' →
    c_state d = ALLOCATED → c_state d' = ALLOCATED → c_begin d = c_begin d' → i = j
}.

Definition repr (s : alloc_st) (ids : list nat) (h : heap) : Prop :=
  links s ids ∧ contents (info s) ids h.

(** ** Updates seen through the views *)

Lemma blk_upd p f s q :
  blk (upd_blk p f s) q = if decide (p = q) then f <$> blk s q else blk s q.
Proof.
  destruct p as [|i|i], q as [|j|j]; simpl; try done; case_decide; simplify_eq; try done.
  - apply list_lookup_alter_eq.
  - apply list_lookup_alter_ne. congruence.
  - apply list_lookup_alter_eq.
  - apply list_lookup_alter_ne. congruence.
Qed.

Section upd.
Implicit Types (s : alloc_st) (p q r : ptr).

Lemma nx_upd_same p f s q : (∀ b, next (f b) = next b) → nx (upd_blk p f s) q = nx s q.
Proof.
  intros Hf. unfold nx. rewrite blk_upd. case_decide; [|done].
  destruct (blk s q); simpl; [by rewrite Hf|done].
Qed.
Lemma pv_upd_same p f s q : (∀ b, prev (f b) = prev b) → pv (upd_blk p f s) q = pv s q.
Proof.
  intros Hf. unfold pv. rewrite blk_upd. case_decide; [|done].
  destruct (blk s q); simpl; [by rewrite Hf|done].
Qed.
Lemma info_upd_same p f s q : (∀ b, core_of (f b) = core_of b) → info (upd_blk p f s) q = info s q.
Proof.
  intros Hf. unfold info. rewrite blk_upd. case_decide; [|done].
  destruct (blk s q); simpl; [by rewrite Hf|done].
Qed.

Lemma nx_set_next p r s q :
  nx (upd_blk p (set_next r) s) q = if decide (p = q) then (λ _, r) <$> nx s q else nx s q.
Proof. unfold nx. rewrite blk_upd. case_decide; [|done]. by destruct (blk s q). Qed.
Lemma pv_set_prev p r s q :
  pv (upd_blk p (set_prev r) s) q = if decide (p = q) then (λ _, r) <$> pv s q else pv s q.
Proof. unfold pv. rewrite blk_upd. case_decide; [|done]. by destruct (blk s q). Qed.
Lemma info_set_state p st s q :
  info (upd_blk p (set_state st) s) q =
  if decide (p = q) then (λ d, Core (c_id d) st (c_size d) (c_begin d) (c_end d)) <$> info s q
  else info s q.
Proof. unfold info. rewrite blk_upd. case_decide; [|done]. by destruct (blk s q). Qed.
Lemma info_set_extent p lo hi sz s q :
  info (upd_blk p (set_extent lo hi sz) s) q =
  if decide (p = q) then (λ d, Core (c_id d) (c_state d) sz lo hi) <$> info s q else info s q.
Proof. unfold info. rewrite blk_upd. case_decide; [|done]. by destruct (blk s q). Qed.

Lemma nx_set_prev p r s q : nx (upd_blk p (set_prev r) s) q = nx s q.
Proof. by apply nx_upd_same. Qed.
Lemma nx_set_state p st s q : nx (upd_blk p (set_state st) s) q = nx s q.
Proof. by apply nx_upd_same. Qed.
Lemma nx_set_extent p a b c s q : nx (upd_blk p (set_extent a b c) s) q = nx s q.
Proof. by apply nx_upd_same. Qed.
Lemma pv_set_next p r s q : pv (upd_blk p (set_next r) s) q = pv s q.
Proof. by apply pv_upd_same. Qed.
Lemma pv_set_state p st s q : pv (upd_blk p (set_state st) s) q = pv s q.
Proof. by apply pv_upd_same. Qed.
Lemma pv_set_extent p a b c s q : pv (upd_blk p (set_extent a b c) s) q = pv s q.
Proof. by apply pv_upd_same. Qed.
Lemma info_set_prev p r s q : info (upd_blk p (set_prev r) s) q = info s q.
Proof. by apply info_upd_same. Qed.
Lemma info_set_next p r s q : info (upd_blk p (set_next r) s) q = info s q.
Proof. by apply info_upd_same. Qed.

Lemma head_upd p f s : head (upd_blk p f s) = head s.
Proof. by destruct p. Qed.
Lemma tail_upd p f s : tail (upd_blk p f s) = tail s.
Proof. by destruct p. Qed.
Lemma list_size_upd p f s : list_size (upd_blk p f s) = list_size s.
Proof. by destruct p. Qed.
Lemma memoplk_upd p f s : memoplk (upd_blk p f s) = memoplk s.
Proof. by destruct p. Qed.
Lemma procfs_upd p f s : procfs (upd_blk p f s) = procfs s.
Proof. by destruct p. Qed.
Lemma pool_length_upd p f s : length (pool (upd_blk p f s)) = length (pool s).
Proof. destruct p; simpl; [done|done|apply length_alter]. Qed.
Lemma special_length_upd p f s : length (special (upd_blk p f s)) = length (special s).
Proof. destruct p; simpl; [done|apply length_alter|done]. Qed.

Lemma nx_blk s p b : blk s p = Some b → nx s p = Some (next b).
Proof. unfold nx. by intros ->. Qed.
Lemma pv_blk s p b : blk s p = Some b → pv s p = Some (prev b).
Proof. unfold pv. by intros ->. Qed.
Lemma info_blk s p b : blk s p = Some b → info s p = Some (core_of b).
Proof. unfold info. by intros ->. Qed.

(** A load gives a block whose views are those of the state. *)
Lemma wp_load p (Q : mem_block → alloc_st → Prop) s d :
  info s p = Some d →
  (∀ b, nx s p = Some (next b) → pv s p = Some (prev b) → core_of b = d → Q b s) →
  wp (load p) Q s.
Proof.
  unfold info. intros Hd HQ. destruct (blk s p) as [b|] eqn:Hb; [|done]. simplify_eq/=.
  unfold load. wp_steps. apply HQ; [by apply nx_blk|by apply pv_blk|done].
Qed.

Lemma wp_store p f (Q : unit → alloc_st → Prop) s d :
  info s p = Some d → Q tt (upd_blk p f s) → wp (store p f) Q s.
Proof. intros Hd HQ. unfold store. wp_steps. eapply wp_load; [done|]. intros. by wp_steps. Qed.
End upd.

#[global] Opaque upd_blk.

(** The views do not see the list length. *)
Lemma nx_set_list_size n s p : nx (set_list_size n s) p = nx s p.
Proof. done. Qed.
Lemma pv_set_list_size n s p : pv (set_list_size n s) p = pv s p.
Proof. done. Qed.
Lemma info_set_list_size n s p : info (set_list_size n s) p = info s p.
Proof. done. Qed.

Create HintDb upd.
#[export] Hint Rewrite nx_set_list_size pv_set_list_size info_set_list_size nx_set_next nx_set_prev nx_set_state nx_set_extent
  pv_set_next pv_set_prev pv_set_state pv_set_extent
  info_set_prev info_set_next info_set_state info_set_extent
  head_upd tail_upd list_size_upd memoplk_upd procfs_upd pool_length_upd special_length_upd : upd.

(** Evaluates a view of a state built by updates at distinct pointers. *)
Ltac upd_simp :=
  simpl; autorewrite with upd;
  repeat first [ rewrite decide_True by first [done|congruence]
               | rewrite decide_False by first [done|congruence] ];
  simpl.

(** ** Paths *)

Definition hd_ptr (l : list nat) : ptr := match l with [] => Special 1 | i :: _ => Pool i end.
Definition last_ptr (l : list nat) : ptr :=
  match last l with None => Special 0 | Some i => Pool i end.
Definition pre (l : list nat) : list ptr :=
  match l with [] => [] | _ => Special 0 :: (Pool <$> removelast l) end.
Definition post (l : list nat) : list ptr :=
  match l with [] => [] | _ :: l' => (Pool <$> l') ++ [Special 1] end.

Lemma path_front l : Special 0 :: (Pool <$> l) = pre l ++ [last_ptr l].
Proof.
  destruct l as [|i l _] using rev_ind; [done|]. unfold last_ptr. rewrite last_snoc.
  unfold pre. destruct (l ++ [i]) eqn:E; [by destruct l|]. rewrite <-E, removelast_last.
  by rewrite fmap_app.
Qed.

Lemma path_back l : (Pool <$> l) ++ [Special 1] = hd_ptr l :: post l.
Proof. by destruct l. Qed.

Lemma path_split l1 l2 : path (l1 ++ l2) = pre l1 ++ last_ptr l1 :: hd_ptr l2 :: post l2.
Proof.
  unfold path. rewrite fmap_app, <-(assoc_L (++)), path_back, app_comm_cons, path_front.
  by rewrite <-(assoc_L (++)).
Qed.

Lemma path_split_at l1 i l2 :
  path (l1 ++ i :: l2) = pre l1 ++ last_ptr l1 :: Pool i :: hd_ptr l2 :: post l2.
Proof. rewrite path_split. simpl. by rewrite path_back. Qed.

#[export] Instance Pool_inj : Inj (=) (=) Pool.
Proof. by intros ?? [= ->]. Qed.

Lemma path_nodup ids : NoDup ids → NoDup (path ids).
Proof.
  intros Hnd. unfold path. apply NoDup_cons. split.
  - rewrite elem_of_app, list_elem_of_fmap, list_elem_of_singleton. naive_solver.
  - apply NoDup_app. split_and!.
    + by apply (NoDup_fmap_2 _).
    + intros x (i & -> & _)%list_elem_of_fmap. by rewrite list_elem_of_singleton.
    + apply NoDup_singleton.
Qed.

Lemma linked_split s ids l1 l2 :
  links s ids → ids = l1 ++ l2 →
  nx s (last_ptr l1) = Some (hd_ptr l2) ∧ pv s (hd_ptr l2) = Some (last_ptr l1).
Proof.
  intros Hl ->. apply (linked_middle _ _ (pre l1) _ _ (post l2)).
  rewrite <-path_split. apply (lk_linked _ _ Hl).
Qed.

(** Every node of the list is a block. *)
Lemma info_nx s p q : nx s p = Some q → ∃ d, info s p = Some d.
Proof. unfold nx, info. destruct (blk s p); naive_solver. Qed.
Lemma info_pv s p q : pv s p = Some q → ∃ d, info s p = Some d.
Proof. unfold pv, info. destruct (blk s p); naive_solver. Qed.

Lemma hd_ptr_ne_head l : hd_ptr l ≠ Special 0.
Proof. by destruct l. Qed.
Lemma last_ptr_ne_tail l : last_ptr l ≠ Special 1.
Proof. unfold last_ptr. by destruct (last l). Qed.
Lemma hd_ptr_tail l : hd_ptr l = Special 1 ↔ l = [].
Proof. by destruct l. Qed.
Lemma last_ptr_head l : last_ptr l = Special 0 ↔ l = [].
Proof.
  unfold last_ptr. destruct (last l) eqn:E; [|by apply last_None in E].
  split; [done|]. intros ->. done.
Qed.

(** ** [free_check] succeeds on a well-linked list *)

Lemma links_ids_lt s ids i : links s ids → i ∈ ids → i < POOL_SIZE.
Proof.
  intros Hl (l1 & l2 & ->)%list_elem_of_split.
  pose proof (linked_split s _ l1 (i :: l2) Hl eq_refl) as [_ Hpv].
  unfold pv in Hpv. simpl in Hpv. destruct (pool s !! i) eqn:E; [|done].
  apply lookup_lt_Some in E. by rewrite <-(lk_pool _ _ Hl).
Qed.

Lemma links_length s ids : links s ids → length ids ≤ POOL_SIZE.
Proof.
  intros Hl. rewrite <-(length_seq POOL_SIZE 0). apply submseteq_length, NoDup_submseteq.
  - apply (lk_nodup _ _ Hl).
  - intros i Hi. apply elem_of_seq. pose proof (links_ids_lt s ids i Hl Hi). lia.
Qed.

Lemma free_check_loop_ok s ids l1 l2 n cnt Q :
  links s ids → ids = l1 ++ l2 → length l2 < n → Q (cnt + Z.of_nat (length l2))%Z s →
  wp (free_check_loop n (hd_ptr l2) cnt) Q s.
Proof.
  intros Hl. revert l1 n cnt. induction l2 as [|i l2 IH]; intros l1 n cnt Hids Hn HQ;
    (destruct n as [|n]; [simpl in Hn; lia|]); simpl; wp_steps; rewrite (lk_tail _ _ Hl).
  - rewrite decide_True by done. wp_steps. by replace cnt with (cnt + Z.of_nat (length (@nil nat)))%Z by (simpl; lia).
  - rewrite decide_False by done.
    pose proof (linked_split s ids l1 (i :: l2) Hl Hids) as [Hnx1 Hpv1].
    pose proof (linked_split s ids (l1 ++ [i]) l2 Hl) as [Hnx2 Hpv2].
    { by rewrite <-(assoc_L (++)). }
    unfold last_ptr in Hnx2, Hpv2. rewrite last_snoc in Hnx2, Hpv2.
    destruct (info_nx _ _ _ Hnx2) as [d Hd]. wp_steps. eapply wp_load; [done|].
    intros b Hb1 Hb2 _. wp_steps. simpl in *.
    assert (next b = hd_ptr l2) as -> by congruence.
    assert (prev b = last_ptr l1) as -> by congruence.
    destruct (info_pv _ _ _ Hpv2) as [d2 Hd2]. eapply wp_load; [done|].
    intros b2 _ Hb3 _. wp_steps; [apply bool_decide_eq_true; congruence|].
    destruct (info_nx _ _ _ Hnx1) as [d3 Hd3].
    wp_steps. eapply wp_load; [done|]. intros b3 Hb4 _ _.
    wp_steps; [apply bool_decide_eq_true; congruence|].
    apply (IH (l1 ++ [i])); [by rewrite <-(assoc_L (++))|simpl in Hn; lia|].
    simpl in HQ. by replace (cnt + 1 + Z.of_nat (length l2))%Z with (cnt + Z.of_nat (S (length l2)))%Z by lia.
Qed.

Lemma free_check_ok s ids (Q : unit → alloc_st → Prop) : links s ids → Q tt s → wp free_check Q s.
Proof.
  intros Hl HQ. unfold free_check. wp_steps. rewrite (lk_head _ _ Hl).
  pose proof (linked_split s ids [] ids Hl eq_refl) as [Hnx _].
  destruct (info_nx _ _ _ Hnx) as [d Hd]. eapply wp_load; [done|]. intros b Hb _ _.
  simpl in *. replace (next b) with (hd_ptr ids) by (unfold last_ptr in *; simpl in *; congruence).
  wp_steps. eapply (free_check_loop_ok s ids []); [done..| |].
  - by apply list_fuel_gt, links_length with s.
  - wp_steps; [|done]. apply bool_decide_eq_true. rewrite (lk_count _ _ Hl). lia.
Qed.

(** ** How the four moves change the contents *)

Lemma contents_nodup_other v ids h i x : contents v ids h → i ∉ ids →
  v (Pool i) = Some x → c_state x ≠ UNALLOCATED.
Proof. intros Hc Hi Hx Hst. by apply Hi, (ct_listed _ _ _ Hc i x). Qed.

Lemma Forall2_view_ext (v v' : ptr → option core) st ids xs :
  (∀ j, j ∈ ids → v' (Pool j) = v (Pool j)) →
  Forall2 (λ i x, v (Pool i) = Some (mk i st x)) ids xs →
  Forall2 (λ i x, v' (Pool i) = Some (mk i st x)) ids xs.
Proof.
  intros Hv HF. induction HF as [|i x ids xs Hx _ IH]; constructor.
  - rewrite Hv; [done|left].
  - apply IH. intros j Hj. apply Hv. by right.
Qed.

(** A listed block leaves the list and becomes ALLOCATED. *)
Lemma contents_delete v v' l1 i l2 x1 x x2 u :
  NoDup (l1 ++ i :: l2) → length l1 = length x1 → u !! x.1 = None →
  contents v (l1 ++ i :: l2) (Heap (x1 ++ x :: x2) u) →
  v' (Pool i) = Some (mk i ALLOCATED x) → (∀ j, j ≠ i → v' (Pool j) = v (Pool j)) →
  contents v' (l1 ++ l2) (Heap (x1 ++ x2) (<[x.1 := x.2]> u)).
Proof.
  intros Hnd Hlen Hu [Hf Hid Hls Hus Hal Hinj] Hvi Hvj. simpl in *.
  apply NoDup_app in Hnd as (_ & Hd & Hnd2). apply NoDup_cons in Hnd2 as [Hi2 _].
  assert (Hi : i ∉ l1 ++ l2) by set_solver.
  apply Forall2_app_inv in Hf as [Hf1 Hf2]; [|done]. apply Forall2_cons in Hf2 as [Hx Hf2].
  assert (Hother : ∀ j d, v' (Pool j) = Some d → j ≠ i → v (Pool j) = Some d).
  { intros j d Hj Hne. by rewrite <-Hvj. }
  split; simpl.
  - eapply Forall2_view_ext with (v := v); [|by apply Forall2_app].
    intros j Hj. apply Hvj. by intros ->.
  - intros j d Hj. destruct (decide (j = i)) as [->|]; [|by eauto].
    rewrite Hvi in Hj. by simplify_eq.
  - intros j d Hj Hst. destruct (decide (j = i)) as [->|].
    + rewrite Hvi in Hj. by simplify_eq.
    + specialize (Hls j d (Hother _ _ Hj ltac:(done)) Hst). set_solver.
  - intros b e [[<- <-]|[Hne Hb]]%lookup_insert_Some.
    + exists i. by destruct x.
    + destruct (Hus _ _ Hb) as [j Hj]. exists j. rewrite Hvj; [done|].
      intros ->. rewrite Hx in Hj. by simplify_eq.
  - intros j d Hj Hst. destruct (decide (j = i)) as [->|].
    + rewrite Hvi in Hj. simplify_eq/=. by rewrite lookup_insert_eq.
    + destruct (Hal j d (Hother _ _ Hj ltac:(done)) Hst) as [Hb ?]. split; [|done].
      rewrite lookup_insert_ne; [done|congruence].
  - intros j k d d' Hj Hk Hst Hst' Heq.
    destruct (decide (j = i)) as [->|], (decide (k = i)) as [->|]; [done| | |by eauto].
    + rewrite Hvi in Hj. simplify_eq/=.
      destruct (Hal k d' (Hother _ _ Hk ltac:(done)) Hst') as [Hb _]. congruence.
    + rewrite Hvi in Hk. simplify_eq/=.
      destruct (Hal j d (Hother _ _ Hj ltac:(done)) Hst) as [Hb _]. congruence.
Qed.

(** An ALLOCATED block joins the list. *)
Lemma contents_insert v v' l1 i l2 x1 x x2 u :
  i ∉ l1 ++ l2 → length l1 = length x1 →
  contents v (l1 ++ l2) (Heap (x1 ++ x2) u) → v (Pool i) = Some (mk i ALLOCATED x) →
  v' (Pool i) = Some (mk i UNALLOCATED x) → (∀ j, j ≠ i → v' (Pool j) = v (Pool j)) →
  contents v' (l1 ++ i :: l2) (Heap (x1 ++ x :: x2) (delete x.1 u)).
Proof.
  intros Hi Hlen [Hf Hid Hls Hus Hal Hinj] Hv Hvi Hvj. simpl in *.
  apply Forall2_app_inv in Hf as [Hf1 Hf2]; [|done].
  assert (Hother : ∀ j d, v' (Pool j) = Some d → j ≠ i → v (Pool j) = Some d).
  { intros j d Hj Hne. by rewrite <-Hvj. }
  split; simpl.
  - apply Forall2_app; [|constructor; [done|]];
      (eapply Forall2_view_ext; [|done]); intros j Hj; apply Hvj; set_solver.
  - intros j d Hj. destruct (decide (j = i)) as [->|]; [|by eauto].
    rewrite Hvi in Hj. by simplify_eq.
  - intros j d Hj Hst. destruct (decide (j = i)) as [->|]; [set_solver|].
    specialize (Hls j d (Hother _ _ Hj ltac:(done)) Hst). set_solver.
  - intros b e [Hne Hb]%lookup_delete_Some. destruct (Hus _ _ Hb) as [j Hj]. exists j.
    rewrite Hvj; [done|]. intros ->. rewrite Hv in Hj. by simplify_eq/=.
  - intros j d Hj Hst. destruct (decide (j = i)) as [->|Hne].
    { rewrite Hvi in Hj. by simplify_eq. }
    destruct (Hal j d (Hother _ _ Hj Hne) Hst) as [Hb ?]. split; [|done].
    rewrite lookup_delete_ne; [done|]. intros Heq. apply Hne.
    apply (Hinj j i d (mk i ALLOCATED x)); [by eauto|done..].
  - intros j k d d' Hj Hk Hst Hst'.
    destruct (decide (j = i)) as [->|]; [rewrite Hvi in Hj; by simplify_eq|].
    destruct (decide (k = i)) as [->|]; [rewrite Hvi in Hk; by simplify_eq|]. eauto.
Qed.

(** The listed block [i] is cut and the UNUSED block [k] takes its upper part. *)
Lemma contents_cut v v' l1 i k l2 x1 b m e x2 u :
  NoDup (l1 ++ i :: l2) → k ∉ l1 ++ i :: l2 → length l1 = length x1 →
  (∀ d, v (Pool k) = Some d → c_state d ≠ ALLOCATED) →
  contents v (l1 ++ i :: l2) (Heap (x1 ++ (b, e) :: x2) u) →
  v' (Pool i) = Some (mk i UNALLOCATED (b, m)) →
  v' (Pool k) = Some (mk k UNALLOCATED (m, e)) →
  (∀ j, j ≠ i → j ≠ k → v' (Pool j) = v (Pool j)) →
  contents v' (l1 ++ i :: k :: l2) (Heap (x1 ++ (b, m) :: (m, e) :: x2) u).
Proof.
  intros Hnd Hk Hlen Hkst [Hf Hid Hls Hus Hal Hinj] Hvi Hvk Hvj. simpl in *.
  apply NoDup_app in Hnd as (_ & Hd & Hnd2). apply NoDup_cons in Hnd2 as [Hi2 _].
  apply Forall2_app_inv in Hf as [Hf1 Hf2]; [|done]. apply Forall2_cons in Hf2 as [Hx Hf2].
  assert (Hik : i ≠ k) by set_solver.
  assert (Hother : ∀ j d, v' (Pool j) = Some d → c_state d = ALLOCATED → v (Pool j) = Some d).
  { intros j d Hj Hst. destruct (decide (j = i)) as [->|]; [rewrite Hvi in Hj; by simplify_eq|].
    destruct (decide (j = k)) as [->|]; [rewrite Hvk in Hj; by simplify_eq|]. by rewrite <-Hvj. }
  split; simpl.
  - apply Forall2_app; [|do 2 (constructor; [done|])];
      (eapply Forall2_view_ext; [|done]); intros j Hj; apply Hvj; set_solver.
  - intros j d Hj. destruct (decide (j = i)) as [->|]; [rewrite Hvi in Hj; by simplify_eq|].
    destruct (decide (j = k)) as [->|]; [rewrite Hvk in Hj; by simplify_eq|]. rewrite Hvj in Hj by done. eauto.
  - intros j d Hj Hst. destruct (decide (j = i)) as [->|]; [set_solver|].
    destruct (decide (j = k)) as [->|]; [set_solver|]. rewrite Hvj in Hj by done.
    specialize (Hls j d Hj Hst). set_solver.
  - intros b' e' Hb. destruct (Hus _ _ Hb) as [j Hj]. exists j. rewrite Hvj; [done| |].
    + intros ->. rewrite Hx in Hj. by simplify_eq.
    + intros ->. by destruct (Hkst _ Hj).
  - intros j d Hj Hst. eapply Hal; [by apply Hother|done].
  - intros j j' d d' Hj Hj' Hst Hst'. eapply Hinj; [by apply Hother|by apply Hother|done..].
Qed.

(** Two neighbours whose extents touch become one; the second is UNUSED. *)
Lemma contents_merge v v' l1 i k l2 x1 b m e x2 u c :
  NoDup (l1 ++ i :: k :: l2) → length l1 = length x1 →
  contents v (l1 ++ i :: k :: l2) (Heap (x1 ++ (b, m) :: (m, e) :: x2) u) →
  v' (Pool i) = Some (mk i UNALLOCATED (b, e)) →
  v' (Pool k) = Some c → c_state c = UNUSED → c_id c = Z.of_nat k →
  (∀ j, j ≠ i → j ≠ k → v' (Pool j) = v (Pool j)) →
  contents v' (l1 ++ i :: l2) (Heap (x1 ++ (b, e) :: x2) u).
Proof.
  intros Hnd Hlen [Hf Hid Hls Hus Hal Hinj] Hvi Hvk Hcst Hcid Hvj. simpl in *.
  apply NoDup_app in Hnd as (_ & Hd & Hnd2). apply NoDup_cons in Hnd2 as [Hi2 Hnd2].
  apply NoDup_cons in Hnd2 as [Hk2 _].
  apply Forall2_app_inv in Hf as [Hf1 Hf2]; [|done]. apply Forall2_cons in Hf2 as [Hx Hf2].
  apply Forall2_cons in Hf2 as [Hy Hf2].
  assert (Hik : i ≠ k) by set_solver.
  assert (Hother : ∀ j d, v' (Pool j) = Some d → c_state d = ALLOCATED → v (Pool j) = Some d).
  { intros j d Hj Hst. destruct (decide (j = i)) as [->|]; [rewrite Hvi in Hj; by simplify_eq|].
    destruct (decide (j = k)) as [->|]; [rewrite Hvk in Hj; simplify_eq; congruence|]. by rewrite <-Hvj. }
  split; simpl.
  - apply Forall2_app; [|constructor; [done|]];
      (eapply Forall2_view_ext; [|done]); intros j Hj; apply Hvj; set_solver.
  - intros j d Hj. destruct (decide (j = i)) as [->|]; [rewrite Hvi in Hj; by simplify_eq|].
    destruct (decide (j = k)) as [->|]; [congruence|]. rewrite Hvj in Hj by done. eauto.
  - intros j d Hj Hst. destruct (decide (j = i)) as [->|]; [set_solver|].
    destruct (decide (j = k)) as [->|]; [congruence|]. rewrite Hvj in Hj by done.
    specialize (Hls j d Hj Hst). set_solver.
  - intros b' e' Hb. destruct (Hus _ _ Hb) as [j Hj]. exists j. rewrite Hvj; [done| |].
    + intros ->. rewrite Hx in Hj. by simplify_eq.
    + intros ->. rewrite Hy in Hj. by simplify_eq.
  - intros j d Hj Hst. eapply Hal; [by apply Hother|done].
  - intros j j' d d' Hj Hj' Hst Hst'. eapply Hinj; [by apply Hother|by apply Hother|done..].
Qed.

(** ** [free_delete] *)

Lemma path_distinct l1 i l2 :
  NoDup (l1 ++ i :: l2) →
  last_ptr l1 ≠ Pool i ∧ hd_ptr l2 ≠ Pool i ∧ last_ptr l1 ≠ hd_ptr l2.
Proof.
  intros Hnd%path_nodup. rewrite path_split_at in Hnd.
  apply NoDup_app in Hnd as (_ & _ & Hnd). rewrite !NoDup_cons in Hnd. set_solver.
Qed.

Lemma path_distinct2 l1 l2 : NoDup (l1 ++ l2) → last_ptr l1 ≠ hd_ptr l2.
Proof.
  intros Hnd%path_nodup. rewrite path_split in Hnd.
  apply NoDup_app in Hnd as (_ & _ & Hnd). rewrite !NoDup_cons in Hnd. set_solver.
Qed.

(** What an operation leaves alone. *)
Definition same_env (s s' : alloc_st) : Prop :=
  memoplk s' = memoplk s ∧ procfs s' = procfs s.

Lemma same_env_trans s1 s2 s3 : same_env s1 s2 → same_env s2 s3 → same_env s1 s3.
Proof. unfold same_env. intuition congruence. Qed.

Definition same_shape (s s' : alloc_st) : Prop :=
  head s' = head s ∧ tail s' = tail s ∧
  length (pool s') = length (pool s) ∧ length (special s') = length (special s).

Lemma links_count_small s ids : links s ids → (0 ≤ Z.of_nat (length ids) < 2 ^ 31)%Z.
Proof. intros Hl. pose proof (links_length _ _ Hl). pose proof POOL_SIZE_small. lia. Qed.

Lemma links_remove s s' l1 i l2 :
  links s (l1 ++ i :: l2) → same_shape s s' → list_size s' = u32 (list_size s - 1) →
  (∀ y, y ≠ last_ptr l1 → y ≠ Pool i → nx s' y = nx s y) → nx s' (last_ptr l1) = Some (hd_ptr l2) →
  (∀ y, y ≠ hd_ptr l2 → y ≠ Pool i → pv s' y = pv s y) → pv s' (hd_ptr l2) = Some (last_ptr l1) →
  links s' (l1 ++ l2).
Proof.
  intros Hl (Hh & Ht & Hp & Hs) Hn Hnx Hnx1 Hpv Hpv1.
  pose proof (links_count_small _ _ Hl) as Hsm. pose proof (lk_nodup _ _ Hl) as Hnd.
  split; [rewrite Hh|rewrite Ht|rewrite Hp|rewrite Hs| | |]; try apply Hl.
  - rewrite NoDup_app, NoDup_cons in Hnd. apply NoDup_app. set_solver.
  - rewrite path_split. eapply (linked_remove _ _ _ _ _ _ (Pool i)); [..|done|done|done|done].
    + rewrite <-path_split_at. by apply path_nodup.
    + rewrite <-path_split_at. apply Hl.
  - rewrite Hn, (lk_count _ _ Hl). rewrite !length_app in *. simpl in *. rewrite u32_small; lia.
Qed.

Lemma links_insert s s' l1 i l2 :
  links s (l1 ++ l2) → i ∉ l1 ++ l2 → i < POOL_SIZE → same_shape s s' →
  list_size s' = u32 (list_size s + 1) →
  (∀ y, y ≠ last_ptr l1 → y ≠ Pool i → nx s' y = nx s y) →
  nx s' (last_ptr l1) = Some (Pool i) → nx s' (Pool i) = Some (hd_ptr l2) →
  (∀ y, y ≠ hd_ptr l2 → y ≠ Pool i → pv s' y = pv s y) →
  pv s' (Pool i) = Some (last_ptr l1) → pv s' (hd_ptr l2) = Some (Pool i) →
  links s' (l1 ++ i :: l2).
Proof.
  intros Hl Hi Hlt (Hh & Ht & Hp & Hs) Hn Hnx Hnx1 Hnx2 Hpv Hpv1 Hpv2.
  pose proof (links_count_small _ _ Hl) as Hsm. pose proof (lk_nodup _ _ Hl) as Hnd.
  split; [rewrite Hh|rewrite Ht|rewrite Hp|rewrite Hs| | |]; try apply Hl.
  - rewrite NoDup_app in Hnd. apply NoDup_app. rewrite NoDup_cons. set_solver.
  - rewrite path_split_at. eapply linked_insert; [..|done|done|done|done|done|done].
    + rewrite <-path_split. by apply path_nodup.
    + rewrite <-path_split. unfold path. rewrite elem_of_cons, elem_of_app, list_elem_of_singleton.
      intros [?|[(j & [= <-] & Hj)%list_elem_of_fmap|?]]; [done|set_solver|done].
    + rewrite <-path_split. apply Hl.
  - rewrite Hn, (lk_count _ _ Hl). rewrite !length_app in *. simpl in *. rewrite u32_small; lia.
Qed.

(** A block's contents from its place in the list. *)
Lemma contents_at v l1 i l2 x1 x x2 u :
  contents v (l1 ++ i :: l2) (Heap (x1 ++ x :: x2) u) → length l1 = length x1 →
  v (Pool i) = Some (mk i UNALLOCATED x).
Proof.
  intros Hc Hlen. pose proof (ct_free _ _ _ Hc) as Hf.
  apply Forall2_app_inv in Hf as [_ Hf]; [|done]. by apply Forall2_cons in Hf as [Hf _].
Qed.

Lemma linked_split_at s l1 i l2 :
  links s (l1 ++ i :: l2) →
  nx s (last_ptr l1) = Some (Pool i) ∧ pv s (Pool i) = Some (last_ptr l1) ∧
  nx s (Pool i) = Some (hd_ptr l2) ∧ pv s (hd_ptr l2) = Some (Pool i).
Proof.
  intros Hl. pose proof (linked_split s _ l1 (i :: l2) Hl eq_refl) as [Hnx1 Hpv1].
  pose proof (linked_split s (l1 ++ i :: l2) (l1 ++ [i]) l2 Hl) as [Hnx2 Hpv2].
  { by rewrite <-(assoc_L (++)). }
  unfold last_ptr in Hnx2, Hpv2. rewrite last_snoc in Hnx2, Hpv2. done.
Qed.

Lemma free_delete_ok s l1 i l2 x1 x x2 u (Q : unit → alloc_st → Prop) :
  repr s (l1 ++ i :: l2) (Heap (x1 ++ x :: x2) u) → length l1 = length x1 → u !! x.1 = None →
  (∀ s', repr s' (l1 ++ l2) (Heap (x1 ++ x2) (<[x.1 := x.2]> u)) →
    info s' (Pool i) = Some (mk i ALLOCATED x) → same_env s s' → Q tt s') →
  wp (free_delete (Pool i)) Q s.
Proof.
  intros [Hl Hc] Hlen Hu HQ. pose proof (lk_nodup _ _ Hl) as Hnd.
  pose proof (path_distinct _ _ _ Hnd) as (Hpi & Hqi & Hpq).
  pose proof (linked_split_at _ _ _ _ Hl) as (Hnx1 & Hpv1 & Hnx2 & Hpv2).
  pose proof (contents_at _ _ _ _ _ _ _ _ Hc Hlen) as Hx.
  destruct (info_nx _ _ _ Hnx1) as [dp Hdp]. destruct (info_pv _ _ _ Hpv2) as [dq Hdq].
  unfold free_delete. wp_steps; rewrite ?(lk_head _ _ Hl), ?(lk_tail _ _ Hl);
    [by apply bool_decide_eq_true..|].
  eapply wp_load; [done|]. intros b Hb1 Hb2 Hb3. wp_steps.
  { apply bool_decide_eq_true. by injection Hb3. }
  assert (prev b = last_ptr l1) as -> by congruence. assert (next b = hd_ptr l2) as -> by congruence.
  eapply wp_store; [done|]. wp_steps. eapply wp_store; [by upd_simp|]. wp_steps.
  do 3 (eapply wp_store; [by upd_simp|]; wp_steps).
  apply HQ; clear HQ; [split| |].
  - apply (links_remove s _ l1 i l2); [done|by repeat split; upd_simp|by upd_simp| | | |].
    + intros y ? ?. by upd_simp.
    + upd_simp. by rewrite Hnx1.
    + intros y ? ?. by upd_simp.
    + upd_simp. by rewrite Hpv2.
  - apply (contents_delete (info s) _ l1 i l2); [done..| |].
    + upd_simp. by rewrite Hx.
    + intros j ?. by upd_simp.
  - upd_simp. by rewrite Hx.
  - by split; upd_simp.
Qed.

(** ** [free_cut] *)

Definition has_unused (s : alloc_st) : Prop := ∃ k d, info s (Pool k) = Some d ∧ c_state d = UNUSED.

Lemma wp_get_unused_block (Q : nat → alloc_st → Prop) s :
  has_unused s → (∀ k d, info s (Pool k) = Some d → c_state d = UNUSED → Q k s) →
  wp get_unused_block Q s.
Proof.
  intros (k & d & Hk & Hd) HQ. unfold get_unused_block. wp_steps.
  destruct (first_index _ (pool s)) as [i|] eqn:E.
  - apply wp_deref with i; [done|]. apply first_index_Some in E as [(b & Hb & Hst%bool_decide_eq_true) _].
    apply (HQ i (core_of b)); [|done]. unfold info. simpl. by rewrite Hb.
  - exfalso. rewrite first_index_None in E. unfold info in Hk. simpl in Hk.
    destruct (pool s !! k) as [b|] eqn:Hb; [|done]. simplify_eq/=.
    specialize (E _ _ Hb). by apply bool_decide_eq_false in E.
Qed.

Lemma info_pool_lt s i d : info s (Pool i) = Some d → i < length (pool s).
Proof.
  unfold info. simpl. destruct (pool s !! i) eqn:E; [|done]. intros _. by apply lookup_lt_Some in E.
Qed.

Lemma contents_unlisted v ids h k d :
  contents v ids h → v (Pool k) = Some d → c_state d ≠ UNALLOCATED → k ∉ ids.
Proof.
  intros Hc Hk Hst Hin. pose proof (ct_free _ _ _ Hc) as Hf.
  apply list_elem_of_lookup in Hin as [n Hn].
  destruct (Forall2_lookup_l _ _ _ _ _ Hf Hn) as (x & _ & Hx). rewrite Hk in Hx. by simplify_eq.
Qed.

Lemma free_cut_ok s l1 i l2 x1 b e x2 u n (Q : unit → alloc_st → Prop) :
  repr s (l1 ++ i :: l2) (Heap (x1 ++ (b, e) :: x2) u) → length l1 = length x1 →
  has_unused s → (0 ≤ b)%Z → (0 < n)%Z → (b + n < e)%Z → (e < 2 ^ 32)%Z →
  (∀ s' k, repr s' (l1 ++ i :: k :: l2) (Heap (x1 ++ (b, b + n)%Z :: (b + n, e)%Z :: x2) u) →
    same_env s s' → Q tt s') →
  wp (free_cut (Pool i) n) Q s.
Proof.
  intros [Hl Hc] Hlen Hun Hb Hn Hbn He HQ. pose proof (lk_nodup _ _ Hl) as Hnd.
  pose proof (path_distinct _ _ _ Hnd) as (Hpi & Hqi & Hpq).
  pose proof (linked_split_at _ _ _ _ Hl) as (Hnx1 & Hpv1 & Hnx2 & Hpv2).
  pose proof (contents_at _ _ _ _ _ _ _ _ Hc Hlen) as Hx.
  destruct (info_pv _ _ _ Hpv2) as [dq Hdq].
  unfold free_cut. wp_steps. apply wp_get_unused_block; [done|]. intros k d Hk Hd. wp_steps.
  assert (Hkl : k ∉ l1 ++ i :: l2) by (eapply contents_unlisted; [done..|congruence]).
  assert (Hik : Pool i ≠ Pool k) by (intros [= ->]; set_solver).
  assert (Hqk : hd_ptr l2 ≠ Pool k) by (destruct l2; simpl; [done|intros [= ->]; set_solver]).
  destruct (blk s (Pool k)) as [bk|] eqn:Ebk; [|unfold info in Hk; by rewrite Ebk in Hk].
  destruct d as [kid kst ksz kb ke]. simpl in Hd. subst kst.
  eapply wp_load; [done|]. intros b1 _ _ Hb1. wp_steps.
  { apply bool_decide_eq_true. by injection Hb1. }
  eapply wp_load; [done|]. intros b2 _ _ Hb2. wp_steps.
  { apply bool_decide_eq_true. injection Hb2 as Hid _ _ _ _.
    pose proof (ct_id _ _ _ Hc _ _ Hk) as Hid'. simpl in Hid'. congruence. }
  { apply bool_decide_eq_true. by injection Hb2. }
  eapply wp_store; [done|]. wp_steps. eapply wp_load; [by upd_simp|].
  intros b3 Hb3 _ _. wp_steps. assert (next b3 = hd_ptr l2) as ->.
  { revert Hb3. upd_simp. congruence. }
  eapply wp_store; [by upd_simp|]. wp_steps. eapply wp_load; [by upd_simp|].
  intros b4 Hb4 _ _. wp_steps. assert (next b4 = hd_ptr l2) as ->.
  { revert Hb4. upd_simp. congruence. }
  eapply wp_store; [by upd_simp|]. wp_steps. eapply wp_store; [by upd_simp|]. wp_steps.
  eapply wp_load; [by upd_simp|]. intros b5 _ _ Hb5. wp_steps.
  injection Hb5 as _ _ Hsz Hbg Hen. rewrite Hsz, Hbg, Hen. simpl.
  rewrite !u32_small by lia.
  do 3 (eapply wp_store; [upd_simp; by rewrite ?Hk, ?Hx|]; wp_steps).
  assert (Hsl : l1 ++ i :: k :: l2 = (l1 ++ [i]) ++ k :: l2) by (by rewrite <-(assoc_L (++))).
  apply (HQ _ k); clear HQ; [split|].
  - rewrite Hsl. apply (links_insert s).
    + by rewrite <-(assoc_L (++)).
    + by rewrite <-(assoc_L (++)).
    + rewrite <-(lk_pool _ _ Hl). by eapply info_pool_lt.
    + by repeat split; upd_simp.
    + by upd_simp.
    + unfold last_ptr. rewrite last_snoc. intros y ? ?. by upd_simp.
    + unfold last_ptr. rewrite last_snoc. upd_simp. by rewrite Hnx2.
    + upd_simp. unfold nx. by rewrite Ebk.
    + intros y ? ?. by upd_simp.
    + unfold last_ptr. rewrite last_snoc. upd_simp. unfold pv. by rewrite Ebk.
    + upd_simp. by rewrite Hpv2.
  - apply (contents_cut (info s) _ l1 i k l2 x1 b (b + n) e x2 u); [done|done|done| |done| | |].
    + intros d'. rewrite Hk. by intros [= <-].
    + upd_simp. rewrite Hx. simpl. unfold mk. simpl. by replace (b + n - b)%Z with n by lia.
    + upd_simp. rewrite Hk. simpl. unfold mk. simpl.
      pose proof (ct_id _ _ _ Hc _ _ Hk) as Hid. simpl in Hid. subst kid.
      by replace (e - b - n)%Z with (e - (b + n))%Z by lia.
    + intros j ? ?. by upd_simp.
  - by split; upd_simp.
Qed.

(** ** [free_merge] *)

(** [free_adjcent] on two pool blocks compares their extents; with a sentinel it
    answers no. *)
Lemma wp_free_adjcent s ids i k d d' (Q : bool → alloc_st → Prop) :
  links s ids → info s (Pool i) = Some d → info s (Pool k) = Some d' →
  Q (bool_decide (c_end d = c_begin d')) s → wp (free_adjcent (Pool i) (Pool k)) Q s.
Proof.
  intros Hl Hi Hk HQ. unfold free_adjcent. wp_steps. rewrite (lk_head _ _ Hl), (lk_tail _ _ Hl).
  rewrite decide_False by naive_solver. wp_steps; [done..|].
  eapply wp_load; [done|]. intros b1 _ _ <-. wp_steps. eapply wp_load; [done|]. intros b2 _ _ <-.
  by wp_steps.
Qed.

Lemma wp_free_adjcent_ends s ids p q (Q : bool → alloc_st → Prop) :
  links s ids → p = Special 0 ∨ q = Special 1 → Q false s → wp (free_adjcent p q) Q s.
Proof.
  intros Hl Hpq HQ. unfold free_adjcent. wp_steps. rewrite (lk_head _ _ Hl), (lk_tail _ _ Hl).
  by rewrite decide_True.
Qed.

Lemma free_merge_ok s l1 i k l2 x1 b m e x2 u (Q : unit → alloc_st → Prop) :
  repr s (l1 ++ i :: k :: l2) (Heap (x1 ++ (b, m) :: (m, e) :: x2) u) → length l1 = length x1 →
  (0 ≤ b)%Z → (b < m)%Z → (m < e)%Z → (e < 2 ^ 32)%Z →
  (∀ s', repr s' (l1 ++ i :: l2) (Heap (x1 ++ (b, e) :: x2) u) → same_env s s' → Q tt s') →
  wp (free_merge (Pool i) (Pool k)) Q s.
Proof.
  intros [Hl Hc] Hlen Hb Hbm Hme He HQ. pose proof (lk_nodup _ _ Hl) as Hnd.
  assert (Hsl : l1 ++ i :: k :: l2 = (l1 ++ [i]) ++ k :: l2) by (by rewrite <-(assoc_L (++))).
  pose proof (contents_at _ _ _ _ _ _ _ _ Hc Hlen) as Hxi.
  assert (Hxk : info s (Pool k) = Some (mk k UNALLOCATED (m, e))).
  { eapply (contents_at _ (l1 ++ [i]) k l2 (x1 ++ [(b, m)])); [|by rewrite !length_app, Hlen].
    rewrite <-!(assoc_L (++)). exact Hc. }
  rewrite Hsl in Hl, Hnd.
  pose proof (path_distinct _ _ _ Hnd) as (Hik & Hqk & Hiq).
  pose proof (linked_split_at _ _ _ _ Hl) as (Hnx1 & Hpv1 & Hnx2 & Hpv2).
  unfold last_ptr in Hik, Hiq, Hnx1, Hpv1. rewrite last_snoc in Hik, Hiq, Hnx1, Hpv1.
  destruct (info_pv _ _ _ Hpv2) as [dq Hdq].
  unfold free_merge. wp_steps. eapply wp_free_adjcent; [done..|]. wp_steps;
    rewrite ?(lk_head _ _ Hl), ?(lk_tail _ _ Hl); [by apply bool_decide_eq_true..|].
  eapply wp_load; [done|]. intros b1 _ _ Hb1. wp_steps.
  { apply bool_decide_eq_true. by injection Hb1. }
  eapply wp_load; [done|]. intros b2 Hn2 _ Hb2. wp_steps.
  { apply bool_decide_eq_true. by injection Hb2. }
  assert (next b2 = hd_ptr l2) as -> by congruence.
  eapply wp_store; [done|]. wp_steps. eapply wp_load; [by upd_simp|]. intros b3 Hb3 _ _.
  assert (next b3 = hd_ptr l2) as -> by (revert Hb3; upd_simp; congruence).
  wp_steps. eapply wp_store; [by upd_simp|]. wp_steps.
  do 2 (eapply wp_store; [by upd_simp|]; wp_steps).
  eapply wp_load; [by upd_simp|]. intros b4 _ _ Hb4. wp_steps.
  eapply wp_load; [by upd_simp|]. intros b5 _ _ Hb5. wp_steps.
  { injection Hb4 as _ _ Hs4 Hbg4 He4. injection Hb5 as _ _ Hs5 Hbg5 He5.
    rewrite Hs4, Hs5, Hbg4, He5. simpl. apply bool_decide_eq_true. f_equal. lia. }
  injection Hb4 as _ _ Hs4 Hbg4 He4. injection Hb5 as _ _ Hs5 Hbg5 He5.
  rewrite Hbg4, He5. simpl. rewrite (u32_small (e - b)) by lia.
  do 2 (eapply wp_store; [upd_simp; by rewrite ?Hxk, ?Hxi|]; wp_steps).
  match goal with |- wp free_check _ ?t => set (s1 := t) end.
  assert (Hl1 : links s1 ((l1 ++ [i]) ++ l2)).
  { unfold s1. apply (links_remove s _ (l1 ++ [i]) k l2); [done|by repeat split; upd_simp|by upd_simp| | | |].
    + unfold last_ptr. rewrite last_snoc. intros y ? ?. by upd_simp.
    + unfold last_ptr. rewrite last_snoc. upd_simp. by rewrite Hnx1.
    + intros y ? ?. by upd_simp.
    + unfold last_ptr. rewrite last_snoc. upd_simp. by rewrite Hpv2. }
  rewrite <-(assoc_L (++)) in Hl1. simpl in Hl1.
  eapply free_check_ok; [exact Hl1|]. apply HQ; clear HQ; [split; [done|]|].
  - eapply (contents_merge (info s) _ l1 i k l2 x1 b m e x2 u);
      [by rewrite Hsl|done|done|unfold s1..].
    + upd_simp. by rewrite Hxi.
    + upd_simp. by rewrite Hxk.
    + done.
    + done.
    + intros j ? ?. by upd_simp.
  - unfold s1. by split; upd_simp.
Qed.

(** ** [free_insert] *)

Lemma wp_free_cmp s ids i k d d' (Q : bool → alloc_st → Prop) :
  links s ids → info s (Pool i) = Some d → info s (Pool k) = Some d' →
  c_begin d ≠ c_begin d' →
  Q (bool_decide (c_begin d < c_begin d')%Z) s → wp (free_cmp (Pool i) (Pool k)) Q s.
Proof.
  intros Hl Hi Hk Hne HQ. unfold free_cmp. wp_steps. rewrite (lk_head _ _ Hl), (lk_tail _ _ Hl).
  rewrite decide_False by naive_solver. wp_steps; [done..|].
  eapply wp_load; [done|]. intros b1 _ _ <-. wp_steps. eapply wp_load; [done|]. intros b2 _ _ <-.
  wp_steps; [by apply bool_decide_eq_true|done].
Qed.

Lemma wp_free_cmp_ends s ids p q (Q : bool → alloc_st → Prop) :
  links s ids → p = Special 0 ∨ q = Special 1 → Q true s → wp (free_cmp p q) Q s.
Proof.
  intros Hl Hpq HQ. unfold free_cmp. wp_steps. rewrite (lk_head _ _ Hl), (lk_tail _ _ Hl).
  by rewrite decide_True.
Qed.

(** The blocks listed before [b] start below it. *)
Definition below (s : alloc_st) (b : Z) (l : list nat) : Prop :=
  Forall (λ j, ∃ d, info s (Pool j) = Some d ∧ (c_begin d < b)%Z) l.
Definition above (s : alloc_st) (b : Z) (l : list nat) : Prop :=
  Forall (λ j, ∃ d, info s (Pool j) = Some d ∧ (b < c_begin d)%Z) l.

Lemma wp_cmp_former s ids i d l1 (Q : bool → alloc_st → Prop) :
  links s ids → info s (Pool i) = Some d → below s (c_begin d) l1 →
  Q true s → wp (free_cmp (last_ptr l1) (Pool i)) Q s.
Proof.
  intros Hl Hi Hb HQ. destruct l1 as [|j l1 _] using rev_ind.
  - eapply wp_free_cmp_ends; [done|by left|done].
  - unfold last_ptr. rewrite last_snoc. apply Forall_app in Hb as [_ Hb].
    apply Forall_singleton in Hb as (d' & Hj & Hlt).
    eapply wp_free_cmp; [done..|lia|]. by rewrite bool_decide_true.
Qed.

Lemma wp_fits s ids i d l1 l2 (Q : bool → alloc_st → Prop) :
  links s ids → info s (Pool i) = Some d → below s (c_begin d) l1 → above s (c_begin d) l2 →
  Q true s → wp (free_fits (last_ptr l1) (Pool i) (hd_ptr l2)) Q s.
Proof.
  intros Hl Hi Hb Ha HQ. unfold free_fits. wp_steps. eapply wp_cmp_former; [done..|].
  destruct l2 as [|j l2]; simpl.
  - eapply wp_free_cmp_ends; [done|by right|done].
  - apply Forall_cons in Ha as [(d' & Hj & Hlt) _].
    eapply wp_free_cmp; [done..|lia|]. by rewrite bool_decide_true.
Qed.

Lemma free_insert_loop_ok s i d l1 l1b l2 n (Q : ptr * ptr → alloc_st → Prop) :
  links s (l1 ++ l1b ++ l2) → info s (Pool i) = Some d →
  below s (c_begin d) (l1 ++ l1b) → above s (c_begin d) l2 → length l1b < n →
  Q (last_ptr (l1 ++ l1b), hd_ptr l2) s →
  wp (free_insert_loop n (Pool i) (last_ptr l1) (hd_ptr (l1b ++ l2))) Q s.
Proof.
  revert l1 n. induction l1b as [|j l1b IH]; intros l1 n Hl Hi Hb Ha Hn HQ;
    (destruct n as [|n]; [simpl in Hn; lia|]); simpl free_insert_loop; wp_steps.
  - simpl in *. rewrite app_nil_r in *. eapply wp_fits; [done..|]. by wp_steps.
  - pose proof Hb as Hb0. unfold below in Hb. rewrite Forall_app, Forall_cons in Hb.
    destruct Hb as (Hb1 & (dj & Hj & Hlt) & Hb2).
    unfold free_fits. wp_steps. eapply wp_cmp_former; [done..|].
    eapply wp_free_cmp; [done..|lia|]. rewrite bool_decide_false by lia. wp_steps.
    { rewrite (lk_tail _ _ Hl). by apply bool_decide_eq_true. }
    pose proof (linked_split s _ l1 (j :: l1b ++ l2) Hl eq_refl) as [Hnx1 _].
    pose proof (linked_split s _ (l1 ++ [j]) (l1b ++ l2) Hl) as [Hnx2 _].
    { by rewrite <-(assoc_L (++)). }
    unfold last_ptr at 1 in Hnx2. rewrite last_snoc in Hnx2. simpl in Hnx1.
    destruct (info_nx _ _ _ Hnx1) as [dp Hdp].
    eapply wp_load; [done|]. intros b1 Hb1n _ _. wp_steps.
    simpl. eapply wp_load; [done|]. intros b2 Hb2n _ _. wp_steps.
    assert (next b1 = last_ptr (l1 ++ [j])) as ->.
    { unfold last_ptr at 1. rewrite last_snoc. congruence. }
    assert (next b2 = hd_ptr (l1b ++ l2)) as -> by congruence.
    apply IH; rewrite <-?(assoc_L (++)); [done..|simpl in Hn; lia|]. done.
Qed.

Lemma Forall2_begin s st ids xs (P : Z → Prop) :
  Forall2 (λ i x, info s (Pool i) = Some (mk i st x)) ids xs → (∀ x, x ∈ xs → P x.1) →
  Forall (λ j, ∃ d, info s (Pool j) = Some d ∧ P (c_begin d)) ids.
Proof.
  intros Hf. induction Hf as [|j x ids xs Hj _ IH]; intros HP; constructor.
  - eexists. split; [done|]. apply (HP x). left.
  - apply IH. intros y Hy. apply HP. by right.
Qed.

Lemma contents_below s l1 l2 x1 x2 u b :
  contents (info s) (l1 ++ l2) (Heap (x1 ++ x2) u) → length l1 = length x1 →
  (∀ x, x ∈ x1 → x.1 < b)%Z → (∀ x, x ∈ x2 → b < x.1)%Z → below s b l1 ∧ above s b l2.
Proof.
  intros Hc Hlen H1 H2. pose proof (ct_free _ _ _ Hc) as Hf. simpl in Hf.
  apply Forall2_app_inv in Hf as [Hf1 Hf2]; [|done].
  split; [by eapply (Forall2_begin _ _ _ _ (λ z, z < b)%Z)|by eapply (Forall2_begin _ _ _ _ (λ z, b < z)%Z)].
Qed.

(** The coalescing step with the next block. *)
Lemma merge_latter_ok s l1 i l2 x1 b e x2 u lo hi (Q : unit → alloc_st → Prop) :
  repr s (l1 ++ i :: l2) (Heap (x1 ++ (b, e) :: x2) u) → length l1 = length x1 →
  (0 ≤ b)%Z → (b < e)%Z → (e < 2 ^ 32)%Z → (hi < 2 ^ 32)%Z → Forall (bounded lo hi) x2 →
  (∀ s' l2' E x2', repr s' (l1 ++ i :: l2') (Heap (x1 ++ (b, E) :: x2') u) →
    join_front b e x2 = (b, E) :: x2' → (b < E < 2 ^ 32)%Z → same_env s s' → Q tt s') →
  wp (adj ← free_adjcent (Pool i) (hd_ptr l2); when adj (free_merge (Pool i) (hd_ptr l2))) Q s.
Proof.
  intros Hr Hlen Hb Hbe He Hhi Hf HQ. pose proof Hr as [Hl Hc].
  pose proof (contents_at _ _ _ _ _ _ _ _ Hc Hlen) as Hxi.
  pose proof (ct_free _ _ _ Hc) as Hf2. simpl in Hf2. apply Forall2_app_inv in Hf2 as [_ Hf2]; [|done].
  apply Forall2_cons in Hf2 as [_ Hf2]. wp_steps.
  destruct Hf2 as [|k [m e'] l2 x2 Hk Hf2]; simpl.
  - eapply wp_free_adjcent_ends; [done|by right|]. wp_steps.
    by apply (HQ s [] e []).
  - eapply wp_free_adjcent; [done..|]. simpl. apply Forall_cons in Hf as [(? & ? & ?) Hf]. simpl in *.
    apply wp_when; rewrite ?bool_decide_eq_true, ?bool_decide_eq_false.
    + intros ->. eapply free_merge_ok; [exact Hr|done|lia..|]. intros s' Hr' Henv.
      apply (HQ s' l2 e' x2); [done| |lia|done]. unfold join_front. by rewrite decide_True.
    + intros Hne. apply (HQ s (k :: l2) e ((m, e') :: x2)); [done| |lia|done].
      unfold join_front. by rewrite decide_False.
Qed.

(** The coalescing step with the previous block. *)
Lemma merge_former_ok s l1 i l2 x1 b e x2 u lo hi (Q : unit → alloc_st → Prop) :
  repr s (l1 ++ i :: l2) (Heap (x1 ++ (b, e) :: x2) u) → length l1 = length x1 →
  (0 ≤ lo)%Z → (b < e < 2 ^ 32)%Z → Forall (bounded lo hi) x1 →
  (∀ s' ids xs, repr s' ids (Heap xs u) → same_env s s' →
    ((∀ x, last x1 = Some x → x.2 ≠ b) ∧ xs = x1 ++ (b, e) :: x2 ∨
     ∃ x1' b0, x1 = x1' ++ [(b0, b)] ∧ xs = x1' ++ (b0, e) :: x2) → Q tt s') →
  wp (adj ← free_adjcent (last_ptr l1) (Pool i); when adj (free_merge (last_ptr l1) (Pool i))) Q s.
Proof.
  intros Hr Hlen Hlo Hbe Hf HQ. pose proof Hr as [Hl Hc].
  pose proof (contents_at _ _ _ _ _ _ _ _ Hc Hlen) as Hxi. wp_steps.
  destruct l1 as [|k l1 _] using rev_ind.
  - destruct x1; [|done]. eapply wp_free_adjcent_ends; [done|by left|]. wp_steps.
    eapply HQ; [exact Hr|done|]. left. by split.
  - destruct x1 as [|[b0 m] x1 _] using rev_ind; [rewrite length_app in Hlen; simpl in Hlen; lia|].
    rewrite !length_app in Hlen. simpl in Hlen. unfold last_ptr. rewrite last_snoc.
    pose proof Hr as Hr0. rewrite <-!(assoc_L (++)) in Hr. simpl in Hr.
    pose proof (contents_at _ _ _ _ _ _ _ _ (proj2 Hr) ltac:(lia)) as Hk.
    apply Forall_app in Hf as [_ Hf]. apply Forall_singleton in Hf as (? & ? & ?). simpl in *.
    eapply wp_free_adjcent; [done..|]. simpl.
    apply wp_when; rewrite ?bool_decide_eq_true, ?bool_decide_eq_false.
    + intros ->. eapply free_merge_ok; [exact Hr|lia..|]. intros s' Hr' Henv.
      eapply HQ; [exact Hr'|done|]. right. by exists x1, b0.
    + intros Hne. eapply HQ; [exact Hr0|done|]. left. split; [|done].
      intros x. rewrite last_snoc. by intros [= <-].
Qed.

Lemma free_insert_ok s ids xs u i b e lo hi (Q : unit → alloc_st → Prop) :
  repr s ids (Heap xs u) → info s (Pool i) = Some (mk i ALLOCATED (b, e)) →
  (0 ≤ lo)%Z → (hi < 2 ^ 32)%Z → bounded lo hi (b, e) →
  Forall (bounded lo hi) xs → StronglySorted before xs → (∀ x, x ∈ xs → disjoint_ext (b, e) x) →
  (∀ s' ids', repr s' ids' (Heap (give_back b e xs) (delete b u)) → same_env s s' → Q tt s') →
  wp (free_insert (Pool i)) Q s.
Proof.
  intros Hr Hi Hlo Hhi (Hb1 & Hb2 & Hb3) Hf Hs Hd HQ. simpl in *.
  destruct (free_split lo hi b e xs) as (x1 & x2 & -> & Hx1 & Hx2); [done..|].
  pose proof Hr as [Hl Hc]. pose proof (Forall2_length _ _ _ (ct_free _ _ _ Hc)) as Hlen.
  simpl in Hlen. rewrite length_app in Hlen.
  assert (∃ l1 l2, ids = l1 ++ l2 ∧ length l1 = length x1) as (l1 & l2 & -> & Hlen1).
  { exists (take (length x1) ids), (drop (length x1) ids). rewrite take_drop, length_take. split; [done|lia]. }
  clear Hlen. destruct (contents_below s l1 l2 x1 x2 u b) as [Hbel Habv]; [done..| | |].
  { intros x Hx. by apply Hx1. } { intros x Hx. specialize (Hx2 x Hx). lia. }
  assert (Hil : i ∉ l1 ++ l2) by (by eapply contents_unlisted).
  pose proof (path_distinct2 _ _ (lk_nodup _ _ Hl)) as Hpq.
  assert (Hpi : last_ptr l1 ≠ Pool i).
  { destruct l1 as [|j l1 _] using rev_ind; [done|]. unfold last_ptr. rewrite last_snoc. intros [= ->]. set_solver. }
  assert (Hqi : hd_ptr l2 ≠ Pool i) by (destruct l2; simpl; [done|intros [= ->]; set_solver]).
  pose proof (linked_split s _ l1 l2 Hl eq_refl) as [Hnx Hpv].
  pose proof (linked_split s _ [] (l1 ++ l2) Hl eq_refl) as [Hnx0 _].
  destruct (info_nx _ _ _ Hnx) as [dp Hdp]. destruct (info_pv _ _ _ Hpv) as [dq Hdq].
  change (last_ptr []) with (Special 0) in Hnx0. destruct (info_nx _ _ _ Hnx0) as [d0 Hd0].
  unfold free_insert. wp_steps. eapply wp_load; [done|]. intros bi _ _ Hbi. wp_steps.
  { apply bool_decide_eq_true. by injection Hbi. }
  rewrite (lk_head _ _ Hl). eapply wp_load; [done|]. intros b0 Hb0 _ _.
  assert (next b0 = hd_ptr (l1 ++ l2)) as -> by congruence. wp_steps.
  change (Special 0) with (last_ptr []).
  eapply (free_insert_loop_ok s i _ [] l1 l2); [done|done|done|done| |].
  { apply list_fuel_gt. pose proof (links_length _ _ Hl). rewrite length_app in *. lia. }
  simpl app. wp_steps. eapply wp_fits; [done..|]. wp_steps; [done|].
  eapply wp_store; [done|]. wp_steps. do 4 (eapply wp_store; [by upd_simp|]; wp_steps).
  match goal with |- wp (free_adjcent _ _) _ ?t => set (s1 := t) end.
  assert (Hr1 : repr s1 (l1 ++ i :: l2) (Heap (x1 ++ (b, e) :: x2) (delete b u))).
  { destruct (blk s (Pool i)) as [bl|] eqn:Ebl; [|unfold info in Hi; by rewrite Ebl in Hi].
    split; unfold s1.
    - apply (links_insert s); [done|done| |by repeat split; upd_simp|by upd_simp|..].
      + rewrite <-(lk_pool _ _ Hl). by eapply info_pool_lt.
      + intros y ? ?. by upd_simp.
      + upd_simp. by rewrite Hnx.
      + upd_simp. unfold nx. by rewrite Ebl.
      + intros y ? ?. by upd_simp.
      + upd_simp. unfold pv. by rewrite Ebl.
      + upd_simp. by rewrite Hpv.
    - apply (contents_insert (info s) _ l1 i l2 x1 (b, e) x2 u); [done..| | |].
      + done.
      + upd_simp. by rewrite Hi.
      + intros j ?. by upd_simp. }
  assert (He1 : same_env s s1) by (unfold s1; split; by upd_simp).
  apply Forall_app in Hf as [Hf1 Hf2].
  apply (wp_bind_nested _ (λ adj, when adj (free_merge (Pool i) (hd_ptr l2)))).
  eapply (merge_latter_ok s1 l1 i l2 x1 b e x2 (delete b u) lo hi); [done|done|lia..|done|].
  intros s2 l2' E x2' Hr2 Hjoin HE He2. wp_steps.
  apply (wp_bind_nested _ (λ adj, when adj (free_merge (last_ptr l1) (Pool i)))).
  eapply (merge_former_ok s2 l1 i l2' x1 b E x2' (delete b u) lo hi); [done|done|done|done|done|].
  intros s3 ids3 xs3 Hr3 He3 Hcase. eapply free_check_ok; [by destruct Hr3|].
  eapply HQ; [|by eauto using same_env_trans].
  enough (give_back b e (x1 ++ x2) = xs3) as -> by exact Hr3.
  apply (give_back_join_cases b e x1 x2 E x2' lo hi); [done| |done..].
  by apply (sorted_app x1 x2).
Qed.
