(* ===== verification/AllocPmm.v ===== *)
(** * The interface [pmm]: kalloc, kfree and pmm_init against the abstract heap

    Closes the refinement of AllocRefine.v at the interface: the size rounding
    and the first-fit search of [free_find], then [kalloc] and [kfree] as
    [heap_alloc] and [heap_free], and the state [pmm_init] leaves. *)
From S2P Require Import Prelude DList Common Procfs Alloc AllocSpec AllocRefine.

(** ** The size rounding of [free_find] *)

Lemma u32_double k : (0 ≤ k < 31)%Z → u32 (Z.shiftl (2 ^ k) 1) = (2 ^ (k + 1))%Z.
Proof.
  intros Hk. rewrite Z.shiftl_mul_pow2, Z.pow_add_r by lia. apply u32_small.
  pose proof (Z.pow_lt_mono_r 2 k 31 ltac:(lia) ltac:(lia) ltac:(lia)). lia.
Qed.

Lemma round_up_from fuel k sz :
  (10 ≤ k ≤ 31)%Z → (31 - k < Z.of_nat fuel)%Z → (sz ≤ 2 ^ 31)%Z →
  (k = 10 ∨ 2 ^ (k - 1) < sz)%Z →
  ∃ k', (10 ≤ k' ≤ 31)%Z ∧ round_up fuel (2 ^ k) sz = Some (2 ^ k')%Z ∧
    (sz ≤ 2 ^ k')%Z ∧ (k' = 10 ∨ 2 ^ (k' - 1) < sz)%Z.
Proof.
  revert k. induction fuel as [|n IH]; intros k Hk Hfuel Hsz Hleast; [lia|]. simpl.
  case_decide as Hlt; [|exists k; split_and!; [lia..|done|lia|done]].
  assert (k ≠ 31)%Z by (intros ->; lia). rewrite u32_double by lia.
  apply IH; [lia..|]. right. by replace (k + 1 - 1)%Z with k by lia.
Qed.

(** The size [free_find] looks for: the least power of two from 1 KB up. *)
Definition request (sz : Z) : Z := (2 ^ Z.max 10 (Z.log2_up sz))%Z.

Lemma round_up_request sz :
  (0 < sz ≤ 2 ^ 31)%Z → round_up round_fuel (KB 1) sz = Some (request sz).
Proof.
  intros Hsz. change (KB 1) with (2 ^ 10)%Z.
  destruct (round_up_from round_fuel 10 sz) as (k & Hk & -> & Hle & Hleast);
    [lia|unfold round_fuel; lia|lia|by left|].
  f_equal. unfold request. f_equal. destruct Hleast as [->|Hlt].
  - apply Z.log2_up_le_pow2 in Hle; lia.
  - rewrite (Z.log2_up_unique sz k) by lia. lia.
Qed.

Lemma request_bounds sz :
  (0 < sz ≤ 2 ^ 30)%Z → (sz ≤ request sz)%Z ∧ (2 ^ 10 ≤ request sz ≤ 2 ^ 30)%Z.
Proof.
  intros Hsz. unfold request. pose proof (Z.log2_up_nonneg sz).
  assert (Z.log2_up sz ≤ 30)%Z by (apply Z.log2_up_le_pow2; lia).
  assert (sz ≤ 2 ^ Z.log2_up sz)%Z by (apply Z.log2_up_le_pow2; lia).
  pose proof (Z.pow_le_mono_r 2 (Z.log2_up sz) (Z.max 10 (Z.log2_up sz)) ltac:(lia) ltac:(lia)).
  pose proof (Z.pow_le_mono_r 2 10 (Z.max 10 (Z.log2_up sz)) ltac:(lia) ltac:(lia)).
  pose proof (Z.pow_le_mono_r 2 (Z.max 10 (Z.log2_up sz)) 30 ltac:(lia) ltac:(lia)). lia.
Qed.

(** More fuel never changes a result. *)
Lemma round_up_none fuel z sz :
  (2 ^ 31 < sz)%Z → (z = 0 ∨ ∃ k, 0 ≤ k ≤ 31 ∧ z = 2 ^ k)%Z → round_up fuel z sz = None.
Proof.
  revert z. induction fuel as [|n IH]; intros z Hsz Hz; [done|]. simpl.
  assert (z ≤ 2 ^ 31)%Z.
  { destruct Hz as [->|(k & Hk & ->)]; [lia|]. apply Z.pow_le_mono_r; lia. }
  rewrite decide_True by lia. apply IH; [done|].
  destruct Hz as [->|(k & Hk & ->)]; [by left|].
  destruct (decide (k = 31)%Z) as [->|]; [by left|].
  right. exists (k + 1)%Z. rewrite u32_double by lia. split; [lia|done].
Qed.

(** ** First fit *)

Definition short (s : alloc_st) (n : Z) (j : nat) : Prop :=
  ∃ d, info s (Pool j) = Some d ∧ c_state d = UNALLOCATED ∧ (c_size d < n)%Z.

Lemma contents_short v s ids xs n :
  v = info s → Forall2 (λ i x, v (Pool i) = Some (mk i UNALLOCATED x)) ids xs →
  Forall (λ x, x.2 - x.1 < n)%Z xs → Forall (short s n) ids.
Proof.
  intros -> Hf. induction Hf as [|i x ids xs Hi _ IH]; intros Hx; [constructor|].
  apply Forall_cons in Hx as [Hx1 Hx2]. constructor; [|by apply IH]. by exists (mk i UNALLOCATED x).
Qed.

(** The search walks over short blocks. *)
Lemma wp_free_find_skip s ids l0 l1 l2 n fuel (Q : ptr → alloc_st → Prop) :
  links s ids → ids = l0 ++ l1 ++ l2 → Forall (short s n) l1 → length l1 ≤ fuel →
  wp (free_find_loop (fuel - length l1) n (hd_ptr l2)) Q s →
  wp (free_find_loop fuel n (hd_ptr (l1 ++ l2))) Q s.
Proof.
  intros Hl. revert l0 fuel. induction l1 as [|j l1 IH]; intros l0 fuel Hids Hs Hfuel HQ; simpl in *.
  { by rewrite Nat.sub_0_r in HQ. }
  apply Forall_cons in Hs as [(d & Hd & Hst & Hsz) Hs].
  destruct fuel as [|fuel]; [lia|]. simpl. wp_steps. rewrite (lk_tail _ _ Hl), decide_False by done.
  wp_steps. subst ids. destruct (linked_split_at s l0 j (l1 ++ l2) Hl) as (_ & _ & Hnx & _).
  eapply wp_load; [done|]. intros b Hb _ <-. simpl in *. rewrite decide_True by done. wp_steps.
  { by apply bool_decide_eq_true. }
  assert (next b = hd_ptr (l1 ++ l2)) as -> by congruence.
  apply (IH (l0 ++ [j])); [by rewrite <-(assoc_L (++))|done|lia|done].
Qed.

Lemma wp_free_find_stop s ids i d n fuel (Q : ptr → alloc_st → Prop) :
  links s ids → info s (Pool i) = Some d → (n ≤ c_size d)%Z → 0 < fuel → Q (Pool i) s →
  wp (free_find_loop fuel n (Pool i)) Q s.
Proof.
  intros Hl Hi Hn Hfuel HQ. destruct fuel as [|fuel]; [lia|]. simpl. wp_steps.
  rewrite (lk_tail _ _ Hl), decide_False by done. wp_steps. eapply wp_load; [done|].
  intros b _ _ <-. simpl in *. by rewrite decide_False by lia.
Qed.

Lemma wp_free_find_end s ids n fuel (Q : ptr → alloc_st → Prop) :
  links s ids → 0 < fuel → Q (Special 1) s → wp (free_find_loop fuel n (Special 1)) Q s.
Proof.
  intros Hl Hfuel HQ. destruct fuel as [|fuel]; [lia|]. simpl. wp_steps.
  by rewrite (lk_tail _ _ Hl), decide_True.
Qed.

(** The load of the first node. *)
Lemma wp_load_first s ids (Q : mem_block → alloc_st → Prop) :
  links s ids → (∀ b, next b = hd_ptr ids → Q b s) → wp (load (Special 0)) Q s.
Proof.
  intros Hl HQ. pose proof (linked_split s ids [] ids Hl eq_refl) as [Hnx _].
  change (last_ptr []) with (Special 0) in Hnx. destruct (info_nx _ _ _ Hnx) as [d Hd].
  eapply wp_load; [done|]. intros b Hb _ _. apply HQ. congruence.
Qed.

(** ** The pool has room when the heap has fewer extents than blocks *)

Lemma has_room_unused s ids h :
  repr s ids h → length (free_ext h) + base.size (used h) < POOL_SIZE → has_unused s.
Proof.
  intros [Hl Hc] Hroom.
  destruct (decide (Exists (λ b, state b = UNUSED) (pool s))) as [Hex|Hex].
  { apply Exists_exists in Hex as (b & Hb & Hst). apply list_elem_of_lookup in Hb as [k Hk].
    exists k, (core_of b). split; [|done]. unfold info. simpl. by rewrite Hk. }
  exfalso. set (al := filter (λ i, c_state <$> info s (Pool i) = Some ALLOCATED) (seq 0 POOL_SIZE)).
  set (bg := λ i, default 0%Z (c_begin <$> info s (Pool i))).
  assert (Hal : ∀ i, i ∈ al → ∃ d, info s (Pool i) = Some d ∧ c_state d = ALLOCATED).
  { intros i [Hi _]%list_elem_of_filter. destruct (info s (Pool i)) as [d|]; [|done].
    exists d. split; [done|]. by injection Hi. }
  assert (Hsub : seq 0 POOL_SIZE ⊆ ids ++ al).
  { intros i Hi. pose proof (elem_of_seq 0 POOL_SIZE i) as Hseq.
    destruct (lookup_lt_is_Some_2 (pool s) i) as [b Hb].
    { rewrite (lk_pool _ _ Hl). apply Hseq in Hi. lia. }
    assert (info s (Pool i) = Some (core_of b)) as Hinfo by (unfold info; simpl; by rewrite Hb).
    apply elem_of_app. destruct (state b) eqn:Hst.
    - exfalso. apply Hex, Exists_exists. exists b. split; [|done]. by eapply list_elem_of_lookup_2.
    - left. by apply (ct_listed _ _ _ Hc i (core_of b)).
    - right. apply list_elem_of_filter. split; [|done]. rewrite Hinfo. simpl. by rewrite Hst. }
  assert (Hnd : NoDup (bg <$> al)).
  { apply NoDup_fmap_2_strong; [|apply NoDup_filter, NoDup_ListNoDup, seq_NoDup].
    intros i j (d & Hd & Hsd)%Hal (d' & Hd' & Hsd')%Hal. unfold bg. rewrite Hd, Hd'. simpl.
    intros Heq. by apply (ct_inj _ _ _ Hc i j d d'). }
  assert (Hdom : list_to_set (bg <$> al) ⊆ dom (used h)).
  { intros z (i & -> & (d & Hd & Hsd)%Hal)%elem_of_list_to_set%list_elem_of_fmap.
    apply elem_of_dom. unfold bg. rewrite Hd. simpl. eexists. by apply (ct_alloc _ _ _ Hc i d). }
  apply subseteq_size in Hdom. rewrite size_list_to_set in Hdom by done.
  rewrite size_dom, length_fmap in Hdom.
  assert (length (seq 0 POOL_SIZE) ≤ length (ids ++ al)) as Hlen.
  { apply submseteq_length, NoDup_submseteq; [apply NoDup_ListNoDup, seq_NoDup|done]. }
  rewrite length_seq, length_app in Hlen.
  pose proof (Forall2_length _ _ _ (ct_free _ _ _ Hc)). lia.
Qed.

(** ** [free_find] takes the first fit *)

Lemma used_fresh lo hi h b e0 :
  heap_ok lo hi h → (b, e0) ∈ free_ext h → used h !! b = None.
Proof.
  intros Hok Hin. destruct (used h !! b) as [e|] eqn:Hb; [|done].
  pose proof (hk_free_disjoint _ _ _ Hok _ _ _ Hb Hin) as Hd.
  pose proof (hk_used _ _ _ Hok _ _ Hb) as (_ & ? & _).
  pose proof (hk_free _ _ _ Hok) as Hf. rewrite Forall_forall in Hf. destruct (Hf _ Hin) as (_ & ? & _).
  unfold disjoint_ext in Hd. simpl in *. lia.
Qed.

Lemma repr_split s ids x1 y u :
  repr s ids (Heap (x1 ++ y) u) →
  ∃ l1 l2, ids = l1 ++ l2 ∧ length l1 = length x1 ∧ length l2 = length y.
Proof.
  intros [_ Hc]. pose proof (Forall2_length _ _ _ (ct_free _ _ _ Hc)) as Hlen.
  simpl in Hlen. rewrite length_app in Hlen. exists (take (length x1) ids), (drop (length x1) ids).
  rewrite take_drop, length_take, length_drop. split_and!; [done|lia|lia].
Qed.

Lemma wp_free_find_prefix s ids sz (Q : ptr → alloc_st → Prop) :
  links s ids → (0 < sz ≤ 2 ^ 30)%Z →
  wp (free_find_loop list_fuel (request sz) (hd_ptr ids)) (λ block, wp (
    t ← gets tail;
    assert (bool_decide (block ≠ t));;
    b ← load block;
    assert (bool_decide (request sz ≤ size b)%Z);;
    when (bool_decide (2 * request sz ≤ size b)%Z) (free_cut block (request sz));;
    free_delete block;; mret block) Q) s →
  wp (free_find sz) Q s.
Proof.
  intros Hl Hsz HQ. unfold free_find. apply wp_bind.
  eapply wp_deref; [apply round_up_request; lia|]. wp_steps. rewrite (lk_head _ _ Hl).
  eapply wp_load_first; [done|]. intros b ->. apply wp_bind.
  pose proof (request_bounds sz Hsz). by rewrite u32_small by lia.
Qed.

Lemma free_find_ok s ids h lo hi sz b e l (Q : ptr → alloc_st → Prop) :
  repr s ids h → heap_ok lo hi h → (0 ≤ lo)%Z → (hi < 2 ^ 32)%Z →
  has_unused s → (0 < sz ≤ 2 ^ 30)%Z →
  take_fit (request sz) (free_ext h) = Some ((b, e), l) →
  (∀ s' ids' i, repr s' ids' (Heap l (<[b := e]> (used h))) →
    info s' (Pool i) = Some (mk i ALLOCATED (b, e)) → same_env s s' → Q (Pool i) s') →
  wp (free_find sz) Q s.
Proof.
  intros Hr Hok Hlo Hhi Hun Hsz Hfit HQ. pose proof (request_bounds sz Hsz) as [_ Hrq].
  apply take_fit_inv in Hfit as (Hn & x1 & x2 & e0 & Hext & Hsh & Hcase).
  pose proof (used_fresh _ _ _ b e0 Hok ltac:(rewrite Hext; set_solver)) as Hb.
  pose proof (hk_free _ _ _ Hok) as Hf. rewrite Hext, Forall_app, Forall_cons in Hf.
  destruct Hf as (_ & (Hlo' & Hbe & Hhi') & _). destruct h as [f u]. simpl in *. subst f.
  destruct (repr_split _ _ _ _ _ Hr) as (l1 & [|i l2] & -> & Hlen & Hlen2); [done|].
  pose proof Hr as [Hl Hc]. pose proof (contents_at _ _ _ _ _ _ _ _ Hc Hlen) as Hi.
  eapply wp_free_find_prefix; [done..|].
  assert (Hshort : Forall (short s (request sz)) l1).
  { pose proof (ct_free _ _ _ Hc) as Hf2. simpl in Hf2. apply Forall2_app_inv in Hf2 as [Hf2 _]; [|done].
    by eapply contents_short. }
  pose proof (list_fuel_gt _ (links_length _ _ Hl)) as Hfuel. rewrite length_app in Hfuel. simpl in Hfuel.
  apply (wp_free_find_skip s (l1 ++ i :: l2) [] l1 (i :: l2)); [done|done|done|lia|]. simpl.
  assert ((request sz ≤ c_size (mk i UNALLOCATED (b, e0)))%Z) as Hsize.
  { simpl. destruct Hcase as [(-> & _)|(_ & ? & _)]; lia. }
  eapply wp_free_find_stop; [done..|lia|]. wp_steps.
  { apply bool_decide_eq_true. by rewrite (lk_tail _ _ Hl). }
  eapply wp_load; [done|]. intros bi _ _ Hbi. injection Hbi as _ _ Hbs _ _. simpl in Hbs. wp_steps.
  { apply bool_decide_eq_true. by rewrite Hbs. }
  rewrite Hbs. destruct Hcase as [(-> & Hlt & ->)|(-> & Hle & ->)].
  - rewrite bool_decide_false by lia. simpl. wp_steps.
    eapply (free_delete_ok s l1 i l2 x1 (b, e) x2 u); [done..|]. simpl. intros s' Hr' Hi' Henv. wp_steps.
    by eapply HQ.
  - rewrite bool_decide_true by lia. simpl.
    eapply (free_cut_ok s l1 i l2 x1 b e0 x2 u); [done|done|done|lia..|]. intros s1 k Hr1 Henv1. wp_steps.
    eapply (free_delete_ok s1 l1 i (k :: l2) x1 (b, b + request sz)%Z _ u); [done..|]. simpl.
    intros s' Hr' Hi' Henv. wp_steps. eapply HQ; [done..|]. by eapply same_env_trans.
Qed.

(** The search falls off the list, and [assert(block != free.tail)] halts. *)
Lemma free_find_fails s ids h sz :
  repr s ids h → (0 < sz ≤ 2 ^ 30)%Z → take_fit (request sz) (free_ext h) = None →
  free_find sz s = Err Halt.
Proof.
  intros [Hl Hc] Hsz Hfit%take_fit_None.
  assert (Hloop : wp (free_find_loop list_fuel (request sz) (hd_ptr ids)) (λ p s', p = Special 1 ∧ s' = s) s).
  { pose proof (list_fuel_gt _ (links_length _ _ Hl)). rewrite <-(app_nil_r ids).
    apply (wp_free_find_skip s ids [] ids []); [done|by rewrite app_nil_r|by eapply contents_short, Hfit; [|apply ct_free]|lia|].
    simpl. eapply wp_free_find_end; [done|lia|done]. }
  apply wp_run in Hloop as (p & s' & Hrun & -> & ->).
  assert (Hfirst : wp (load (Special 0)) (λ b s', next b = hd_ptr ids ∧ s' = s) s).
  { eapply wp_load_first; [done|]. done. }
  apply wp_run in Hfirst as (b & s' & Hload & Hb & ->).
  unfold free_find. rewrite (round_up_request sz) by lia. unfold deref at 1.
  erewrite (bind_run (mret _)) by done. erewrite (bind_run (gets head)) by done.
  rewrite (lk_head _ _ Hl). erewrite (bind_run (load _)) by done. rewrite Hb.
  erewrite bind_run by done. erewrite (bind_run (gets tail)) by done.
  rewrite (lk_tail _ _ Hl), bool_decide_false by naive_solver. done.
Qed.

(** ** The interface *)

(** A state of alloc.c at rest that implements the heap [h] over [lo, hi). *)
Record alloc_ok (lo hi : Z) (s : alloc_st) (h : heap) : Prop := {
  ao_repr : ∃ ids, repr s ids h;
  ao_heap : heap_ok lo hi h;
  ao_lock : memoplk s = UNLOCKED
}.

Lemma repr_memoplk v s ids h : repr s ids h → repr (set_memoplk v s) ids h.
Proof. intros [[] []]. by split; split. Qed.

Lemma repr_procfs p s ids h : repr s ids h → repr (set_procfs p s) ids h.
Proof. intros [[] []]. by split; split. Qed.

Lemma wp_mem_trace (sz mode : Z) (Q : unit → alloc_st → Prop) s :
  mode = 0%Z ∨ mode = 1%Z →
  Q tt (set_procfs (set_mem_used
    (u64 (if decide (mode = 0)%Z then mem_used (procfs s) + sz else mem_used (procfs s) - sz))
    (procfs s)) s) →
  wp (zoom procfs set_procfs (procfs_mem_trace sz mode)) Q s.
Proof. intros [->| ->] HQ; exact HQ. Qed.

Lemma wp_kalloc s h lo hi sz b e l (Q : Z → alloc_st → Prop) :
  alloc_ok lo hi s h → (0 < lo)%Z → (hi < 2 ^ 32)%Z →
  has_unused s → (0 < sz ≤ 2 ^ 30)%Z →
  take_fit (request sz) (free_ext h) = Some ((b, e), l) →
  (∀ s', alloc_ok lo hi s' (Heap l (<[b := e]> (used h))) →
    mem_used (procfs s') = u64 (mem_used (procfs s) + (e - b)) → Q b s') →
  wp (kalloc sz) Q s.
Proof.
  intros [[ids Hr] Hok Hlk] Hlo Hhi Hroom Hsz Hfit HQ. unfold kalloc. rewrite decide_False by lia.
  assert (Hok' : heap_ok lo hi (Heap l (<[b := e]> (used h)))).
  { pose proof (request_bounds sz Hsz). eapply (heap_alloc_ok lo hi (request sz) h b); [lia|done|].
    unfold heap_alloc. by rewrite Hfit. }
  assert (b ≠ 0)%Z as Hb0.
  { destruct (hk_used _ _ _ Hok' b e) as (? & _); simpl in *; [by rewrite lookup_insert_eq|lia]. }
  wp_steps. apply wp_naivelock_lock; [done|]. wp_steps.
  eapply (free_find_ok _ ids); [by apply repr_memoplk|done|lia|done..|]. clear Hfit.
  intros s1 ids1 i Hr1 Hi1 [Hlk1 Hpf1]. wp_steps.
  eapply wp_load; [done|]. intros b1 _ _ Hb1. injection Hb1 as _ _ Hbs _ _. simpl in Hbs. wp_steps.
  apply wp_mem_trace; [by left|]. rewrite decide_True, Hbs by done. wp_steps; [by apply bool_decide_eq_true|].
  pose proof (repr_procfs (set_mem_used (u64 (mem_used (procfs s1) + (e - b))) (procfs s1)) _ _ _ Hr1) as Hr2.
  eapply free_check_ok; [apply Hr2|]. wp_steps.
  eapply wp_load; [done|]. intros b2 _ _ Hb2. injection Hb2 as _ _ _ Hbb _. simpl in Hbb. wp_steps.
  { by rewrite Hbb, bool_decide_true. }
  apply wp_naivelock_unlock. wp_steps.
  eapply wp_load; [done|]. intros b3 _ _ Hb3. injection Hb3 as _ _ _ -> _. wp_steps. simpl.
  apply HQ; [split; [|done|done]|].
  - exists ids1. by apply repr_memoplk.
  - simpl. by rewrite Hpf1.
Qed.

Lemma wp_find_allocated_block s ids h b e (Q : nat → alloc_st → Prop) :
  repr s ids h → used h !! b = Some e →
  (∀ i, info s (Pool i) = Some (mk i ALLOCATED (b, e)) → Q i s) → wp (find_allocated_block b) Q s.
Proof.
  intros [_ Hc] Hb HQ. destruct (ct_used _ _ _ Hc _ _ Hb) as [i Hi].
  unfold find_allocated_block. wp_steps. destruct (first_index _ (pool s)) as [j|] eqn:E.
  - eapply wp_deref; [done|]. apply HQ. apply first_index_Some in E as [(bj & Hj & Hst) _].
    apply andb_true_iff in Hst as [Hst%bool_decide_eq_true Hbg%bool_decide_eq_true].
    assert (info s (Pool j) = Some (core_of bj)) as Hinfo by (unfold info; simpl; by rewrite Hj).
    by rewrite (ct_inj _ _ _ Hc j i _ _ Hinfo Hi Hst eq_refl Hbg).
  - exfalso. rewrite first_index_None in E. unfold info in Hi. simpl in Hi.
    destruct (pool s !! i) as [bi|] eqn:Hbi; [|done]. injection Hi as _ Hst _ Hbg _.
    specialize (E _ _ Hbi). simpl in Hbg. by rewrite Hst, Hbg, !bool_decide_true in E.
Qed.

Lemma wp_kfree s h lo hi b e (Q : unit → alloc_st → Prop) :
  alloc_ok lo hi s h → (0 < lo)%Z → (hi < 2 ^ 32)%Z → used h !! b = Some e →
  (∀ s', alloc_ok lo hi s' (Heap (give_back b e (free_ext h)) (delete b (used h))) →
    mem_used (procfs s') = u64 (mem_used (procfs s) - (e - b)) → Q tt s') →
  wp (kfree b) Q s.
Proof.
  intros [[ids Hr] Hok Hlk] Hlo Hhi Hb HQ.
  assert (Hok' : heap_ok lo hi (Heap (give_back b e (free_ext h)) (delete b (used h)))).
  { eapply (heap_free_ok lo hi b h); [done|]. unfold heap_free. by rewrite Hb. }
  unfold kfree. wp_steps. apply wp_naivelock_lock; [done|]. wp_steps.
  eapply (wp_find_allocated_block _ ids h); [by apply repr_memoplk|done|]. intros i Hi. wp_steps.
  eapply wp_load; [done|]. intros b1 _ _ Hb1. injection Hb1 as _ _ Hbs _ _. simpl in Hbs. wp_steps.
  apply wp_mem_trace; [by right|]. rewrite decide_False, Hbs by done. wp_steps.
  destruct h as [f u]. simpl in *.
  eapply (free_insert_ok _ ids f u i b e lo hi).
  - by apply repr_procfs, repr_memoplk.
  - done.
  - lia.
  - done.
  - by apply (hk_used _ _ _ Hok).
  - apply (hk_free _ _ _ Hok).
  - apply (hk_sorted _ _ _ Hok).
  - intros x Hx. by apply (hk_free_disjoint _ _ _ Hok).
  - intros s' ids' Hr' [Hlk' Hpf']. wp_steps. apply wp_naivelock_unlock. apply HQ; [split; [|done|done]|].
    + exists ids'. by apply repr_memoplk.
    + simpl. by rewrite Hpf'.
Qed.

(** ** The initial state *)

(** The invariant of the loop of [free_init]: the blocks before [i] are numbered
    and unused. *)
Record init_upto (i : Z) (s0 s : alloc_st) : Prop := {
  iu_pool : length (pool s) = POOL_SIZE;
  iu_special : length (special s) = 2;
  iu_env : same_env s0 s;
  iu_done : ∀ j d, (Z.of_nat j < i)%Z → info s (Pool j) = Some d →
    c_id d = Z.of_nat j ∧ c_state d = UNUSED
}.

Lemma info_pool_Some s i : i < length (pool s) → ∃ d, info s (Pool i) = Some d.
Proof.
  intros [b Hb]%lookup_lt_is_Some_2. exists (core_of b). unfold info. simpl. by rewrite Hb.
Qed.

Lemma info_special_Some s i : i < length (special s) → ∃ d, info s (Special i) = Some d.
Proof.
  intros [b Hb]%lookup_lt_is_Some_2. exists (core_of b). unfold info. simpl. by rewrite Hb.
Qed.

Lemma info_upd p f s q :
  info (upd_blk p f s) q = if decide (p = q) then core_of ∘ f <$> blk s q else info s q.
Proof. unfold info. rewrite blk_upd. case_decide; [|done]. by destruct (blk s q). Qed.

Lemma free_init_loop s (Q : unit → alloc_st → Prop) :
  length (pool s) = POOL_SIZE → length (special s) = 2 →
  (∀ s', init_upto (Z.of_nat POOL_SIZE) s s' → Q tt s') →
  wp (for_range 0 (Z.of_nat POOL_SIZE) (λ i,
    store (Pool (Z.to_nat i))
      (λ b, MemBlock i UNUSED (size b) (begin b) (end_ b) (prev b) (next b)))) Q s.
Proof.
  intros Hp Hsp HQ. eapply wp_mono; [apply (wp_for_range (λ i s', init_upto i s s'))|].
  - lia.
  - split; [done|done|by split|]. intros. lia.
  - intros i s1 Hi [Hp1 Hsp1 He1 Hd1]. destruct (info_pool_Some s1 (Z.to_nat i)) as [d Hd]; [lia|].
    eapply wp_store; [done|]. split; [by rewrite pool_length_upd|by rewrite special_length_upd| |].
    + destruct He1 as [? ?]. split; by upd_simp.
    + intros j dj Hj. rewrite info_upd. case_decide as Heq.
      * injection Heq as <-. destruct (blk s1 _); [|done]. simpl. intros [= <-]. simpl. split; [lia|done].
      * intros Hdj. apply (Hd1 j); [|done]. destruct (decide (Z.of_nat j = i)); [|lia].
        subst i. by rewrite Nat2Z.id in Heq.
  - intros [] s' Hs'. by apply HQ.
Qed.

Lemma linked_start s :
  nx s (Special 0) = Some (Pool 0) → pv s (Pool 0) = Some (Special 0) →
  nx s (Pool 0) = Some (Special 1) → pv s (Special 1) = Some (Pool 0) →
  linked (nx s) (pv s) (path [0]).
Proof. intros. by repeat split. Qed.

Lemma free_init_ok s lo hi (Q : unit → alloc_st → Prop) :
  length (pool s) = POOL_SIZE → length (special s) = 2 → (0 ≤ lo < hi)%Z → (hi < 2 ^ 32)%Z →
  (∀ s', repr s' [0] (Heap [(lo, hi)] ∅) → same_env s s' → Q tt s') →
  wp (free_init lo hi) Q s.
Proof.
  intros Hp Hsp Hlo Hhi HQ. unfold free_init. apply wp_bind. eapply free_init_loop; [done..|].
  intros s1 [Hp1 Hsp1 He1 Hd1]. pose proof POOL_SIZE_small as HP.
  destruct (info_pool_Some s1 0) as [d0 Hd0]; [lia|]. destruct (Hd1 0 d0) as [Hid0 Hst0]; [lia|done|].
  destruct (info_special_Some s1 0) as [e0 He0]; [lia|].
  destruct (info_special_Some s1 1) as [e1 Hev]; [lia|].
  wp_steps. set (s2 := set_ends (Special 0) (Special 1) s1).
  assert (∀ p, blk s2 p = blk s1 p) as Hblk by done.
  assert (∀ p, info s2 p = info s1 p) as Hinf by done. simpl.
  do 8 (eapply wp_store; [by upd_simp; rewrite Hinf, ?Hd0, ?He0, ?Hev|]; wp_steps).
  destruct (blk s1 (Pool 0)) as [bp|] eqn:Ebp; [|unfold info in Hd0; by rewrite Ebp in Hd0].
  destruct (blk s1 (Special 0)) as [bh|] eqn:Ebh; [|unfold info in He0; by rewrite Ebh in He0].
  destruct (blk s1 (Special 1)) as [bt|] eqn:Ebt; [|unfold info in Hev; by rewrite Ebt in Hev].
  apply HQ; clear HQ; [split; split|].
  - by upd_simp.
  - by upd_simp.
  - by upd_simp.
  - by upd_simp.
  - apply NoDup_singleton.
  - apply linked_start; upd_simp; unfold nx, pv; by rewrite Hblk, ?Ebp, ?Ebh, ?Ebt.
  - done.
  - constructor; [|constructor]. upd_simp. rewrite Hinf, Hd0. simpl. rewrite u32_small by lia.
    unfold mk. simpl. by rewrite Hid0.
  - intros i d. upd_simp. case_decide as Hi.
    + injection Hi as <-. rewrite Hinf, Hd0. intros [= <-]. done.
    + intros Hd. eapply Hd1; [|done]. apply info_pool_lt in Hd. change (pool s2) with (pool s1) in Hd. lia.
  - intros i d. upd_simp. case_decide as Hi.
    + injection Hi as <-. set_solver.
    + intros Hd Hst. exfalso. destruct (Hd1 i d) as [_ Hun]; [|done|congruence].
      apply info_pool_lt in Hd. change (pool s2) with (pool s1) in Hd. lia.
  - done.
  - intros i d. upd_simp. case_decide as Hi.
    + injection Hi as <-. rewrite Hinf, Hd0. by intros [= <-].
    + intros Hd Hst. exfalso. destruct (Hd1 i d) as [_ Hun]; [|done|congruence].
      apply info_pool_lt in Hd. change (pool s2) with (pool s1) in Hd. lia.
  - intros i j d d' Hd _ Hst. exfalso. revert Hd. upd_simp. case_decide as Hi.
    + injection Hi as <-. rewrite Hinf, Hd0. by intros [= <-].
    + intros Hd. destruct (Hd1 i d) as [_ Hun]; [|done|congruence].
      apply info_pool_lt in Hd. change (pool s2) with (pool s1) in Hd. lia.
  - destruct He1 as [? ?]. split; by upd_simp.
Qed.

Lemma heap_init_ok lo hi : (lo < hi)%Z → heap_ok lo hi (Heap [(lo, hi)] ∅).
Proof.
  intros Hlt. split; simpl; try done.
  - constructor; [|constructor]. unfold bounded. simpl. lia.
  - repeat constructor.
  - intros a Ha. left. exists (lo, hi). split; [set_solver|]. unfold inside. simpl. lia.
Qed.

Lemma wp_pmm_init s lo hi (Q : unit → alloc_st → Prop) :
  length (pool s) = POOL_SIZE → length (special s) = 2 → memoplk s = UNLOCKED →
  (0 ≤ lo < hi)%Z → (hi < 2 ^ 32)%Z →
  (∀ s', alloc_ok lo hi s' (Heap [(lo, hi)] ∅) → procfs s' = set_mem_total (hi - lo) (procfs s) → Q tt s') →
  wp (pmm_init lo hi) Q s.
Proof.
  intros Hp Hsp Hlk Hlo Hhi HQ. unfold pmm_init. wp_steps. apply wp_naivelock_lock; [done|]. wp_steps.
  eapply free_init_ok; [done..|]. intros s' Hr [Hlk' Hpf']. wp_steps. apply wp_naivelock_unlock.
  apply HQ; [split; [|by apply heap_init_ok; lia|done]|].
  - eexists. by apply repr_memoplk.
  - simpl. rewrite Hpf'. simpl. by rewrite u32_small, u64_small by lia.
Qed.

(** ** Runs of the allocator *)

(** The states reached from a boot by completed calls, each allocation made while
    an unused descriptor is left. *)
Inductive alloc_reach (lo hi : Z) : alloc_st → Prop :=
  | reach_init p s : pmm_init lo hi (alloc_boot p) = Ret (tt, s) → alloc_reach lo hi s
  | reach_alloc s sz b s' : alloc_reach lo hi s → has_unused s → (0 < sz ≤ 2 ^ 30)%Z →
      kalloc sz s = Ret (b, s') → alloc_reach lo hi s'
  | reach_free s b s' : alloc_reach lo hi s → kfree b s = Ret (tt, s') → alloc_reach lo hi s'.

Lemma kfree_unknown lo hi s h b :
  alloc_ok lo hi s h → used h !! b = None → kfree b s = Err Halt.
Proof.
  intros [[ids [Hl Hc]] _ Hlk] Hb.
  assert (Hfind : find_allocated_block b (set_memoplk LOCKED s) = Err Halt).
  { unfold find_allocated_block. erewrite (bind_run get) by done.
    destruct (first_index _ _) as [i|] eqn:E; [|done]. exfalso.
    apply first_index_Some in E as [(bi & Hi & Hst) _].
    apply andb_true_iff in Hst as [Hst%bool_decide_eq_true Hbg%bool_decide_eq_true].
    assert (info s (Pool i) = Some (core_of bi)) as Hinfo by (unfold info; simpl; simpl in Hi; by rewrite Hi).
    destruct (ct_alloc _ _ _ Hc _ _ Hinfo Hst) as [Hu _]. simpl in Hu. congruence. }
  unfold kfree. erewrite bind_run.
  2: { unfold naivelock_lock, atomic_xchg. erewrite bind_run by done. by rewrite decide_True. }
  by erewrite bind_err by done.
Qed.

Lemma kalloc_fails lo hi s h sz :
  alloc_ok lo hi s h → (0 < sz ≤ 2 ^ 30)%Z → take_fit (request sz) (free_ext h) = None →
  kalloc sz s = Err Halt.
Proof.
  intros [[ids Hr] _ Hlk] Hsz Hfit. unfold kalloc. rewrite decide_False by lia.
  erewrite bind_run.
  2: { unfold naivelock_lock, atomic_xchg. erewrite bind_run by done. by rewrite decide_True. }
  erewrite bind_err; [done|]. eapply (free_find_fails _ ids h); [by apply repr_memoplk|done..].
Qed.

Lemma alloc_reach_ok lo hi s :
  (0 < lo < hi)%Z → (hi < 2 ^ 32)%Z → alloc_reach lo hi s → ∃ h, alloc_ok lo hi s h.
Proof.
  intros Hlo Hhi. induction 1 as [p s Hrun|s sz b s' Hs [h IH] Hun Hsz Hrun|s b s' Hs [h IH] Hrun].
  - eexists (Heap [(lo, hi)] ∅).
    assert (Hwp : wp (pmm_init lo hi) (λ _ s', alloc_ok lo hi s' (Heap [(lo, hi)] ∅)) (alloc_boot p)).
    { eapply wp_pmm_init; [apply length_replicate|done|done|lia|done|done]. }
    unfold wp in Hwp. by rewrite Hrun in Hwp.
  - destruct (take_fit (request sz) (free_ext h)) as [[[b0 e] l]|] eqn:Hfit.
    + assert (Hwp : wp (kalloc sz) (λ _ s', ∃ h', alloc_ok lo hi s' h') s).
      { eapply wp_kalloc; [done|lia|done|done|done|done|]. eauto. }
      unfold wp in Hwp. by rewrite Hrun in Hwp.
    + by erewrite kalloc_fails in Hrun.
  - destruct (used h !! b) as [e|] eqn:Hb.
    + assert (Hwp : wp (kfree b) (λ _ s', ∃ h', alloc_ok lo hi s' h') s).
      { eapply wp_kfree; [done|lia|done|done|]. eauto. }
      unfold wp in Hwp. by rewrite Hrun in Hwp.
    + by erewrite kfree_unknown in Hrun.
Qed.

(** ** Properties *)

(** C1. [kalloc] implements the abstract first-fit allocation: from a state that
    represents the heap [h], it returns the start of the extent [heap_alloc]
    chooses for the size rounded up to a power of two, leaves a state that
    represents the resulting heap with the lock released, and adds the block's
    size to /proc/meminfo's count; when no free extent is large enough it halts
    on its assertion. *)
Theorem kalloc_refines lo hi s h sz :
  alloc_ok lo hi s h → (0 < lo)%Z → (hi < 2 ^ 32)%Z → (0 < sz ≤ 2 ^ 30)%Z →
  length (free_ext h) + base.size (used h) < POOL_SIZE →
  match heap_alloc (request sz) h with
  | Some (b, h') => ∃ s' e, kalloc sz s = Ret (b, s') ∧ alloc_ok lo hi s' h' ∧
      used h' = <[b := e]> (used h) ∧ (sz ≤ e - b)%Z ∧
      mem_used (procfs s') = u64 (mem_used (procfs s) + (e - b))
  | None => kalloc sz s = Err Halt
  end.
Proof.
  intros Hok Hlo Hhi Hsz Hroom. unfold heap_alloc.
  destruct (take_fit (request sz) (free_ext h)) as [[[b e] l]|] eqn:Hfit; [|by eapply kalloc_fails].
  assert (Hwp : wp (kalloc sz) (λ a s', a = b ∧ alloc_ok lo hi s' (Heap l (<[b := e]> (used h))) ∧
    mem_used (procfs s') = u64 (mem_used (procfs s) + (e - b))) s).
  { destruct (ao_repr _ _ _ _ Hok) as [ids Hr].
    eapply wp_kalloc; [done..|by eapply has_room_unused|done|done|]. auto. }
  apply wp_run in Hwp as (a & s' & Hrun & -> & Hok' & Hmem). exists s', e.
  pose proof (request_bounds sz Hsz). apply take_fit_inv in Hfit as [? _]. split_and!; try done; lia.
Qed.

(** C2. [kfree] implements the abstract deallocation with coalescing: the extent
    that starts at the pointer goes back to the free list, joined with the free
    neighbours it touches, and leaves the count of used memory; a pointer that
    is not the start of an allocated block halts. *)
Theorem kfree_refines lo hi s h b :
  alloc_ok lo hi s h → (0 < lo)%Z → (hi < 2 ^ 32)%Z →
  match heap_free b h with
  | Some h' => ∃ s' e, kfree b s = Ret (tt, s') ∧ alloc_ok lo hi s' h' ∧ used h !! b = Some e ∧
      mem_used (procfs s') = u64 (mem_used (procfs s) - (e - b))
  | None => kfree b s = Err Halt
  end.
Proof.
  intros Hok Hlo Hhi. unfold heap_free.
  destruct (used h !! b) as [e|] eqn:Hb; [|by eapply kfree_unknown].
  assert (Hwp : wp (kfree b) (λ _ s', alloc_ok lo hi s' (Heap (give_back b e (free_ext h)) (delete b (used h))) ∧
    mem_used (procfs s') = u64 (mem_used (procfs s) - (e - b))) s).
  { eapply wp_kfree; [done..|]. auto. }
  apply wp_run in Hwp as ([] & s' & Hrun & Hok' & Hmem). by exists s', e.
Qed.

(** Freeing what was just allocated undoes the allocation: the split is merged
    back, the state represents the same heap and the count of used memory is
    what it was. *)
Theorem kalloc_kfree lo hi s h sz b s' :
  alloc_ok lo hi s h → (0 < lo)%Z → (hi < 2 ^ 32)%Z → (0 < sz ≤ 2 ^ 30)%Z →
  has_unused s → (0 ≤ mem_used (procfs s) < 2 ^ 64)%Z → kalloc sz s = Ret (b, s') →
  ∃ s'', kfree b s' = Ret (tt, s'') ∧ alloc_ok lo hi s'' h ∧
    mem_used (procfs s'') = mem_used (procfs s).
Proof.
  intros Hok Hlo Hhi Hsz Hun Hm Hrun.
  destruct (take_fit (request sz) (free_ext h)) as [[[b0 e] l]|] eqn:Hfit;
    [|by erewrite kalloc_fails in Hrun].
  assert (Hwp : wp (kalloc sz) (λ a s', a = b0 ∧ alloc_ok lo hi s' (Heap l (<[b0 := e]> (used h))) ∧
    mem_used (procfs s') = u64 (mem_used (procfs s) + (e - b0))) s) by (eapply wp_kalloc; eauto).
  unfold wp in Hwp. rewrite Hrun in Hwp. destruct Hwp as (-> & Hok' & Hm').
  pose proof (request_bounds sz Hsz).
  assert (Hback : heap_free b0 (Heap l (<[b0 := e]> (used h))) = Some h).
  { eapply (heap_alloc_free lo hi (request sz)); [lia|apply (ao_heap _ _ _ _ Hok)|].
    unfold heap_alloc. by rewrite Hfit. }
  unfold heap_free in Hback. simpl in Hback. rewrite lookup_insert_eq in Hback. injection Hback as Hback.
  assert (Hwp : wp (kfree b0) (λ _ s'', alloc_ok lo hi s'' h ∧
    mem_used (procfs s'') = u64 (mem_used (procfs s') - (e - b0))) s').
  { eapply (wp_kfree _ _ _ _ b0 e); [done..|by apply lookup_insert_eq|]. simpl. intros s''. rewrite Hback. auto. }
  apply wp_run in Hwp as ([] & s'' & Hfree & Hok'' & Hm''). exists s''. split_and!; [done..|].
  rewrite Hm'', Hm'. unfold u64. rewrite Zminus_mod_idemp_l.
  replace (mem_used (procfs s) + (e - b0) - (e - b0))%Z with (mem_used (procfs s)) by lia.
  by apply Z.mod_small.
Qed.

(** C3. Memory safety over whole runs: in every state that completed calls reach
    from a boot, each descriptor marked ALLOCATED has a non-empty extent inside
    the heap, and two such descriptors never share an address. *)
Theorem alloc_reach_safe lo hi s i j d d' :
  (0 < lo < hi)%Z → (hi < 2 ^ 32)%Z → alloc_reach lo hi s →
  info s (Pool i) = Some d → info s (Pool j) = Some d' →
  c_state d = ALLOCATED → c_state d' = ALLOCATED →
  bounded lo hi (c_begin d, c_end d) ∧
  (i ≠ j → disjoint_ext (c_begin d, c_end d) (c_begin d', c_end d')).
Proof.
  intros Hlo Hhi Hreach Hi Hj Hst Hst'.
  destruct (alloc_reach_ok _ _ _ Hlo Hhi Hreach) as (h & [[ids [_ Hc]] Hok _]).
  destruct (ct_alloc _ _ _ Hc _ _ Hi Hst) as [Hu _]. destruct (ct_alloc _ _ _ Hc _ _ Hj Hst') as [Hu' _].
  split; [by apply (hk_used _ _ _ Hok)|]. intros Hne. apply (hk_used_disjoint _ _ _ Hok); [done..|].
  intros Heq. by apply Hne, (ct_inj _ _ _ Hc i j d d').
Qed.

(** C24. The loop that rounds a request up ends exactly for requests up to 2^31,
    and then with the least power of two from 1 KB up that holds the request;
    above 2^31 the doubling wraps to 0 and no number of rounds ends it. *)
Theorem round_up_ends sz :
  (0 < sz < 2 ^ 32)%Z →
  if decide (sz ≤ 2 ^ 31)%Z
  then round_up round_fuel (KB 1) sz = Some (request sz) ∧ (sz ≤ request sz)%Z ∧
    (∀ k, 10 ≤ k → sz ≤ 2 ^ k → request sz ≤ 2 ^ k)%Z
  else ∀ fuel, round_up fuel (KB 1) sz = None.
Proof.
  intros Hsz. case_decide as Hle.
  - split; [apply round_up_request; lia|]. unfold request. pose proof (Z.log2_up_nonneg sz). split.
    + transitivity (2 ^ Z.log2_up sz)%Z; [by apply Z.log2_up_le_pow2; lia|apply Z.pow_le_mono_r; lia].
    + intros k Hk Hk'. apply Z.pow_le_mono_r; [lia|]. apply Z.log2_up_le_pow2 in Hk'; lia.
  - intros fuel. apply round_up_none; [lia|]. right. exists 10%Z. by split; [lia|].
Qed.

(** ** A boot, used by the witnesses *)

Definition boot_lo : Z := 0x100000.
Definition boot_hi : Z := 0x900000.
Definition boot_heap : heap := Heap [(boot_lo, boot_hi)] ∅.

Lemma boot_ok :
  ∃ s, pmm_init boot_lo boot_hi (alloc_boot procfs_boot) = Ret (tt, s) ∧
    alloc_ok boot_lo boot_hi s boot_heap ∧ has_unused s ∧ mem_used (procfs s) = 0%Z.
Proof.
  assert (Hwp : wp (pmm_init boot_lo boot_hi) (λ _ s, alloc_ok boot_lo boot_hi s boot_heap ∧
    mem_used (procfs s) = 0%Z) (alloc_boot procfs_boot)).
  { eapply wp_pmm_init; [apply length_replicate|done|done|done|done|].
    intros s' Hok Hpf. split; [done|]. by rewrite Hpf. }
  pose proof (proj1 (wp_run _ _ _) Hwp) as ([] & s & Hrun & Hok & Hm). exists s.
  split; [exact Hrun|]. split; [exact Hok|]. split; [|exact Hm].
  destruct (ao_repr _ _ _ _ Hok) as [ids Hr]. eapply has_room_unused; [exact Hr|].
  simpl. rewrite map_size_empty. pose proof POOL_SIZE_large. lia.
Qed.

Lemma kalloc_refines_witness :
  ∃ s s' e, alloc_ok boot_lo boot_hi s boot_heap ∧
    kalloc 3000 s = Ret (boot_lo, s') ∧ (3000 ≤ e - boot_lo)%Z.
Proof.
  destruct boot_ok as (s & _ & Hok & _ & _).
  destruct (kalloc_refines boot_lo boot_hi s boot_heap 3000 Hok) as (s' & e & Hrun & _ & _ & Hsz & _).
  - reflexivity.
  - reflexivity.
  - lia.
  - simpl. rewrite map_size_empty. pose proof POOL_SIZE_large. lia.
  - exists s, s', e. eauto.
Defined.

Lemma kfree_refines_witness :
  ∃ s, alloc_ok boot_lo boot_hi s boot_heap ∧ kfree 42 s = Err Halt.
Proof.
  destruct boot_ok as (s & _ & Hok & _ & _). exists s. split; [exact Hok|].
  exact (kfree_refines boot_lo boot_hi s boot_heap 42 Hok eq_refl eq_refl).
Defined.

Lemma boot_alloc_run :
  ∃ s s', alloc_ok boot_lo boot_hi s boot_heap ∧ has_unused s ∧ mem_used (procfs s) = 0%Z ∧
    alloc_reach boot_lo boot_hi s ∧ kalloc 3000 s = Ret (boot_lo, s') ∧
    alloc_ok boot_lo boot_hi s' (Heap [(boot_lo + 4096, boot_hi)%Z] {[boot_lo := (boot_lo + 4096)%Z]}).
Proof.
  destruct boot_ok as (s & Hinit & Hok & Hun & Hm).
  assert (Hwp : wp (kalloc 3000) (λ b s', b = boot_lo ∧ alloc_ok boot_lo boot_hi s'
    (Heap [(boot_lo + 4096, boot_hi)%Z] {[boot_lo := (boot_lo + 4096)%Z]})) s).
  { assert (Hfit : take_fit (request 3000) (free_ext boot_heap) =
      Some ((boot_lo, boot_lo + 4096), [(boot_lo + 4096, boot_hi)])%Z) by (by vm_compute).
    eapply (wp_kalloc _ _ _ _ _ _ _ _ _ Hok); [reflexivity|reflexivity|exact Hun|lia|exact Hfit|].
    intros s' Hok' _. split; [reflexivity|exact Hok']. }
  apply wp_run in Hwp as (b & s' & Hrun & -> & Hok'). exists s, s'.
  pose proof (reach_init _ _ _ _ Hinit). eauto 10.
Qed.

Lemma kalloc_kfree_witness :
  ∃ s s' s'', alloc_ok boot_lo boot_hi s boot_heap ∧ kalloc 3000 s = Ret (boot_lo, s') ∧
    kfree boot_lo s' = Ret (tt, s'') ∧ alloc_ok boot_lo boot_hi s'' boot_heap.
Proof.
  destruct boot_alloc_run as (s & s' & Hok & Hun & Hm & _ & Hrun & _).
  destruct (kalloc_kfree boot_lo boot_hi s boot_heap 3000 boot_lo s' Hok) as (s'' & Hfree & Hok'' & _);
    [reflexivity|reflexivity|lia|exact Hun|rewrite Hm; lia|exact Hrun|]. exists s, s', s''. eauto.
Defined.

Lemma alloc_reach_safe_witness :
  ∃ s i d, alloc_reach boot_lo boot_hi s ∧ info s (Pool i) = Some d ∧ c_begin d = boot_lo ∧
    bounded boot_lo boot_hi (c_begin d, c_end d).
Proof.
  destruct boot_alloc_run as (s & s' & Hok & Hun & _ & Hreach & Hrun & [[ids [_ Hc]] _ _]).
  assert (alloc_reach boot_lo boot_hi s') as Hreach' by (apply (reach_alloc _ _ s 3000 boot_lo s' Hreach Hun); [lia|exact Hrun]).
  destruct (ct_used _ _ _ Hc boot_lo (boot_lo + 4096)%Z) as [i Hi]; [reflexivity|].
  exists s', i, (mk i ALLOCATED (boot_lo, boot_lo + 4096)%Z).
  split; [exact Hreach'|]. split; [exact Hi|]. split; [reflexivity|].
  apply (alloc_reach_safe boot_lo boot_hi s' i i _ _ ltac:(unfold boot_lo, boot_hi; lia) eq_refl Hreach' Hi Hi eq_refl eq_refl).
Defined.

Lemma round_up_ends_witness :
  round_up round_fuel (KB 1) 3000 = Some 4096%Z ∧ ∀ fuel, round_up fuel (KB 1) (2 ^ 31 + 1) = None.
Proof.
  split; [by vm_compute|]. exact (round_up_ends (2 ^ 31 + 1) (conj eq_refl eq_refl)).
Defined.
