(* ===== verification/OsTrap.v ===== *)
(** * The trap handler table (kernel/src/os.c, kernel/include/os.h)

    [ITEM], the table of registered handlers that [os->on_irq] keeps sorted by
    sequence number, and [os->trap], which calls the handlers of an event in
    that order.  A handler is a function pointer: [H] is the type of pointers and
    [call] what calling one does to the kernel state and answers. *)
From S2P Require Import Prelude Common.
From Stdlib Require Export Sorted.

Definition MAX_HANDLER : nat := 128.
Definition EVENT_NULL : Z := 0. (* _EVENT_NULL of am.h *)

Section table.
Context {H : Type}.

Record item := Item { seq : Z; event : Z; handler : option H }.

Record item_st := ItemSt {
  isize : Z;             (* ITEM.size *)
  items : list item      (* ITEM.items[MAX_HANDLER] *)
}.

Definition item_boot : item_st := ItemSt 0 (replicate MAX_HANDLER (Item 0 0 None)).

Definition set_item (i : Z) (x : item) : M item_st unit :=
  s ← get;
  l ← deref OutOfBounds (aset (items s) i x);
  modify (λ s, ItemSt (isize s) l).

Definition ITEM_push_back (sq ev : Z) (h : H) : M item_st unit :=
  n ← gets isize;
  set_item n (Item sq ev (Some h));;
  modify (λ s, ItemSt (isize s + 1) (items s)).

(** The body of the two loops of [ITEM_bubble_sort]. *)
Definition ITEM_order (i j : Z) : M item_st unit :=
  s ← get;
  x ← deref OutOfBounds (aget (items s) i);
  y ← deref OutOfBounds (aget (items s) j);
  when (bool_decide (seq y < seq x)%Z) (set_item i y;; set_item j x).

Definition ITEM_bubble_sort : M item_st unit :=
  n ← gets isize;
  for_range 0 n (λ i, for_range (i + 1) n (λ j, ITEM_order i j)).

Definition os_on_irq (sq ev : Z) (h : H) : M item_st unit :=
  ITEM_push_back sq ev h;;
  ITEM_bubble_sort.

(** ** [os_trap] *)

Section trap.
Context {S C : Type} (call : H → Z → C → M S (option C)).
Context (lock : S → Z) (set_lock : Z → S → S).

(** The loop over the table; [ret] is the context to return so far. *)
Fixpoint os_trap_loop (l : list item) (ev : Z) (context : C) (ret : option C) : M S (option C) :=
  match l with
  | [] => mret ret
  | x :: l' =>
      if decide (event x = EVENT_NULL ∨ event x = ev) then
        h ← deref NullDeref (handler x);
        next ← call h ev context;
        os_trap_loop l' ev context (match next with Some c => Some c | None => ret end)
      else os_trap_loop l' ev context ret
  end.

Definition os_trap (t : item_st) (ev : Z) (context : C) : M S (option C) :=
  naivelock_lock lock set_lock;;
  ret ← os_trap_loop (take (Z.to_nat (isize t)) (items t)) ev context None;
  naivelock_unlock lock set_lock;;
  mret ret.
End trap.

(** ** The invariant of the table *)

Definition seq_le (x y : item) : Prop := (seq x ≤ seq y)%Z.

(** The registered handlers. *)
Definition registered (t : item_st) : list item := take (Z.to_nat (isize t)) (items t).

Record item_ok (t : item_st) : Prop := {
  io_length : length (items t) = MAX_HANDLER;
  io_size : (0 ≤ isize t ≤ Z.of_nat MAX_HANDLER)%Z;
  io_sorted : StronglySorted seq_le (registered t);
  io_handlers : Forall (λ x, is_Some (handler x)) (registered t)
}.

(** [front i j n l]: the cells before [i] are in order and below all the others
    of the first [n]; cell [i] is below those from [i] to [j]. *)
Definition front (i j n : nat) (l : list item) : Prop :=
  (∀ a b x y, a < i → a < b → b < n → l !! a = Some x → l !! b = Some y → seq_le x y) ∧
  (∀ b x y, i < b → b < j → l !! i = Some x → l !! b = Some y → seq_le x y).
Lemma front_step (l : list item) i j n x y :
  front i j n l → i < j → j < n → l !! i = Some x → l !! j = Some y →
  front i (Datatypes.S j) n (if bool_decide (seq y < seq x)%Z then <[j:=x]> (<[i:=y]> l) else l).
Proof.
  intros [Hf1 Hf2] Hij Hjn Hx Hy. case_bool_decide as Hlt; split.
  - intros a b v w Ha Hab Hb Hv Hw. rewrite !list_lookup_insert_ne in Hv by lia.
    apply lookup_insert_cases in Hw as [[<- ->]|[_ [[<- ->]|[_ Hw]]%lookup_insert_cases]];
      (eapply (Hf1 a); [..|eassumption|eassumption]; lia).
  - intros b v w Hb Hbj Hv Hw. rewrite list_lookup_insert_ne in Hv by lia.
    apply list_lookup_insert_Some in Hv as [(_ & -> & _)|[? _]]; [|done]. unfold seq_le in *.
    apply lookup_insert_cases in Hw as [[<- ->]|[? Hw]]; [lia|].
    rewrite list_lookup_insert_ne in Hw by lia. specialize (Hf2 b x w Hb ltac:(lia) Hx Hw). lia.
  - done.
  - intros b v w Hb Hbj Hv Hw. destruct (decide (b = j)) as [->|]; [|apply (Hf2 b); [lia|lia|done|done]].
    unfold seq_le. simplify_eq. lia.
Qed.

(** The order of the loops' indices as the sort goes, with what it never changes. *)
Record sorting (t0 : item_st) (i j : nat) (t : item_st) : Prop := {
  so_size : isize t = isize t0;
  so_length : length (items t) = MAX_HANDLER;
  so_perm : registered t ≡ₚ registered t0;
  so_front : front i j (Z.to_nat (isize t0)) (items t)
}.

Lemma wp_ITEM_order t0 i j t :
  sorting t0 (Z.to_nat i) (Z.to_nat j) t → (0 ≤ i < j)%Z → (j < isize t0 ≤ Z.of_nat MAX_HANDLER)%Z →
  wp (ITEM_order i j) (λ _ t', sorting t0 (Z.to_nat i) (Z.to_nat (j + 1)) t') t.
Proof.
  intros [Hsz Hlen Hperm Hf] Hi Hj.
  destruct (aget_is_Some (items t) i) as [x Hx]; [lia|].
  destruct (aget_is_Some (items t) j) as [y Hy]; [lia|].
  pose proof (proj1 (aget_Some _ _ _) Hx) as [_ Hxl]. pose proof (proj1 (aget_Some _ _ _) Hy) as [_ Hyl].
  pose proof (front_step _ _ _ _ _ _ Hf ltac:(lia) ltac:(lia) Hxl Hyl) as Hf'.
  replace (Z.to_nat (j + 1)) with (Datatypes.S (Z.to_nat j)) by lia.
  unfold ITEM_order. wp_steps. apply wp_when; intros Hlt; rewrite Hlt in Hf'; [|by split].
  unfold set_item. wp_steps. eapply wp_deref; [apply aset_Some; lia|]. wp_steps. simpl.
  eapply wp_deref; [apply aset_Some; rewrite length_insert; lia|]. wp_steps.
  split; simpl; [done|by rewrite !length_insert| |done].
  rewrite <-Hperm. unfold registered. simpl. rewrite Hsz, !take_insert_lt by lia.
  apply swap_Permutation; [lia|rewrite lookup_take_lt by lia; done..].
Qed.

Lemma wp_ITEM_bubble_sort t (Q : unit → item_st → Prop) :
  length (items t) = MAX_HANDLER → (0 ≤ isize t ≤ Z.of_nat MAX_HANDLER)%Z →
  (∀ t', isize t' = isize t → length (items t') = MAX_HANDLER → registered t' ≡ₚ registered t →
    StronglySorted seq_le (registered t') → Q tt t') →
  wp ITEM_bubble_sort Q t.
Proof.
  intros Hlen Hsz HQ. unfold ITEM_bubble_sort. wp_steps. eapply wp_mono.
  - apply (wp_for_range (λ i t', sorting t (Z.to_nat i) (Datatypes.S (Z.to_nat i)) t')); [lia| |].
    + split; [done..|]. split; intros; lia.
    + intros i t1 Hi Hso. eapply wp_mono.
      * apply (wp_for_range (λ j t', sorting t (Z.to_nat i) (Z.to_nat j) t')); [lia| |].
        -- by replace (Z.to_nat (i + 1)) with (Datatypes.S (Z.to_nat i)) by lia.
        -- intros j t2 Hj Hso2. apply wp_ITEM_order; [done|lia|lia].
      * intros [] t3 [? ? ? [Hf1 Hf2]]. split; [done..|].
        replace (Z.to_nat (i + 1)) with (Datatypes.S (Z.to_nat i)) by lia. split; [|intros; lia].
        intros a b x y Ha Hab Hb Hx Hy. destruct (decide (a = Z.to_nat i)) as [->|].
        -- by apply (Hf2 b).
        -- apply (Hf1 a b); [lia|done..].
  - intros [] t' [Hsz' Hlen' Hperm [Hf _]]. apply HQ; [done..|].
    apply StronglySorted_lookup. unfold registered. rewrite Hsz'. intros a b x y Hab Hx Hy.
    apply lookup_take_Some in Hx as [Hx ?]. apply lookup_take_Some in Hy as [Hy ?].
    by apply (Hf a b).
Qed.

(** What [os_trap] promises: the answers of the matching handlers, the last
    non-null one wins. *)
Definition matching (ev : Z) (l : list item) : list item :=
  filter (λ x, event x = EVENT_NULL ∨ event x = ev) l.

(** C20. Registering a handler: while the table has room, [os->on_irq] leaves a
    well-formed table whose registered handlers are the old ones and the new
    one, in order of sequence number; with the table full it writes outside
    the array. *)
Theorem os_on_irq_spec t sq ev h :
  item_ok t →
  if decide (isize t < Z.of_nat MAX_HANDLER)%Z then
    ∃ t', os_on_irq sq ev h t = Ret (tt, t') ∧ item_ok t' ∧ isize t' = (isize t + 1)%Z ∧
      registered t' ≡ₚ Item sq ev (Some h) :: registered t
  else os_on_irq sq ev h t = Err OutOfBounds.
Proof.
  intros [Hlen Hsz Hs Hh]. case_decide as Hroom.
  - enough (wp (os_on_irq sq ev h) (λ _ t', item_ok t' ∧ isize t' = (isize t + 1)%Z ∧
      registered t' ≡ₚ Item sq ev (Some h) :: registered t) t) as Hwp.
    { apply wp_run in Hwp as ([] & t' & ? & ?). by exists t'. }
    unfold os_on_irq, ITEM_push_back, set_item. wp_steps.
    eapply wp_deref; [apply aset_Some; lia|]. wp_steps. simpl.
    set (t1 := ItemSt _ _).
    assert (Hreg : registered t1 = registered t ++ [Item sq ev (Some h)]).
    { unfold registered, t1. simpl. replace (Z.to_nat (isize t + 1)) with (Datatypes.S (Z.to_nat (isize t))) by lia.
      rewrite (take_S_r _ _ (Item sq ev (Some h))); [|apply list_lookup_insert_eq; lia].
      by rewrite take_insert_ge. }
    apply wp_ITEM_bubble_sort; [by unfold t1; simpl; rewrite length_insert|unfold t1; simpl; lia|].
    intros t' Hsz' Hlen' Hperm Hs'. unfold t1 in Hsz'. simpl in Hsz'.
    rewrite Hreg in Hperm. split; [split; [done|lia|done|]|split; [done|by rewrite Hperm, Permutation_app_comm]].
    rewrite Hperm, Forall_app. split; [done|]. by constructor.
  - unfold os_on_irq, ITEM_push_back, set_item, mbind, M_bind, gets, get, deref, aset.
    by rewrite decide_False by lia.
Qed.

Section trap_props.
Context {S C : Type} (call : H → Z → C → M S (option C)).
Context (lock : S → Z) (set_lock : Z → S → S).

(** Calling a list of handlers, each with the event and the context of the trap. *)
Fixpoint run_handlers (l : list item) (ev : Z) (context : C) : M S (list (option C)) :=
  match l with
  | [] => mret []
  | x :: l' =>
      h ← deref NullDeref (handler x);
      a ← call h ev context;
      rs ← run_handlers l' ev context;
      mret (a :: rs)
  end.

Definition last_answer (rs : list (option C)) : option C := last (omap (λ r, r) rs).

Lemma os_trap_loop_spec l ev c ret s :
  os_trap_loop call l ev c ret s =
  (rs ← run_handlers (matching ev l) ev c;
   mret (match last_answer rs with Some r => Some r | None => ret end)) s.
Proof.
  revert ret s. induction l as [|x l IH]; intros ret s; [done|]. unfold matching. simpl.
  rewrite filter_cons. case_decide as Hx; [|by apply IH]. simpl.
  unfold deref. destruct (handler x) as [h|]; [|done].
  unfold mbind, M_bind, mret, M_ret in *. destruct (call h ev c s) as [[a s1]|]; [|done].
  rewrite IH. change (filter _ l) with (matching ev l).
  destruct (run_handlers (matching ev l) ev c s1) as [[rs s2]|]; [|done].
  unfold last_answer. destruct a as [a|]; simpl; [|done].
  change (list_omap _ _ (λ r, r) rs) with (omap (λ r : option C, r) rs).
  destruct (omap (λ r, r) rs) as [|r rs' _] using rev_ind; [done|].
  by rewrite app_comm_cons, !last_snoc.
Qed.

(** C19. Trap dispatch: [os->trap] takes the lock, calls the handlers registered
    for the event or for every event, in the order of the table, and answers the
    last context that one of them returned; with the lock held by another trap
    it never proceeds. *)
Theorem os_trap_spec t ev c s :
  os_trap call lock set_lock t ev c s =
  (naivelock_lock lock set_lock;;
   rs ← run_handlers (matching ev (registered t)) ev c;
   naivelock_unlock lock set_lock;;
   mret (last_answer rs)) s.
Proof.
  unfold os_trap. change (take _ (items t)) with (registered t).
  destruct (naivelock_lock lock set_lock s) as [[[] s1]|f] eqn:E.
  - rewrite !(bind_run _ _ _ _ _ E).
    destruct (run_handlers (matching ev (registered t)) ev c s1) as [[rs s2]|f] eqn:E2.
    + rewrite (bind_run (run_handlers _ _ _) _ _ _ _ E2).
      erewrite bind_run; [done|]. rewrite os_trap_loop_spec, (bind_run _ _ _ _ _ E2).
      by destruct (last_answer rs).
    + rewrite (bind_err (run_handlers _ _ _) _ _ _ E2). apply bind_err.
      by rewrite os_trap_loop_spec, (bind_err _ _ _ _ E2).
  - by rewrite !(bind_err _ _ _ _ E).
Qed.
End trap_props.
End table.
Arguments item : clear implicits.
Arguments item_st : clear implicits.

Lemma item_boot_ok {H} : item_ok (@item_boot H).
Proof. by split; [| |constructor|constructor]. Qed.

Lemma os_on_irq_spec_witness :
  ∃ t', os_on_irq 5 2 7 (@item_boot nat) = Ret (tt, t') ∧ item_ok t' ∧ isize t' = 1%Z.
Proof.
  pose proof (os_on_irq_spec (@item_boot nat) 5 2 7 item_boot_ok) as Hw.
  rewrite decide_True in Hw by done. destruct Hw as (t' & Hrun & Hok & Hsz & _). by exists t'.
Defined.
