(* ===== verification/Kthreads.v ===== *)
(** * Threads, spinlocks and semaphores (kernel/src/kthreads.c, include/kthreads.h)

    The task table and the round-robin scheduler, the spinlocks with their
    interrupt nesting, and the counting semaphores with their queue of waiting
    tasks.  Every operation runs on a processor [cpu], the value of [_cpu()].  A
    [_Context] of the platform is a saved register state, known by an identifier. *)
From S2P Require Import Prelude Common Procfs.

Inductive tstate := NIL | STARTED | RUNNABLE | RUNNING | YIELD | KILLED.

#[export] Instance tstate_eq_dec : EqDecision tstate.
Proof. solve_decision. Defined.

(** A [task_t *] that is not null. *)
Abbreviation loc := nat.

Definition NAME_lENGTH : nat := 32.
Definition STK_SIZE : Z := KB 4.

Record task := Task {
  idx : Z;
  state : tstate;
  proc : option Z;      (* the entry of the process table *)
  ctx : Z;              (* the saved _Context *)
  stk : Z * Z;          (* stk.start, stk.end *)
  tname : string;
  stack : Z             (* the address of the member [stack] *)
}.

Record spinlock := Spinlock {
  lname : string;
  locked : Z;
  lcpu : Z
}.

Record sem := Sem {
  sname : string;
  value : Z;
  lk : spinlock;
  que : list (option loc);   (* task *que[MAX_TASK] *)
  head : Z;
  tail : Z
}.

Record kmt_st := KmtSt {
  tasks_size : Z;
  tasks : list (option loc);          (* task_t *tasks[MAX_TASK] *)
  current_tasks : list (option loc);  (* task_t *current_tasks[MAX_CPU] *)
  tasks_mutex : Z;
  current_tasks_mutex : Z;
  cli_mutex : Z;
  ncli : list Z;                      (* int ncli[MAX_CPU] *)
  intena : list bool;                 (* int intena[MAX_CPU], zero or not *)
  eflags_if : list bool;              (* the interrupt flag of each processor *)
  theap : gmap loc task;              (* the task structures *)
  sems : gmap nat sem;                (* the semaphores *)
  kprocfs : procfs_st
}.

Definition kmt_boot (p : procfs_st) : kmt_st :=
  KmtSt 0 (replicate MAX_TASK None) (replicate MAX_CPU None) UNLOCKED UNLOCKED UNLOCKED
    (replicate MAX_CPU 0%Z) (replicate MAX_CPU false) (replicate MAX_CPU false) ∅ ∅ p.

Definition set_tasks (n : Z) (l : list (option loc)) (s : kmt_st) : kmt_st :=
  KmtSt n l (current_tasks s) (tasks_mutex s) (current_tasks_mutex s) (cli_mutex s)
    (ncli s) (intena s) (eflags_if s) (theap s) (sems s) (kprocfs s).
Definition set_current_tasks (l : list (option loc)) (s : kmt_st) : kmt_st :=
  KmtSt (tasks_size s) (tasks s) l (tasks_mutex s) (current_tasks_mutex s) (cli_mutex s)
    (ncli s) (intena s) (eflags_if s) (theap s) (sems s) (kprocfs s).
Definition set_tasks_mutex (v : Z) (s : kmt_st) : kmt_st :=
  KmtSt (tasks_size s) (tasks s) (current_tasks s) v (current_tasks_mutex s) (cli_mutex s)
    (ncli s) (intena s) (eflags_if s) (theap s) (sems s) (kprocfs s).
Definition set_cli_mutex (v : Z) (s : kmt_st) : kmt_st :=
  KmtSt (tasks_size s) (tasks s) (current_tasks s) (tasks_mutex s) (current_tasks_mutex s) v
    (ncli s) (intena s) (eflags_if s) (theap s) (sems s) (kprocfs s).
Definition set_ncli (l : list Z) (s : kmt_st) : kmt_st :=
  KmtSt (tasks_size s) (tasks s) (current_tasks s) (tasks_mutex s) (current_tasks_mutex s) (cli_mutex s)
    l (intena s) (eflags_if s) (theap s) (sems s) (kprocfs s).
Definition set_intena (l : list bool) (s : kmt_st) : kmt_st :=
  KmtSt (tasks_size s) (tasks s) (current_tasks s) (tasks_mutex s) (current_tasks_mutex s) (cli_mutex s)
    (ncli s) l (eflags_if s) (theap s) (sems s) (kprocfs s).
Definition set_eflags_if (l : list bool) (s : kmt_st) : kmt_st :=
  KmtSt (tasks_size s) (tasks s) (current_tasks s) (tasks_mutex s) (current_tasks_mutex s) (cli_mutex s)
    (ncli s) (intena s) l (theap s) (sems s) (kprocfs s).
Definition set_theap (h : gmap loc task) (s : kmt_st) : kmt_st :=
  KmtSt (tasks_size s) (tasks s) (current_tasks s) (tasks_mutex s) (current_tasks_mutex s) (cli_mutex s)
    (ncli s) (intena s) (eflags_if s) h (sems s) (kprocfs s).
Definition set_sems (h : gmap nat sem) (s : kmt_st) : kmt_st :=
  KmtSt (tasks_size s) (tasks s) (current_tasks s) (tasks_mutex s) (current_tasks_mutex s) (cli_mutex s)
    (ncli s) (intena s) (eflags_if s) (theap s) h (kprocfs s).
Definition set_kprocfs (p : procfs_st) (s : kmt_st) : kmt_st :=
  KmtSt (tasks_size s) (tasks s) (current_tasks s) (tasks_mutex s) (current_tasks_mutex s) (cli_mutex s)
    (ncli s) (intena s) (eflags_if s) (theap s) (sems s) p.

(** ** Tasks *)

(** [*t] and [*t = ...] through a [task_t *]. *)
Definition task_load (t : option loc) : M kmt_st task :=
  l ← deref NullDeref t;
  s ← get;
  deref NullDeref (theap s !! l).
Definition task_store (t : option loc) (f : task → task) : M kmt_st unit :=
  l ← deref NullDeref t;
  x ← task_load t;
  modify (λ s, set_theap (<[l := f x]> (theap s)) s).

Definition set_tstate (st : tstate) (t : task) : task :=
  Task (idx t) st (proc t) (ctx t) (stk t) (tname t) (stack t).
Definition set_ctx (c : Z) (t : task) : task :=
  Task (idx t) (state t) (proc t) c (stk t) (tname t) (stack t).
Definition set_idx (i : Z) (t : task) : task :=
  Task i (state t) (proc t) (ctx t) (stk t) (tname t) (stack t).

(** The macro [current]. *)
Definition get_current (cpu : Z) : M kmt_st (option loc) :=
  s ← get; deref OutOfBounds (aget (current_tasks s) cpu).
Definition put_current (cpu : Z) (t : option loc) : M kmt_st unit :=
  s ← get;
  l ← deref OutOfBounds (aset (current_tasks s) cpu t);
  modify (set_current_tasks l).

(** The loop of [kmt_context_save_switch]: the index it stops on. *)
Fixpoint sched_loop (fuel : nat) (i : Z) : M kmt_st Z :=
  match fuel with
  | O => fail OutOfFuel
  | S n =>
      sz ← gets tasks_size;
      if decide (sz = 0)%Z then fail DivByZero
      else
        let i := Z.rem (i + 1) sz in
        s ← get;
        p ← deref OutOfBounds (aget (tasks s) i);
        match p with
        | None => sched_loop n i
        | Some _ =>
            t ← task_load p;
            if decide (state t = STARTED ∨ state t = RUNNABLE) then mret i else sched_loop n i
        end
  end.

(** Within [MAX_TASK] rounds every index of the table is tried. *)
Definition sched_fuel : nat := S MAX_TASK.

Definition procfs_schdule_m (cpu : Z) (o n : option Z) : M kmt_st unit :=
  zoom kprocfs set_kprocfs (procfs_schdule cpu o n).

(** The value is the task whose saved context the processor resumes. *)
Definition kmt_context_save_switch (cpu : Z) (c : Z) : M kmt_st (option loc) :=
  cur ← get_current cpu;
  match cur with Some _ => task_store cur (set_ctx c) | None => mret tt end;;
  let otask := cur in
  match cur with
  | Some _ => t ← task_load cur; when (bool_decide (state t = RUNNING)) (task_store cur (set_tstate RUNNABLE))
  | None => mret tt
  end;;
  i ← match cur with None => mret 0%Z | Some _ => t ← task_load cur; mret (idx t) end;
  i ← sched_loop sched_fuel i;
  s ← get;
  p ← deref OutOfBounds (aget (tasks s) i);
  put_current cpu p;;
  task_store p (set_tstate RUNNING);;
  ntask ← get_current cpu;
  ot ← task_load otask;
  nt ← task_load ntask;
  procfs_schdule_m cpu (proc ot) (proc nt);;
  mret ntask.

(** [get_tasks_idx]: the last free slot below [tasks_size], or [tasks_size]. *)
Definition get_tasks_idx : M kmt_st Z :=
  s ← get;
  let sz := tasks_size s in
  mret (foldl (λ ret i, match aget (tasks s) i with Some None => i | _ => ret end) sz (seqZ 0 sz)).

Definition put_task (i : Z) (t : option loc) : M kmt_st unit :=
  s ← get;
  l ← deref OutOfBounds (aset (tasks s) i t);
  modify (λ s, set_tasks (tasks_size s) l s).

Definition tasks_insert (x : loc) : M kmt_st unit :=
  naivelock_lock tasks_mutex set_tasks_mutex;;
  i ← get_tasks_idx;
  task_store (Some x) (set_idx i);;
  t ← task_load (Some x);
  sz ← gets tasks_size;
  when (bool_decide (idx t = sz)) (modify (λ s, set_tasks (sz + 1) (tasks s) s));;
  t ← task_load (Some x);
  put_task (idx t) (Some x);;
  naivelock_unlock tasks_mutex set_tasks_mutex.

Definition tasks_remove (x : loc) : M kmt_st unit :=
  naivelock_lock tasks_mutex set_tasks_mutex;;
  t ← task_load (Some x);
  put_task (idx t) None;;
  naivelock_unlock tasks_mutex set_tasks_mutex.

Section create.
(** [_kcontext(stk, entry, arg)] of the platform: the context that starts
    [entry(arg)] on the stack. *)
Context (kcontext : Z * Z → Z → Z → Z).

Definition kmt_create (x : loc) (name : string) (entry arg : Z) : M kmt_st Z :=
  task_store (Some x) (set_tstate STARTED);;
  nm ← strcpy_buf NAME_lENGTH name;
  task_store (Some x) (λ t, Task (idx t) (state t) (proc t) (ctx t) (stk t) nm (stack t));;
  task_store (Some x) (λ t, Task (idx t) (state t) (proc t) (ctx t)
    (stack t, u32 (stack t + STK_SIZE)) (tname t) (stack t));;
  task_store (Some x) (λ t, set_ctx (kcontext (stk t) entry arg) t);;
  p ← zoom kprocfs set_kprocfs (procfs_addproc name);
  task_store (Some x) (λ t, Task (idx t) (state t) p (ctx t) (stk t) (tname t) (stack t));;
  tasks_insert x;;
  mret 0%Z.

(** [kmt_create_wait]: the idle task [wait[i]] of each processor, where [wait]
    gives the address of [wait[i]] and [task_wait] the entry point. *)
Definition kmt_create_wait (ncpu : Z) (wait : Z → loc) (task_wait : Z) : M kmt_st unit :=
  for_range 0 ncpu (λ i,
    buf ← sprintf_m "wait%d" (arg32 i);
    kmt_create (wait i) buf task_wait 0;; mret tt).
End create.

Definition kmt_teardown (x : loc) : M kmt_st unit := tasks_remove x.

(** ** Interrupt nesting and spinlocks *)

Definition get_cpu {A} (f : kmt_st → list A) (cpu : Z) : M kmt_st A :=
  s ← get; deref OutOfBounds (aget (f s) cpu).
Definition put_cpu {A} (f : kmt_st → list A) (g : list A → kmt_st → kmt_st) (cpu : Z) (x : A)
    : M kmt_st unit :=
  s ← get; l ← deref OutOfBounds (aset (f s) cpu x); modify (g l).

(** [cli()], [sti()] and [get_efl() & FL_IF]. *)
Definition cli (cpu : Z) : M kmt_st unit := put_cpu eflags_if set_eflags_if cpu false.
Definition sti (cpu : Z) : M kmt_st unit := put_cpu eflags_if set_eflags_if cpu true.
Definition get_if (cpu : Z) : M kmt_st bool := get_cpu eflags_if cpu.

Definition pushcli (cpu : Z) : M kmt_st unit :=
  cli cpu;;
  n ← get_cpu ncli cpu;
  (if decide (n = 0)%Z then f ← get_if cpu; put_cpu intena set_intena cpu f else mret tt);;
  naivelock_lock cli_mutex set_cli_mutex;;
  n ← get_cpu ncli cpu;
  put_cpu ncli set_ncli cpu (n + 1)%Z;;
  naivelock_unlock cli_mutex set_cli_mutex.

Definition popcli (cpu : Z) : M kmt_st unit :=
  naivelock_lock cli_mutex set_cli_mutex;;
  n ← get_cpu ncli cpu;
  put_cpu ncli set_ncli cpu (n - 1)%Z;;
  naivelock_unlock cli_mutex set_cli_mutex;;
  n ← get_cpu ncli cpu;
  if decide (n = 0)%Z then f ← get_cpu intena cpu; when f (sti cpu) else mret tt.

Definition holding (cpu : Z) (l : spinlock) : bool :=
  bool_decide (locked l ≠ 0)%Z && bool_decide (lcpu l = cpu).

(** [kmt_spin_init(lk, name)]: the lock it leaves. *)
Definition kmt_spin_init {S} (name : string) : M S spinlock :=
  nm ← strcpy_buf NAME_lENGTH name;
  mret (Spinlock nm UNLOCKED NONE_CPU).

(** The operations on a lock reached through [rd] and [wr], anywhere in a state in
    which [pushcli] and [popcli] can run: a lock found taken is a wait that never
    ends within a sequential run. *)
Section spin.
Context {S : Type} (push_cli pop_cli : M S unit) (rd : M S spinlock) (wr : spinlock → M S unit).

Definition kmt_spin_lock (cpu : Z) : M S unit :=
  push_cli;;
  l ← rd;
  wr (Spinlock (lname l) LOCKED (lcpu l));;
  (if decide (locked l = UNLOCKED) then mret tt else fail Spin);;
  l ← rd;
  wr (Spinlock (lname l) (locked l) cpu).

Definition kmt_spin_unlock : M S unit :=
  l ← rd;
  wr (Spinlock (lname l) (locked l) NONE_CPU);;
  l ← rd;
  wr (Spinlock (lname l) UNLOCKED (lcpu l));;
  pop_cli.
End spin.

(** ** Semaphores *)

Definition sem_load (a : nat) : M kmt_st sem :=
  s ← get; deref NullDeref (sems s !! a).
Definition sem_store (a : nat) (x : sem) : M kmt_st unit :=
  sem_load a;; modify (λ s, set_sems (<[a := x]> (sems s)) s).

Definition set_lk (l : spinlock) (x : sem) : sem := Sem (sname x) (value x) l (que x) (head x) (tail x).
Definition set_value (v : Z) (x : sem) : sem := Sem (sname x) v (lk x) (que x) (head x) (tail x).
Definition set_que (q : list (option loc)) (h t : Z) (x : sem) : sem :=
  Sem (sname x) (value x) (lk x) q h t.

Definition sem_lock (a : nat) (cpu : Z) : M kmt_st unit :=
  kmt_spin_lock (pushcli cpu) (x ← sem_load a; mret (lk x)) (λ l, x ← sem_load a; sem_store a (set_lk l x)) cpu.
Definition sem_unlock (a : nat) (cpu : Z) : M kmt_st unit :=
  kmt_spin_unlock (popcli cpu) (x ← sem_load a; mret (lk x)) (λ l, x ← sem_load a; sem_store a (set_lk l x)).

Definition sem_push (a : nat) (t : option loc) : M kmt_st unit :=
  x ← sem_load a;
  assert (bool_decide (locked (lk x) ≠ 0)%Z);;
  q ← deref OutOfBounds (aset (que x) (tail x) t);
  sem_store a (set_que q (head x) (Z.rem (tail x + 1) (Z.of_nat MAX_TASK)) x).

Definition sem_pop (a : nat) : M kmt_st (option loc) :=
  x ← sem_load a;
  assert (bool_decide (locked (lk x) ≠ 0)%Z);;
  sem_store a (set_que (que x) (Z.rem (head x + 1) (Z.of_nat MAX_TASK)) (tail x) x);;
  deref OutOfBounds (aget (que x) (head x)).

(** [sleep(sem)] up to its [_yield()]. *)
Definition sleep (a : nat) (cpu : Z) : M kmt_st unit :=
  cur ← get_current cpu;
  task_store cur (set_tstate YIELD);;
  cur ← get_current cpu;
  sem_push a cur;;
  sem_unlock a cpu.

Definition wakeup (a : nat) (cpu : Z) : M kmt_st unit :=
  x ← sem_load a;
  (if decide (head x = tail x) then fail Halt else mret tt);;
  t ← sem_pop a;
  task_store t (set_tstate RUNNABLE);;
  sem_unlock a cpu.

Definition kmt_sem_init (a : nat) (name : string) (v : Z) : M kmt_st unit :=
  nm ← strcpy_buf NAME_lENGTH name;
  x ← sem_load a;
  l ← kmt_spin_init name;
  sem_store a (Sem nm v l (que x) 0 0).

(** [true]: the caller went to sleep, and its next step is the [_yield()] at the
    end of [sleep]; [false]: it goes on. *)
Definition kmt_sem_wait (a : nat) (cpu : Z) : M kmt_st bool :=
  sem_lock a cpu;;
  x ← sem_load a;
  sem_store a (set_value (i32 (value x - 1)) x);;
  x ← sem_load a;
  if decide (value x < 0)%Z then sleep a cpu;; mret true else sem_unlock a cpu;; mret false.

Definition kmt_sem_signal (a : nat) (cpu : Z) : M kmt_st unit :=
  sem_lock a cpu;;
  x ← sem_load a;
  sem_store a (set_value (i32 (value x + 1)) x);;
  x ← sem_load a;
  if decide (value x ≤ 0)%Z then wakeup a cpu else sem_unlock a cpu.
