(* ===== verification/KthreadsProps.v ===== *)
(** * Scheduler, interrupt nesting and semaphores: properties

    The round-robin choice and its bounded waiting, the effect of a context
    switch, the semaphores as a counter with a FIFO of sleepers, and a flaw of
    the interrupt nesting: the flag that [pushcli] saves. *)
From S2P Require Import Prelude Ring Common Procfs Kthreads.

(** ** The task table *)

Record kmt_ok (s : kmt_st) : Prop := {
  kk_tasks : length (tasks s) = MAX_TASK;
  kk_size : (0 ≤ tasks_size s ≤ Z.of_nat MAX_TASK)%Z;
  kk_current : length (current_tasks s) = MAX_CPU;
  kk_entry : ∀ i x, aget (tasks s) i = Some (Some x) →
    (i < tasks_size s)%Z ∧ ∃ t, theap s !! x = Some t ∧ idx t = i
}.

(** The task in slot [i] can be scheduled. *)
Definition ready (s : kmt_st) (i : Z) : bool :=
  match aget (tasks s) i with
  | Some (Some x) =>
      match theap s !! x with
      | Some t => bool_decide (state t = STARTED ∨ state t = RUNNABLE)
      | None => false
      end
  | _ => false
  end.

Lemma sched_loop_step s n i :
  kmt_ok s → (0 ≤ i < tasks_size s)%Z →
  sched_loop (S n) i s =
  let j := ((i + 1) mod tasks_size s)%Z in
  if ready s j then Ret (j, s) else sched_loop n j s.
Proof.
  intros Hok Hi. pose proof (kk_size _ Hok) as Hsz. cbn zeta. simpl.
  erewrite (bind_run (gets tasks_size)) by done. rewrite decide_False by lia.
  rewrite Z.rem_mod_nonneg by lia. set (j := ((i + 1) mod tasks_size s)%Z).
  pose proof (Z.mod_pos_bound (i + 1) (tasks_size s) ltac:(lia)) as Hj. fold j in Hj.
  erewrite (bind_run get) by done.
  destruct (aget_is_Some (tasks s) j) as [p Hp]; [rewrite (kk_tasks _ Hok); lia|].
  unfold ready. rewrite Hp. erewrite bind_run by done. destruct p as [x|]; [|done].
  destruct (kk_entry _ Hok j x Hp) as (_ & t & Ht & _).
  erewrite bind_run; [|unfold task_load; erewrite bind_run by done; erewrite bind_run by done; by rewrite Ht].
  rewrite Ht. case_decide as Hst; [by rewrite bool_decide_true|by rewrite bool_decide_false].
Qed.

Lemma sched_loop_skip s n d i :
  kmt_ok s → (0 ≤ i < tasks_size s)%Z →
  (∀ d', (1 ≤ d' ≤ Z.of_nat d)%Z → ready s ((i + d') mod tasks_size s) = false) →
  sched_loop (d + n) i s = sched_loop n ((i + Z.of_nat d) mod tasks_size s) s.
Proof.
  intros Hok. revert i. induction d as [|d IH]; intros i Hi Hnone; simpl plus.
  { by rewrite Z.add_0_r, Z.mod_small by lia. }
  rewrite sched_loop_step by done. cbn zeta. rewrite (Hnone 1%Z) by lia.
  pose proof (Z.mod_pos_bound (i + 1) (tasks_size s) ltac:(lia)).
  rewrite IH; [|lia|].
  - rewrite Zplus_mod_idemp_l. f_equal. f_equal. lia.
  - intros d' Hd'. rewrite Zplus_mod_idemp_l, <-(Hnone (1 + d')%Z) by lia. f_equal. f_equal. lia.
Qed.

(** The distance from slot [i] to the slot the scheduler chooses. *)
Definition is_next (s : kmt_st) (i d : Z) : Prop :=
  (1 ≤ d ≤ tasks_size s)%Z ∧ ready s ((i + d) mod tasks_size s) = true ∧
  ∀ d', (1 ≤ d' < d)%Z → ready s ((i + d') mod tasks_size s) = false.

Lemma ready_bound s i : kmt_ok s → ready s i = true → (0 ≤ i < tasks_size s)%Z.
Proof.
  intros Hok. unfold ready. destruct (aget (tasks s) i) as [[x|]|] eqn:E; [|done..].
  intros _. pose proof (aget_lt _ _ _ E). destruct (kk_entry _ Hok _ _ E). lia.
Qed.

Lemma mod_reach sz i j : (0 ≤ i < sz)%Z → (0 ≤ j < sz)%Z → ∃ d, (1 ≤ d ≤ sz ∧ (i + d) mod sz = j)%Z.
Proof.
  intros Hi Hj. destruct (decide (i < j)%Z).
  - exists (j - i)%Z. split; [lia|]. rewrite Z.mod_small; lia.
  - exists (j - i + sz)%Z. split; [lia|]. replace (i + (j - i + sz))%Z with (j + 1 * sz)%Z by lia.
    rewrite Z_mod_plus_full, Z.mod_small; lia.
Qed.

Lemma is_next_exists s i j :
  kmt_ok s → (0 ≤ i < tasks_size s)%Z → ready s j = true →
  ∃ d, is_next s i d ∧ ∃ d', (d ≤ d' ≤ tasks_size s ∧ (i + d') mod tasks_size s = j)%Z.
Proof.
  intros Hok Hi Hj. pose proof (ready_bound _ _ Hok Hj) as Hjb.
  destruct (mod_reach _ _ _ Hi Hjb) as (dj & Hdj & Hdj').
  destruct (first_index (λ d, ready s ((i + (1 + d)) mod tasks_size s)) (seqZ 0 (tasks_size s))) as [k|] eqn:E.
  - apply first_index_Some in E as [(d & Hd & Hr) Hmin]. apply lookup_seqZ in Hd as [-> Hk].
    rewrite Z.add_0_l in Hr. exists (1 + Z.of_nat k)%Z. split; [split; [lia|split; [done|]]|].
    + intros d' Hd'. rewrite <-(Hmin (Z.to_nat (d' - 1)) (d' - 1)%Z).
      * f_equal. f_equal. lia.
      * lia.
      * apply lookup_seqZ. lia.
    + exists dj. split; [split; [|lia]|done]. destruct (decide (dj < 1 + Z.of_nat k)%Z); [|lia].
      specialize (Hmin (Z.to_nat (dj - 1)) (dj - 1)%Z ltac:(lia) ltac:(apply lookup_seqZ; lia)).
      simpl in Hmin. replace (1 + (dj - 1))%Z with dj in Hmin by lia. congruence.
  - exfalso. rewrite first_index_None in E.
    specialize (E (Z.to_nat (dj - 1)) (dj - 1)%Z ltac:(apply lookup_seqZ; lia)).
    simpl in E. replace (1 + (dj - 1))%Z with dj in E by lia. congruence.
Qed.

Lemma sched_loop_next s i d fuel :
  kmt_ok s → (0 ≤ i < tasks_size s)%Z → is_next s i d → (d ≤ Z.of_nat fuel)%Z →
  sched_loop fuel i s = Ret (((i + d) mod tasks_size s)%Z, s).
Proof.
  intros Hok Hi (Hd & Hr & Hmin) Hfuel.
  replace fuel with (Z.to_nat (d - 1) + S (fuel - Z.to_nat d)) by lia.
  rewrite sched_loop_skip; [|done|done|intros; apply Hmin; lia].
  rewrite sched_loop_step; [|done|apply Z.mod_pos_bound; lia]. cbn zeta.
  rewrite Zplus_mod_idemp_l. replace (i + Z.of_nat (Z.to_nat (d - 1)) + 1)%Z with (i + d)%Z by lia.
  by rewrite Hr.
Qed.

Lemma sched_loop_idle s i fuel :
  kmt_ok s → (0 ≤ i < tasks_size s)%Z → (∀ j, ready s j = false) →
  sched_loop fuel i s = Err OutOfFuel.
Proof.
  intros Hok Hi Hnone. rewrite <-(Nat.add_0_r fuel).
  by rewrite sched_loop_skip; [|done|done|intros; apply Hnone].
Qed.

(** C4. Scheduling decision and bounded waiting: from the slot of the current
    task, the search stops on the nearest schedulable slot in cyclic order, a
    schedulable task [j] is never overtaken by a slot that lies after it, so it
    is chosen within [tasks_size] switches; when no task is schedulable the
    search never ends, whatever the fuel. *)
Theorem sched_round_robin s i :
  kmt_ok s → (0 ≤ i < tasks_size s)%Z →
  (∀ j, ready s j = true →
    ∃ d d', is_next s i d ∧ (d ≤ d' ≤ tasks_size s)%Z ∧ ((i + d') mod tasks_size s)%Z = j ∧
      sched_loop sched_fuel i s = Ret (((i + d) mod tasks_size s)%Z, s) ∧
      ((((i + d) mod tasks_size s) + (d' - d)) mod tasks_size s)%Z = j) ∧
  ((∀ j, ready s j = false) → ∀ fuel, sched_loop fuel i s = Err OutOfFuel).
Proof.
  intros Hok Hi. split; [|by intros; apply sched_loop_idle].
  intros j Hj. destruct (is_next_exists s i j Hok Hi Hj) as (d & Hnext & d' & Hd' & Hj').
  exists d, d'. pose proof (kk_size _ Hok). split_and!; [done|lia|lia|done| |].
  - apply sched_loop_next; [done..|]. destruct Hnext as [? _]. unfold sched_fuel. lia.
  - rewrite Zplus_mod_idemp_l, <-Hj'. f_equal. lia.
Qed.

(** ** The context switch *)

Definition proc_ok (o : option Z) : Prop := ∀ p, o = Some p → (0 ≤ p < Z.of_nat MAX_PROC)%Z.

Lemma wp_procfs_upd p f (Q : unit → procfs_st → Prop) s :
  procfs_ok s → (0 ≤ p < Z.of_nat MAX_PROC)%Z →
  (∀ s', procfs_ok s' → running s' = running s → Q tt s') → wp (upd_proc p f) Q s.
Proof.
  intros Hok Hp HQ. destruct (aget_is_Some (procs s) p) as [x Hx]; [by rewrite (ok_procs Hok)|].
  eapply wp_upd_proc; [done|]. apply HQ; [|done].
  split; simpl; [rewrite length_insert|..]; apply Hok.
Qed.

Lemma wp_procfs_schdule cpu o n (Q : unit → procfs_st → Prop) s :
  procfs_ok s → (0 ≤ cpu < Z.of_nat MAX_CPU)%Z → proc_ok o → proc_ok n →
  (∀ s', procfs_ok s' → Q tt s') → wp (procfs_schdule cpu o n) Q s.
Proof.
  intros Hok Hcpu Ho Hn HQ. unfold procfs_schdule. apply wp_bind.
  apply (wp_mono _ (λ _ s', procfs_ok s')).
  { destruct o as [o|]; [|by apply wp_ret]. eapply wp_procfs_upd; [done|by apply Ho|done]. }
  intros [] s1 Hok1. destruct n as [n|]; [|apply wp_ret; by apply HQ]. wp_steps.
  eapply wp_procfs_upd; [done|by apply Hn|]. intros s2 Hok2 _. wp_steps.
  destruct (aget_is_Some (procs s2) n) as [x Hx]; [rewrite (ok_procs Hok2); by apply Hn|]. wp_steps.
  eapply wp_deref; [apply aset_Some; by rewrite (ok_running Hok2)|]. wp_steps.
  apply HQ. split; simpl; [|rewrite length_insert|]; apply Hok2.
Qed.

Lemma wp_task_load x t (Q : task → kmt_st → Prop) s :
  theap s !! x = Some t → Q t s → wp (task_load (Some x)) Q s.
Proof. intros Hx HQ. unfold task_load. by wp_steps. Qed.

Lemma wp_task_store x t f (Q : unit → kmt_st → Prop) s :
  theap s !! x = Some t → Q tt (set_theap (<[x := f t]> (theap s)) s) → wp (task_store (Some x) f) Q s.
Proof. intros Hx HQ. unfold task_store. wp_steps. by eapply wp_task_load; [|wp_steps]. Qed.

Lemma wp_get_current cpu p (Q : option loc → kmt_st → Prop) s :
  aget (current_tasks s) cpu = Some p → Q p s → wp (get_current cpu) Q s.
Proof. intros Hp HQ. unfold get_current. by wp_steps. Qed.

Lemma wp_put_current cpu p (Q : unit → kmt_st → Prop) s :
  (0 ≤ cpu < Z.of_nat (length (current_tasks s)))%Z →
  Q tt (set_current_tasks (<[Z.to_nat cpu := p]> (current_tasks s)) s) → wp (put_current cpu p) Q s.
Proof. intros Hc HQ. unfold put_current. wp_steps. eapply wp_deref; [by apply aset_Some|]. by wp_steps. Qed.

(** The interrupted task as the switch leaves it: its context saved, and
    schedulable again if it was running. *)
Definition park (c : Z) (t : task) : task :=
  set_ctx c (if decide (state t = RUNNING) then set_tstate RUNNABLE t else t).

Lemma set_theap_theap s h h' : set_theap h (set_theap h' s) = set_theap h s.
Proof. done. Qed.

(** Changing tasks but not their slots keeps the table well formed. *)
Lemma kmt_ok_upd s h :
  kmt_ok s →
  (∀ x t, theap s !! x = Some t → ∃ t', h !! x = Some t' ∧ idx t' = idx t) → kmt_ok (set_theap h s).
Proof.
  intros [Ht Hs Hc He] Hh. split; simpl; try done. intros i x Hx.
  destruct (He i x Hx) as (Hi & t & Hl & Hidx). split; [done|].
  destruct (Hh x t Hl) as (t' & ? & ?). exists t'. split; [done|congruence].
Qed.

Lemma kmt_ok_store s x t t' :
  kmt_ok s → theap s !! x = Some t → idx t' = idx t → kmt_ok (set_theap (<[x := t']> (theap s)) s).
Proof.
  intros Hok Hx Hidx. apply kmt_ok_upd; [done|]. intros y ty Hy.
  destruct (decide (y = x)) as [->|].
  - exists t'. rewrite lookup_insert_eq. split; [done|congruence].
  - exists ty. by rewrite lookup_insert_ne.
Qed.

Lemma park_idx c t : idx (park c t) = idx t.
Proof. unfold park. by case_decide. Qed.

Lemma park_proc c t : proc (park c t) = proc t.
Proof. unfold park. by case_decide. Qed.

(** Every task's process entry is in the table. *)
Definition procs_ok (h : gmap loc task) : Prop := map_Forall (λ _ t, proc_ok (proc t)) h.

Lemma procs_ok_store h x t t' :
  procs_ok h → h !! x = Some t → proc t' = proc t → procs_ok (<[x := t']> h).
Proof. intros Hh Hx Heq. apply map_Forall_insert_2; [|done]. rewrite Heq. by eapply Hh. Qed.

(** The state in which the scheduler searches. *)
Definition parked (s : kmt_st) (x : loc) (t : task) (c : Z) : kmt_st :=
  set_theap (<[x := park c t]> (theap s)) s.

Lemma run_context_switch s cpu c x t d :
  kmt_ok s → procfs_ok (kprocfs s) → (0 ≤ cpu < Z.of_nat MAX_CPU)%Z →
  procs_ok (theap s) →
  aget (current_tasks s) cpu = Some (Some x) → theap s !! x = Some t →
  (0 ≤ idx t < tasks_size s)%Z → is_next (parked s x t c) (idx t) d →
  ∃ y ty s', kmt_context_save_switch cpu c s = Ret (Some y, s') ∧ kmt_ok s' ∧
    aget (tasks s) ((idx t + d) mod tasks_size s) = Some (Some y) ∧
    theap (parked s x t c) !! y = Some ty ∧ (state ty = STARTED ∨ state ty = RUNNABLE) ∧
    theap s' = <[y := set_tstate RUNNING ty]> (<[x := park c t]> (theap s)) ∧
    current_tasks s' = <[Z.to_nat cpu := Some y]> (current_tasks s).
Proof.
  intros Hok Hpf Hcpu Hproc Hcur Hx Hidx Hnext.
  assert (Hok1 : kmt_ok (parked s x t c)).
  { eapply kmt_ok_store; [done..|apply park_idx]. }
  pose proof Hnext as (Hd & Hready & _). simpl in Hd, Hready.
  unfold ready in Hready. change (tasks (parked s x t c)) with (tasks s) in Hready.
  destruct (aget (tasks s) _) as [[y|]|] eqn:Hy; [|done..].
  destruct (theap (parked s x t c) !! y) as [ty|] eqn:Hty; [|done]. apply bool_decide_eq_true in Hready.
  enough (wp (kmt_context_save_switch cpu c) (λ r s', r = Some y ∧ kmt_ok s' ∧
    theap s' = <[y := set_tstate RUNNING ty]> (<[x := park c t]> (theap s)) ∧
    current_tasks s' = <[Z.to_nat cpu := Some y]> (current_tasks s)) s) as Hwp.
  { apply wp_run in Hwp as (r & s' & Hrun & -> & ? & ? & ?). exists y, ty, s'. by split_and!. }
  unfold kmt_context_save_switch. wp_steps. eapply wp_get_current; [done|]. wp_steps.
  eapply wp_task_store; [done|]. wp_steps. eapply wp_task_load; [by apply lookup_insert_eq|].
  apply (wp_mono _ (λ _ s', s' = parked s x t c)).
  { unfold parked, park. apply wp_when; simpl; intros Hst.
    - eapply wp_task_store; [by apply lookup_insert_eq|]. rewrite set_theap_theap. simpl.
      apply bool_decide_eq_true in Hst. by rewrite decide_True, insert_insert_eq.
    - apply bool_decide_eq_false in Hst. by rewrite decide_False. }
  intros [] s1 ->. wp_steps. eapply wp_task_load; [by apply lookup_insert_eq|]. wp_steps. rewrite park_idx.
  pose proof (kk_size _ Hok) as Hsz. eapply wp_run. eexists _, _. split.
  { apply sched_loop_next; [done|done|exact Hnext|]. unfold sched_fuel. lia. }
  wp_steps. eapply wp_put_current; [simpl; by rewrite (kk_current _ Hok)|]. wp_steps.
  eapply wp_task_store; [exact Hty|]. wp_steps.
  eapply wp_get_current; [apply aget_insert_eq; simpl; by rewrite (kk_current _ Hok)|]. wp_steps.
  set (s2 := set_theap _ _).
  assert (Hp1 : procs_ok (theap (parked s x t c))) by (by eapply procs_ok_store, park_proc).
  assert (Hp2 : procs_ok (theap s2)) by (by eapply (procs_ok_store (theap (parked s x t c)))).
  assert (Hot : is_Some (theap s2 !! x)) by (apply lookup_insert_is_Some'; right; by apply lookup_insert_is_Some'; left).
  destruct Hot as [ot Hot]. eapply wp_task_load; [done|]. wp_steps.
  eapply wp_task_load; [by apply lookup_insert_eq|]. wp_steps.
  unfold procfs_schdule_m. apply wp_zoom.
  eapply wp_procfs_schdule; [exact Hpf|done|exact (Hp2 x ot Hot)|exact (Hp1 y ty Hty)|].
  intros p' _. wp_steps. split_and!; [done| |done|done].
  destruct (kmt_ok_store (parked s x t c) y ty (set_tstate RUNNING ty)) as [? ? ? ?]; [done..|].
  split; simpl; [done|done|by rewrite length_insert, (kk_current _ Hok)|done].
Qed.

(** C22. A context switch: the interrupted task gets its context saved and, if it
    was running, becomes schedulable again; the nearest schedulable task in
    cyclic order becomes the current task of this processor, its state RUNNING;
    no other task and no other processor changes, and the table stays well
    formed. *)
Theorem context_switch_spec s cpu c x t d :
  kmt_ok s → procfs_ok (kprocfs s) → (0 ≤ cpu < Z.of_nat MAX_CPU)%Z →
  procs_ok (theap s) →
  aget (current_tasks s) cpu = Some (Some x) → theap s !! x = Some t →
  (0 ≤ idx t < tasks_size s)%Z → is_next (parked s x t c) (idx t) d →
  ∃ y ty s', kmt_context_save_switch cpu c s = Ret (Some y, s') ∧ kmt_ok s' ∧
    aget (tasks s) ((idx t + d) mod tasks_size s) = Some (Some y) ∧
    theap (parked s x t c) !! y = Some ty ∧ (state ty = STARTED ∨ state ty = RUNNABLE) ∧
    theap s' = <[y := set_tstate RUNNING ty]> (<[x := park c t]> (theap s)) ∧
    current_tasks s' = <[Z.to_nat cpu := Some y]> (current_tasks s).
Proof. apply run_context_switch. Qed.


(** ** Interrupt nesting *)

Record cpu_ok (s : kmt_st) : Prop := {
  co_ncli : length (ncli s) = MAX_CPU;
  co_intena : length (intena s) = MAX_CPU;
  co_eflags : length (eflags_if s) = MAX_CPU;
  co_mutex : cli_mutex s = UNLOCKED
}.

(** What the lock operations leave alone. *)
Record core_eq (s s' : kmt_st) : Prop := {
  ce_size : tasks_size s' = tasks_size s;
  ce_tasks : tasks s' = tasks s;
  ce_current : current_tasks s' = current_tasks s;
  ce_mutex : tasks_mutex s' = tasks_mutex s;
  ce_heap : theap s' = theap s;
  ce_procfs : kprocfs s' = kprocfs s
}.

Lemma core_eq_trans s1 s2 s3 : core_eq s1 s2 → core_eq s2 s3 → core_eq s1 s3.
Proof. intros [] []. split; congruence. Qed.

Section cpu.
Context (cpu : Z) (Hcpu : (0 ≤ cpu < Z.of_nat MAX_CPU)%Z).

Lemma wp_get_cpu {A} (f : kmt_st → list A) (Q : A → kmt_st → Prop) s :
  length (f s) = MAX_CPU → (∀ x, aget (f s) cpu = Some x → Q x s) → wp (get_cpu f cpu) Q s.
Proof using Hcpu.
  intros Hlen HQ. unfold get_cpu. destruct (aget_is_Some (f s) cpu) as [x Hx]; [by rewrite Hlen|].
  wp_steps. by apply HQ.
Qed.

Lemma wp_put_cpu {A} (f : kmt_st → list A) g x (Q : unit → kmt_st → Prop) s :
  length (f s) = MAX_CPU → Q tt (g (<[Z.to_nat cpu := x]> (f s)) s) → wp (put_cpu f g cpu x) Q s.
Proof using Hcpu.
  intros Hlen HQ. unfold put_cpu. wp_steps. eapply wp_deref; [apply aset_Some; by rewrite Hlen|]. by wp_steps.
Qed.

Lemma wp_pushcli (Q : unit → kmt_st → Prop) s n :
  cpu_ok s → aget (ncli s) cpu = Some n →
  (∀ s', cpu_ok s' → core_eq s s' → sems s' = sems s → aget (eflags_if s') cpu = Some false →
     aget (ncli s') cpu = Some (n + 1)%Z → (n = 0%Z → aget (intena s') cpu = Some false) → Q tt s') →
  wp (pushcli cpu) Q s.
Proof using Hcpu.
  intros [Hn Hi He Hm] Hncli HQ. unfold pushcli, cli. wp_steps.
  eapply wp_put_cpu; [done|]. wp_steps. eapply wp_get_cpu; [done|]. simpl. intros m Hm'.
  rewrite Hncli in Hm'. injection Hm' as <-. wp_steps.
  apply (wp_mono _ (λ _ s', cpu_ok s' ∧ core_eq s s' ∧ sems s' = sems s ∧
    aget (eflags_if s') cpu = Some false ∧ ncli s' = ncli s ∧ (n = 0%Z → aget (intena s') cpu = Some false))).
  - assert (aget (<[Z.to_nat cpu := false]> (eflags_if s)) cpu = Some false) as Hif.
    { apply aget_insert_eq. by rewrite He. }
    case_decide as Hz; wp_steps.
    + unfold get_if. eapply wp_get_cpu; [simpl; by rewrite length_insert|]. simpl. intros b Hb.
      rewrite Hif in Hb. injection Hb as <-. eapply wp_put_cpu; [done|]. simpl.
      split_and!; try done; [split; simpl; rewrite ?length_insert; done|].
      intros _. apply aget_insert_eq. by rewrite Hi.
    + simpl. split_and!; try done. split; simpl; rewrite ?length_insert; done.
  - intros [] s1 ([Hn1 Hi1 He1 Hm1] & [] & Hs1 & Hf1 & Hnc & Hint). wp_steps.
    apply wp_naivelock_lock; [done|]. wp_steps. eapply wp_get_cpu; [done|]. simpl. intros k Hk.
    rewrite Hnc, Hncli in Hk. injection Hk as <-. wp_steps. eapply wp_put_cpu; [done|].
    wp_steps. apply wp_naivelock_unlock. apply HQ; simpl; try done.
    + split; simpl; rewrite ?length_insert; done.
    + apply aget_insert_eq. by rewrite Hn1.
Qed.

Lemma wp_popcli (Q : unit → kmt_st → Prop) s n :
  cpu_ok s → aget (ncli s) cpu = Some n →
  (∀ s', cpu_ok s' → core_eq s s' → sems s' = sems s → aget (ncli s') cpu = Some (n - 1)%Z →
     intena s' = intena s →
     (aget (intena s) cpu = Some false → eflags_if s' = eflags_if s) → Q tt s') →
  wp (popcli cpu) Q s.
Proof using Hcpu.
  intros [Hn Hi He Hm] Hncli HQ. unfold popcli, sti. wp_steps. apply wp_naivelock_lock; [done|]. wp_steps.
  eapply wp_get_cpu; [done|]. simpl. intros k Hk. rewrite Hncli in Hk. injection Hk as <-. wp_steps.
  eapply wp_put_cpu; [done|]. wp_steps. apply wp_naivelock_unlock. wp_steps. simpl.
  assert (Hget : aget (<[Z.to_nat cpu := (n - 1)%Z]> (ncli s)) cpu = Some (n - 1)%Z).
  { apply aget_insert_eq. by rewrite Hn. }
  eapply wp_get_cpu; [simpl; by rewrite length_insert|]. simpl. rewrite Hget. intros k [= <-]. case_decide as Hz.
  - wp_steps. eapply wp_get_cpu; [done|]. simpl. intros f Hf. apply wp_when; intros ->.
    + eapply wp_put_cpu; [done|]. apply HQ; simpl; try done; [|by rewrite Hf].
      split; simpl; rewrite ?length_insert; done.
    + apply HQ; simpl; try done. split; simpl; rewrite ?length_insert; done.
  - wp_steps. apply HQ; simpl; try done. split; simpl; rewrite ?length_insert; done.
Qed.

(** ** The lock of a semaphore *)

Lemma wp_sem_load a x (Q : sem → kmt_st → Prop) s : sems s !! a = Some x → Q x s → wp (sem_load a) Q s.
Proof. intros Hx HQ. unfold sem_load. by wp_steps. Qed.

Lemma wp_sem_store a x y (Q : unit → kmt_st → Prop) s :
  sems s !! a = Some x → Q tt (set_sems (<[a := y]> (sems s)) s) → wp (sem_store a y) Q s.
Proof. intros Hx HQ. unfold sem_store. wp_steps. by eapply wp_sem_load; [|wp_steps]. Qed.

Definition lock_of (n : string) (v c : Z) : spinlock := Spinlock n v c.

Lemma wp_sem_lock a x (Q : unit → kmt_st → Prop) s n :
  cpu_ok s → aget (ncli s) cpu = Some n → sems s !! a = Some x → locked (lk x) = UNLOCKED →
  (∀ s', cpu_ok s' → core_eq s s' →
     sems s' = <[a := set_lk (Spinlock (lname (lk x)) LOCKED cpu) x]> (sems s) →
     aget (eflags_if s') cpu = Some false → aget (ncli s') cpu = Some (n + 1)%Z →
     (n = 0%Z → aget (intena s') cpu = Some false) → Q tt s') →
  wp (sem_lock a cpu) Q s.
Proof using Hcpu.
  intros Hok Hncli Hx Hlk HQ. unfold sem_lock, kmt_spin_lock. wp_steps.
  eapply wp_pushcli; [done..|]. intros s1 [] [] Hs1 Hf1 Hn1 Hi1. wp_steps.
  eapply wp_sem_load; [by rewrite Hs1|]. wp_steps. eapply wp_sem_load; [by rewrite Hs1|]. wp_steps.
  eapply wp_sem_store; [by rewrite Hs1|]. rewrite Hlk, decide_True by done. wp_steps.
  eapply wp_sem_load; [by apply lookup_insert_eq|]. wp_steps. eapply wp_sem_load; [by apply lookup_insert_eq|].
  wp_steps. eapply wp_sem_store; [by apply lookup_insert_eq|]. apply HQ; simpl; try done.
  by rewrite insert_insert_eq, Hs1.
Qed.

Lemma wp_sem_unlock a x (Q : unit → kmt_st → Prop) s n :
  cpu_ok s → aget (ncli s) cpu = Some n → sems s !! a = Some x →
  (∀ s', cpu_ok s' → core_eq s s' →
     sems s' = <[a := set_lk (Spinlock (lname (lk x)) UNLOCKED NONE_CPU) x]> (sems s) →
     aget (ncli s') cpu = Some (n - 1)%Z → intena s' = intena s →
     (aget (intena s) cpu = Some false → eflags_if s' = eflags_if s) → Q tt s') →
  wp (sem_unlock a cpu) Q s.
Proof using Hcpu.
  intros Hok Hncli Hx HQ. unfold sem_unlock, kmt_spin_unlock. wp_steps.
  eapply wp_sem_load; [done|]. wp_steps. eapply wp_sem_load; [done|]. wp_steps.
  eapply wp_sem_store; [done|]. wp_steps. eapply wp_sem_load; [by apply lookup_insert_eq|]. wp_steps.
  eapply wp_sem_load; [by apply lookup_insert_eq|]. wp_steps.
  eapply wp_sem_store; [by apply lookup_insert_eq|].
  eapply (wp_popcli _ _ n); [destruct Hok; by split|done|]. simpl.
  intros s' Hok' [] Hs' Hn' Hi' Hf'. apply HQ; simpl; try done.
  rewrite Hs'. simpl. by rewrite insert_insert_eq.
Qed.

(** A critical section turns interrupts off for good: [pushcli] reads the
    interrupt flag after [cli()] has cleared it, so the outermost unlock never
    turns interrupts on again, whatever they were before the lock. *)
Theorem lock_unlock_masks a x s :
  cpu_ok s → aget (ncli s) cpu = Some 0%Z → sems s !! a = Some x → locked (lk x) = UNLOCKED →
  ∃ s', (sem_lock a cpu;; sem_unlock a cpu) s = Ret (tt, s') ∧
    aget (ncli s') cpu = Some 0%Z ∧ aget (eflags_if s') cpu = Some false.
Proof using Hcpu.
  intros Hok Hn Hx Hlk.
  enough (wp (sem_lock a cpu;; sem_unlock a cpu) (λ _ s', aget (ncli s') cpu = Some 0%Z ∧
    aget (eflags_if s') cpu = Some false) s) as Hwp.
  { apply wp_run in Hwp as ([] & s' & ? & ? & ?). by exists s'. }
  wp_steps. eapply wp_sem_lock; [done..|]. intros s1 Hok1 _ Hs1 Hf1 Hn1 Hi1.
  eapply wp_sem_unlock; [done|done|rewrite Hs1; by apply lookup_insert_eq|].
  intros s2 _ _ _ Hn2 _ Hf2. split; [done|]. by rewrite Hf2; [|apply Hi1].
Qed.

(** ** Semaphores as a counter with a queue *)

(** [sem_queue x q]: the ring [que[head .. tail)] holds the tasks [q] in order
    of arrival, and a negative value counts them. *)
Record sem_queue (x : sem) (q : list loc) : Prop := {
  sq_len : length (que x) = MAX_TASK;
  sq_head : (0 ≤ head x < Z.of_nat MAX_TASK)%Z;
  sq_room : length q < MAX_TASK;
  sq_tail : tail x = ((head x + Z.of_nat (length q)) mod Z.of_nat MAX_TASK)%Z;
  sq_at : ∀ k y, q !! k = Some y →
    aget (que x) ((head x + Z.of_nat k) mod Z.of_nat MAX_TASK) = Some (Some y);
  sq_value : Z.of_nat (length q) = Z.max 0 (- value x)
}.

Lemma sem_queue_lk x q l : sem_queue x q → sem_queue (set_lk l x) q.
Proof. by intros []. Qed.

(** The ring buffer's push and pop. *)
Lemma sem_queue_push x q y que' v :
  sem_queue x q → S (length q) < MAX_TASK → aset (que x) (tail x) (Some y) = Some que' →
  Z.of_nat (S (length q)) = Z.max 0 (- v) →
  sem_queue (set_que que' (head x) (Z.rem (tail x + 1) (Z.of_nat MAX_TASK)) (set_value v x)) (q ++ [y]).
Proof.
  intros [Hl Hh Hr Ht Ha Hv] Hroom Hset Hval. pose proof (aset_inv _ _ _ _ Hset) as [Hin ->].
  split; simpl; rewrite ?length_app, ?length_insert; simpl.
  - done.
  - done.
  - lia.
  - rewrite Hl in Hin. rewrite Z.rem_mod_nonneg by lia. rewrite Ht, Zplus_mod_idemp_l. f_equal. lia.
  - intros k z Hk. destruct (decide (k = length q)) as [->|Hne].
    + rewrite lookup_app_r, Nat.sub_diag in Hk by lia. injection Hk as <-.
      rewrite <-Ht. by eapply aget_aset_eq.
    + assert (k < length q). { apply lookup_lt_Some in Hk. rewrite length_app in Hk. simpl in Hk. lia. }
      rewrite lookup_app_l in Hk by done. rewrite <-(Ha k z Hk). eapply aget_aset_ne; [done|].
      rewrite Ht. apply mod_neq; lia.
  - lia.
Qed.

Lemma sem_queue_pop x y q v :
  sem_queue x (y :: q) → Z.of_nat (length q) = Z.max 0 (- v) →
  aget (que x) (head x) = Some (Some y) ∧
  sem_queue (set_que (que x) (Z.rem (head x + 1) (Z.of_nat MAX_TASK)) (tail x) (set_value v x)) q.
Proof.
  intros [Hl Hh Hr Ht Ha Hv] Hval. simpl in *. split.
  - rewrite <-(Ha 0 y eq_refl), Z.add_0_r, Z.mod_small by lia. done.
  - rewrite Z.rem_mod_nonneg by lia. split; simpl.
    + done.
    + apply Z.mod_pos_bound. by vm_compute.
    + lia.
    + rewrite Ht, Zplus_mod_idemp_l. f_equal. lia.
    + intros k z Hk. rewrite Zplus_mod_idemp_l, <-(Ha (S k) z Hk). f_equal. f_equal. lia.
    + done.
Qed.

(** The semaphore at [a] is free, has value [v] and the sleepers [q]. *)
Definition sem_at (s : kmt_st) (a : nat) (v : Z) (q : list loc) : Prop :=
  ∃ x, sems s !! a = Some x ∧ value x = v ∧ locked (lk x) = UNLOCKED ∧ sem_queue x q.

(** What an operation on the semaphore at [a] leaves alone. *)
Record sem_frame (a : nat) (s s' : kmt_st) : Prop := {
  sf_tasks : tasks_size s' = tasks_size s ∧ tasks s' = tasks s;
  sf_current : current_tasks s' = current_tasks s;
  sf_others : ∀ b, b ≠ a → sems s' !! b = sems s !! b;
  sf_cpu : cpu_ok s';
  sf_ncli : aget (ncli s') cpu = aget (ncli s) cpu
}.

Lemma wp_sem_push a x t que' (Q : unit → kmt_st → Prop) s :
  sems s !! a = Some x → locked (lk x) = LOCKED → aset (que x) (tail x) t = Some que' →
  Q tt (set_sems (<[a := set_que que' (head x) (Z.rem (tail x + 1) (Z.of_nat MAX_TASK)) x]> (sems s)) s) →
  wp (sem_push a t) Q s.
Proof.
  intros Hx Hlk Hset HQ. unfold sem_push. wp_steps. eapply wp_sem_load; [done|]. wp_steps; [by rewrite Hlk|].
  by eapply wp_sem_store.
Qed.

Lemma wp_sem_pop a x p (Q : option loc → kmt_st → Prop) s :
  sems s !! a = Some x → locked (lk x) = LOCKED → aget (que x) (head x) = Some p →
  Q p (set_sems (<[a := set_que (que x) (Z.rem (head x + 1) (Z.of_nat MAX_TASK)) (tail x) x]> (sems s)) s) →
  wp (sem_pop a) Q s.
Proof.
  intros Hx Hlk Hget HQ. unfold sem_pop. wp_steps. eapply wp_sem_load; [done|]. wp_steps; [by rewrite Hlk|].
  eapply wp_sem_store; [done|]. by wp_steps.
Qed.

Lemma sem_queue_tail x q : sem_queue x q → (0 ≤ tail x < Z.of_nat (length (que x)))%Z.
Proof. intros [Hl _ _ Ht _ _]. rewrite Hl, Ht. apply Z.mod_pos_bound. by vm_compute. Qed.

(** The end of every operation on the semaphore: the lock released. *)
Lemma wp_sem_release a x q (Q : unit → kmt_st → Prop) s n :
  cpu_ok s → aget (ncli s) cpu = Some (n + 1)%Z → sems s !! a = Some x → sem_queue x q →
  (∀ s', cpu_ok s' → core_eq s s' → sem_at s' a (value x) q → (∀ b, b ≠ a → sems s' !! b = sems s !! b) →
     aget (ncli s') cpu = Some n → Q tt s') →
  wp (sem_unlock a cpu) Q s.
Proof using Hcpu.
  intros Hok Hn Hx Hq HQ. eapply wp_sem_unlock; [done..|]. intros s' Hok' Hce Hs' Hn' _ _.
  apply HQ; [done|done| | |rewrite Hn'; f_equal; lia].
  - eexists. rewrite Hs', lookup_insert_eq. split_and!; [done..|]. by apply sem_queue_lk.
  - intros b Hb. by rewrite Hs', lookup_insert_ne.
Qed.

Lemma wp_sleep a x q y t v (Q : unit → kmt_st → Prop) s n :
  cpu_ok s → aget (ncli s) cpu = Some (n + 1)%Z → sems s !! a = Some (set_value v x) →
  locked (lk x) = LOCKED → sem_queue x q → S (length q) < MAX_TASK →
  Z.of_nat (S (length q)) = Z.max 0 (- v) →
  aget (current_tasks s) cpu = Some (Some y) → theap s !! y = Some t →
  (∀ s', cpu_ok s' → core_eq (set_theap (<[y := set_tstate YIELD t]> (theap s)) s) s' →
     sem_at s' a v (q ++ [y]) → (∀ b, b ≠ a → sems s' !! b = sems s !! b) →
     aget (ncli s') cpu = Some n → Q tt s') →
  wp (sleep a cpu) Q s.
Proof using Hcpu.
  intros Hok Hn Hx Hlk Hq Hroom Hv Hcur Hy HQ. unfold sleep. wp_steps. eapply wp_get_current; [done|]. wp_steps.
  eapply wp_task_store; [done|]. wp_steps. eapply wp_get_current; [done|]. wp_steps.
  pose proof (aset_Some (que x) (tail x) (Some y) (sem_queue_tail _ _ Hq)) as Hset.
  pose proof (sem_queue_push x q y _ v Hq Hroom Hset Hv) as Hq'.
  eapply wp_sem_push; [exact Hx|done|exact Hset|]. simpl.
  eapply wp_sem_release; [destruct Hok; by split|exact Hn|by apply lookup_insert_eq|exact Hq'|].
  intros s' Hok' [] Hat Hoth Hn'. apply HQ; try done. intros b Hb. rewrite Hoth by done. simpl.
  by rewrite lookup_insert_ne.
Qed.

Lemma wp_sem_begin {A} a x v (Q : A → kmt_st → Prop) s n (k : sem → M kmt_st A) d :
  cpu_ok s → aget (ncli s) cpu = Some n → sems s !! a = Some x → locked (lk x) = UNLOCKED →
  i32 (value x + d) = v →
  (∀ s', cpu_ok s' → core_eq s s' → aget (ncli s') cpu = Some (n + 1)%Z →
     let x1 := set_lk (Spinlock (lname (lk x)) LOCKED cpu) x in
     sems s' = <[a := set_value v x1]> (sems s) → wp (k (set_value v x1)) Q s') →
  wp (sem_lock a cpu;; x ← sem_load a; sem_store a (set_value (i32 (value x + d)) x);;
      x ← sem_load a; k x) Q s.
Proof using Hcpu.
  intros Hok Hn Hx Hlk Hv HQ. wp_steps. eapply wp_sem_lock; [done..|].
  intros s1 Hok1 Hce Hs1 _ Hn1 _. wp_steps.
  eapply wp_sem_load; [rewrite Hs1; by apply lookup_insert_eq|]. wp_steps.
  eapply wp_sem_store; [rewrite Hs1; by apply lookup_insert_eq|]. wp_steps.
  eapply wp_sem_load; [by apply lookup_insert_eq|]. change (value (set_lk _ x)) with (value x). rewrite Hv.
  apply HQ; [destruct Hok1; by split|destruct Hce; by split|done|]. simpl. by rewrite Hs1, insert_insert_eq.
Qed.

Lemma wp_kmt_sem_wait s a v q y t n :
  cpu_ok s → aget (ncli s) cpu = Some n → sem_at s a v q → S (length q) < MAX_TASK →
  (- 2 ^ 31 < v < 2 ^ 31)%Z → aget (current_tasks s) cpu = Some (Some y) → theap s !! y = Some t →
  wp (kmt_sem_wait a cpu) (λ b s', b = bool_decide (v ≤ 0)%Z ∧ kprocfs s' = kprocfs s ∧ sem_frame a s s' ∧
    sem_at s' a (v - 1) (if decide (v ≤ 0)%Z then q ++ [y] else q) ∧
    theap s' = (if decide (v ≤ 0)%Z then <[y := set_tstate YIELD t]> (theap s) else theap s)) s.
Proof using Hcpu.
  intros Hok Hn (x & Hx & <- & Hlk & Hq) Hroom Hv Hcur Hy.
  unfold kmt_sem_wait. 
  assert (sem_queue (set_lk (Spinlock (lname (lk x)) LOCKED cpu) x) q) as Hq1 by (by apply sem_queue_lk).
  pose proof (sq_value _ _ Hq) as Hqv.
  apply (wp_sem_begin a x (value x - 1) _ s n (λ x, if decide (value x < 0)%Z
    then sleep a cpu;; mret true else sem_unlock a cpu;; mret false) (-1)); [done..|apply i32_small; lia|].
  intros s1 Hok1 [Hc1 Hc2 Hc3 Hc4 Hc5 Hc6] Hn1 x1 Hs1. simpl.
  assert (Hx1 : sems s1 !! a = Some (set_value (value x - 1) x1)) by (rewrite Hs1; by apply lookup_insert_eq).
  assert (Hoth1 : ∀ b, b ≠ a → sems s1 !! b = sems s !! b) by (intros; by rewrite Hs1, lookup_insert_ne).
  destruct (decide (value x ≤ 0)%Z) as [Hle|Hgt];
    [rewrite decide_True, bool_decide_true by lia|rewrite decide_False, bool_decide_false by lia]; wp_steps.
  - eapply (wp_sleep a x1 q y t (value x - 1)); [done|exact Hn1|done|done|done|done|lia|congruence|congruence|].
    intros s2 Hok2 [] Hat Hoth Hn2. simpl in *. wp_steps.
    split_and!; [done|congruence|split; [split; congruence|congruence| |done|congruence]|done|congruence].
    intros b Hb. rewrite Hoth by done. auto.
  - eapply (wp_sem_release a _ q); [done|exact Hn1|done|destruct Hq1; split; simpl in *; try done; lia|].
    intros s2 Hok2 [] Hat Hoth Hn2. simpl in *. wp_steps.
    split_and!; [done|congruence|split; [split; congruence|congruence| |done|congruence]|done|congruence].
    intros b Hb. rewrite Hoth by done. auto.
Qed.

(** C5. [sem_wait] implements the down operation: with a positive value it takes
    one unit and goes on; otherwise the caller becomes the last sleeper, its
    state YIELD, and the call ends in its [_yield()].  The lock is released in
    both cases. *)
Theorem sem_wait_refines s a v q y t n :
  cpu_ok s → aget (ncli s) cpu = Some n → sem_at s a v q → S (length q) < MAX_TASK →
  (- 2 ^ 31 < v < 2 ^ 31)%Z → aget (current_tasks s) cpu = Some (Some y) → theap s !! y = Some t →
  ∃ s', kmt_sem_wait a cpu s = Ret (bool_decide (v ≤ 0)%Z, s') ∧ sem_frame a s s' ∧
    sem_at s' a (v - 1) (if decide (v ≤ 0)%Z then q ++ [y] else q) ∧
    theap s' = (if decide (v ≤ 0)%Z then <[y := set_tstate YIELD t]> (theap s) else theap s).
Proof using Hcpu.
  intros Hok Hn Hat Hroom Hv Hcur Hy. pose proof (wp_kmt_sem_wait s a v q y t n Hok Hn Hat Hroom Hv Hcur Hy) as Hwp.
  apply wp_run in Hwp as (b & s' & Hrun & -> & _ & ?). by exists s'.
Qed.

Lemma wp_kmt_sem_signal s a v q n :
  cpu_ok s → aget (ncli s) cpu = Some n → sem_at s a v q → (- 2 ^ 31 ≤ v < 2 ^ 31 - 1)%Z →
  (∀ y, y ∈ q → is_Some (theap s !! y)) →
  wp (kmt_sem_signal a cpu) (λ _ s', kprocfs s' = kprocfs s ∧ sem_frame a s s' ∧ sem_at s' a (v + 1) (List.tl q) ∧
    theap s' = match q with y :: _ => alter (set_tstate RUNNABLE) y (theap s) | [] => theap s end) s.
Proof using Hcpu.
  intros Hok Hn (x & Hx & <- & Hlk & Hq) Hv Hheap.
  assert (sem_queue (set_lk (Spinlock (lname (lk x)) LOCKED cpu) x) q) as Hq1 by (by apply sem_queue_lk).
  pose proof (sq_value _ _ Hq) as Hqv. unfold kmt_sem_signal.
  apply (wp_sem_begin a x (value x + 1) _ s n (λ x, if decide (value x ≤ 0)%Z
    then wakeup a cpu else sem_unlock a cpu) 1); [done..|apply i32_small; lia|].
  intros s1 Hok1 [Hc1 Hc2 Hc3 Hc4 Hc5 Hc6] Hn1 x1 Hs1. simpl.
  assert (Hx1 : sems s1 !! a = Some (set_value (value x + 1) x1)) by (rewrite Hs1; by apply lookup_insert_eq).
  assert (Hoth1 : ∀ b, b ≠ a → sems s1 !! b = sems s !! b) by (intros; by rewrite Hs1, lookup_insert_ne).
  destruct q as [|y q]; [rewrite decide_False by (simpl in *; lia)|rewrite decide_True by (simpl in *; lia)].
  - eapply (wp_sem_release a _ []); [done|exact Hn1|done|destruct Hq1; split; simpl in *; try done; lia|].
    intros s2 Hok2 [] Hat Hoth Hn2. simpl in *.
    split_and!; [congruence|split; [split; congruence|congruence| |done|congruence]|done|congruence].
    intros b Hb. rewrite Hoth by done. auto.
  - destruct (sem_queue_pop x1 y q (value x + 1) Hq1) as [Hhd Hq2]; [simpl in *; lia|].
    destruct (Hheap y) as [t Ht]; [left|].
    unfold wakeup. wp_steps. eapply wp_sem_load; [exact Hx1|]. simpl.
    rewrite decide_False.
    2: { pose proof (sq_tail _ _ Hq1) as Htl. pose proof (sq_head _ _ Hq1). pose proof (sq_room _ _ Hq1).
         simpl in *. rewrite Htl. intros Heq. apply (mod_neq (head x) 0 (Z.of_nat (S (length q))) (Z.of_nat MAX_TASK)); [lia..|].
         rewrite Z.add_0_r, <-Heq. by apply Z.mod_small. }
    wp_steps. eapply wp_sem_pop; [exact Hx1|done|exact Hhd|]. wp_steps.
    eapply wp_task_store; [simpl; by rewrite Hc5|]. simpl.
    eapply (wp_sem_release a _ q); [destruct Hok1; by split|exact Hn1|by apply lookup_insert_eq|exact Hq2|].
    intros s2 Hok2 [] Hat Hoth Hn2. simpl in *.
    split_and!; [congruence|split; [split; congruence|congruence| |done|congruence]|done|].
    + intros b Hb. rewrite Hoth by done. simpl. rewrite lookup_insert_ne by done. auto.
    + rewrite ce_heap0, Hc5. apply map_eq. intros z. destruct (decide (z = y)) as [->|].
      * by rewrite lookup_insert_eq, lookup_alter_eq, Ht.
      * by rewrite lookup_insert_ne, lookup_alter_ne.
Qed.

(** C6. [sem_signal] implements the up operation: it adds one unit, and when tasks
    sleep it takes the first of them out of the queue and makes it schedulable;
    no wake-up is lost, and with a sleeper counted it never halts. *)
Theorem sem_signal_refines s a v q n :
  cpu_ok s → aget (ncli s) cpu = Some n → sem_at s a v q → (- 2 ^ 31 ≤ v < 2 ^ 31 - 1)%Z →
  (∀ y, y ∈ q → is_Some (theap s !! y)) →
  ∃ s', kmt_sem_signal a cpu s = Ret (tt, s') ∧ sem_frame a s s' ∧
    sem_at s' a (v + 1) (List.tl q) ∧
    theap s' = match q with y :: _ => alter (set_tstate RUNNABLE) y (theap s) | [] => theap s end.
Proof using Hcpu.
  intros Hok Hn Hat Hv Hheap. pose proof (wp_kmt_sem_signal s a v q n Hok Hn Hat Hv Hheap) as Hwp.
  apply wp_run in Hwp as ([] & s' & Hrun & _ & ?). by exists s'.
Qed.
End cpu.

(** The first trap of a processor never returns: with no current task the
    switch reads [otask->proc] through a null pointer once it has found a task
    to run, and when there is none its search never ends. *)
Theorem first_trap_faults s cpu c :
  kmt_ok s → (0 ≤ cpu < Z.of_nat MAX_CPU)%Z → (0 < tasks_size s)%Z →
  aget (current_tasks s) cpu = Some None →
  ((∃ j, ready s j = true) → kmt_context_save_switch cpu c s = Err NullDeref) ∧
  ((∀ j, ready s j = false) → kmt_context_save_switch cpu c s = Err OutOfFuel).
Proof.
  intros Hok Hcpu Hsz Hcur. pose proof (kk_size _ Hok).
  assert (Hgc : get_current cpu s = Ret (None, s)).
  { unfold get_current. erewrite (bind_run get) by done. by rewrite Hcur. }
  unfold kmt_context_save_switch. split.
  - intros [j Hj]. destruct (is_next_exists s 0 j Hok ltac:(lia) Hj) as (d & Hnext & _).
    rewrite (bind_run _ _ _ _ _ Hgc). do 3 (erewrite (bind_run (mret _)) by done).
    erewrite bind_run; [|apply (sched_loop_next s 0 d); [done|lia|done|destruct Hnext; unfold sched_fuel; lia]].
    destruct Hnext as (_ & Hr & _). unfold ready in Hr. rewrite Z.add_0_l in *.
    destruct (aget (tasks s) _) as [[y|]|] eqn:Hy; [|done..].
    destruct (theap s !! y) as [ty|] eqn:Hty; [|done].
    erewrite (bind_run get) by done. rewrite Hy. erewrite (bind_run (deref _ _)) by done.
    assert (Hput : wp (put_current cpu (Some y)) (λ _ s', s' =
      set_current_tasks (<[Z.to_nat cpu := Some y]> (current_tasks s)) s) s).
    { apply wp_put_current; [by rewrite (kk_current _ Hok)|done]. }
    apply wp_run in Hput as ([] & s1 & Hput & Hs1). rewrite (bind_run _ _ _ _ _ Hput).
    assert (Hst : wp (task_store (Some y) (set_tstate RUNNING)) (λ _ s',
      current_tasks s' = current_tasks s1) s1) by (subst s1; by eapply wp_task_store).
    apply wp_run in Hst as ([] & s2 & Hst & Hs2). rewrite (bind_run _ _ _ _ _ Hst).
    erewrite bind_run; [done|]. unfold get_current. erewrite (bind_run get) by done.
    rewrite Hs2, Hs1. simpl. by rewrite aget_insert_eq by (by rewrite (kk_current _ Hok)).
  - intros Hnone. rewrite (bind_run _ _ _ _ _ Hgc). do 3 (erewrite (bind_run (mret _)) by done).
    by rewrite (bind_err _ _ _ _ (sched_loop_idle s 0 sched_fuel Hok ltac:(lia) Hnone)).
Qed.

(** ** Concrete inputs *)

(** Two processors, each running a task, and a semaphore at 0. *)
Definition race_start : kmt_st :=
  let p := procfs_boot in
  KmtSt 2 (Some 0 :: Some 1 :: replicate 30 None) (Some 0 :: Some 1 :: replicate 6 None)
    UNLOCKED UNLOCKED UNLOCKED (replicate MAX_CPU 0%Z) (replicate MAX_CPU false) (replicate MAX_CPU true)
    (list_to_map [(0, Task 0 RUNNING None 100 (0, 0)%Z "a" 0); (1, Task 1 RUNNING None 101 (0, 0)%Z "b" 0)])
    {[0 := Sem "s" 0 (Spinlock "s" UNLOCKED NONE_CPU) (replicate MAX_TASK None) 0 0]} p.

Lemma two_lookup (i : Z) (x : loc) :
  aget (Some 0 :: Some 1 :: replicate 30 (@None loc)) i = Some (Some x) →
  (i = 0%Z ∧ x = 0) ∨ (i = 1%Z ∧ x = 1).
Proof.
  intros [Hi Hx]%aget_Some. destruct (Z.to_nat i) as [|[|n]] eqn:E.
  - injection Hx as <-. left. lia.
  - injection Hx as <-. right. lia.
  - exfalso. change (replicate 30 (@None loc) !! n = Some (Some x)) in Hx. by apply lookup_replicate in Hx as [? _].
Qed.

Lemma race_start_ok : kmt_ok race_start.
Proof.
  split; [done|done|done|]. intros i x Hx. change (tasks race_start) with (Some 0 :: Some 1 :: replicate 30 (@None loc)) in Hx.
  apply two_lookup in Hx as [[-> ->]|[-> ->]].
  - split; [done|]. by eexists.
  - split; [done|]. by eexists.
Qed.

Lemma race_start_cpu : cpu_ok race_start.
Proof. by split. Qed.

Lemma race_start_sem : sem_at race_start 0 0 [].
Proof. eexists. split; [done|]. split; [done|]. split; [done|].
  by split; [| |apply Nat.ltb_lt| | |]. Qed.

Lemma sem_wait_refines_witness :
  ∃ s', kmt_sem_wait 0 0 race_start = Ret (true, s') ∧ sem_at s' 0 (-1) [0].
Proof.
  destruct (sem_wait_refines 0 (conj (Z.le_refl 0) eq_refl) race_start 0 0 [] 0
    (Task 0 RUNNING None 100 (0, 0)%Z "a" 0) 0 race_start_cpu eq_refl race_start_sem)
    as (s' & Hrun & _ & Hat & _); [by apply Nat.ltb_lt|done|done|done|].
  exists s'. split; [exact Hrun|exact Hat].
Defined.

(** The same with task 0 asleep on the semaphore. *)
Definition one_sleeper : kmt_st :=
  set_sems {[0 := Sem "s" (-1) (Spinlock "s" UNLOCKED NONE_CPU) (Some 0 :: replicate 31 None) 0 1]} race_start.

Lemma one_sleeper_cpu : cpu_ok one_sleeper.
Proof. by split. Qed.

Lemma one_sleeper_sem : sem_at one_sleeper 0 (-1) [0].
Proof.
  eexists. split; [done|]. split; [done|]. split; [done|]. split; [done|done|by apply Nat.ltb_lt|done| |done].
  intros [|k] y Hk; [by injection Hk as <-|by destruct k].
Qed.

Lemma sem_signal_refines_witness :
  (∃ s', kmt_sem_signal 0 0 race_start = Ret (tt, s') ∧ sem_at s' 0 1 []) ∧
  ∃ s', kmt_sem_signal 0 1 one_sleeper = Ret (tt, s') ∧ sem_at s' 0 0 [] ∧ (state <$> theap s' !! 0) = Some RUNNABLE.
Proof.
  split.
  - destruct (sem_signal_refines 0 (conj (Z.le_refl 0) eq_refl) race_start 0 0 [] 0
      race_start_cpu eq_refl race_start_sem) as (s' & Hrun & _ & Hat & _); [done|set_solver|].
    exists s'. split; [exact Hrun|exact Hat].
  - destruct (sem_signal_refines 1 (conj Z.le_0_1 eq_refl) one_sleeper 0 (-1) [0] 0
      one_sleeper_cpu eq_refl one_sleeper_sem) as (s' & Hrun & _ & Hat & Hh); [done| |].
    + intros y ->%list_elem_of_singleton. by eexists.
    + exists s'. split; [exact Hrun|]. split; [exact Hat|]. by rewrite Hh.
Defined.

Lemma lock_unlock_masks_witness :
  ∃ s', (sem_lock 0 0;; sem_unlock 0 0) race_start = Ret (tt, s') ∧
    aget (eflags_if race_start) 0 = Some true ∧ aget (eflags_if s') 0 = Some false.
Proof.
  destruct (lock_unlock_masks 0 (conj (Z.le_refl 0) eq_refl) 0 _ race_start race_start_cpu eq_refl eq_refl eq_refl)
    as (s' & Hrun & _ & Hif). by exists s'.
Defined.

(** The race's state with task 1 schedulable. *)
Definition one_ready : kmt_st :=
  set_theap (<[1 := Task 1 RUNNABLE None 101 (0, 0)%Z "b" 0]> (theap race_start)) race_start.

Lemma one_ready_ok : kmt_ok one_ready.
Proof. by eapply (kmt_ok_store race_start 1); [apply race_start_ok| |]. Qed.

Lemma sched_round_robin_witness :
  ready one_ready 1 = true ∧ ∃ j, sched_loop sched_fuel 0 one_ready = Ret (j, one_ready).
Proof.
  split; [reflexivity|].
  destruct (sched_round_robin one_ready 0 one_ready_ok (conj (Z.le_refl 0) eq_refl)) as [Hsome _].
  destruct (Hsome 1%Z eq_refl) as (d & d' & _ & _ & _ & Hrun & _). by eexists.
Defined.

Lemma one_ready_next :
  is_next (parked one_ready 0 (Task 0 RUNNING None 100 (0, 0)%Z "a" 0) 77) 0 1.
Proof. split; [done|]. split; [done|]. intros. lia. Qed.

Lemma context_switch_spec_witness :
  ∃ s', kmt_context_save_switch 0 77 one_ready = Ret (Some 1, s') ∧ kmt_ok s'.
Proof.
  destruct (context_switch_spec one_ready 0 77 0 (Task 0 RUNNING None 100 (0, 0)%Z "a" 0) 1 one_ready_ok)
    as (y & ty & s' & Hrun & Hok & Hy & _); try done.
  - intros x t Hx. unfold one_ready in Hx. simpl in Hx.
    apply lookup_insert_Some in Hx as [[_ <-]|[_ Hx]]; [done|].
    apply lookup_insert_Some in Hx as [[_ <-]|[_ Hx]]; [done|].
    apply lookup_insert_Some in Hx as [[_ <-]|[_ Hx]]; done.
  - apply one_ready_next.
  - exists s'. injection Hy as <-. done.
Defined.

Lemma first_trap_faults_witness :
  kmt_context_save_switch 5 77 one_ready = Err NullDeref.
Proof.
  apply (first_trap_faults one_ready 5 77 one_ready_ok); [done|done|done|]. by exists 1%Z.
Defined.
