(* ===== verification/Exclusion.v ===== *)
(** * When two processors run one task

    A trap, a wait or a signal that returns keeps the tasks apart: no task is
    current on two processors and no current task can be scheduled.  The one
    exception is a signal that wakes a task still current: [sleep] releases the
    semaphore's lock before it yields, so the wake-up can come between the two, and
    the next switch of another processor then resumes a task that its own is
    running. *)
From S2P Require Import Prelude Faults Common Procfs Kthreads KthreadsProps.

Definition on_cpu (s : kmt_st) (c : Z) (x : loc) : Prop := aget (current_tasks s) c = Some (Some x).
Definition can_run (t : task) : Prop := state t = STARTED ∨ state t = RUNNABLE.

(** No task is current on two processors. *)
Definition exclusive (s : kmt_st) : Prop := ∀ c c' x, on_cpu s c x → on_cpu s c' x → c = c'.

(** Besides, no task that is current can be scheduled. *)
Definition settled (s : kmt_st) : Prop :=
  exclusive s ∧ ∀ c x t, on_cpu s c x → theap s !! x = Some t → ¬ can_run t.

(** ** Steps

    The switch runs with interrupts off and each semaphore operation under its
    lock, so a run interleaves whole operations; the [_yield()] at the end of
    [sleep] is a later trap of the same processor. *)
Inductive kop := Trap (cpu c : Z) | Wait (cpu : Z) (a : nat) | Signal (cpu : Z) (a : nat).

Definition do_kop (op : kop) : M kmt_st unit :=
  match op with
  | Trap cpu c => kmt_context_save_switch cpu c;; mret tt
  | Wait cpu a => kmt_sem_wait a cpu;; mret tt
  | Signal cpu a => kmt_sem_signal a cpu
  end.

(** The task that a signal on [a] would take out of the queue. *)
Definition first_sleeper (s : kmt_st) (a : nat) : option loc :=
  x ← sems s !! a; if decide (i32 (value x + 1) ≤ 0)%Z then mjoin (aget (que x) (head x)) else None.

(** A signal that wakes a task before its processor has switched. *)
Definition early (s : kmt_st) (op : kop) : Prop :=
  match op with Signal _ a => ∃ y c, first_sleeper s a = Some y ∧ on_cpu s c y | _ => False end.

Inductive calm : kmt_st → kmt_st → Prop :=
  | calm_refl s : calm s s
  | calm_step s op s1 s2 : ¬ early s op → do_kop op s = Ret (tt, s1) → calm s1 s2 → calm s s2.

(** ** What an operation that returns has done *)

Notation run := (wpe (λ _, True)).

Lemma run_gets {A} (f : kmt_st → A) (Q : A → kmt_st → Prop) s : Q (f s) s → run (gets f) Q s.
Proof. done. Qed.

Lemma run_get_current cpu (Q : option loc → kmt_st → Prop) s :
  (∀ p, aget (current_tasks s) cpu = Some p → Q p s) → run (get_current cpu) Q s.
Proof. intros HQ. unfold get_current. wpe_step. wpe_step. wpe_step. by apply HQ. Qed.

Lemma run_task_load p (Q : task → kmt_st → Prop) s :
  (∀ x t, p = Some x → theap s !! x = Some t → Q t s) → run (task_load p) Q s.
Proof. intros HQ. unfold task_load. wpe_step. wpe_step. wpe_step. wpe_step. wpe_step. by eapply HQ. Qed.

Lemma run_task_store p f (Q : unit → kmt_st → Prop) s :
  (∀ x t, p = Some x → theap s !! x = Some t → Q tt (set_theap (<[x := f t]> (theap s)) s)) → run (task_store p f) Q s.
Proof.
  intros HQ. unfold task_store. wpe_step. wpe_step. wpe_step. apply run_task_load.
  intros x t Hp Hx. subst p. simplify_eq. wpe_step. by eapply HQ.
Qed.

Lemma run_put_current cpu p (Q : unit → kmt_st → Prop) s :
  (∀ l, aset (current_tasks s) cpu p = Some l → Q tt (set_current_tasks l s)) → run (put_current cpu p) Q s.
Proof. intros HQ. unfold put_current. wpe_step. wpe_step. wpe_step. wpe_step. wpe_step. by apply HQ. Qed.

Lemma run_sched_loop fuel i (Q : Z → kmt_st → Prop) s :
  (∀ j x t, aget (tasks s) j = Some (Some x) → theap s !! x = Some t → can_run t → Q j s) → run (sched_loop fuel i) Q s.
Proof.
  revert i. induction fuel as [|fuel IH]; intros i HQ; cbn [sched_loop]; [by wpe_step|].
  wpe_step. apply run_gets. apply wpe_decide; intros _; [by wpe_step|].
  wpe_step. wpe_step. wpe_step. apply wpe_deref; [done|]. intros [x|] Hx; [|by apply IH].
  wpe_step. apply run_task_load. intros x' t [= <-] Ht. apply wpe_decide; intros Hst; [|by apply IH].
  wpe_step. by eapply HQ.
Qed.

Lemma run_zoom {T A} (g : kmt_st → T) (p : T → kmt_st → kmt_st) (m : M T A) (Q : A → kmt_st → Prop) s :
  (∀ a t, Q a (p t s)) → run (zoom g p m) Q s.
Proof. intros HQ. unfold wpe, zoom. by destruct (m (g s)) as [[a t]|]. Qed.

(** What the locks of a semaphore leave alone. *)
Definition que_of (x : sem) : list (option loc) * Z * Z * Z := (que x, head x, tail x, value x).
Record unlocked_eq (s s' : kmt_st) : Prop := {
  ue_heap : theap s' = theap s;
  ue_current : current_tasks s' = current_tasks s;
  ue_sems : ∀ b, que_of <$> sems s' !! b = que_of <$> sems s !! b
}.

Lemma unlocked_refl s : unlocked_eq s s.
Proof. done. Qed.

Lemma unlocked_trans s1 s2 s3 : unlocked_eq s1 s2 → unlocked_eq s2 s3 → unlocked_eq s1 s3.
Proof. intros [] []. split; [congruence|congruence|]. intros b. by rewrite ue_sems1, ue_sems0. Qed.

(** A part of an operation that keeps the tasks and the queues. *)
Definition quiet {A} (m : M kmt_st A) : Prop := ∀ s, run m (λ _ s', unlocked_eq s s') s.

Lemma quiet_bind {A B} (m : M kmt_st A) (k : A → M kmt_st B) : quiet m → (∀ a, quiet (k a)) → quiet (m ≫= k).
Proof.
  intros Hm Hk s. wpe_step. eapply wpe_mono; [apply Hm|]. intros a s1 H1. eapply wpe_mono; [apply Hk|].
  intros b s2 H2. exact (unlocked_trans _ _ _ H1 H2).
Qed.
Lemma quiet_ret {A} (a : A) : quiet (mret a).
Proof. intros s. by wpe_step. Qed.
Lemma quiet_get : quiet get.
Proof. intros s. by wpe_step. Qed.
Lemma quiet_deref {A} f (o : option A) : quiet (deref f o).
Proof. intros s. by wpe_step. Qed.
Lemma quiet_fail {A} f : quiet (fail (A := A) f).
Proof. done. Qed.
Lemma quiet_modify f : (∀ s, unlocked_eq s (f s)) → quiet (modify f).
Proof. intros Hf s. wpe_step. apply Hf. Qed.
Lemma quiet_decide {A} P `{Decision P} (m1 m2 : M kmt_st A) : quiet m1 → quiet m2 → quiet (if decide P then m1 else m2).
Proof. by case_decide. Qed.
Lemma quiet_when b (m : M kmt_st unit) : quiet m → quiet (when b m).
Proof. intros Hm s. apply wpe_when; [apply Hm|done]. Qed.
Create HintDb quiet.
#[local] Hint Resolve quiet_ret quiet_get quiet_deref quiet_fail : quiet.
Ltac quiet :=
  repeat first [solve [auto with quiet nocore] | apply quiet_decide | apply quiet_when | apply quiet_modify; intros ?; by split
    | apply quiet_bind; [|intros ?]].

Lemma quiet_get_cpu {A} (f : kmt_st → list A) cpu : quiet (get_cpu f cpu).
Proof. unfold get_cpu. quiet. Qed.
Lemma quiet_put_cpu {A} (f : kmt_st → list A) g cpu x : (∀ l s, unlocked_eq s (g l s)) → quiet (put_cpu f g cpu x).
Proof. intros Hg. unfold put_cpu. quiet. by apply quiet_modify. Qed.
#[local] Hint Resolve quiet_get_cpu quiet_put_cpu : quiet.

Lemma quiet_gets {A} (f : kmt_st → A) : quiet (gets f).
Proof. intros s. by apply run_gets. Qed.

Lemma quiet_naivelock_lock rd wr : (∀ v s, unlocked_eq s (wr v s)) → quiet (naivelock_lock rd wr).
Proof. intros Hw. unfold naivelock_lock, atomic_xchg. quiet; by first [apply quiet_gets|apply quiet_modify]. Qed.
Lemma quiet_naivelock_unlock rd wr : (∀ v s, unlocked_eq s (wr v s)) → quiet (naivelock_unlock rd wr).
Proof. intros Hw. unfold naivelock_unlock, atomic_xchg. quiet; by first [apply quiet_gets|apply quiet_modify]. Qed.

#[local] Hint Extern 2 (unlocked_eq _ _) => (by split) : quiet.
#[local] Hint Resolve quiet_naivelock_lock quiet_naivelock_unlock : quiet.

Lemma quiet_pushcli cpu : quiet (pushcli cpu).
Proof. unfold pushcli, cli, get_if. quiet. Qed.
Lemma quiet_popcli cpu : quiet (popcli cpu).
Proof. unfold popcli, sti. quiet. Qed.

Lemma quiet_sem_load a : quiet (sem_load a).
Proof. unfold sem_load. quiet. Qed.

(** A store to a semaphore that keeps its queue. *)
Lemma quiet_sem_update a f : (∀ x, que_of (f x) = que_of x) → quiet (x ← sem_load a; sem_store a (f x)).
Proof.
  intros Hf s. wpe_step. unfold sem_load at 1. do 2 wpe_step. apply wpe_deref; [done|]. intros x Hx.
  unfold sem_store. wpe_step. eapply wpe_mono; [apply quiet_sem_load|]. intros x' s1 [Hh Hc Hs]. wpe_step.
  split; [done|done|]. intros b. cbn. destruct (decide (b = a)) as [->|].
  - by rewrite lookup_insert_eq, Hx; cbn; rewrite Hf.
  - rewrite lookup_insert_ne by done. apply Hs.
Qed.
Lemma quiet_set_lk a l : quiet (x ← sem_load a; sem_store a (set_lk l x)).
Proof. by apply (quiet_sem_update a (set_lk l)). Qed.
#[local] Hint Resolve quiet_pushcli quiet_popcli quiet_sem_load quiet_set_lk : quiet.

Lemma quiet_sem_lock a cpu : quiet (sem_lock a cpu).
Proof. unfold sem_lock, kmt_spin_lock. quiet. Qed.
Lemma quiet_sem_unlock a cpu : quiet (sem_unlock a cpu).
Proof. unfold sem_unlock, kmt_spin_unlock. quiet. Qed.

Lemma run_quiet {A} (m : M kmt_st A) (Q : A → kmt_st → Prop) s :
  quiet m → (∀ a s', unlocked_eq s s' → Q a s') → run m Q s.
Proof. intros Hm HQ. eapply wpe_mono; [apply Hm|done]. Qed.

Lemma run_sem_load a (Q : sem → kmt_st → Prop) s : (∀ x, sems s !! a = Some x → Q x s) → run (sem_load a) Q s.
Proof. intros HQ. unfold sem_load. do 2 wpe_step. apply wpe_deref; [done|exact HQ]. Qed.
Lemma run_sem_store a x (Q : unit → kmt_st → Prop) s : Q tt (set_sems (<[a := x]> (sems s)) s) → run (sem_store a x) Q s.
Proof. intros HQ. unfold sem_store. wpe_step. apply run_sem_load. intros y _. by wpe_step. Qed.

(** A wait that returns has put the caller to sleep or changed no task. *)
Lemma run_wait cpu a s : run (kmt_sem_wait a cpu) (λ _ s', current_tasks s' = current_tasks s ∧
  (theap s' = theap s ∨ ∃ y t, theap s !! y = Some t ∧ theap s' = <[y := set_tstate YIELD t]> (theap s))) s.
Proof.
  unfold kmt_sem_wait. wpe_step. apply run_quiet; [apply quiet_sem_lock|]. intros [] s1 [Hh1 Hc1 _].
  wpe_step. apply run_sem_load. intros x _. wpe_step. apply run_sem_store. wpe_step. apply run_sem_load. intros x' _.
  apply wpe_decide; intros _.
  - wpe_step. unfold sleep. wpe_step. apply run_get_current. intros p _. wpe_step. apply run_task_store. intros y t _ Hy.
    wpe_step. apply run_get_current. intros p' _. wpe_step. unfold sem_push. wpe_step. apply run_sem_load. intros x2 _.
    wpe_step. apply wpe_assert; [done|]. intros _. wpe_step. wpe_step. apply run_sem_store.
    apply run_quiet; [apply quiet_sem_unlock|]. intros [] s2 [Hh2 Hc2 _]. wpe_step. cbn in *.
    split; [congruence|]. right. exists y, t. split; congruence.
  - wpe_step. apply run_quiet; [apply quiet_sem_unlock|]. intros [] s2 [Hh2 Hc2 _]. wpe_step. cbn in *.
    split; [congruence|]. left. congruence.
Qed.

(** A signal that returns has woken the first sleeper or changed no task. *)
Lemma run_signal cpu a s : run (kmt_sem_signal a cpu) (λ _ s', current_tasks s' = current_tasks s ∧
  (theap s' = theap s ∨ ∃ y t, first_sleeper s a = Some y ∧ theap s !! y = Some t ∧
     theap s' = <[y := set_tstate RUNNABLE t]> (theap s))) s.
Proof.
  unfold kmt_sem_signal. wpe_step. apply run_quiet; [apply quiet_sem_lock|]. intros [] s1 [Hh1 Hc1 Hs1].
  wpe_step. apply run_sem_load. intros x1 Hx1. specialize (Hs1 a). rewrite Hx1 in Hs1.
  destruct (sems s !! a) as [x|] eqn:Hx; [|done]. injection Hs1 as Eq Eh Et Ev.
  wpe_step. apply run_sem_store. wpe_step. apply run_sem_load. intros x2 Hx2. cbn in Hx2. rewrite lookup_insert_eq in Hx2.
  injection Hx2 as <-. cbn [value set_value]. apply wpe_decide; intros Hle.
  - unfold wakeup. wpe_step. apply run_sem_load. intros x3 Hx3. cbn in Hx3. rewrite lookup_insert_eq in Hx3. injection Hx3 as <-.
    wpe_step. apply wpe_decide; intros _; [by wpe_step|]. wpe_step. wpe_step. unfold sem_pop. wpe_step. apply run_sem_load.
    intros x4 Hx4. cbn in Hx4. rewrite lookup_insert_eq in Hx4. injection Hx4 as <-. wpe_step. apply wpe_assert; [done|]. intros _.
    wpe_step. apply run_sem_store. apply wpe_deref; [done|]. intros p Hp. wpe_step. apply run_task_store. intros y t -> Hy.
    apply run_quiet; [apply quiet_sem_unlock|]. intros [] s2 [Hh2 Hc2 _]. cbn in *.
    split; [congruence|]. right. exists y, t. split; [|split; congruence].
    unfold first_sleeper. rewrite Hx. cbn. rewrite <-Ev, decide_True by done. rewrite <-Eq, <-Eh. by rewrite Hp.
  - apply run_quiet; [apply quiet_sem_unlock|]. intros [] s2 [Hh2 Hc2 _]. cbn in *. split; [congruence|]. left. congruence.
Qed.

(** A switch that returns has parked the current task and resumed a ready one. *)
Record switched (cpu c : Z) (s s' : kmt_st) (x y : loc) (t ty : task) : Prop := {
  sw_cpu : (0 ≤ cpu < Z.of_nat (length (current_tasks s)))%Z;
  sw_old : on_cpu s cpu x;
  sw_task : theap s !! x = Some t;
  sw_new : theap (parked s x t c) !! y = Some ty;
  sw_ready : can_run ty;
  sw_current : current_tasks s' = <[Z.to_nat cpu := Some y]> (current_tasks s);
  sw_heap : theap s' = <[y := set_tstate RUNNING ty]> (theap (parked s x t c))
}.

Lemma run_trap cpu c s : run (kmt_context_save_switch cpu c) (λ _ s', ∃ x y t ty, switched cpu c s s' x y t ty) s.
Proof.
  unfold kmt_context_save_switch. wpe_step. apply run_get_current. intros [x|] Hx.
  2:{ do 7 wpe_step. apply run_sched_loop. intros j y ty Hj Hy Hr. wpe_step. wpe_step. wpe_step.
      apply wpe_deref; [done|]. intros p _. wpe_step. apply run_put_current. intros l _. wpe_step. apply run_task_store. intros ? ? _ _.
      wpe_step. apply run_get_current. intros q _. wpe_step. apply run_task_load. by intros. }
  wpe_step. apply run_task_store. intros x' t [= <-] Ht. cbv zeta. wpe_step. wpe_step. apply run_task_load.
  intros x' t' [= <-] Ht'. cbn in Ht'. rewrite lookup_insert_eq in Ht'. injection Ht' as <-.
  apply (wpe_mono _ _ (λ _ s1, s1 = parked s x t c)).
  { unfold parked, park. cbn [state set_ctx]. destruct (decide (state t = RUNNING)) as [Hr|Hr].
    - rewrite bool_decide_true by done. cbn [when]. apply run_task_store. intros x' t' [= <-] Ht'. cbn in Ht'. rewrite lookup_insert_eq in Ht'.
      injection Ht' as <-. rewrite set_theap_theap. cbn. by rewrite insert_insert_eq.
    - by rewrite bool_decide_false by done. }
  intros [] s1 ->. wpe_step. wpe_step. apply run_task_load. intros x' t' _ _. wpe_step. wpe_step. apply run_sched_loop.
  intros j y ty Hj Hy Hr. wpe_step. wpe_step. wpe_step. rewrite Hj. wpe_step. injection H as <-.
  wpe_step. apply run_put_current. intros l Hl. cbn in Hl. apply aset_inv in Hl as [Hc ->].
  wpe_step. apply run_task_store. intros y' ty' [= <-] Hy'. cbn in Hy'. cbn in Hy. simplify_eq.
  wpe_step. apply run_get_current. intros q _. wpe_step. apply run_task_load. intros ? ? _ _. wpe_step. apply run_task_load. intros ? ? _ _.
  wpe_step. unfold procfs_schdule_m. apply run_zoom. intros [] p. wpe_step. exists x, y, t, ty. by split.
Qed.

(** ** The tasks stay apart *)

Lemma on_cpu_switch cpu y s s' c z : (0 ≤ cpu < Z.of_nat (length (current_tasks s)))%Z →
  current_tasks s' = <[Z.to_nat cpu := Some y]> (current_tasks s) →
  on_cpu s' c z ↔ (c = cpu ∧ z = y) ∨ (c ≠ cpu ∧ on_cpu s c z).
Proof.
  intros Hc Hs. unfold on_cpu. rewrite Hs, !aget_Some. destruct (decide (c = cpu)) as [->|Hne].
  - rewrite list_lookup_insert_eq by lia. naive_solver lia.
  - split; intros Hx; [right; split; [done|]|].
    + destruct Hx as [Hx0 Hx]. by rewrite list_lookup_insert_ne in Hx by lia.
    + destruct Hx as [[]|[_ [Hx0 Hx]]]; [done|]. by rewrite list_lookup_insert_ne by lia.
Qed.

Lemma switched_settled cpu c s s' x y t ty : settled s → switched cpu c s s' x y t ty → settled s'.
Proof.
  intros [He Hr] [Hc Hx Ht Hy Hrd Hcur Hheap].
  assert (Hon : ∀ c z, on_cpu s' c z ↔ (c = cpu ∧ z = y) ∨ (c ≠ cpu ∧ on_cpu s c z)) by (intros; by apply on_cpu_switch).
  (* the task resumed was current on no other processor *)
  assert (Hfree : ∀ c', on_cpu s c' y → c' = cpu).
  { intros c' Hy'. cbn in Hy. apply lookup_insert_Some in Hy as [[<- <-]|[Hne Hy]]; [by apply (He c' cpu x)|].
    by destruct (Hr c' y ty Hy' Hy). }
  split.
  - intros c1 c2 z [[-> ->]|[H1 Hz1]]%Hon [[-> Hz]|[H2 Hz2]]%Hon; [done|by destruct H2; apply Hfree| |by apply (He c1 c2 z)].
    subst z. by destruct H1; apply Hfree.
  - intros c1 z tz Hz. rewrite Hheap. intros [[-> <-]|[Hzy Htz]]%lookup_insert_Some; [by intros []|].
    apply Hon in Hz as [[_ ->]|[Hc1 Hz]]; [done|]. cbn in Htz.
    apply lookup_insert_Some in Htz as [[<- _]|[_ Htz]]; [by destruct Hc1; apply (He c1 cpu x)|by apply (Hr c1 z)].
Qed.

(** Changing a task that is not current, or to a state in which it cannot run. *)
Lemma stored_settled s s' y t st : settled s → current_tasks s' = current_tasks s →
  theap s' = <[y := set_tstate st t]> (theap s) → (∀ c, on_cpu s c y → ¬ can_run (set_tstate st t)) → settled s'.
Proof.
  intros [He Hr] Hc Hh Hy. unfold settled, exclusive, on_cpu in *. rewrite Hc, Hh. split; [done|].
  intros c z tz Hz [[-> <-]|[_ Htz]]%lookup_insert_Some; [by apply (Hy c)|by apply (Hr c z)].
Qed.

Lemma calm_op_settled s op s' : settled s → ¬ early s op → do_kop op s = Ret (tt, s') → settled s'.
Proof.
  intros Hs Hcalm Hrun. destruct op as [cpu c|cpu a|cpu a]; cbn [do_kop early] in *.
  - assert (Hw : run (kmt_context_save_switch cpu c;; mret tt) (λ _ s', settled s') s).
    { wpe_step. eapply wpe_mono; [apply run_trap|]. intros _ s1 (x & y & t & ty & Hsw). wpe_step. by eapply switched_settled. }
    exact (wpe_run _ _ _ _ tt _ Hw Hrun).
  - assert (Hw : run (kmt_sem_wait a cpu;; mret tt) (λ _ s', settled s') s).
    { wpe_step. eapply wpe_mono; [apply run_wait|]. intros _ s1 [Hc [Hh|(y & t & Hy & Hh)]]; wpe_step.
      - unfold settled, exclusive, on_cpu. by rewrite Hc, Hh.
      - eapply stored_settled; [done|done|exact Hh|]. by intros c _ []. }
    exact (wpe_run _ _ _ _ tt _ Hw Hrun).
  - assert (Hw : run (kmt_sem_signal a cpu) (λ _ s', settled s') s).
    { eapply wpe_mono; [apply run_signal|]. intros _ s1 [Hc [Hh|(y & t & Hf & Hy & Hh)]].
      - unfold settled, exclusive, on_cpu. by rewrite Hc, Hh.
      - eapply stored_settled; [done|done|exact Hh|]. intros c Hon. destruct Hcalm. by exists y, c. }
    exact (wpe_run _ _ _ _ tt _ Hw Hrun).
Qed.

Lemma calm_settled s s' : calm s s' → settled s → settled s'.
Proof. induction 1 as [|s op s1 s2 Hc Hrun _ IH]; [done|]. intros Hs. apply IH. by eapply calm_op_settled. Qed.

(** ** The race *)

(** The state in which the scheduler of the other processor searches: task [y] woken,
    task [x] parked. *)
Definition raced (s : kmt_st) (y : loc) (ty : task) (x : loc) (t : task) (c : Z) : kmt_st :=
  parked (set_theap (<[y := set_tstate RUNNABLE ty]> (theap s)) s) x t c.

Lemma is_next_ext s s' i d : tasks s' = tasks s → tasks_size s' = tasks_size s → theap s' = theap s →
  is_next s i d → is_next s' i d.
Proof. unfold is_next, ready. by intros -> -> ->. Qed.

Lemma wait_then_signal s a cpu cpu' y ty : (0 ≤ cpu < Z.of_nat MAX_CPU)%Z → (0 ≤ cpu' < Z.of_nat MAX_CPU)%Z →
  cpu_ok s → sem_at s a 0 [] → on_cpu s cpu y → theap s !! y = Some ty →
  ∃ s1 s2, kmt_sem_wait a cpu s = Ret (true, s1) ∧ kmt_sem_signal a cpu' s1 = Ret (tt, s2) ∧
    first_sleeper s1 a = Some y ∧ current_tasks s1 = current_tasks s ∧ current_tasks s2 = current_tasks s ∧ tasks s2 = tasks s ∧
    tasks_size s2 = tasks_size s ∧ kprocfs s2 = kprocfs s ∧ theap s2 = <[y := set_tstate RUNNABLE ty]> (theap s).
Proof.
  intros Hc Hc' Hok Hat Hy Hty.
  destruct (aget_is_Some (ncli s) cpu) as [n Hn]; [by rewrite (co_ncli _ Hok)|].
  pose proof (wp_kmt_sem_wait cpu Hc s a 0 [] y ty n Hok Hn Hat ltac:(apply Nat.ltb_lt; reflexivity) ltac:(lia) Hy Hty) as Hw.
  apply wp_run in Hw as (b & s1 & Hrun1 & -> & Hp1 & [[Hz1 Ht1] Hc1 _ Hok1 _] & Hat1 & Hh1).
  rewrite bool_decide_true in Hrun1 by lia. rewrite decide_True in Hat1 by lia. rewrite decide_True in Hh1 by lia. cbn [app] in Hat1.
  destruct (aget_is_Some (ncli s1) cpu') as [n1 Hn1]; [by rewrite (co_ncli _ Hok1)|].
  pose proof (wp_kmt_sem_signal cpu' Hc' s1 a (0 - 1) [y] n1 Hok1 Hn1 Hat1 ltac:(lia)) as Hw.
  apply wp_run in Hw as ([] & s2 & Hrun2 & Hp2 & [[Hz2 Ht2] Hc2 _ _ _] & _ & Hh2).
  2:{ intros z ->%list_elem_of_singleton. rewrite Hh1, lookup_insert_eq. by eexists. }
  exists s1, s2. split_and!; [done|done| |done|congruence..|].
  - destruct Hat1 as (x & Hx & Hv & _ & Hq). unfold first_sleeper. rewrite Hx. cbn. rewrite Hv, decide_True by (vm_compute; discriminate).
    pose proof (sq_at _ _ Hq 0 y eq_refl) as Hhd. rewrite Z.add_0_r, Z.mod_small in Hhd by apply (sq_head _ _ Hq). by rewrite Hhd.
  - rewrite Hh2, Hh1. rewrite <-(insert_insert_eq (theap s) y (set_tstate RUNNABLE ty) (set_tstate YIELD ty)).
    apply map_eq. intros z. destruct (decide (z = y)) as [->|Hne].
    + by rewrite lookup_alter_eq, !lookup_insert_eq.
    + by rewrite lookup_alter_ne, !lookup_insert_ne by done.
Qed.

(** C23. Traps, waits and signals keep every task on one processor as long as no signal
    wakes a task that is still current; such a signal is possible, because [sleep]
    releases the semaphore's lock before it yields: whenever a task that waits in
    vain is signalled before its processor has switched, and is the next that the
    signalling processor's scheduler finds, the two processors run the same task. *)
Theorem one_processor_per_task :
  (∀ s s', settled s → calm s s' → exclusive s') ∧
  (∀ s a cpu cpu' c x t y ty d,
    (0 ≤ cpu < Z.of_nat MAX_CPU)%Z → (0 ≤ cpu' < Z.of_nat MAX_CPU)%Z → cpu ≠ cpu' →
    kmt_ok s → cpu_ok s → procfs_ok (kprocfs s) → procs_ok (theap s) → sem_at s a 0 [] →
    on_cpu s cpu y → theap s !! y = Some ty → on_cpu s cpu' x → theap s !! x = Some t → x ≠ y →
    (0 ≤ idx t < tasks_size s)%Z → is_next (raced s y ty x t c) (idx t) d →
    aget (tasks s) ((idx t + d) mod tasks_size s) = Some (Some y) →
    ∃ s1 s2 s3, kmt_sem_wait a cpu s = Ret (true, s1) ∧ kmt_sem_signal a cpu' s1 = Ret (tt, s2) ∧ early s1 (Signal cpu' a) ∧
      kmt_context_save_switch cpu' c s2 = Ret (Some y, s3) ∧ on_cpu s3 cpu y ∧ on_cpu s3 cpu' y).
Proof.
  split; [intros s s' Hs Hc; by apply (calm_settled _ _ Hc)|].
  intros s a cpu cpu' c x t y ty d Hc Hc' Hne Hok Hcok Hpf Hpr Hat Hy Hty Hx Ht Hxy Hidx Hnext Hslot.
  destruct (wait_then_signal s a cpu cpu' y ty Hc Hc' Hcok Hat Hy Hty) as
    (s1 & s2 & Hrun1 & Hrun2 & Hf & Hcur1 & Hcur2 & Ht2 & Hz2 & Hp2 & Hh2).
  assert (Hok2 : kmt_ok s2).
  { destruct (kmt_ok_store s y ty (set_tstate RUNNABLE ty) Hok Hty eq_refl) as [H1 H2 H3 H4].
    split; rewrite ?Ht2, ?Hz2, ?Hcur2, ?Hh2; done. }
  destruct (run_context_switch s2 cpu' c x t d) as (y' & ty' & s3 & Hrun3 & _ & Hy' & _ & _ & _ & Hcur3).
  - done.
  - by rewrite Hp2.
  - done.
  - rewrite Hh2. by eapply procs_ok_store.
  - by rewrite Hcur2.
  - by rewrite Hh2, lookup_insert_ne.
  - by rewrite Hz2.
  - eapply is_next_ext; [| | |exact Hnext]; cbn; congruence.
  - rewrite Ht2, Hz2, Hslot in Hy'. injection Hy' as <-. exists s1, s2, s3. split_and!; [done|done| |done|..].
    + exists y, cpu. split; [done|]. unfold on_cpu. by rewrite Hcur1.
    + apply (on_cpu_switch cpu' y s2 s3); [by rewrite (kk_current _ Hok2)|done|]. right. split; [done|]. unfold on_cpu. by rewrite Hcur2.
    + apply (on_cpu_switch cpu' y s2 s3); [by rewrite (kk_current _ Hok2)|done|by left].
Qed.

(** ** Two processors, two tasks, a semaphore at 0 *)

Lemma race_start_settled : settled race_start.
Proof.
  assert (Hi : ∀ c x, on_cpu race_start c x → c = Z.of_nat x ∧ (x = 0 ∨ x = 1)).
  { intros c x [Hc Hx]%aget_Some. change (current_tasks race_start) with (Some 0 :: Some 1 :: replicate 6 (@None loc)) in Hx.
    destruct (Z.to_nat c) as [|[|n]] eqn:E; [injection Hx as <-; lia|injection Hx as <-; lia|].
    change (replicate 6 (@None loc) !! n = Some (Some x)) in Hx. by apply lookup_replicate in Hx as [? _]. }
  split.
  - intros c c' x [-> _]%Hi [-> _]%Hi. done.
  - intros c x t [_ [-> | ->]]%Hi Ht; injection Ht as <-; by intros [].
Qed.

(** The two tasks in their slots stay apart over a wait; the race follows. *)
Lemma one_processor_per_task_witness :
  (∀ s1, do_kop (Wait 0 0) race_start = Ret (tt, s1) → exclusive s1) ∧
  ∃ s1 s2 s3, kmt_sem_wait 0 0 race_start = Ret (true, s1) ∧ kmt_sem_signal 0 1 s1 = Ret (tt, s2) ∧
    kmt_context_save_switch 1 201 s2 = Ret (Some 0, s3) ∧ on_cpu s3 0 0 ∧ on_cpu s3 1 0.
Proof.
  split.
  - intros s1 Hrun. apply (proj1 one_processor_per_task race_start s1 race_start_settled).
    eapply (calm_step _ (Wait 0 0)); [by intros []|exact Hrun|apply calm_refl].
  - destruct (proj2 one_processor_per_task race_start 0%nat 0 1 201 1%nat (Task 1 RUNNING None 101 (0, 0)%Z "b" 0)
      0%nat (Task 0 RUNNING None 100 (0, 0)%Z "a" 0) 1)%Z as (s1 & s2 & s3 & H1 & H2 & _ & H3 & H4 & H5).
    all: try done.
    + apply race_start_ok.
    + intros x t Hx. cbn in Hx. apply lookup_insert_Some in Hx as [[_ <-]|[_ Hx]]; [done|].
      apply lookup_insert_Some in Hx as [[_ <-]|[_ Hx]]; done.
    + apply race_start_sem.
    + split; [done|]. split; [done|]. intros. lia.
    + by exists s1, s2, s3.
Defined.
