(* ===== verification/Kmt.v ===== *)
(** * The interface of the kthreads module to the devices

    What a device driver relies on: semaphores that count, and the nesting of
    interrupt masking that its spinlocks use.  The drivers of Input.v and Tty.v
    are proved against the class [Kmt]; kthreads.c implements it on a processor. *)
From S2P Require Import Prelude Common Procfs Kthreads KthreadsProps.

Class Kmt (K : Type) := {
  k_cpu : Z;                          (* _cpu() *)
  k_inv : K → Prop;
  k_sem : K → nat → option Z;         (* the value of a semaphore *)
  k_depth : K → Z;                    (* how many spinlocks are held *)
  k_wait : nat → M K bool;            (* true: the caller went to sleep *)
  k_signal : nat → M K unit;
  k_sem_init : nat → string → Z → M K unit;
  k_pushcli : M K unit;
  k_popcli : M K unit;
  k_wait_ok : ∀ k a v, k_inv k → k_sem k a = Some v → (0 < v)%Z →
    ∃ k', k_wait a k = Ret (false, k') ∧ k_inv k' ∧ k_depth k' = k_depth k ∧
      ∀ b, k_sem k' b = if decide (b = a) then Some (v - 1)%Z else k_sem k b;
  k_signal_ok : ∀ k a v, k_inv k → k_sem k a = Some v → (0 ≤ v < 2 ^ 31 - 1)%Z →
    ∃ k', k_signal a k = Ret (tt, k') ∧ k_inv k' ∧ k_depth k' = k_depth k ∧
      ∀ b, k_sem k' b = if decide (b = a) then Some (v + 1)%Z else k_sem k b;
  k_init_ok : ∀ k a nm v, k_inv k → is_Some (k_sem k a) → String.length nm < NAME_lENGTH →
    (0 ≤ v < 2 ^ 31)%Z →
    ∃ k', k_sem_init a nm v k = Ret (tt, k') ∧ k_inv k' ∧ k_depth k' = k_depth k ∧
      ∀ b, k_sem k' b = if decide (b = a) then Some v else k_sem k b;
  k_pushcli_ok : ∀ k, k_inv k →
    ∃ k', k_pushcli k = Ret (tt, k') ∧ k_inv k' ∧ k_depth k' = (k_depth k + 1)%Z ∧ k_sem k' = k_sem k;
  k_popcli_ok : ∀ k, k_inv k →
    ∃ k', k_popcli k = Ret (tt, k') ∧ k_inv k' ∧ k_depth k' = (k_depth k - 1)%Z ∧ k_sem k' = k_sem k
}.

(** A wait that must not put its caller to sleep: within one sequential run
    nobody else signals, so sleeping would never end. *)
Definition k_down {K} `{!Kmt K} (a : nat) : M K unit :=
  slept ← k_wait a; if slept : bool then fail Spin else mret tt.

(** ** The interface as rules of the calculus, inside a larger state *)
Section rules.
Context {K S : Type} `{!Kmt K} (kg : S → K) (ks : K → S → S).

Lemma wp_k_down a v (Q : unit → S → Prop) s :
  k_inv (kg s) → k_sem (kg s) a = Some v → (0 < v)%Z →
  (∀ k', k_inv k' → k_depth k' = k_depth (kg s) →
     (∀ b, k_sem k' b = if decide (b = a) then Some (v - 1)%Z else k_sem (kg s) b) → Q tt (ks k' s)) →
  wp (zoom kg ks (k_down a)) Q s.
Proof.
  intros Hi Hv Hpos HQ. destruct (k_wait_ok _ _ _ Hi Hv Hpos) as (k' & Hrun & ? & ? & ?).
  apply wp_zoom. unfold k_down, wp. rewrite (bind_run _ _ _ _ _ Hrun). by apply HQ.
Qed.

Lemma wp_k_signal a v (Q : unit → S → Prop) s :
  k_inv (kg s) → k_sem (kg s) a = Some v → (0 ≤ v < 2 ^ 31 - 1)%Z →
  (∀ k', k_inv k' → k_depth k' = k_depth (kg s) →
     (∀ b, k_sem k' b = if decide (b = a) then Some (v + 1)%Z else k_sem (kg s) b) → Q tt (ks k' s)) →
  wp (zoom kg ks (k_signal a)) Q s.
Proof.
  intros Hi Hv Hpos HQ. destruct (k_signal_ok _ _ _ Hi Hv Hpos) as (k' & Hrun & ? & ? & ?).
  apply wp_zoom. unfold wp. rewrite Hrun. by apply HQ.
Qed.

Lemma wp_k_pushcli (Q : unit → S → Prop) s :
  k_inv (kg s) →
  (∀ k', k_inv k' → k_depth k' = (k_depth (kg s) + 1)%Z → k_sem k' = k_sem (kg s) → Q tt (ks k' s)) →
  wp (zoom kg ks k_pushcli) Q s.
Proof.
  intros Hi HQ. destruct (k_pushcli_ok _ Hi) as (k' & Hrun & ? & ? & ?).
  apply wp_zoom. unfold wp. rewrite Hrun. by apply HQ.
Qed.

Lemma wp_k_popcli (Q : unit → S → Prop) s :
  k_inv (kg s) →
  (∀ k', k_inv k' → k_depth k' = (k_depth (kg s) - 1)%Z → k_sem k' = k_sem (kg s) → Q tt (ks k' s)) →
  wp (zoom kg ks k_popcli) Q s.
Proof.
  intros Hi HQ. destruct (k_popcli_ok _ Hi) as (k' & Hrun & ? & ? & ?).
  apply wp_zoom. unfold wp. rewrite Hrun. by apply HQ.
Qed.
End rules.

(** ** kthreads.c implements the interface *)
Section impl.
Context (cpu : Z) (Hcpu : (0 ≤ cpu < Z.of_nat MAX_CPU)%Z).

(** Every semaphore is free and its queue is sound. *)
Definition sem_ok (x : sem) : Prop :=
  locked (lk x) = UNLOCKED ∧ (∃ q, sem_queue x q) ∧ (- 2 ^ 31 ≤ value x < 2 ^ 31)%Z.
Definition sems_ok (s : kmt_st) : Prop := cpu_ok s ∧ map_Forall (λ _, sem_ok) (sems s).
Definition sem_value (s : kmt_st) (a : nat) : option Z := value <$> sems s !! a.
Definition nesting (s : kmt_st) : Z := default 0%Z (aget (ncli s) cpu).

Lemma ncli_nesting s : cpu_ok s → aget (ncli s) cpu = Some (nesting s).
Proof using Hcpu.
  intros Hok. unfold nesting. destruct (aget_is_Some (ncli s) cpu) as [n Hn]; [|by rewrite Hn].
  by rewrite (co_ncli _ Hok).
Qed.

Lemma sem_queue_nil x q : sem_queue x q → (0 ≤ value x)%Z → q = [].
Proof. intros Hq Hv. pose proof (sq_value _ _ Hq). destruct q; simpl in *; [done|lia]. Qed.

(** A state that differs in one semaphore. *)
Lemma sems_ok_insert s s' a x :
  sems_ok s → cpu_ok s' → sems s' !! a = Some x → sem_ok x → (∀ b, b ≠ a → sems s' !! b = sems s !! b) →
  sems_ok s' ∧ ∀ b, sem_value s' b = if decide (b = a) then Some (value x) else sem_value s b.
Proof.
  intros [_ Hall] Hcpu' Hx Hok Hoth. split.
  - split; [done|]. intros b y Hb. destruct (decide (b = a)) as [->|Hne]; [by simplify_eq|].
    rewrite Hoth in Hb by done. by apply (Hall b).
  - intros b. unfold sem_value. case_decide as Hb; [by subst b; rewrite Hx|by rewrite Hoth].
Qed.

(** Waiting or signalling without a sleeper changes the value only. *)
Lemma sem_move_ok {A} s a v d (m : sem → M kmt_st A) r :
  sems_ok s → sem_value s a = Some v → (0 ≤ v)%Z → (0 ≤ v + d < 2 ^ 31)%Z →
  (∀ x Q s, value x = (v + d)%Z → wp (sem_unlock a cpu) (λ _, Q r) s → wp (m x) Q s) →
  wp (sem_lock a cpu;; x ← sem_load a; sem_store a (set_value (i32 (value x + d)) x);; x ← sem_load a; m x)
    (λ b s', b = r ∧ sems_ok s' ∧ nesting s' = nesting s ∧
       ∀ b, sem_value s' b = if decide (b = a) then Some (v + d)%Z else sem_value s b) s.
Proof using Hcpu.
  intros Hok Hv Hv0 Hd Hm. pose proof Hok as [Hcok Hall].
  unfold sem_value in Hv. apply fmap_Some in Hv as (x & Hx & ->).
  destruct (Hall _ _ Hx) as (Hlk & (q & Hq) & _). pose proof (sem_queue_nil _ _ Hq Hv0) as ->.
  eapply (wp_sem_begin cpu Hcpu a x (value x + d)); [done|by apply ncli_nesting|done|done|apply i32_small; lia|].
  intros s1 Hok1 _ Hn1 x1 Hs1. apply Hm; [done|].
  eapply (wp_sem_release cpu Hcpu a _ []); [done|exact Hn1|rewrite Hs1; by apply lookup_insert_eq|..].
  { destruct Hq; split; simpl in *; try done. lia. }
  intros s2 Hok2 _ (y & Hy & Hvy & Hly & Hqy) Hoth Hn2. split; [done|].
  unshelve epose proof (sems_ok_insert s s2 a y Hok Hok2 Hy _ _) as [Hs2 Hval].
  - split_and!; [done|by eexists| |]; rewrite Hvy; simpl; lia.
  - intros b Hb. rewrite Hoth, Hs1 by done. by rewrite lookup_insert_ne.
  - rewrite Hvy in Hval. split_and!; [done| |exact Hval]. unfold nesting at 1. by rewrite Hn2.
Qed.

Lemma wp_intro {A} (m : M kmt_st A) (P : A → kmt_st → Prop) s a :
  wp m (λ b s', b = a ∧ P b s') s → ∃ s', m s = Ret (a, s') ∧ P a s'.
Proof. intros (b & s' & Hrun & -> & HP)%wp_run. by exists s'. Qed.

Lemma kmt_wait_ok s a v : sems_ok s → sem_value s a = Some v → (0 < v)%Z →
  ∃ s', kmt_sem_wait a cpu s = Ret (false, s') ∧ sems_ok s' ∧ nesting s' = nesting s ∧
    ∀ b, sem_value s' b = if decide (b = a) then Some (v - 1)%Z else sem_value s b.
Proof using Hcpu.
  intros Hok Hv Hpos. pose proof Hv as (x & Hx & ->)%fmap_Some.
  destruct (proj2 Hok _ _ Hx) as (_ & _ & Hr). apply (wp_intro (kmt_sem_wait a cpu)
    (λ _ s', sems_ok s' ∧ nesting s' = nesting s ∧
      ∀ b, sem_value s' b = if decide (b = a) then Some (value x - 1)%Z else sem_value s b)).
  apply (sem_move_ok s a (value x) (-1) (λ x, if decide (value x < 0)%Z
    then sleep a cpu;; mret true else sem_unlock a cpu;; mret false)); [done|done|lia|lia|].
  intros y Q s1 Hy Hw. rewrite decide_False by lia. by wp_steps.
Qed.

Lemma kmt_signal_ok s a v : sems_ok s → sem_value s a = Some v → (0 ≤ v < 2 ^ 31 - 1)%Z →
  ∃ s', kmt_sem_signal a cpu s = Ret (tt, s') ∧ sems_ok s' ∧ nesting s' = nesting s ∧
    ∀ b, sem_value s' b = if decide (b = a) then Some (v + 1)%Z else sem_value s b.
Proof using Hcpu.
  intros Hok Hv Hpos. apply (wp_intro (kmt_sem_signal a cpu)
    (λ _ s', sems_ok s' ∧ nesting s' = nesting s ∧
      ∀ b, sem_value s' b = if decide (b = a) then Some (v + 1)%Z else sem_value s b)).
  apply (sem_move_ok s a v 1 (λ x, if decide (value x ≤ 0)%Z then wakeup a cpu else sem_unlock a cpu));
    [done|done|lia|lia|].
  intros y Q s1 Hy Hw. rewrite decide_False by lia. eapply wp_mono; [done|]. by intros [].
Qed.

Lemma kmt_init_ok s a nm v : sems_ok s → is_Some (sem_value s a) → String.length nm < NAME_lENGTH →
  (0 ≤ v < 2 ^ 31)%Z →
  ∃ s', kmt_sem_init a nm v s = Ret (tt, s') ∧ sems_ok s' ∧ nesting s' = nesting s ∧
    ∀ b, sem_value s' b = if decide (b = a) then Some v else sem_value s b.
Proof using Hcpu.
  intros Hok [w (x & Hx & _)%fmap_Some] Hnm Hv.
  destruct (proj2 Hok _ _ Hx) as (_ & (q & [Hl _ _ _ _ _]) & _).
  apply (wp_intro (kmt_sem_init a nm v)
    (λ _ s', sems_ok s' ∧ nesting s' = nesting s ∧
      ∀ b, sem_value s' b = if decide (b = a) then Some v else sem_value s b)).
  unfold kmt_sem_init, kmt_spin_init. wp_steps. apply wp_strcpy_buf; [done|]. wp_steps.
  eapply wp_sem_load; [done|]. wp_steps. apply wp_strcpy_buf; [done|]. wp_steps.
  eapply wp_sem_store; [done|]. split; [done|].
  set (y := Sem nm v (Spinlock nm UNLOCKED NONE_CPU) (que x) 0 0).
  destruct (sems_ok_insert s (set_sems (<[a := y]> (sems s)) s) a y Hok) as [Hs2 Hval].
  - destruct Hok as [[] _]. by split.
  - apply lookup_insert_eq.
  - split_and!; [done| |simpl; lia|simpl; lia]. exists []. split; simpl; unfold MAX_TASK; try done; lia.
  - intros b Hb. simpl. by rewrite lookup_insert_ne.
  - split_and!; [done|done|exact Hval].
Qed.

Lemma sems_ok_same s s' : sems_ok s → cpu_ok s' → sems s' = sems s → sems_ok s' ∧ sem_value s' = sem_value s.
Proof. intros [_ Hall] Hc Hs. unfold sems_ok, sem_value. by rewrite Hs. Qed.

Lemma pushcli_ok s : sems_ok s →
  ∃ s', pushcli cpu s = Ret (tt, s') ∧ sems_ok s' ∧ nesting s' = (nesting s + 1)%Z ∧ sem_value s' = sem_value s.
Proof using Hcpu.
  intros Hok. apply (wp_intro (pushcli cpu)
    (λ _ s', sems_ok s' ∧ nesting s' = (nesting s + 1)%Z ∧ sem_value s' = sem_value s)).
  eapply (wp_pushcli cpu Hcpu); [apply Hok|apply ncli_nesting, Hok|].
  intros s' Hc _ Hs _ Hn _. destruct (sems_ok_same _ _ Hok Hc Hs). split_and!; try done.
  unfold nesting at 1. by rewrite Hn.
Qed.

Lemma popcli_ok s : sems_ok s →
  ∃ s', popcli cpu s = Ret (tt, s') ∧ sems_ok s' ∧ nesting s' = (nesting s - 1)%Z ∧ sem_value s' = sem_value s.
Proof using Hcpu.
  intros Hok. apply (wp_intro (popcli cpu)
    (λ _ s', sems_ok s' ∧ nesting s' = (nesting s - 1)%Z ∧ sem_value s' = sem_value s)).
  eapply (wp_popcli cpu Hcpu); [apply Hok|apply ncli_nesting, Hok|].
  intros s' Hc _ Hs Hn _ _. destruct (sems_ok_same _ _ Hok Hc Hs). split_and!; try done.
  unfold nesting at 1. by rewrite Hn.
Qed.

Definition kthreads_kmt : Kmt kmt_st := {|
  k_cpu := cpu; k_inv := sems_ok; k_sem := sem_value; k_depth := nesting;
  k_wait := λ a, kmt_sem_wait a cpu; k_signal := λ a, kmt_sem_signal a cpu;
  k_sem_init := kmt_sem_init; k_pushcli := pushcli cpu; k_popcli := popcli cpu;
  k_wait_ok := kmt_wait_ok; k_signal_ok := kmt_signal_ok; k_init_ok := kmt_init_ok;
  k_pushcli_ok := pushcli_ok; k_popcli_ok := popcli_ok
|}.
End impl.

(** The first processor with semaphores of the given values. *)
Definition sem_of (v : Z) : sem := Sem "" v (Spinlock "" UNLOCKED NONE_CPU) (replicate MAX_TASK None) 0 0.
Definition kmt_of (vs : list Z) : kmt_st := set_sems (map_seq 0 (sem_of <$> vs)) (kmt_boot procfs_boot).
#[export] Instance cpu0_kmt : Kmt kmt_st := kthreads_kmt 0 ltac:(by split).

Lemma kmt_of_inv vs : Forall (λ v, 0 ≤ v < 2 ^ 31)%Z vs → k_inv (kmt_of vs).
Proof.
  intros Hvs. split; [by split|]. intros a x Hx. cbn [sems kmt_of set_sems] in Hx.
  rewrite lookup_map_seq_0, list_lookup_fmap in Hx. apply fmap_Some in Hx as (v & Hv & ->).
  pose proof (Forall_lookup_1 _ _ _ _ Hvs Hv) as Hv'. simpl in Hv'.
  split_and!; [done| |simpl; lia|simpl; lia]. exists []. split; simpl; unfold MAX_TASK; try done; lia.
Qed.

Definition demo_kmt : kmt_st := kmt_of [0; 0; 0; 0]%Z.

Lemma demo_kmt_inv : k_inv demo_kmt.
Proof. by apply kmt_of_inv; repeat constructor. Qed.
