(* ===== verification/Input.v ===== *)
(** * The keyboard (kernel/src/devices/input)

    Key codes arrive from the platform's keyboard register; [input_keydown]
    follows the modifier keys and turns the others into events, which pass
    through a ring buffer guarded by a spinlock and counted by a semaphore. *)
From S2P Require Import Prelude Ring Common Procfs OsTrap Alloc Kthreads Kmt.

(** ** Key codes (abstract-machine/am/amdev.h): [_KEY_x] is the rank of [x], from 1 *)
Definition KEYS : list string :=
  ["ESCAPE"; "F1"; "F2"; "F3"; "F4"; "F5"; "F6"; "F7"; "F8"; "F9"; "F10"; "F11"; "F12";
   "GRAVE"; "1"; "2"; "3"; "4"; "5"; "6"; "7"; "8"; "9"; "0"; "MINUS"; "EQUALS"; "BACKSPACE";
   "TAB"; "Q"; "W"; "E"; "R"; "T"; "Y"; "U"; "I"; "O"; "P"; "LEFTBRACKET"; "RIGHTBRACKET"; "BACKSLASH";
   "CAPSLOCK"; "A"; "S"; "D"; "F"; "G"; "H"; "J"; "K"; "L"; "SEMICOLON"; "APOSTROPHE"; "RETURN";
   "LSHIFT"; "Z"; "X"; "C"; "V"; "B"; "N"; "M"; "COMMA"; "PERIOD"; "SLASH"; "RSHIFT";
   "LCTRL"; "APPLICATION"; "LALT"; "SPACE"; "RALT"; "RCTRL";
   "UP"; "DOWN"; "LEFT"; "RIGHT"; "INSERT"; "DELETE"; "HOME"; "END"; "PAGEUP"; "PAGEDOWN"].
Definition KEY (nm : string) : Z :=
  match first_index (λ k, bool_decide (k = nm)) KEYS with Some i => Z.of_nat i + 1 | None => 0 end.

(** ** The keymaps (keymaps.c) *)

(** Key [k] types the [k]-th character. *)
Definition ch (s : string) : Z :=
  match s with String.String c _ => Z.of_N (Ascii.N_of_ascii c) | String.EmptyString => 0 end.
Definition designate (rows : list (string * Z)) : list Z :=
  foldl (λ m '(k, c), <[Z.to_nat (KEY k) := c]> m) (replicate 256 0%Z) rows.
Definition letters : list string :=
  ["A"; "B"; "C"; "D"; "E"; "F"; "G"; "H"; "I"; "J"; "K"; "L"; "M"; "N"; "O"; "P"; "Q"; "R"; "S"; "T"; "U";
   "V"; "W"; "X"; "Y"; "Z"].
Definition keymap : list Z := designate (
  ((λ d, (d, ch d)) <$> ["0"; "1"; "2"; "3"; "4"; "5"; "6"; "7"; "8"; "9"]) ++
  [("GRAVE", ch "`"); ("MINUS", ch "-"); ("EQUALS", ch "="); ("LEFTBRACKET", ch "["); ("RIGHTBRACKET", ch "]");
   ("BACKSLASH", 92%Z); ("SEMICOLON", ch ";"); ("APOSTROPHE", 39%Z); ("RETURN", 10%Z); ("COMMA", ch ",");
   ("PERIOD", ch "."); ("SLASH", ch "/"); ("SPACE", ch " "); ("BACKSPACE", 8%Z)] ++
  ((λ l, (l, (ch l + 32)%Z)) <$> letters)).
Definition keymap_shift : list Z := designate (
  [("0", ch ")"); ("1", ch "!"); ("2", ch "@"); ("3", ch "#"); ("4", ch "$"); ("5", ch "%"); ("6", ch "^");
   ("7", ch "&"); ("8", ch "*"); ("9", ch "("); ("GRAVE", ch "~"); ("MINUS", ch "_"); ("EQUALS", ch "+");
   ("LEFTBRACKET", ch "{"); ("RIGHTBRACKET", ch "}"); ("BACKSLASH", ch "|"); ("SEMICOLON", ch ":");
   ("APOSTROPHE", 34%Z); ("COMMA", ch "<"); ("PERIOD", ch ">"); ("SLASH", ch "?"); ("SPACE", ch " ");
   ("BACKSPACE", 8%Z)] ++
  ((λ l, (l, ch l)) <$> letters)).

(** ** The state of the driver *)

Definition NEVENTS : Z := 128.

(** The bit-fields [ctrl : 1], [alt : 1] and [data : 16]. *)
Record input_event := InputEvent { ev_ctrl : Z; ev_alt : Z; ev_data : Z }.
Definition event (ctrl alt data : Z) : input_event := InputEvent (ctrl `mod` 2) (alt `mod` 2) (u16 data).
Definition SIZEOF_EVENT : Z := 4.

Record input_t := Input {
  ilock : spinlock;
  event_sem : nat;              (* the semaphores, by name *)
  events : list input_event;    (* struct input_event events[NEVENTS] *)
  front : Z;
  rear : Z;
  capslock : Z;
  shift_down : Z * Z;
  ctrl_down : Z * Z;
  alt_down : Z * Z
}.

Definition set_ilock l x := Input l (event_sem x) (events x) (front x) (rear x) (capslock x) (shift_down x) (ctrl_down x) (alt_down x).
Definition set_events l x := Input (ilock x) (event_sem x) l (front x) (rear x) (capslock x) (shift_down x) (ctrl_down x) (alt_down x).
Definition set_front v x := Input (ilock x) (event_sem x) (events x) v (rear x) (capslock x) (shift_down x) (ctrl_down x) (alt_down x).
Definition set_rear v x := Input (ilock x) (event_sem x) (events x) (front x) v (capslock x) (shift_down x) (ctrl_down x) (alt_down x).
Definition set_capslock v x := Input (ilock x) (event_sem x) (events x) (front x) (rear x) v (shift_down x) (ctrl_down x) (alt_down x).
Definition set_shift v x := Input (ilock x) (event_sem x) (events x) (front x) (rear x) (capslock x) v (ctrl_down x) (alt_down x).
Definition set_ctrl v x := Input (ilock x) (event_sem x) (events x) (front x) (rear x) (capslock x) (shift_down x) v (alt_down x).
Definition set_alt v x := Input (ilock x) (event_sem x) (events x) (front x) (rear x) (capslock x) (shift_down x) (ctrl_down x) v.

Section input.
Context {K H : Type} `{!Kmt K}.

Record input_st := InputSt {
  ikmt : K;
  ipmm : alloc_st;
  iirq : item_st H;
  inp : input_t
}.
Definition set_ikmt (k : K) (s : input_st) : input_st := InputSt k (ipmm s) (iirq s) (inp s).
Definition set_ipmm (p : alloc_st) (s : input_st) : input_st := InputSt (ikmt s) p (iirq s) (inp s).
Definition set_iirq (t : item_st H) (s : input_st) : input_st := InputSt (ikmt s) (ipmm s) t (inp s).
Definition set_inp (x : input_t) (s : input_st) : input_st := InputSt (ikmt s) (ipmm s) (iirq s) x.

Abbreviation I := (M input_st).
Definition upd_inp (f : input_t → input_t) : I unit := modify (λ s, set_inp (f (inp s)) s).
Definition kmt_op {A} (m : M K A) : I A := zoom ikmt set_ikmt m.

Definition in_lock : I unit :=
  kmt_spin_lock (kmt_op k_pushcli) (gets (λ s, ilock (inp s))) (λ l, upd_inp (set_ilock l)) k_cpu.
Definition in_unlock : I unit :=
  kmt_spin_unlock (kmt_op k_popcli) (gets (λ s, ilock (inp s))) (λ l, upd_inp (set_ilock l)).

(** ** The event queue *)

Definition push_event (ev : input_event) : I unit :=
  in_lock;;
  s ← get;
  l ← deref OutOfBounds (aset (events (inp s)) (rear (inp s)) ev);
  upd_inp (set_events l);;
  upd_inp (λ x, set_rear (Z.rem (rear x + 1) NEVENTS) x);;
  s ← get;
  (if decide (rear (inp s) = front (inp s)) then fail Halt else mret tt);;
  in_unlock;;
  a ← gets (λ s, event_sem (inp s));
  kmt_op (k_signal a).

Definition pop_event : I input_event :=
  a ← gets (λ s, event_sem (inp s));
  kmt_op (k_down a);;
  in_lock;;
  s ← get;
  (if decide (rear (inp s) = front (inp s)) then fail Halt else mret tt);;
  let idx := front (inp s) in
  upd_inp (λ x, set_front (Z.rem (front x + 1) NEVENTS) x);;
  s ← get;
  ret ← deref OutOfBounds (aget (events (inp s)) idx);
  in_unlock;;
  mret ret.

(** ** Keys *)

(** [a || b] of two C integers. *)
Definition c_or (a b : Z) : Z := if decide (a ≠ 0 ∨ b ≠ 0)%Z then 1 else 0.

Definition input_keydown (code : Z) : I unit :=
  let key := Z.land code (Z.lnot 0x8000) in
  if decide (Z.land code 0x8000 ≠ 0)%Z then
    if decide (key = KEY "CAPSLOCK") then upd_inp (λ x, set_capslock (Z.lxor (capslock x) 1) x)
    else if decide (key = KEY "LCTRL") then upd_inp (λ x, set_ctrl (1, snd (ctrl_down x))%Z x)
    else if decide (key = KEY "RCTRL") then upd_inp (λ x, set_ctrl (fst (ctrl_down x), 1)%Z x)
    else if decide (key = KEY "LALT") then upd_inp (λ x, set_alt (1, snd (alt_down x))%Z x)
    else if decide (key = KEY "RALT") then upd_inp (λ x, set_alt (fst (alt_down x), 1)%Z x)
    else if decide (key = KEY "LSHIFT") then upd_inp (λ x, set_shift (1, snd (shift_down x))%Z x)
    else if decide (key = KEY "RSHIFT") then upd_inp (λ x, set_shift (fst (shift_down x), 1)%Z x)
    else
      c ← deref OutOfBounds (aget keymap key);
      if decide (c ≠ 0)%Z then
        x ← gets inp;
        let shift := c_or (fst (shift_down x)) (snd (shift_down x)) in
        let ctrl := c_or (fst (ctrl_down x)) (snd (ctrl_down x)) in
        let alt := c_or (fst (alt_down x)) (snd (alt_down x)) in
        if decide (ctrl ≠ 0 ∨ alt ≠ 0)%Z then push_event (event ctrl alt c)
        else
          let shift := if decide (97 ≤ c ∧ c ≤ 122)%Z then Z.lxor shift (capslock x) else shift in
          if decide (shift ≠ 0)%Z then
            c' ← deref OutOfBounds (aget keymap_shift key);
            push_event (event 0 0 c')
          else push_event (event 0 0 c)
      else mret tt
  else
    if decide (code = KEY "LCTRL") then upd_inp (λ x, set_ctrl (0, snd (ctrl_down x))%Z x)
    else if decide (code = KEY "RCTRL") then upd_inp (λ x, set_ctrl (fst (ctrl_down x), 0)%Z x)
    else if decide (code = KEY "LALT") then upd_inp (λ x, set_alt (0, snd (alt_down x))%Z x)
    else if decide (code = KEY "RALT") then upd_inp (λ x, set_alt (fst (alt_down x), 0)%Z x)
    else if decide (code = KEY "LSHIFT") then upd_inp (λ x, set_shift (0, snd (shift_down x))%Z x)
    else if decide (code = KEY "RSHIFT") then upd_inp (λ x, set_shift (fst (shift_down x), 0)%Z x)
    else mret tt.

(** [read_key()]: the code of the keyboard register. *)
Definition read_key (keycode : Z) (keydown : bool) : Z :=
  if keydown then Z.lor keycode 0x8000 else keycode.

(** [sem_kbdirq] is [kbd]; [notify] stands for the pointer [input_notify]. *)
Context (kbd : nat) (notify : H).

(** [input_notify], the handler of the keyboard's interrupt; it returns no context. *)
Definition input_notify : I unit := kmt_op (k_signal kbd).

(** One round of [input_task]: the keys read until the register holds none, then
    the wait for an interrupt. *)
Fixpoint drain_keys (codes : list Z) : I unit :=
  match codes with
  | [] => mret tt
  | code :: codes' =>
      if decide (code ≠ 0)%Z then input_keydown code;; drain_keys codes' else mret tt
  end.
Definition input_task_round (codes : list Z) : I bool :=
  drain_keys codes;; kmt_op (k_wait kbd).

Definition EVENT_IRQ_IODEV : Z := 3.

(** [input_init].  The memory of the event array keeps what it held. *)
Definition input_init : I Z :=
  zoom ipmm set_ipmm (kalloc (SIZEOF_EVENT * NEVENTS));;
  upd_inp (set_rear 0);; upd_inp (set_front 0);;
  l ← kmt_spin_init "/dev/input lock"; upd_inp (set_ilock l);;
  a ← gets (λ s, event_sem (inp s));
  kmt_op (k_sem_init a "events in queue" 0);;
  kmt_op (k_sem_init kbd "keyboard-interrupt" 0);;
  zoom iirq set_iirq (os_on_irq 0 EVENT_IRQ_IODEV notify);;
  mret 0%Z.

(** The event stored in the caller's buffer and the value returned. *)
Definition input_read (count : Z) : I (option input_event * Z) :=
  ev ← pop_event;
  if decide (SIZEOF_EVENT ≤ count)%Z then mret (Some ev, SIZEOF_EVENT) else mret (None, 0%Z).

Definition input_write : I Z := mret 0%Z.
End input.
Arguments input_st : clear implicits.
