(* ===== verification/InputProps.v ===== *)
(** * Properties of the keyboard driver

    The event queue is a FIFO queue of at most [NEVENTS - 1] events, and what
    the keys typed mean is a function of the keys pressed and released so far. *)
From S2P Require Import Prelude Ring Common Procfs OsTrap Alloc Kthreads KthreadsProps Kmt Input.

Section queue.
Context {K H : Type} `{!Kmt K}.
Notation st := (input_st K H).

(** The driver is idle and the events [q] wait, oldest first. *)
Record in_queue (s : st) (q : list input_event) : Prop := {
  iq_kmt : k_inv (ikmt s);
  iq_lock : locked (ilock (inp s)) = UNLOCKED;
  iq_len : length (events (inp s)) = Z.to_nat NEVENTS;
  iq_front : (0 ≤ front (inp s) < NEVENTS)%Z;
  iq_rear : rear (inp s) = ((front (inp s) + Z.of_nat (length q)) mod NEVENTS)%Z;
  iq_room : (Z.of_nat (length q) < NEVENTS)%Z;
  iq_held : ring_holds (events (inp s)) (front (inp s)) q;
  iq_sem : k_sem (ikmt s) (event_sem (inp s)) = Some (Z.of_nat (length q))
}.

(** What the queue operations leave alone. *)
Definition flags (x : input_t) : Z * (Z * Z) * (Z * Z) * (Z * Z) :=
  (capslock x, shift_down x, ctrl_down x, alt_down x).
Definition same_flags (s s' : st) : Prop := flags (inp s') = flags (inp s) ∧ event_sem (inp s') = event_sem (inp s).

Lemma wp_in_lock (Q : unit → st → Prop) s :
  k_inv (ikmt s) → locked (ilock (inp s)) = UNLOCKED →
  (∀ k' l, k_inv k' → k_sem k' = k_sem (ikmt s) →
     Q tt (InputSt k' (ipmm s) (iirq s) (set_ilock l (inp s)))) →
  wp in_lock Q s.
Proof.
  intros Hk Hl HQ. unfold in_lock, kmt_spin_lock, kmt_op, upd_inp. wp_steps.
  apply wp_k_pushcli; [done|]. intros k' Hk' _ Hsem. wp_steps. simpl.
  rewrite Hl, decide_True by done. wp_steps. by apply HQ.
Qed.

Lemma wp_in_unlock (Q : unit → st → Prop) s :
  k_inv (ikmt s) →
  (∀ k' l, k_inv k' → k_sem k' = k_sem (ikmt s) → locked l = UNLOCKED →
     Q tt (InputSt k' (ipmm s) (iirq s) (set_ilock l (inp s)))) →
  wp in_unlock Q s.
Proof.
  intros Hk HQ. unfold in_unlock, kmt_spin_unlock, kmt_op, upd_inp. wp_steps. simpl.
  apply wp_k_popcli; [done|]. intros k' Hk' _ Hsem. by apply HQ.
Qed.

Lemma rear_index (s : st) q : in_queue s q →
  rear (inp s) = ((front (inp s) + Z.of_nat (length q)) mod Z.of_nat (length (events (inp s))))%Z ∧
  (0 ≤ rear (inp s) < Z.of_nat (length (events (inp s))))%Z.
Proof.
  intros [_ _ Hl _ Hr _ _ _]. rewrite Hl. change (Z.of_nat (Z.to_nat NEVENTS)) with NEVENTS.
  split; [done|]. rewrite Hr. by apply Z.mod_pos_bound.
Qed.

(** The index after [rear] meets [front] when one more event fills the ring. *)
Lemma rear_next (s : st) q : in_queue s q →
  let r := Z.rem (rear (inp s) + 1) NEVENTS in
  r = ((front (inp s) + Z.of_nat (S (length q))) mod NEVENTS)%Z ∧
  (r = front (inp s) ↔ (Z.of_nat (S (length q)) = NEVENTS)%Z).
Proof.
  intros [_ _ _ Hf Hr Hroom _ _] r.
  assert (Hrn : r = ((front (inp s) + Z.of_nat (S (length q))) mod NEVENTS)%Z).
  { unfold r. rewrite Hr, ring_succ by done. f_equal. lia. }
  split; [done|]. rewrite Hrn. split.
  - intros Heq. destruct (decide (Z.of_nat (S (length q)) = NEVENTS)%Z); [done|].
    exfalso. apply (mod_neq (front (inp s)) 0 (Z.of_nat (S (length q))) NEVENTS); [done|lia|lia|].
    by rewrite Heq, Z.add_0_r, Z.mod_small.
  - intros ->. by rewrite <-Zplus_mod_idemp_r, Z_mod_same_full, Z.add_0_r, Z.mod_small.
Qed.

Lemma wp_push_event ev q (Q : unit → st → Prop) s :
  in_queue s q → (Z.of_nat (S (length q)) < NEVENTS)%Z →
  (∀ s', in_queue s' (q ++ [ev]) → same_flags s s' → Q tt s') →
  wp (push_event ev) Q s.
Proof.
  intros Hq Hroom HQ. pose proof (rear_index _ _ Hq) as [Hr Hrin]. pose proof (rear_next _ _ Hq) as [Hr' Hfull].
  unfold push_event. wp_steps. apply wp_in_lock; [apply Hq..|]. intros k1 l1 Hk1 Hs1. wp_steps. simpl.
  eapply wp_deref; [by apply aset_Some|]. unfold upd_inp. wp_steps. simpl.
  rewrite decide_False by (rewrite Hfull; lia). wp_steps.
  apply wp_in_unlock; [done|]. simpl. intros k2 l2 Hk2 Hs2 Hl2. unfold kmt_op. wp_steps. simpl.
  pose proof Hq as [_ _ Hl Hf _ _ Hh Hsem]. eapply wp_k_signal; simpl; [done|by rewrite Hs2, Hs1|unfold NEVENTS in *; lia|].
  intros k3 Hk3 _ Hs3. apply HQ; [|done]. split; simpl; try done.
  - by rewrite length_insert.
  - rewrite Hr', length_app. simpl. f_equal. lia.
  - rewrite length_app. simpl. lia.
  - eapply ring_holds_push; [done|rewrite Hl; unfold NEVENTS in *; lia|]. rewrite <-Hr. by apply aset_Some.
  - rewrite Hs3, decide_True by done. rewrite length_app. simpl. f_equal. lia.
Qed.

Lemma push_event_full ev q s :
  in_queue s q → (Z.of_nat (S (length q)) = NEVENTS)%Z → push_event ev s = Err Halt.
Proof.
  intros Hq Hroom. pose proof (rear_index _ _ Hq) as [Hr Hrin]. pose proof (rear_next _ _ Hq) as [_ Hfull].
  unfold push_event.
  assert (Hw : wp in_lock (λ _ s', ∃ l, inp s' = set_ilock l (inp s)) s).
  { apply wp_in_lock; [apply Hq..|]. intros k' l _ _. by exists l. }
  apply wp_run in Hw as ([] & [k1 p1 i1 x1] & Hrun & l & Hs1). simpl in Hs1. subst x1. rewrite (bind_run _ _ _ _ _ Hrun).
  unfold mbind, M_bind, get, deref, upd_inp, modify, fail, mret, M_ret. simpl.
  rewrite aset_Some by done. simpl. by rewrite decide_True by (apply Hfull; done).
Qed.

Lemma wp_pop_event ev q (Q : input_event → st → Prop) s :
  in_queue s (ev :: q) →
  (∀ s', in_queue s' q → same_flags s s' → Q ev s') →
  wp pop_event Q s.
Proof.
  intros Hq HQ. pose proof Hq as [Hk Hlk Hl Hf Hr Hroom Hh Hsem]. simpl in *.
  apply ring_holds_pop in Hh as [Hat Hh]. unfold at_ring in Hat. rewrite Hl in Hat, Hh.
  change (Z.of_nat (Z.to_nat NEVENTS)) with NEVENTS in *. rewrite Z.mod_small in Hat by done.
  unfold pop_event, kmt_op. wp_steps. eapply wp_k_down; [done|done|lia|]. intros k1 Hk1 _ Hs1. wp_steps.
  apply wp_in_lock; [done..|]. simpl. intros k2 l2 Hk2 Hs2. wp_steps. simpl.
  rewrite decide_False; cycle 1.
  { rewrite Hr. intros Heq. apply (mod_neq (front (inp s)) 0 (Z.of_nat (S (length q))) NEVENTS); [done|lia|lia|].
    by rewrite Heq, Z.add_0_r, Z.mod_small. }
  unfold upd_inp. wp_steps. simpl. wp_steps. apply wp_in_unlock; [done|]. simpl. intros k3 l3 Hk3 Hs3 Hl3. wp_steps.
  apply HQ; [|done]. split; simpl; try done.
  - rewrite Z.rem_mod_nonneg by lia. by apply Z.mod_pos_bound.
  - rewrite Hr, Z.rem_mod_nonneg, Zplus_mod_idemp_l by lia. f_equal. lia.
  - lia.
  - by rewrite Z.rem_mod_nonneg by lia.
  - rewrite Hs3, Hs2, Hs1, decide_True by done. f_equal. lia.
Qed.

(** The event queue is first in, first out, with room for [NEVENTS - 1]
    events: [push_event] adds an event at the end and halts the machine when it
    would fill the ring, and [pop_event] returns the oldest one. *)
Theorem input_fifo s q ev :
  in_queue s q →
  (if decide (Z.of_nat (S (length q)) < NEVENTS)%Z
   then ∃ s', push_event ev s = Ret (tt, s') ∧ in_queue s' (q ++ [ev])
   else push_event ev s = Err Halt) ∧
  match q with
  | ev' :: q' => ∃ s', pop_event s = Ret (ev', s') ∧ in_queue s' q'
  | [] => True
  end.
Proof.
  intros Hq. split.
  - case_decide as Hroom.
    + assert (wp (push_event ev) (λ _ s', in_queue s' (q ++ [ev])) s) as Hw by (by eapply wp_push_event).
      apply wp_run in Hw as ([] & s' & ? & ?). by exists s'.
    + eapply push_event_full; [done|]. pose proof (iq_room _ _ Hq). lia.
  - destruct q as [|ev' q']; [done|].
    assert (wp pop_event (λ e s', e = ev' ∧ in_queue s' q') s) as Hw by (by eapply wp_pop_event).
    apply wp_run in Hw as (e & s' & ? & -> & ?). by exists s'.
Qed.
End queue.

(** ** What the keys mean *)

Definition press (k : Z) : Z := (k + 0x8000)%Z.
Definition code_ok (code : Z) : Prop := (0 < code < 256 ∨ press 0 ≤ code < press 256)%Z.

(** Key [k] is down after the history [h] of codes, oldest first. *)
Definition held (h : list Z) (k : Z) : bool :=
  foldl (λ b c, if decide (c = press k) then true else if decide (c = k) then false else b) false h.
(** Caps lock is on: its key was pressed an odd number of times. *)
Definition caps (h : list Z) : bool :=
  foldl (λ b c, if decide (c = press (KEY "CAPSLOCK")) then negb b else b) false h.
Definition held_any (h : list Z) (l r : string) : bool := held h (KEY l) || held h (KEY r).

Definition modifiers : list Z :=
  KEY <$> ["CAPSLOCK"; "LCTRL"; "RCTRL"; "LALT"; "RALT"; "LSHIFT"; "RSHIFT"].

(** The events of pressing or releasing a key after the history [h]: a character
    key typed with control or alt held gives its plain character and the two
    modifiers; otherwise shift, which caps lock inverts on letters, chooses the
    keymap. *)
Definition typed (h : list Z) (code : Z) : list input_event :=
  let k := (code - 0x8000)%Z in
  let c := default 0%Z (aget keymap k) in
  let ctrl := held_any h "LCTRL" "RCTRL" in
  let alt := held_any h "LALT" "RALT" in
  let shift := held_any h "LSHIFT" "RSHIFT" in
  if bool_decide (k ∈ modifiers) || bool_decide (c = 0%Z) then []
  else if ctrl || alt then [InputEvent (Z.b2z ctrl) (Z.b2z alt) c]
  else if (if decide (97 ≤ c ≤ 122)%Z then xorb shift (caps h) else shift)
       then [InputEvent 0 0 (default 0%Z (aget keymap_shift k))]
       else [InputEvent 0 0 c].

Fixpoint typed_all (h codes : list Z) : list input_event :=
  match codes with [] => [] | c :: codes' => typed h c ++ typed_all (h ++ [c]) codes' end.

(** The driver's flags record the history. *)
Definition flags_of (h : list Z) : Z * (Z * Z) * (Z * Z) * (Z * Z) :=
  let d k := Z.b2z (held h (KEY k)) in
  (Z.b2z (caps h), (d "LSHIFT", d "RSHIFT"), (d "LCTRL", d "RCTRL"), (d "LALT", d "RALT")).

Lemma held_snoc h c k :
  held (h ++ [c]) k = if decide (c = press k) then true else if decide (c = k) then false else held h k.
Proof. unfold held. by rewrite foldl_app. Qed.

Lemma caps_snoc h c : caps (h ++ [c]) = if decide (c = press (KEY "CAPSLOCK")) then negb (caps h) else caps h.
Proof. unfold caps. by rewrite foldl_app. Qed.

(** The numbers of the modifier keys. *)
Lemma KEY_numbers : KEY "CAPSLOCK" = 42%Z ∧ KEY "LSHIFT" = 55%Z ∧ KEY "RSHIFT" = 66%Z ∧ KEY "LCTRL" = 67%Z ∧
  KEY "RCTRL" = 72%Z ∧ KEY "LALT" = 69%Z ∧ KEY "RALT" = 71%Z.
Proof. split_and!; reflexivity. Qed.

Lemma code_bits :
  Forall (λ k, Z.land k 0x8000 = 0 ∧ Z.land (press k) 0x8000 ≠ 0 ∧ Z.land (press k) (Z.lnot 0x8000) = k)%Z (seqZ 0 256).
Proof. apply (bool_decide_eq_true_1 _). by vm_compute. Qed.

Lemma keymap_ok :
  Forall (λ k, is_Some (aget keymap k) ∧ is_Some (aget keymap_shift k) ∧
    (0 ≤ default 0 (aget keymap k) < 128)%Z ∧ (0 ≤ default 0 (aget keymap_shift k) < 128)%Z) (seqZ 0 256).
Proof. apply (bool_decide_eq_true_1 _). by vm_compute. Qed.

(** Rewrites the names of the modifier keys to their codes. *)
Ltac key_numbers :=
  change (KEY "CAPSLOCK") with 42%Z in *; change (KEY "LSHIFT") with 55%Z in *;
  change (KEY "RSHIFT") with 66%Z in *; change (KEY "LCTRL") with 67%Z in *;
  change (KEY "RCTRL") with 72%Z in *; change (KEY "LALT") with 69%Z in *; change (KEY "RALT") with 71%Z in *.

Lemma flags_snoc h c : code_ok c →
  flags_of (h ++ [c]) =
  let '(cp, (ls, rs), (lc, rc), (la, ra)) := flags_of h in
  let upd k f := if decide (c = press k) then 1%Z else if decide (c = k) then 0%Z else f in
  ((if decide (c = press (KEY "CAPSLOCK")) then Z.lxor cp 1 else cp),
   (upd (KEY "LSHIFT") ls, upd (KEY "RSHIFT") rs), (upd (KEY "LCTRL") lc, upd (KEY "RCTRL") rc),
   (upd (KEY "LALT") la, upd (KEY "RALT") ra)).
Proof.
  intros _. unfold flags_of. rewrite !held_snoc, caps_snoc. repeat f_equal; repeat case_decide; try done.
  by destruct (caps h).
Qed.

Lemma c_or_b2z a b : c_or (Z.b2z a) (Z.b2z b) = Z.b2z (a || b).
Proof. by destruct a, b. Qed.

Lemma b2z_nonzero b : (Z.b2z b ≠ 0)%Z ↔ b = true.
Proof. by destruct b. Qed.

Section keys.
Context {K H : Type} `{!Kmt K}.
Notation st := (input_st K H).

Definition keyboard (s : st) (h : list Z) (q : list input_event) : Prop :=
  in_queue s q ∧ flags (inp s) = flags_of h.

Lemma keyboard_flags (s : st) h q f : keyboard s h q → (∀ x, ilock (f x) = ilock x ∧ event_sem (f x) = event_sem x ∧
    events (f x) = events x ∧ front (f x) = front x ∧ rear (f x) = rear x) →
  in_queue (set_inp (f (inp s)) s) q.
Proof.
  intros [[] _] Hf. destruct (Hf (inp s)) as (H1 & H2 & H3 & H4 & H5). split; simpl; by rewrite ?H1, ?H2, ?H3, ?H4, ?H5.
Qed.

(** A release, or a press of a modifier key, types nothing. *)
Lemma typed_nil h c : (c < press 0)%Z ∨ (c - 0x8000)%Z ∈ modifiers → code_ok c → typed h c = [].
Proof.
  intros Hc Hok. unfold typed. rewrite (proj2 (orb_true_iff _ _)); [done|].
  destruct Hc as [Hc|Hc]; [right|left; by apply bool_decide_eq_true]. apply bool_decide_eq_true.
  unfold aget. rewrite decide_False; [done|]. unfold press, code_ok in *. lia.
Qed.

Lemma wp_flag (s : st) h q code f :
  keyboard s h q → (∀ x, ilock (f x) = ilock x ∧ event_sem (f x) = event_sem x ∧
    events (f x) = events x ∧ front (f x) = front x ∧ rear (f x) = rear x) →
  typed h code = [] → flags (f (inp s)) = flags_of (h ++ [code]) →
  wp (upd_inp f) (λ _ s', keyboard s' (h ++ [code]) (q ++ typed h code)) s.
Proof.
  intros Hkb Hf -> Hfl. unfold upd_inp. wp_steps. rewrite app_nil_r. split; [by eapply keyboard_flags|done].
Qed.

(** Decides which key a code is by its number. *)
Ltac which_key := repeat (case_decide; try (exfalso; unfold press in *; lia)).

(** Closes the branch of a key that moves the flags. *)
Ltac flag_branch Hfl Hsn :=
  let E1 := fresh "E" in let E2 := fresh "E" in let E3 := fresh "E" in let E4 := fresh "E" in
  apply wp_flag; [done|done|apply typed_nil; [|done]|
    rewrite Hsn; unfold flags in *; injection Hfl as E1 E2 E3 E4; simpl;
    rewrite ?E1, ?E2, ?E3, ?E4; simpl; which_key; done].

Lemma keyup_ok (s : st) h q code :
  keyboard s h q → (0 < code < 256)%Z →
  wp (input_keydown code) (λ _ s', keyboard s' (h ++ [code]) (q ++ typed h code)) s.
Proof.
  intros Hkb Hrel. pose proof Hkb as [Hq Hfl]. assert (Hok : code_ok code) by (left; lia).
  pose proof (flags_snoc h code Hok) as Hsn. pose proof code_bits as Hbits. rewrite Forall_forall in Hbits.
  destruct (Hbits code) as (Hb & _); [apply elem_of_seqZ; lia|].
  unfold input_keydown. rewrite Hb, decide_False by tauto. unfold flags_of in Hsn at 2. key_numbers.
  do 6 (apply wp_decide; intros ?; [flag_branch Hfl Hsn; left; unfold press; lia|]).
  wp_steps. rewrite typed_nil, app_nil_r by (done || (left; unfold press; lia)). split; [done|].
  rewrite Hfl, Hsn. unfold flags_of. key_numbers. which_key. done.
Qed.

Lemma event_small ctrl alt c : (0 ≤ c < 128)%Z →
  event (Z.b2z ctrl) (Z.b2z alt) c = InputEvent (Z.b2z ctrl) (Z.b2z alt) c.
Proof.
  intros Hc. unfold event, u16. rewrite (Z.mod_small c) by lia. by destruct ctrl, alt.
Qed.

Lemma wp_type (s : st) h q code ev :
  keyboard s h q → (Z.of_nat (S (length q)) < NEVENTS)%Z → typed h code = [ev] →
  flags_of (h ++ [code]) = flags_of h →
  wp (push_event ev) (λ _ s', keyboard s' (h ++ [code]) (q ++ typed h code)) s.
Proof.
  intros [Hq Hfl] Hroom -> Hsn. eapply wp_push_event; [done|done|].
  intros s' Hq' [Hfl' _]. split; [done|congruence].
Qed.

Lemma typed_char h k c c' : k ∉ modifiers → aget keymap k = Some c → aget keymap_shift k = Some c' →
  typed h (press k) = if bool_decide (c = 0%Z) then [] else
    if held_any h "LCTRL" "RCTRL" || held_any h "LALT" "RALT"
    then [InputEvent (Z.b2z (held_any h "LCTRL" "RCTRL")) (Z.b2z (held_any h "LALT" "RALT")) c]
    else if (if decide (97 ≤ c ≤ 122)%Z then xorb (held_any h "LSHIFT" "RSHIFT") (caps h) else held_any h "LSHIFT" "RSHIFT")
    then [InputEvent 0 0 c'] else [InputEvent 0 0 c].
Proof.
  intros Hm Hc Hc'. unfold typed. replace (press k - 32768)%Z with k by (unfold press; lia).
  by rewrite Hc, Hc', (bool_decide_false _ Hm).
Qed.

Lemma lxor_b2z a b : Z.lxor (Z.b2z a) (Z.b2z b) = Z.b2z (xorb a b).
Proof. by destruct a, b. Qed.

(** The branch of a character key. *)
Lemma type_ok (s : st) h q k :
  keyboard s h q → (0 ≤ k < 256)%Z → (Z.of_nat (S (length q)) < NEVENTS)%Z → k ∉ modifiers →
  flags_of (h ++ [press k]) = flags_of h →
  wp (c ← deref OutOfBounds (aget keymap k);
      if decide (c ≠ 0)%Z then
        x ← gets inp;
        let shift := c_or (fst (shift_down x)) (snd (shift_down x)) in
        let ctrl := c_or (fst (ctrl_down x)) (snd (ctrl_down x)) in
        let alt := c_or (fst (alt_down x)) (snd (alt_down x)) in
        if decide (ctrl ≠ 0 ∨ alt ≠ 0)%Z then push_event (event ctrl alt c)
        else
          let shift := if decide (97 ≤ c ∧ c ≤ 122)%Z then Z.lxor shift (capslock x) else shift in
          if decide (shift ≠ 0)%Z then
            c' ← deref OutOfBounds (aget keymap_shift k);
            push_event (event 0 0 c')
          else push_event (event 0 0 c)
      else mret tt)
    (λ _ s', keyboard s' (h ++ [press k]) (q ++ typed h (press k))) s.
Proof.
  intros Hkb Hk Hroom Hm Hsame. pose proof keymap_ok as Hmap. rewrite Forall_forall in Hmap.
  destruct (Hmap k) as ([c Hc] & [c' Hc'] & Hcr & Hcr'); [apply elem_of_seqZ; lia|].
  pose proof (typed_char h _ _ _ Hm Hc Hc') as Htyped.
  rewrite Hc in Hcr. rewrite Hc' in Hcr'. simpl in Hcr, Hcr'. wp_steps.
  apply wp_decide; intros Hc0; [rewrite bool_decide_false in Htyped by done|].
  2:{ wp_steps. rewrite Htyped, bool_decide_true, app_nil_r by lia. destruct Hkb. split; [done|congruence]. }
  wp_steps. pose proof (proj2 Hkb) as Hfl. unfold flags, flags_of in Hfl. injection Hfl as -> -> -> ->.
  cbn [fst snd]. rewrite !c_or_b2z. fold (held_any h "LSHIFT" "RSHIFT") (held_any h "LCTRL" "RCTRL") (held_any h "LALT" "RALT").
  revert Htyped. generalize (held_any h "LSHIFT" "RSHIFT") (held_any h "LCTRL" "RCTRL") (held_any h "LALT" "RALT").
  intros shift ctrl alt Htyped. rewrite lxor_b2z.
  apply wp_decide; intros Hca; rewrite !b2z_nonzero in Hca.
  { rewrite event_small by done. apply wp_type; [done..| |done].
    rewrite Htyped, (proj2 (orb_true_iff ctrl alt)); done. }
  replace (ctrl || alt) with false in Htyped by (destruct ctrl, alt; tauto).
  apply wp_decide; intros Hsh; destruct (decide (97 ≤ c ≤ 122)%Z); rewrite b2z_nonzero in Hsh;
    rewrite ?not_true_iff_false in Hsh; rewrite Hsh in Htyped; wp_steps;
    change 0%Z with (Z.b2z false); rewrite event_small by done; by apply wp_type.
Qed.

Lemma keydown_ok (s : st) h q k :
  keyboard s h q → (0 ≤ k < 256)%Z → (Z.of_nat (S (length q)) < NEVENTS)%Z →
  wp (input_keydown (press k)) (λ _ s', keyboard s' (h ++ [press k]) (q ++ typed h (press k))) s.
Proof.
  intros Hkb Hk Hroom. pose proof Hkb as [Hq Hfl]. assert (Hok : code_ok (press k)) by (right; unfold press; lia).
  pose proof (flags_snoc h _ Hok) as Hsn. pose proof code_bits as Hbits. rewrite Forall_forall in Hbits.
  destruct (Hbits k) as (_ & Hb & Hkey); [apply elem_of_seqZ; lia|].
  unfold input_keydown. rewrite decide_True by done. rewrite Hkey. unfold flags_of in Hsn at 2. key_numbers.
  do 7 (apply wp_decide; intros ?; [subst k; flag_branch Hfl Hsn; right; apply (bool_decide_eq_true_1 _); by vm_compute|]).
  assert (Hm : k ∉ modifiers).
  { intros Hin. repeat (apply elem_of_cons in Hin as [->|Hin]; [done|]). by apply elem_of_nil in Hin. }
  apply type_ok; [done..|]. rewrite Hsn. unfold flags_of. key_numbers. which_key. done.
Qed.

Lemma input_keydown_ok (s : st) h q code :
  keyboard s h q → code_ok code → (Z.of_nat (S (length q)) < NEVENTS)%Z →
  wp (input_keydown code) (λ _ s', keyboard s' (h ++ [code]) (q ++ typed h code)) s.
Proof.
  intros Hkb [Hc|Hc] Hroom; [by apply keyup_ok|].
  replace code with (press (code - 0x8000)) by (unfold press; lia).
  apply keydown_ok; [done|unfold press in Hc; lia|done].
Qed.

Lemma typed_length h code : length (typed h code) ≤ 1.
Proof. unfold typed. by repeat case_match; simpl; lia. Qed.

(** C28. The keyboard decodes: for any sequence of key codes for which the queue
    has room, the events queued are what the keys mean after the history of
    presses and releases, in order, and the driver's flags record that history:
    a modifier is on exactly when its key was last pressed, caps lock when its
    key was pressed an odd number of times. *)
Theorem keyboard_decodes (s : st) h q codes :
  keyboard s h q → Forall code_ok codes → (Z.of_nat (length q + length codes) < NEVENTS)%Z →
  ∃ s', drain_keys codes s = Ret (tt, s') ∧ keyboard s' (h ++ codes) (q ++ typed_all h codes).
Proof.
  intros Hkb Hok Hroom.
  enough (wp (drain_keys codes) (λ _ s', keyboard s' (h ++ codes) (q ++ typed_all h codes)) s) as Hw.
  { apply wp_run in Hw as ([] & s' & ? & ?). by exists s'. }
  revert s h q Hkb Hroom. induction Hok as [|code codes Hc Hok IH]; intros s h q Hkb Hroom; simpl.
  { wp_steps. by rewrite !app_nil_r. }
  rewrite decide_True by (unfold code_ok, press in Hc; lia). apply wp_bind. eapply wp_mono.
  - apply (input_keydown_ok s h q); [done|done|simpl in Hroom; lia].
  - intros [] s' Hkb'. eapply wp_mono; [apply IH; [exact Hkb'|]|].
    + pose proof (typed_length h code). simpl in Hroom. rewrite length_app. lia.
    + intros [] s2. by rewrite <-!(assoc_L (++)).
Qed.
End keys.

(** ** A keyboard just initialised *)

Definition demo_input : input_st kmt_st unit :=
  InputSt demo_kmt (AllocSt UNLOCKED [] [] Null Null 0 0 0 procfs_boot) item_boot
    (Input (Spinlock "/dev/input lock" UNLOCKED NONE_CPU) 0 (replicate (Z.to_nat NEVENTS) (event 0 0 0)) 0 0 0
       (0, 0) (0, 0) (0, 0))%Z.

Lemma demo_queue : in_queue demo_input [].
Proof. split; simpl; try done. apply demo_kmt_inv. Qed.

Lemma input_fifo_witness : ∃ s', push_event (event 0 0 65) demo_input = Ret (tt, s') ∧ in_queue s' [event 0 0 65].
Proof.
  exact (proj1 (input_fifo demo_input [] (event 0 0 65) demo_queue)).
Defined.

(** Shift is pressed, A typed, shift released, A typed. *)
Definition demo_codes : list Z :=
  [press (KEY "LSHIFT"); press (KEY "A"); KEY "A"; KEY "LSHIFT"; press (KEY "A"); KEY "A"].

Lemma keyboard_decodes_witness :
  ∃ s', drain_keys demo_codes demo_input = Ret (tt, s') ∧
    keyboard s' demo_codes [InputEvent 0 0 65; InputEvent 0 0 97].
Proof.
  apply (keyboard_decodes demo_input [] [] demo_codes).
  - split; [exact demo_queue|reflexivity].
  - repeat (apply Forall_cons; split; [first [left; split; reflexivity|right; split; [done|reflexivity]]|]). apply Forall_nil. exact I.
  - reflexivity.
Defined.

(** Shift and return type the null character: the shifted keymap has no entry. *)
Example shift_return : typed [press (KEY "LSHIFT")] (press (KEY "RETURN")) = [InputEvent 0 0 0].
Proof. by vm_compute. Qed.
