(* ===== verification/KString.v ===== *)
(** * Strings and memory blocks (abstract-machine/libs/klib/src/string.c, stdlib.c)

    The string functions over a byte-addressed memory: an address that is not
    mapped cannot be read or written.  A byte is a number in [0, 256); [char] is
    signed, so the comparisons go through [schar]. *)
From S2P Require Import Prelude.

Abbreviation mem := (gmap Z Z).

Definition rd (p : Z) : M mem Z := m ← get; deref OutOfBounds (m !! p).
Definition wr (p v : Z) : M mem unit := rd p;; modify (<[p := v]>).

Definition schar (b : Z) : Z := (if decide (b < 128) then b else b - 256)%Z.

(** A scan visits each mapped address once: the memory's size bounds its rounds. *)
Definition mem_fuel (m : mem) : nat := S (size m).

Fixpoint strlen_loop (fuel : nat) (s len : Z) : M mem Z :=
  match fuel with
  | O => fail OutOfFuel
  | S n =>
      c ← rd s;
      if decide (c = 0)%Z then mret len else strlen_loop n (s + 1) (u32 (len + 1))
  end.

Definition strlen (s : Z) : M mem Z := m ← get; strlen_loop (mem_fuel m) s 0.

Fixpoint strcpy_loop (fuel : nat) (dst src : Z) : M mem Z :=
  match fuel with
  | O => fail OutOfFuel
  | S n =>
      c ← rd src;
      if decide (c = 0)%Z then mret dst else wr dst c;; strcpy_loop n (dst + 1) (src + 1)
  end.

Definition strcpy (dst src : Z) : M mem Z :=
  m ← get;
  d ← strcpy_loop (mem_fuel m) dst src;
  wr d 0;;
  mret dst.

(** [n] counts down, so it bounds the loop; the value is where the loop stopped
    and what is left of [n]. *)
Fixpoint strncpy_loop (n : nat) (dst src : Z) : M mem (Z * nat) :=
  match n with
  | O => mret (dst, O)
  | S n' =>
      c ← rd src;
      if decide (c = 0)%Z then mret (dst, n) else wr dst c;; strncpy_loop n' (dst + 1) (src + 1)
  end.

Definition strncpy (dst src : Z) (n : nat) : M mem Z :=
  '(d, rest) ← strncpy_loop n dst src;
  (if decide (rest = 0) then mret tt else wr d 0);;
  mret dst.

Fixpoint skip_loop (fuel : nat) (dst : Z) : M mem Z :=
  match fuel with
  | O => fail OutOfFuel
  | S n => c ← rd dst; if decide (c = 0)%Z then mret dst else skip_loop n (dst + 1)
  end.

Definition strcat (dst src : Z) : M mem Z :=
  m ← get;
  d ← skip_loop (mem_fuel m) dst;
  d ← strcpy_loop (mem_fuel m) d src;
  wr d 0;;
  mret dst.

(** The last three lines of the comparisons. *)
Definition cmp_chars (a b : Z) : Z :=
  if decide (schar a < schar b)%Z then (-1)%Z
  else if decide (schar b < schar a)%Z then 1%Z else 0%Z.

Fixpoint strcmp_loop (fuel : nat) (s1 s2 : Z) : M mem Z :=
  match fuel with
  | O => fail OutOfFuel
  | S n =>
      a ← rd s1; b ← rd s2;
      if decide (a = b ∧ a ≠ 0)%Z then strcmp_loop n (s1 + 1) (s2 + 1) else mret (cmp_chars a b)
  end.

Definition strcmp (s1 s2 : Z) : M mem Z := m ← get; strcmp_loop (mem_fuel m) s1 s2.

Fixpoint strncmp (s1 s2 : Z) (n : nat) : M mem Z :=
  match n with
  | O => mret 0%Z
  | S n' =>
      a ← rd s1; b ← rd s2;
      if decide (a = b ∧ a ≠ 0)%Z then strncmp (s1 + 1) (s2 + 1) n' else mret (cmp_chars a b)
  end.

Fixpoint memset_loop (tv tc : Z) (n : nat) : M mem unit :=
  match n with
  | O => mret tt
  | S n' => wr tv tc;; memset_loop (tv + 1) tc n'
  end.

Definition memset (v c : Z) (n : nat) : M mem Z := memset_loop v (u8 c) n;; mret v.

(** [while (n--) *_dest++ = *_src++;] *)
Fixpoint copy_up (dest src : Z) (n : nat) : M mem unit :=
  match n with
  | O => mret tt
  | S n' => c ← rd src; wr dest c;; copy_up (dest + 1) (src + 1) n'
  end.

(** [while (n--) *_dest-- = *_src--;] *)
Fixpoint copy_down (dest src : Z) (n : nat) : M mem unit :=
  match n with
  | O => mret tt
  | S n' => c ← rd src; wr dest c;; copy_down (dest - 1) (src - 1) n'
  end.

Definition memcpy (dest src : Z) (n : nat) : M mem Z := copy_up dest src n;; mret dest.

Fixpoint memcmp (s1 s2 : Z) (n : nat) : M mem Z :=
  match n with
  | O => mret 0%Z
  | S n' =>
      a ← rd s1; b ← rd s2;
      if decide (a = b)%Z then memcmp (s1 + 1) (s2 + 1) n' else mret (cmp_chars a b)
  end.

Definition memmove (dest src : Z) (n : nat) : M mem Z :=
  (if decide (dest < src)%Z then copy_up dest src n
   else if decide (src < dest)%Z then copy_down (dest + Z.of_nat n - 1) (src + Z.of_nat n - 1) n
   else mret tt);;
  mret dest.

(** ** Pseudo-random numbers (stdlib.c) *)

Definition rand : M Z Z :=
  modify (λ next, u32 (next * 1103515245 + 12345));;
  next ← get;
  mret (Z.rem (next / 65536) 32768).

Definition srand (seed : Z) : M Z unit := modify (λ _, seed).

(** ** Bytes at an address *)

(** The memory holds the bytes [l] from [p] on. *)
Definition bytes_at (m : mem) (p : Z) (l : list Z) : Prop :=
  ∀ k b, l !! k = Some b → m !! (p + Z.of_nat k)%Z = Some b.

(** The memory with the bytes [l] written from [p] on. *)
Definition put_bytes (p : Z) (l : list Z) (m : mem) : mem := map_seqZ p l ∪ m.

(** A terminated string. *)
Definition cstr (m : mem) (p : Z) (l : list Z) : Prop :=
  bytes_at m p (l ++ [0%Z]) ∧ Forall (λ b, b ≠ 0%Z) l.

(** The block of [n] bytes at [p] is mapped. *)
Definition mapped (m : mem) (p : Z) (n : nat) : Prop :=
  ∀ k, (0 ≤ k < Z.of_nat n)%Z → is_Some (m !! (p + k)%Z).

Lemma bytes_at_cons m p b l : bytes_at m p (b :: l) ↔ m !! p = Some b ∧ bytes_at m (p + 1) l.
Proof.
  split.
  - intros H. split; [rewrite <-(Z.add_0_r p); by apply (H 0)|].
    intros k c Hc. replace (p + 1 + Z.of_nat k)%Z with (p + Z.of_nat (S k))%Z by lia. by apply H.
  - intros [Hb Hl] [|k] c Hc; simplify_eq/=; [by rewrite Z.add_0_r|].
    rewrite <-(Hl k c Hc). f_equal. lia.
Qed.

Lemma bytes_at_app m p l1 l2 :
  bytes_at m p (l1 ++ l2) ↔ bytes_at m p l1 ∧ bytes_at m (p + Z.of_nat (length l1)) l2.
Proof.
  revert p. induction l1 as [|b l1 IH]; intros p; simpl.
  - rewrite Z.add_0_r. split; [by intros|naive_solver].
  - rewrite !bytes_at_cons, IH. rewrite (and_assoc (m !! p = Some b)).
    by replace (p + 1 + Z.of_nat (length l1))%Z with (p + Z.of_nat (S (length l1)))%Z by lia.
Qed.

Lemma bytes_at_insert m p l q v :
  (q < p ∨ p + Z.of_nat (length l) ≤ q)%Z → bytes_at m p l → bytes_at (<[q := v]> m) p l.
Proof.
  intros Hq Hl k b Hb. rewrite lookup_insert_ne; [by apply Hl|].
  apply lookup_lt_Some in Hb. lia.
Qed.

Lemma put_bytes_cons p b l m : put_bytes p (b :: l) m = put_bytes (p + 1) l (<[p := b]> m).
Proof.
  unfold put_bytes. rewrite map_seqZ_cons, <-insert_union_l, insert_union_r; [done|].
  apply map_seqZ_cons_disjoint.
Qed.

Lemma put_bytes_snoc p b l m :
  put_bytes p (l ++ [b]) m = put_bytes p l (<[(p + Z.of_nat (length l))%Z := b]> m).
Proof.
  unfold put_bytes. rewrite map_seqZ_app, map_seqZ_singleton, <-(assoc_L (∪)).
  by rewrite insert_union_singleton_l.
Qed.

Lemma put_bytes_nil p m : put_bytes p [] m = m.
Proof. apply (left_id_L ∅ (∪)). Qed.

Lemma put_bytes_at p l m : bytes_at (put_bytes p l m) p l.
Proof.
  intros k b Hb. unfold put_bytes. apply lookup_union_Some_l. by apply lookup_map_seqZ_Some_inv.
Qed.

Lemma put_bytes_out p l m q :
  (q < p ∨ p + Z.of_nat (length l) ≤ q)%Z → put_bytes p l m !! q = m !! q.
Proof. intros Hq. unfold put_bytes. apply lookup_union_r. apply lookup_map_seqZ_None. lia. Qed.

Lemma bytes_at_size m p l : bytes_at m p l → length l ≤ size m.
Proof.
  intros Hl.
  assert (Hsub : list_to_set (seqZ p (Z.of_nat (length l))) ⊆ dom m).
  { intros q Hq. apply elem_of_list_to_set, elem_of_seqZ in Hq.
    destruct (lookup_lt_is_Some_2 l (Z.to_nat (q - p))) as [b Hb]; [lia|].
    apply elem_of_dom. exists b. rewrite <-(Hl _ _ Hb). f_equal. lia. }
  apply subseteq_size in Hsub. rewrite size_dom, size_list_to_set, length_seqZ in Hsub by apply NoDup_seqZ. lia.
Qed.

Lemma cstr_fuel m p l : cstr m p l → length l < mem_fuel m.
Proof.
  intros [Hl _]. apply bytes_at_size in Hl. rewrite length_app in Hl. unfold mem_fuel. simpl in Hl. lia.
Qed.

Lemma cstr_cons m p b l : cstr m p (b :: l) ↔ m !! p = Some b ∧ b ≠ 0%Z ∧ cstr m (p + 1) l.
Proof. unfold cstr. simpl. rewrite bytes_at_cons, Forall_cons. naive_solver. Qed.

Lemma cstr_nil m p : cstr m p [] ↔ m !! p = Some 0%Z.
Proof.
  unfold cstr. simpl. rewrite bytes_at_cons. split; [naive_solver|]. intros ?. split; [|constructor].
  split; [done|]. intros [|] ? ?; done.
Qed.

Lemma wp_rd p b (Q : Z → mem → Prop) m : m !! p = Some b → Q b m → wp (rd p) Q m.
Proof. intros Hb HQ. unfold rd. by wp_steps. Qed.

Lemma wp_wr p v (Q : unit → mem → Prop) m : is_Some (m !! p) → Q tt (<[p := v]> m) → wp (wr p v) Q m.
Proof. intros [b Hb] HQ. unfold wr. wp_steps. by eapply wp_rd. Qed.

Lemma mapped_insert m p n q v : mapped m p n → mapped (<[q := v]> m) p n.
Proof. intros Hm k Hk. rewrite lookup_insert_is_Some'. right. by apply Hm. Qed.

Lemma mapped_S m p n : mapped m p (S n) → is_Some (m !! p) ∧ mapped m (p + 1) n.
Proof.
  intros Hm. split; [rewrite <-(Z.add_0_r p); apply Hm; lia|].
  intros k Hk. rewrite <-Z.add_assoc. apply Hm. lia.
Qed.

(** ** The loops *)

Lemma wp_copy_up m dest src l (Q : unit → mem → Prop) :
  bytes_at m src l → mapped m dest (length l) →
  (dest ≤ src ∨ src + Z.of_nat (length l) ≤ dest)%Z →
  Q tt (put_bytes dest l m) → wp (copy_up dest src (length l)) Q m.
Proof.
  revert m dest src. induction l as [|b l IH]; intros m dest src Hl Hm Hd HQ; simpl.
  { wp_steps. by rewrite put_bytes_nil in HQ. }
  apply bytes_at_cons in Hl as [Hb Hl]. apply mapped_S in Hm as [Hdst Hm]. simpl in Hd.
  wp_steps. eapply wp_rd; [done|]. wp_steps. apply wp_wr; [done|].
  apply IH; [apply bytes_at_insert; [lia|done]|by apply mapped_insert|lia|].
  by rewrite <-put_bytes_cons.
Qed.

Lemma wp_copy_down m dest src l (Q : unit → mem → Prop) :
  bytes_at m src l → mapped m dest (length l) → (src < dest)%Z →
  Q tt (put_bytes dest l m) →
  wp (copy_down (dest + Z.of_nat (length l) - 1) (src + Z.of_nat (length l) - 1) (length l)) Q m.
Proof.
  revert m. induction l as [|b l IH] using rev_ind; intros m Hl Hm Hd HQ; simpl.
  { wp_steps. by rewrite put_bytes_nil in HQ. }
  apply bytes_at_app in Hl as [Hl Hb]. apply bytes_at_cons in Hb as [Hb _].
  rewrite length_app, Nat.add_1_r in *. simpl. wp_steps.
  replace (dest + Z.of_nat (S (length l)) - 1)%Z with (dest + Z.of_nat (length l))%Z by lia.
  replace (src + Z.of_nat (S (length l)) - 1)%Z with (src + Z.of_nat (length l))%Z by lia.
  eapply wp_rd; [done|]. wp_steps. apply wp_wr; [apply Hm; lia|].
  apply IH; [apply bytes_at_insert; [lia|done]| |done|by rewrite <-put_bytes_snoc].
  apply mapped_insert. intros k Hk. apply Hm. lia.
Qed.

Lemma wp_strlen_loop m l fuel s len (Q : Z → mem → Prop) :
  cstr m s l → length l < fuel → (0 ≤ len)%Z → (len + Z.of_nat (length l) < 2 ^ 32)%Z →
  Q (len + Z.of_nat (length l))%Z m → wp (strlen_loop fuel s len) Q m.
Proof.
  revert fuel s len. induction l as [|b l IH]; intros [|fuel] s len Hl Hf Hlen Hmax HQ; simpl in *; try lia; wp_steps.
  - apply cstr_nil in Hl. eapply wp_rd; [done|]. rewrite decide_True by done. wp_steps.
    by rewrite Z.add_0_r in HQ.
  - apply cstr_cons in Hl as (Hb & Hne & Hl). eapply wp_rd; [done|]. rewrite decide_False by done.
    rewrite u32_small by lia. apply IH; [done|lia|lia|lia|].
    by replace (len + 1 + Z.of_nat (length l))%Z with (len + Z.of_nat (S (length l)))%Z by lia.
Qed.

(** [strcpy_loop] from the string [l] writes its characters and stops after
    them. *)
Lemma wp_strcpy_loop m l fuel dst src (Q : Z → mem → Prop) :
  cstr m src l → length l < fuel → mapped m dst (length l) →
  (dst + Z.of_nat (length l) ≤ src ∨ src + Z.of_nat (length l) < dst)%Z →
  Q (dst + Z.of_nat (length l))%Z (put_bytes dst l m) → wp (strcpy_loop fuel dst src) Q m.
Proof.
  revert m fuel dst src. induction l as [|b l IH]; intros m [|fuel] dst src Hl Hf Hm Hd HQ; simpl in *; try lia; wp_steps.
  - apply cstr_nil in Hl. eapply wp_rd; [done|]. rewrite decide_True by done. wp_steps.
    by rewrite Z.add_0_r, put_bytes_nil in HQ.
  - apply cstr_cons in Hl as (Hb & Hne & Hl). apply mapped_S in Hm as [Hdst Hm].
    eapply wp_rd; [done|]. rewrite decide_False by done. wp_steps. apply wp_wr; [done|].
    apply IH; [| lia|by apply mapped_insert|lia|].
    + destruct Hl as [Hl Hnz]. split; [|done]. apply bytes_at_insert; [|done].
      rewrite length_app. simpl. lia.
    + rewrite <-put_bytes_cons.
      by replace (dst + 1 + Z.of_nat (length l))%Z with (dst + Z.of_nat (S (length l)))%Z by lia.
Qed.

Lemma wp_strncpy_loop m l n dst src (Q : Z * nat → mem → Prop) :
  cstr m src l → mapped m dst (length (take n l)) →
  (dst + Z.of_nat (length l) ≤ src ∨ src + Z.of_nat (length l) < dst)%Z →
  Q ((dst + Z.of_nat (length (take n l)))%Z, n - length l) (put_bytes dst (take n l) m) →
  wp (strncpy_loop n dst src) Q m.
Proof.
  revert m n dst src. induction l as [|b l IH]; intros m [|n] dst src Hl Hm Hd HQ; simpl in *; wp_steps.
  - by rewrite Z.add_0_r, put_bytes_nil in HQ.
  - apply cstr_nil in Hl. eapply wp_rd; [done|]. rewrite decide_True by done. wp_steps.
    by rewrite Z.add_0_r, put_bytes_nil in HQ.
  - by rewrite Z.add_0_r, put_bytes_nil in HQ.
  - apply cstr_cons in Hl as (Hb & Hne & Hl). apply mapped_S in Hm as [Hdst Hm].
    eapply wp_rd; [done|]. rewrite decide_False by done. wp_steps. apply wp_wr; [done|].
    apply IH; [|by apply mapped_insert|lia|].
    + destruct Hl as [Hl Hnz]. split; [|done]. apply bytes_at_insert; [|done].
      rewrite length_app. simpl. lia.
    + rewrite <-put_bytes_cons.
      by replace (dst + 1 + Z.of_nat (length (take n l)))%Z with (dst + Z.of_nat (S (length (take n l))))%Z by lia.
Qed.

(** The order [strcmp] decides: by signed character, a proper prefix first. *)
Fixpoint lexcmp (l1 l2 : list Z) : Z :=
  match l1, l2 with
  | [], [] => 0%Z
  | [], b :: _ => cmp_chars 0 b
  | a :: _, [] => cmp_chars a 0
  | a :: l1, b :: l2 => if decide (a = b) then lexcmp l1 l2 else cmp_chars a b
  end.

Lemma wp_strcmp_loop m l1 l2 fuel p q (Q : Z → mem → Prop) :
  cstr m p l1 → cstr m q l2 → length l1 < fuel → Q (lexcmp l1 l2) m → wp (strcmp_loop fuel p q) Q m.
Proof.
  revert l2 fuel p q. induction l1 as [|a l1 IH]; intros l2 [|fuel] p q H1 H2 Hf HQ; simpl in *; try lia; wp_steps.
  - apply cstr_nil in H1. eapply wp_rd; [done|]. wp_steps. destruct l2 as [|b l2].
    + apply cstr_nil in H2. eapply wp_rd; [done|]. rewrite decide_False by naive_solver. by wp_steps.
    + apply cstr_cons in H2 as (Hb & Hne & H2). eapply wp_rd; [done|]. rewrite decide_False by naive_solver. by wp_steps.
  - apply cstr_cons in H1 as (Ha & Hna & H1). eapply wp_rd; [done|]. wp_steps. destruct l2 as [|b l2].
    + apply cstr_nil in H2. eapply wp_rd; [done|]. rewrite decide_False by naive_solver. by wp_steps.
    + apply cstr_cons in H2 as (Hb & Hne & H2). eapply wp_rd; [done|]. destruct (decide (a = b)) as [Heq|Hneq].
      * rewrite decide_True by naive_solver. by eapply IH; [..|lia|].
      * rewrite decide_False by naive_solver. by wp_steps.
Qed.

Definition byte (b : Z) : Prop := (0 ≤ b < 256)%Z.

Lemma cmp_chars_eq a b : byte a → byte b → cmp_chars a b = 0%Z → a = b.
Proof. unfold cmp_chars, schar, byte. intros ??. repeat case_decide; try done; lia. Qed.

Lemma lexcmp_eq l1 l2 :
  Forall (λ b, b ≠ 0%Z ∧ byte b) l1 → Forall (λ b, b ≠ 0%Z ∧ byte b) l2 → lexcmp l1 l2 = 0%Z ↔ l1 = l2.
Proof.
  intros H1. revert l2. induction H1 as [|a l1 [Ha Hba] H1 IH]; intros l2 H2; destruct H2 as [|b l2 [Hb Hbb] H2]; simpl.
  - done.
  - split; [|done]. intros Hc%cmp_chars_eq; [by subst|done|done].
  - split; [|done]. intros Hc%cmp_chars_eq; [by subst|done|done].
  - case_decide as Heq; [rewrite IH by done; naive_solver|]. split; [|naive_solver].
    by intros Hc%cmp_chars_eq.
Qed.

(** C18. [memmove] is right for every overlap: whatever the relative position of
    the two blocks, the destination ends with the bytes the source held before
    the call and no other byte of the memory changes. *)
Theorem memmove_spec m dest src l :
  bytes_at m src l → mapped m dest (length l) →
  ∃ m', memmove dest src (length l) m = Ret (dest, m') ∧ bytes_at m' dest l ∧
    ∀ q, (q < dest ∨ dest + Z.of_nat (length l) ≤ q)%Z → m' !! q = m !! q.
Proof.
  intros Hl Hm.
  enough (wp (memmove dest src (length l)) (λ r m', r = dest ∧ bytes_at m' dest l ∧
    ∀ q, (q < dest ∨ dest + Z.of_nat (length l) ≤ q)%Z → m' !! q = m !! q) m) as Hwp.
  { apply wp_run in Hwp as (r & m' & Hrun & -> & ?). by exists m'. }
  unfold memmove. wp_steps. case_decide as Hlt; [|case_decide as Hgt].
  - apply wp_copy_up; [done|done|lia|]. wp_steps.
    split_and!; [done|apply put_bytes_at|apply put_bytes_out].
  - apply wp_copy_down; [done|done|lia|]. wp_steps.
    split_and!; [done|apply put_bytes_at|apply put_bytes_out].
  - wp_steps. assert (dest = src) as -> by lia. by split_and!.
Qed.

(** [strncpy] with a limit: at most [n] bytes of the destination change, they
    receive the first [n] characters of the source, and a terminator only when
    there is room for it after them (it does not pad). *)
Theorem strncpy_spec m dst src l n :
  cstr m src l → mapped m dst n →
  (dst + Z.of_nat (length l) ≤ src ∨ src + Z.of_nat (length l) < dst)%Z →
  ∃ m', strncpy dst src n m = Ret (dst, m') ∧
    bytes_at m' dst (take n (l ++ [0%Z])) ∧
    ∀ q, (q < dst ∨ dst + Z.of_nat (length (take n (l ++ [0%Z]))) ≤ q)%Z → m' !! q = m !! q.
Proof.
  intros Hl Hm Hd.
  assert (Hmt : mapped m dst (length (take n l))).
  { intros k Hk. apply Hm. rewrite length_take in Hk. lia. }
  enough (wp (strncpy dst src n) (λ r m', r = dst ∧ bytes_at m' dst (take n (l ++ [0%Z])) ∧
    ∀ q, (q < dst ∨ dst + Z.of_nat (length (take n (l ++ [0%Z]))) ≤ q)%Z → m' !! q = m !! q) m) as Hwp.
  { apply wp_run in Hwp as (r & m' & Hrun & -> & ?). by exists m'. }
  unfold strncpy. wp_steps. eapply wp_strncpy_loop; [done..|]. wp_steps. case_decide as Hz.
  - wp_steps. rewrite take_app_le by lia. split_and!; [done|apply put_bytes_at|apply put_bytes_out].
  - assert (take n (l ++ [0%Z]) = l ++ [0%Z]) as ->.
    { apply take_ge. rewrite length_app. simpl. lia. }
    rewrite take_ge by lia. apply wp_wr.
    { unfold put_bytes. rewrite lookup_union_r; [apply Hm; lia|]. apply lookup_map_seqZ_None. lia. }
    wp_steps.
    assert (<[(dst + Z.of_nat (length l))%Z := 0%Z]> (put_bytes dst l m) = put_bytes dst (l ++ [0%Z]) m) as ->.
    { rewrite put_bytes_snoc. unfold put_bytes. rewrite insert_union_r; [done|]. apply lookup_map_seqZ_None. lia. }
    split_and!; [done|apply put_bytes_at|apply put_bytes_out].
Qed.

(** [strcmp] decides equality of strings and orders them by signed character:
    it returns 0 exactly for equal strings, and otherwise the sign of the first
    difference, in which bytes from 128 up count as negative. *)
Theorem strcmp_spec m p q l1 l2 :
  cstr m p l1 → cstr m q l2 → Forall byte l1 → Forall byte l2 →
  strcmp p q m = Ret (lexcmp l1 l2, m) ∧ (lexcmp l1 l2 = 0%Z ↔ l1 = l2).
Proof.
  intros H1 H2 Hb1 Hb2. split.
  - assert (Hwp : wp (strcmp p q) (λ r m', r = lexcmp l1 l2 ∧ m' = m) m).
    { unfold strcmp. wp_steps. eapply wp_strcmp_loop; [done|done|by eapply cstr_fuel|done]. }
    by apply wp_run in Hwp as (r & m' & -> & -> & ->).
  - destruct H1 as [_ H1], H2 as [_ H2]. apply lexcmp_eq; by apply Forall_and.
Qed.

Lemma wp_skip_loop m l fuel dst (Q : Z → mem → Prop) :
  cstr m dst l → length l < fuel → Q (dst + Z.of_nat (length l))%Z m → wp (skip_loop fuel dst) Q m.
Proof.
  revert fuel dst. induction l as [|b l IH]; intros [|fuel] dst Hl Hf HQ; simpl in *; try lia; wp_steps.
  - apply cstr_nil in Hl. eapply wp_rd; [done|]. rewrite decide_True by done. wp_steps. by rewrite Z.add_0_r in HQ.
  - apply cstr_cons in Hl as (Hb & Hne & Hl). eapply wp_rd; [done|]. rewrite decide_False by done.
    apply IH; [done|lia|]. by replace (dst + 1 + Z.of_nat (length l))%Z with (dst + Z.of_nat (S (length l)))%Z by lia.
Qed.

Lemma wp_strcat m dst src l1 l2 (Q : Z → mem → Prop) :
  cstr m dst l1 → cstr m src l2 → mapped m dst (length l1 + length l2 + 1) →
  (dst + Z.of_nat (length l1 + length l2) < src ∨ src + Z.of_nat (length l2) < dst)%Z →
  Q dst (put_bytes (dst + Z.of_nat (length l1)) (l2 ++ [0%Z]) m) → wp (strcat dst src) Q m.
Proof.
  intros H1 H2 Hm Hd HQ. unfold strcat. wp_steps. eapply wp_skip_loop; [done|by eapply cstr_fuel|]. wp_steps.
  set (d := (dst + Z.of_nat (length l1))%Z).
  eapply wp_strcpy_loop; [done|by eapply cstr_fuel| |lia|].
  { intros k Hk. unfold d. replace (dst + Z.of_nat (length l1) + k)%Z with (dst + (Z.of_nat (length l1) + k))%Z by lia.
    apply Hm. lia. }
  wp_steps. apply wp_wr.
  { unfold put_bytes. rewrite lookup_union_r; [|apply lookup_map_seqZ_None; lia].
    unfold d. rewrite <-Z.add_assoc. apply Hm. lia. }
  wp_steps. fold d in HQ. rewrite put_bytes_snoc in HQ. unfold put_bytes in *.
  rewrite insert_union_r; [exact HQ|]. apply lookup_map_seqZ_None. lia.
Qed.

(** Concatenation: [strcat] onto a buffer with room leaves the two strings one
    after the other with a single terminator, [strlen] of the result is the sum
    of the lengths, and no byte outside the buffer changes. *)
Theorem strcat_spec m dst src l1 l2 :
  cstr m dst l1 → cstr m src l2 → mapped m dst (length l1 + length l2 + 1) →
  (dst + Z.of_nat (length l1 + length l2) < src ∨ src + Z.of_nat (length l2) < dst)%Z →
  (Z.of_nat (length l1 + length l2) < 2 ^ 32)%Z →
  ∃ m', strcat dst src m = Ret (dst, m') ∧ cstr m' dst (l1 ++ l2) ∧
    strlen dst m' = Ret (Z.of_nat (length l1 + length l2), m') ∧
    ∀ q, (q < dst ∨ dst + Z.of_nat (length l1 + length l2) < q)%Z → m' !! q = m !! q.
Proof.
  intros H1 H2 Hm Hd Hmax. set (m' := put_bytes (dst + Z.of_nat (length l1)) (l2 ++ [0%Z]) m).
  assert (Hc : cstr m' dst (l1 ++ l2)).
  { split; [|apply Forall_app; split; [apply H1|apply H2]]. rewrite <-(assoc_L (++)), bytes_at_app.
    split; [|apply put_bytes_at]. intros k b Hb. unfold m'.
    pose proof (lookup_lt_Some _ _ _ Hb). rewrite put_bytes_out by lia. apply H1. by apply lookup_app_l_Some. }
  assert (Hwp : wp (strcat dst src) (λ r m1, r = dst ∧ m1 = m') m) by (by eapply wp_strcat).
  assert (Hln : wp (strlen dst) (λ n m1, n = Z.of_nat (length l1 + length l2) ∧ m1 = m') m').
  { unfold strlen. wp_steps. eapply wp_strlen_loop; [done|by eapply cstr_fuel|lia|rewrite length_app; lia|].
    rewrite length_app. split; [lia|done]. }
  apply wp_run in Hwp as (? & ? & Hrun & -> & ->). apply wp_run in Hln as (? & ? & Hlen & -> & ->).
  exists m'. split_and!; [done..|]. intros q Hq. apply put_bytes_out.
  rewrite length_app. simpl. lia.
Qed.

(** ** Concrete memories *)

Definition demo_mem : mem := map_seqZ 100 [104; 105; 0; 9; 9; 9; 120; 0; 200]%Z.

Lemma demo_bytes p l : bool_decide (Forall (λ k, demo_mem !! (p + Z.of_nat k)%Z = l !! k) (seq 0 (length l))) = true →
  bytes_at demo_mem p l.
Proof.
  intros Hall%bool_decide_eq_true k b Hb. rewrite Forall_forall in Hall.
  rewrite Hall; [done|]. apply elem_of_seq. apply lookup_lt_Some in Hb. lia.
Qed.

Lemma demo_mapped p n :
  bool_decide (Forall (λ k, is_Some (demo_mem !! (p + k)%Z)) (seqZ 0 (Z.of_nat n))) = true →
  mapped demo_mem p n.
Proof.
  intros Hall%bool_decide_eq_true k Hk. rewrite Forall_forall in Hall. apply Hall, elem_of_seqZ. lia.
Qed.

Lemma demo_hi : cstr demo_mem 100 [104; 105]%Z.
Proof. split; [by apply demo_bytes|by repeat constructor]. Qed.
Lemma demo_x : cstr demo_mem 106 [120]%Z.
Proof. split; [by apply demo_bytes|by repeat constructor]. Qed.

(** The blocks overlap by two bytes. *)
Lemma memmove_spec_witness :
  ∃ m', memmove 101 100 3 demo_mem = Ret (101%Z, m') ∧ bytes_at m' 101 [104; 105; 0]%Z.
Proof.
  destruct (memmove_spec demo_mem 101 100 [104; 105; 0]%Z) as (m' & Hrun & Hb & _);
    [by apply demo_bytes|by apply demo_mapped|]. exists m'. split; [exact Hrun|exact Hb].
Defined.

Lemma strncpy_spec_witness :
  ∃ m', strncpy 103 100 2 demo_mem = Ret (103%Z, m') ∧ bytes_at m' 103 [104; 105]%Z.
Proof.
  destruct (strncpy_spec demo_mem 103 100 [104; 105]%Z 2) as (m' & Hrun & Hb & _);
    [apply demo_hi|by apply demo_mapped|simpl; lia|]. exists m'. split; [exact Hrun|exact Hb].
Defined.

Lemma strcmp_spec_witness :
  strcmp 100 106 demo_mem = Ret (-1, demo_mem)%Z ∧ cmp_chars 200 104 = (-1)%Z.
Proof.
  split; [|reflexivity].
  refine (proj1 (strcmp_spec demo_mem 100 106 [104; 105]%Z [120]%Z demo_hi demo_x _ _)).
  - unfold byte. repeat constructor; lia.
  - unfold byte. repeat constructor; lia.
Defined.

Lemma strcat_spec_witness :
  ∃ m', strcat 100 106 demo_mem = Ret (100%Z, m') ∧ strlen 100 m' = Ret (3%Z, m').
Proof.
  destruct (strcat_spec demo_mem 100 106 [104; 105]%Z [120]%Z demo_hi demo_x) as (m' & Hrun & _ & Hlen & _);
    [by apply demo_mapped|simpl; lia|done|]. exists m'. split; [exact Hrun|exact Hlen].
Defined.
