(* ===== verification/Device.v ===== *)
(** * Devices (kernel/src/devices/dev.c, devices/ramdisk/ramdisk.c)

    The device table and its lookup, the RAM disk, and the interface a block
    device offers to a file system. *)
From S2P Require Import Prelude Common Procfs Alloc KString.

(** ** The device table *)

Inductive devops := rd_ops | input_ops | fb_ops | tty_ops.

Record device := Device {
  dev_name : string;
  dev_id : Z;
  dev_ptr : Z;       (* the address of the device's data *)
  dev_ops : devops
}.

(** The sizes the allocations of [dev_init] ask for (32-bit layout). *)
Definition sizeof (o : devops) : Z :=
  match o with rd_ops => 8 | input_ops => 292 | fb_ops => 12 | tty_ops => 476 end.
Definition sizeof_device : Z := 16.

(** The rows of the macro [DEVICES]. *)
Definition DEVICES : list (devops * string * Z) :=
  [(rd_ops, "ramdisk0", 1%Z); (rd_ops, "ramdisk1", 2%Z); (input_ops, "input", 1%Z); (fb_ops, "fb", 1%Z);
   (tty_ops, "tty1", 1%Z); (tty_ops, "tty2", 2%Z); (tty_ops, "tty3", 3%Z); (tty_ops, "tty4", 4%Z)].

(** [dev_lookup]: the first device of that name, or a panic. *)
Definition dev_lookup {S} (devices : list device) (name : string) : M S device :=
  match list_find (λ d, dev_name d = name) devices with
  | Some (_, d) => mret d
  | None => fail Halt
  end.

(** [dev_create]; the structures live in memory the allocator gives. *)
Definition dev_create (dev_size : Z) (name : string) (i : Z) (ops : devops) : M alloc_st device :=
  data ← kalloc dev_size;
  dev ← kalloc sizeof_device;
  (if decide (dev = 0)%Z then fail NullDeref else mret tt);;
  mret (Device name i data ops).

(** [DEVICES(CREATE)] of [dev_init]. *)
Fixpoint dev_create_all (rows : list (devops * string * Z)) : M alloc_st (list device) :=
  match rows with
  | [] => mret []
  | (o, name, i) :: rows' =>
      d ← dev_create (sizeof o) name i o;
      ds ← dev_create_all rows';
      mret (d :: ds)
  end.

(** ** The RAM disk *)

Definition RD_SIZE : Z := Z.shiftl 4 20.

Record rd_t := Rd { rd_start : Z; rd_end : Z }.

Definition rd_init (initrd_start initrd_end : Z) (dev : device) : M alloc_st rd_t :=
  if decide (dev_id dev = 1)%Z then mret (Rd initrd_start initrd_end)
  else space ← kalloc RD_SIZE; mret (Rd space (u32 (space + RD_SIZE))).

(** The values are the counts returned. *)
Definition rd_read (rd : rd_t) (offset buf : Z) (count : nat) : M mem Z :=
  memcpy buf (rd_start rd + offset) count;; mret (Z.of_nat count).
Definition rd_write (rd : rd_t) (offset buf : Z) (count : nat) : M mem Z :=
  memcpy (rd_start rd + offset) buf count;; mret (Z.of_nat count).

(** ** The interface of a block device

    What a file system relies on: a read within the device gives the bytes last
    written there, a write changes the bytes it covers and no other. *)
Class BlockDevice (D : Type) := {
  dv_size : D → Z;
  dv_ok : D → Prop;
  dv_byte : D → Z → Z;                          (* the contents *)
  dv_read : Z → nat → M D (list Z);
  dv_write : Z → list Z → M D unit;
  dv_read_ok : ∀ off n (d : D), dv_ok d → (0 ≤ off)%Z → (off + Z.of_nat n ≤ dv_size d)%Z →
    dv_read off n d = Ret ((λ k, dv_byte d (off + Z.of_nat k)) <$> seq 0 n, d);
  dv_write_ok : ∀ off l (d : D), dv_ok d → (0 ≤ off)%Z → (off + Z.of_nat (length l) ≤ dv_size d)%Z →
    ∃ d', dv_write off l d = Ret (tt, d') ∧ dv_ok d' ∧ dv_size d' = dv_size d ∧
      ∀ a, dv_byte d' a =
        if decide (off ≤ a < off + Z.of_nat (length l))%Z
        then default 0%Z (l !! Z.to_nat (a - off)) else dv_byte d a
}.

(** ** The RAM disk through the interface

    The data passes through lists of bytes in place of a caller's buffer. *)
Fixpoint read_bytes (p : Z) (n : nat) : M mem (list Z) :=
  match n with
  | O => mret []
  | S n' => b ← rd p; l ← read_bytes (p + 1) n'; mret (b :: l)
  end.

Fixpoint write_bytes (p : Z) (l : list Z) : M mem unit :=
  match l with
  | [] => mret tt
  | b :: l' => wr p b;; write_bytes (p + 1) l'
  end.

Record rdisk := RDisk { rd_geo : rd_t; rd_mem : mem }.

Definition rdisk_size (d : rdisk) : Z := rd_end (rd_geo d) - rd_start (rd_geo d).
Definition rdisk_ok (d : rdisk) : Prop :=
  mapped (rd_mem d) (rd_start (rd_geo d)) (Z.to_nat (rdisk_size d)).
Definition rdisk_byte (d : rdisk) (a : Z) : Z := default 0%Z (rd_mem d !! (rd_start (rd_geo d) + a)%Z).
Definition set_rd_mem (m : mem) (d : rdisk) : rdisk := RDisk (rd_geo d) m.
Definition rdisk_read (off : Z) (n : nat) : M rdisk (list Z) := λ d,
  zoom rd_mem set_rd_mem (read_bytes (rd_start (rd_geo d) + off) n) d.
Definition rdisk_write (off : Z) (l : list Z) : M rdisk unit := λ d,
  zoom rd_mem set_rd_mem (write_bytes (rd_start (rd_geo d) + off) l) d.

Lemma read_bytes_ok p n m :
  mapped m p n →
  read_bytes p n m = Ret ((λ k, default 0%Z (m !! (p + Z.of_nat k)%Z)) <$> seq 0 n, m).
Proof.
  revert p. induction n as [|n IH]; intros p Hm; [done|]. simpl.
  apply mapped_S in Hm as [[b Hb] Hm].
  erewrite bind_run; [|unfold rd; erewrite bind_run by done; by rewrite Hb].
  erewrite bind_run by (by apply IH). rewrite Z.add_0_r, Hb. simpl. unfold mret, M_ret. do 3 f_equal.
  rewrite <-fmap_S_seq, <-list_fmap_compose. apply list_fmap_ext. intros _ k _. simpl. do 2 f_equal. lia.
Qed.

Lemma write_bytes_ok p l m :
  mapped m p (length l) → write_bytes p l m = Ret (tt, put_bytes p l m).
Proof.
  revert p m. induction l as [|b l IH]; intros p m Hm; simpl.
  { by rewrite put_bytes_nil. }
  apply mapped_S in Hm as [Hp Hm].
  assert (Hwr : wp (wr p b) (λ _ m', m' = <[p := b]> m) m) by (by apply wp_wr).
  apply wp_run in Hwr as ([] & m' & Hrun & ->). erewrite bind_run by done.
  rewrite IH by (by apply mapped_insert). by rewrite <-put_bytes_cons.
Qed.

Lemma mapped_sub m p n q k :
  mapped m p n → (p ≤ q)%Z → (q + Z.of_nat k ≤ p + Z.of_nat n)%Z → mapped m q k.
Proof.
  intros Hm Hq Hk j Hj. replace (q + j)%Z with (p + (q - p + j))%Z by lia. apply Hm. lia.
Qed.

Lemma put_bytes_mapped m p n q l : mapped m p n → mapped (put_bytes q l m) p n.
Proof. intros Hm k Hk. unfold put_bytes. apply lookup_union_is_Some. right. by apply Hm. Qed.

Lemma put_bytes_lookup m p l q :
  default 0%Z (put_bytes p l m !! q) =
  if decide (p ≤ q < p + Z.of_nat (length l))%Z then default 0%Z (l !! Z.to_nat (q - p))
  else default 0%Z (m !! q).
Proof.
  case_decide as Hq.
  - destruct (lookup_lt_is_Some_2 l (Z.to_nat (q - p))) as [b Hb]; [lia|]. rewrite Hb.
    pose proof (put_bytes_at p l m _ _ Hb) as Hp. replace (p + Z.of_nat (Z.to_nat (q - p)))%Z with q in Hp by lia.
    by rewrite Hp.
  - by rewrite put_bytes_out by lia.
Qed.

#[export] Program Instance rdisk_device : BlockDevice rdisk := {
  dv_size := rdisk_size;
  dv_ok := rdisk_ok;
  dv_byte := rdisk_byte;
  dv_read := rdisk_read;
  dv_write := rdisk_write
}.
Next Obligation.
  intros off n d Hok Hoff Hn. unfold rdisk_read, zoom, rdisk_ok, rdisk_size in *.
  rewrite read_bytes_ok by (eapply mapped_sub; [done|lia|lia]).
  destruct d as [geo m]. unfold set_rd_mem, rdisk_byte. simpl. do 2 f_equal.
  apply list_fmap_ext. intros _ k _. simpl. do 2 f_equal. lia.
Qed.
Next Obligation.
  intros off l d Hok Hoff Hn. unfold rdisk_write, zoom, rdisk_ok, rdisk_size in *.
  rewrite write_bytes_ok by (eapply mapped_sub; [done|lia|lia]).
  eexists. split; [done|]. split; [by apply put_bytes_mapped|]. split; [done|].
  intros a. unfold rdisk_byte. simpl. rewrite put_bytes_lookup.
  repeat case_decide; try lia; try done. do 2 f_equal. lia.
Qed.

(** [rd_read] and [rd_write] implement the interface through the caller's
    buffer: a read leaves in the buffer the bytes the interface reads, a write
    has the effect of the interface's write of the buffer's bytes, and both
    return the count.  (They check nothing: the hypotheses are the caller's.) *)
Theorem rd_ops_refine d off buf n l :
  rdisk_ok d → (0 ≤ off)%Z → (off + Z.of_nat n ≤ rdisk_size d)%Z → length l = n →
  mapped (rd_mem d) buf n → bytes_at (rd_mem d) buf l →
  (buf + Z.of_nat n ≤ rd_start (rd_geo d) ∨ rd_end (rd_geo d) ≤ buf)%Z →
  (∃ m' bs, rd_read (rd_geo d) off buf n (rd_mem d) = Ret (Z.of_nat n, m') ∧
    dv_read off n d = Ret (bs, d) ∧ bytes_at m' buf bs ∧
    ∀ a, (0 ≤ a < rdisk_size d)%Z → rdisk_byte (set_rd_mem m' d) a = rdisk_byte d a) ∧
  (∃ m', rd_write (rd_geo d) off buf n (rd_mem d) = Ret (Z.of_nat n, m') ∧
    dv_write off l d = Ret (tt, set_rd_mem m' d)).
Proof.
  intros Hok Hoff Hn <- Hbuf Hl Hd. unfold rdisk_ok, rdisk_size in *.
  assert (Hmap : mapped (rd_mem d) (rd_start (rd_geo d) + off) (length l)).
  { eapply mapped_sub; [exact Hok|lia|]. simpl in *. lia. }
  split.
  - set (bs := (λ k, rdisk_byte d (off + Z.of_nat k)) <$> seq 0 (length l)).
    assert (Hlen : length bs = length l) by (unfold bs; by rewrite length_fmap, length_seq).
    assert (Hbs : bytes_at (rd_mem d) (rd_start (rd_geo d) + off) bs).
    { intros k b Hb. unfold bs in Hb. rewrite list_lookup_fmap in Hb.
      destruct (seq 0 (length l) !! k) as [j|] eqn:Hj; [|done]. apply lookup_seq in Hj as [-> Hk].
      injection Hb as <-. unfold rdisk_byte. simpl.
      destruct (Hmap (Z.of_nat k)) as [b Hb]; [lia|]. rewrite Hb.
      rewrite Z.add_assoc, Hb. done. }
    assert (Hwp : wp (rd_read (rd_geo d) off buf (length l)) (λ r m', r = Z.of_nat (length l) ∧ m' = put_bytes buf bs (rd_mem d)) (rd_mem d)).
    { unfold rd_read, memcpy. wp_steps. rewrite <-Hlen. eapply wp_copy_up; [exact Hbs|by rewrite Hlen|lia|].
      wp_steps. by rewrite Hlen. }
    apply wp_run in Hwp as (? & ? & Hrun & -> & ->). exists (put_bytes buf bs (rd_mem d)), bs.
    split_and!; [done|apply (@dv_read_ok _ rdisk_device off (length l) d Hok); done|apply put_bytes_at|].
    intros a Ha. unfold rdisk_byte. simpl. rewrite put_bytes_out; [done|lia].
  - exists (put_bytes (rd_start (rd_geo d) + off) l (rd_mem d)). split.
    + assert (Hwp : wp (rd_write (rd_geo d) off buf (length l)) (λ r m', r = Z.of_nat (length l) ∧
        m' = put_bytes (rd_start (rd_geo d) + off) l (rd_mem d)) (rd_mem d)).
      { unfold rd_write, memcpy. wp_steps. eapply wp_copy_up; [exact Hl|done|lia|]. by wp_steps. }
      by apply wp_run in Hwp as (? & ? & -> & -> & ->).
    + simpl. unfold rdisk_write, zoom. by rewrite write_bytes_ok.
Qed.

Definition demo_disk : rdisk :=
  RDisk (Rd 1000 1008) (map_seqZ 1000 [1; 2; 3; 4; 5; 6; 7; 8]%Z ∪ map_seqZ 100 [20; 21; 22]%Z).

Lemma demo_disk_mapped p n :
  bool_decide (Forall (λ k, is_Some (rd_mem demo_disk !! (p + k)%Z)) (seqZ 0 (Z.of_nat n))) = true →
  mapped (rd_mem demo_disk) p n.
Proof.
  intros Hall%bool_decide_eq_true k Hk. rewrite Forall_forall in Hall. apply Hall, elem_of_seqZ. lia.
Qed.

Lemma rd_ops_refine_witness :
  ∃ m', rd_write (Rd 1000 1008) 2 100 3 (rd_mem demo_disk) = Ret (3%Z, m') ∧
    dv_write 2 [20; 21; 22]%Z demo_disk = Ret (tt, set_rd_mem m' demo_disk).
Proof.
  refine (proj2 (rd_ops_refine demo_disk 2 100 3 [20; 21; 22]%Z _ _ _ eq_refl _ _ _)).
  - by apply demo_disk_mapped.
  - done.
  - done.
  - by apply demo_disk_mapped.
  - intros k b Hk. do 3 (destruct k as [|k]; [injection Hk as <-; reflexivity|]). done.
  - left. done.
Defined.
