(* ===== verification/Ext2.v ===== *)
(** * The ext2-like file system (kernel/src/fs/ext2fs.c, include/fs/ext2fs.h)

    The on-disk structures with their byte layout, the buffers of the mounted
    file system, and its operations over any block device. *)
From S2P Require Import Prelude Bytes Common KString Device.

(** ** Layout *)

Definition BLK_SIZE : Z := 512.
Definition DISK_START : Z := 0 * BLK_SIZE.
Definition GDT_START : Z := 1 * BLK_SIZE.
Definition BLK_BITMAP : Z := 2 * BLK_SIZE.
Definition IND_BITMAP : Z := 3 * BLK_SIZE.
Definition INDT_START : Z := 4 * BLK_SIZE.
Definition DATA_BLOCK : Z := (4 + 512) * BLK_SIZE.
Definition EXT2_N_BLOCKS : nat := 12.
Definition INODE_TABLE_COUNT : Z := 4096.
Definition DATA_BLOCK_COUNT : Z := 4096.
Definition SB_SIZE : nat := 32.
Definition GD_SIZE : nat := 32.
Definition IND_SIZE : nat := 64.
Definition DIR_SIZE : nat := 32.
Definition DIR_AMUT : nat := 16.
Definition MAX_OPEN_FILE_AMUT : nat := 16.
Definition DIR_NAME : nat := 16.   (* char name[16] of struct directory *)

(** ** On-disk structures: the values of their members, names as 16 bytes *)

Record super_block := SuperBlock {
  sb_volume_name : list Z; disk_size : Z; blocks_per_group : Z; inodes_per_blocks : Z; sb_pad : list Z }.

Record group_desc := GroupDesc {
  gd_volume_name : list Z;
  block_bitmap : Z; inode_bitmap : Z; inode_table : Z;
  free_blocks_count : Z; free_inodes_count : Z; used_dirs_count : Z;
  gd_pad : list Z }.

Record inode := Inode { imode : Z; blocks : Z; isize : Z; block : list Z; ipad : list Z }.

Record directory := Directory { dinode : Z; dmode : Z; name_len : Z; dname : list Z; dpar : list Z }.

Definition enc_sb (x : super_block) : list Z :=
  sb_volume_name x ++ le 2 (disk_size x) ++ le 2 (blocks_per_group x) ++ le 2 (inodes_per_blocks x) ++ sb_pad x.
Definition dec_sb (l : list Z) : super_block :=
  SuperBlock (field 0 16 l) (unle (field 16 2 l)) (unle (field 18 2 l)) (unle (field 20 2 l)) (field 22 10 l).

Definition enc_gd (x : group_desc) : list Z :=
  gd_volume_name x ++ le 2 (block_bitmap x) ++ le 2 (inode_bitmap x) ++ le 2 (inode_table x) ++
  le 2 (free_blocks_count x) ++ le 2 (free_inodes_count x) ++ le 2 (used_dirs_count x) ++ gd_pad x.
Definition dec_gd (l : list Z) : group_desc :=
  GroupDesc (field 0 16 l) (unle (field 16 2 l)) (unle (field 18 2 l)) (unle (field 20 2 l))
    (unle (field 22 2 l)) (unle (field 24 2 l)) (unle (field 26 2 l)) (field 28 4 l).

Definition enc_inode (x : inode) : list Z :=
  le 4 (imode x) ++ le 4 (blocks x) ++ le 4 (isize x) ++ (block x ≫= le 4) ++ ipad x.
Definition dec_inode (l : list Z) : inode :=
  Inode (unle (field 0 4 l)) (unle (field 4 4 l)) (unle (field 8 4 l))
    ((λ i, unle (field (12 + 4 * i) 4 l)) <$> seq 0 EXT2_N_BLOCKS) (field 60 4 l).

Definition enc_dir (x : directory) : list Z :=
  le 4 (dinode x) ++ le 4 (dmode x) ++ le 4 (name_len x) ++ dname x ++ dpar x.
Definition dec_dir (l : list Z) : directory :=
  Directory (unle (field 0 4 l)) (unle (field 4 4 l)) (unle (field 8 4 l)) (field 12 16 l) (field 28 4 l).

Definition enc_dirs (l : list directory) : list Z := l ≫= enc_dir.
Definition dec_dirs (l : list Z) : list directory :=
  (λ i, dec_dir (field (32 * i) 32 l)) <$> seq 0 DIR_AMUT.

(** ** The mounted file system *)

Record ext2_t (D : Type) := Ext2 {
  sb : super_block;
  gdt : group_desc;
  ind : inode;
  dir : list directory;
  blockbitmapbuf : list Z;
  inodebitmapbuf : list Z;
  datablockbuf : list Z;
  last_alloc_block : Z;
  last_alloc_inode : Z;
  current_dir : Z;
  file_open_table : list Z;
  dev : D
}.
Arguments Ext2 {D}.
Arguments sb {D}. Arguments gdt {D}. Arguments ind {D}. Arguments dir {D}.
Arguments blockbitmapbuf {D}. Arguments inodebitmapbuf {D}. Arguments datablockbuf {D}.
Arguments last_alloc_block {D}. Arguments last_alloc_inode {D}. Arguments current_dir {D}.
Arguments file_open_table {D}. Arguments dev {D}.

Section setters.
Context {D : Type}.
Implicit Types s : ext2_t D.
Definition set_sb v s := Ext2 v (gdt s) (ind s) (dir s) (blockbitmapbuf s) (inodebitmapbuf s) (datablockbuf s) (last_alloc_block s) (last_alloc_inode s) (current_dir s) (file_open_table s) (dev s).
Definition set_gdt v s := Ext2 (sb s) v (ind s) (dir s) (blockbitmapbuf s) (inodebitmapbuf s) (datablockbuf s) (last_alloc_block s) (last_alloc_inode s) (current_dir s) (file_open_table s) (dev s).
Definition set_ind v s := Ext2 (sb s) (gdt s) v (dir s) (blockbitmapbuf s) (inodebitmapbuf s) (datablockbuf s) (last_alloc_block s) (last_alloc_inode s) (current_dir s) (file_open_table s) (dev s).
Definition set_dir v s := Ext2 (sb s) (gdt s) (ind s) v (blockbitmapbuf s) (inodebitmapbuf s) (datablockbuf s) (last_alloc_block s) (last_alloc_inode s) (current_dir s) (file_open_table s) (dev s).
Definition set_blockbitmapbuf v s := Ext2 (sb s) (gdt s) (ind s) (dir s) v (inodebitmapbuf s) (datablockbuf s) (last_alloc_block s) (last_alloc_inode s) (current_dir s) (file_open_table s) (dev s).
Definition set_inodebitmapbuf v s := Ext2 (sb s) (gdt s) (ind s) (dir s) (blockbitmapbuf s) v (datablockbuf s) (last_alloc_block s) (last_alloc_inode s) (current_dir s) (file_open_table s) (dev s).
Definition set_datablockbuf v s := Ext2 (sb s) (gdt s) (ind s) (dir s) (blockbitmapbuf s) (inodebitmapbuf s) v (last_alloc_block s) (last_alloc_inode s) (current_dir s) (file_open_table s) (dev s).
Definition set_last_alloc_block v s := Ext2 (sb s) (gdt s) (ind s) (dir s) (blockbitmapbuf s) (inodebitmapbuf s) (datablockbuf s) v (last_alloc_inode s) (current_dir s) (file_open_table s) (dev s).
Definition set_last_alloc_inode v s := Ext2 (sb s) (gdt s) (ind s) (dir s) (blockbitmapbuf s) (inodebitmapbuf s) (datablockbuf s) (last_alloc_block s) v (current_dir s) (file_open_table s) (dev s).
Definition set_current_dir v s := Ext2 (sb s) (gdt s) (ind s) (dir s) (blockbitmapbuf s) (inodebitmapbuf s) (datablockbuf s) (last_alloc_block s) (last_alloc_inode s) v (file_open_table s) (dev s).
Definition set_dev (v : D) s := Ext2 (sb s) (gdt s) (ind s) (dir s) (blockbitmapbuf s) (inodebitmapbuf s) (datablockbuf s) (last_alloc_block s) (last_alloc_inode s) (current_dir s) (file_open_table s) v.
End setters.

Definition set_imode v x := Inode v (blocks x) (isize x) (block x) (ipad x).
Definition set_blocks v x := Inode (imode x) v (isize x) (block x) (ipad x).
Definition set_isize v x := Inode (imode x) (blocks x) v (block x) (ipad x).
Definition set_block v x := Inode (imode x) (blocks x) (isize x) v (ipad x).
Definition set_free_blocks v x :=
  GroupDesc (gd_volume_name x) (block_bitmap x) (inode_bitmap x) (inode_table x) v (free_inodes_count x) (used_dirs_count x) (gd_pad x).
Definition set_free_inodes v x :=
  GroupDesc (gd_volume_name x) (block_bitmap x) (inode_bitmap x) (inode_table x) (free_blocks_count x) v (used_dirs_count x) (gd_pad x).
Definition set_dinode v x := Directory v (dmode x) (name_len x) (dname x) (dpar x).
Definition set_dmode v x := Directory (dinode x) v (name_len x) (dname x) (dpar x).
Definition set_name_len v x := Directory (dinode x) (dmode x) v (dname x) (dpar x).
Definition set_dname v x := Directory (dinode x) (dmode x) (name_len x) v (dpar x).

(** ** C strings in fixed arrays *)

(** [strcpy] into an array whose old contents are [old]. *)
Definition strcpy_into (old src : list Z) : option (list Z) :=
  if decide (length src < length old) then Some (src ++ 0%Z :: drop (S (length src)) old) else None.

(** [strcmp(array, name) == 0] and [strncmp(array, path, len) == 0]. *)
Definition streq (array name : list Z) : bool :=
  bool_decide (take (S (length name)) array = name ++ [0%Z]).
Definition strneq (len : nat) (array path : list Z) : bool :=
  bool_decide (take len array = take len path).

Fixpoint first_item_len (path : list Z) : nat :=
  match path with
  | [] => 0
  | c :: path' => if decide (c = 47)%Z then 0 else S (first_item_len path')
  end.

Section ext2.
Context {D : Type} `{!BlockDevice D}.
Abbreviation E := (M (ext2_t D)).

(** ** Reading and writing the disk *)

Definition rd_disk (off : Z) (n : nat) : E (list Z) := zoom dev set_dev (dv_read off n).
Definition wr_disk (off : Z) (l : list Z) : E unit := zoom dev set_dev (dv_write off l).

Definition ext2_rd_sb : E unit := l ← rd_disk DISK_START SB_SIZE; modify (set_sb (dec_sb l)).
Definition ext2_wr_sb : E unit := x ← gets sb; wr_disk DISK_START (enc_sb x).
Definition ext2_rd_gd : E unit := l ← rd_disk GDT_START GD_SIZE; modify (set_gdt (dec_gd l)).
Definition ext2_wr_gd : E unit := x ← gets gdt; wr_disk GDT_START (enc_gd x).

Definition ind_offset (i : Z) : Z := u32 (INDT_START + (i - 1) * Z.of_nat IND_SIZE).
Definition ext2_rd_ind (i : Z) : E unit := l ← rd_disk (ind_offset i) IND_SIZE; modify (set_ind (dec_inode l)).
Definition ext2_wr_ind (i : Z) : E unit := x ← gets ind; wr_disk (ind_offset i) (enc_inode x).

Definition blk_offset (i : Z) : Z := u32 (DATA_BLOCK + i * BLK_SIZE).
Definition ext2_rd_dir (i : Z) : E unit :=
  l ← rd_disk (blk_offset i) (Z.to_nat BLK_SIZE); modify (set_dir (dec_dirs l)).
Definition ext2_wr_dir (i : Z) : E unit := x ← gets dir; wr_disk (blk_offset i) (enc_dirs x).
Definition ext2_rd_blockbitmap : E unit :=
  l ← rd_disk BLK_BITMAP (Z.to_nat BLK_SIZE); modify (set_blockbitmapbuf l).
Definition ext2_wr_blockbitmap : E unit := x ← gets blockbitmapbuf; wr_disk BLK_BITMAP x.
Definition ext2_rd_inodebitmap : E unit :=
  l ← rd_disk IND_BITMAP (Z.to_nat BLK_SIZE); modify (set_inodebitmapbuf l).
Definition ext2_wr_inodebitmap : E unit := x ← gets inodebitmapbuf; wr_disk IND_BITMAP x.
Definition ext2_rd_datablock (i : Z) : E unit :=
  l ← rd_disk (blk_offset i) (Z.to_nat BLK_SIZE); modify (set_datablockbuf l).
Definition ext2_wr_datablock (i : Z) : E unit := x ← gets datablockbuf; wr_disk (blk_offset i) x.

(** ** Bitmaps *)

(** [while (buf[cur] == 0xff)], wrapping around at the end of the block. *)
Fixpoint bm_byte (fuel : nat) (buf : list Z) (cur : Z) : res Z :=
  match fuel with
  | O => Err OutOfFuel
  | S n =>
      match aget buf cur with
      | None => Err OutOfBounds
      | Some b =>
          if decide (b = 0xff)%Z
          then bm_byte n buf (if decide (cur = BLK_SIZE - 1)%Z then 0 else cur + 1)%Z
          else Ret cur
      end
  end.

(** A full turn visits every byte of the bitmap. *)
Definition bm_fuel : nat := S (Z.to_nat BLK_SIZE).

(** [while (buf[cur] & con) con = con / 2, flag++]: the bit's weight and index. *)
Fixpoint bm_bit (fuel : nat) (b con flag : Z) : res (Z * Z) :=
  match fuel with
  | O => Err OutOfFuel
  | S n => if decide (Z.land b con ≠ 0)%Z then bm_bit n b (con / 2) (flag + 1) else Ret (con, flag)
  end.

Definition lift {S A} (r : res A) : M S A := λ s, match r with Ret a => Ret (a, s) | Err f => Err f end.

Definition ext2_alloc_block : E Z :=
  s ← get;
  let cur := (last_alloc_block s / 8)%Z in
  if decide (free_blocks_count (gdt s) = 0)%Z then mret (u32 (-1))
  else
    ext2_rd_blockbitmap;;
    s ← get;
    cur ← lift (bm_byte bm_fuel (blockbitmapbuf s) cur);
    b ← deref OutOfBounds (aget (blockbitmapbuf s) cur);
    '(con, flag) ← lift (bm_bit 9 b 0x80 0);
    l ← deref OutOfBounds (aset (blockbitmapbuf s) cur (u8 (b + con)));
    modify (set_blockbitmapbuf l);;
    modify (set_last_alloc_block (cur * 8 + flag)%Z);;
    ext2_wr_blockbitmap;;
    modify (λ s, set_gdt (set_free_blocks (u16 (free_blocks_count (gdt s) - 1)) (gdt s)) s);;
    ext2_wr_gd;;
    gets last_alloc_block.

Definition ext2_alloc_inode : E Z :=
  s ← get;
  let cur := (u32 (last_alloc_inode s - 1) / 8)%Z in
  if decide (free_inodes_count (gdt s) = 0)%Z then mret (u32 (-1))
  else
    ext2_rd_inodebitmap;;
    s ← get;
    cur ← lift (bm_byte bm_fuel (inodebitmapbuf s) cur);
    b ← deref OutOfBounds (aget (inodebitmapbuf s) cur);
    '(con, flag) ← lift (bm_bit 9 b 0x80 0);
    l ← deref OutOfBounds (aset (inodebitmapbuf s) cur (u8 (b + con)));
    modify (set_inodebitmapbuf l);;
    modify (set_last_alloc_inode (cur * 8 + flag + 1)%Z);;
    ext2_wr_inodebitmap;;
    modify (λ s, set_gdt (set_free_inodes (u16 (free_inodes_count (gdt s) - 1)) (gdt s)) s);;
    ext2_wr_gd;;
    gets last_alloc_inode.

(** The masks of the two [switch] statements. *)
Definition clear_mask (i : Z) : Z :=
  default 0xff%Z ([127; 191; 223; 239; 247; 251; 253; 254]%Z !! Z.to_nat i).

Definition ext2_remove_block (del_num : Z) : E unit :=
  let tmp := (del_num / 8)%Z in
  ext2_rd_blockbitmap;;
  s ← get;
  b ← deref OutOfBounds (aget (blockbitmapbuf s) tmp);
  l ← deref OutOfBounds (aset (blockbitmapbuf s) tmp (Z.land b (clear_mask (del_num mod 8))));
  modify (set_blockbitmapbuf l);;
  ext2_wr_blockbitmap;;
  modify (λ s, set_gdt (set_free_blocks (u16 (free_blocks_count (gdt s) + 1)) (gdt s)) s);;
  ext2_wr_gd.

Definition ext2_remove_inode (del_num : Z) : E unit :=
  let n := u32 (del_num - 1) in
  let tmp := (n / 8)%Z in
  ext2_rd_inodebitmap;;
  s ← get;
  b ← deref OutOfBounds (aget (inodebitmapbuf s) tmp);
  l ← deref OutOfBounds (aset (inodebitmapbuf s) tmp (Z.land b (clear_mask (n mod 8))));
  modify (set_inodebitmapbuf l);;
  ext2_wr_inodebitmap;;
  modify (λ s, set_gdt (set_free_inodes (u16 (free_inodes_count (gdt s) + 1)) (gdt s)) s);;
  ext2_wr_gd.

(** ** Directories *)

(** Entry [k] of the directory buffer, and an update of it. *)
Definition dir_get (k : Z) : E directory := s ← get; deref OutOfBounds (aget (dir s) k).
Definition dir_upd (k : Z) (f : directory → directory) : E unit :=
  d ← dir_get k; s ← get;
  l ← deref OutOfBounds (aset (dir s) k (f d));
  modify (set_dir l).
Definition dir_name (k : Z) (nm : list Z) : E unit :=
  d ← dir_get k;
  nm' ← deref OutOfBounds (strcpy_into (dname d) nm);
  dir_upd k (set_dname nm').

Definition ind_upd (f : inode → inode) : E unit := modify (λ s, set_ind (f (ind s)) s).
Definition ind_block (i : Z) : E Z := s ← get; deref OutOfBounds (aget (block (ind s)) i).
Definition put_ind_block (i v : Z) : E unit :=
  s ← get;
  l ← deref OutOfBounds (aset (block (ind s)) i v);
  ind_upd (set_block l).

(** The inner loop of [ext2_readdir]: the count so far, or the entry. *)
Fixpoint readdir_scan (l : list directory) (kth cnt : Z) : Z + directory :=
  match l with
  | [] => inl cnt
  | d :: l' =>
      if decide (dinode d = 0)%Z then readdir_scan l' kth cnt
      else if decide (cnt + 1 = kth)%Z then inr d else readdir_scan l' kth (cnt + 1)
  end.

Fixpoint readdir_blocks (n : nat) (i kth cnt : Z) : E (option dirent) :=
  match n with
  | O => mret None
  | S n' =>
      b ← ind_block i;
      ext2_rd_dir b;;
      s ← get;
      match readdir_scan (dir s) kth cnt with
      | inr d =>
          nm ← deref OutOfBounds (cstring (dname d));
          mret (Some (Dirent (bytes_string nm) (dinode d) (dmode d)))
      | inl cnt' => readdir_blocks n' (i + 1) kth cnt'
      end
  end.

(** [None] for the value 0. *)
Definition ext2_readdir (ridx kth : Z) : E (option dirent) :=
  ext2_rd_ind ridx;;
  s ← get;
  readdir_blocks (Z.to_nat (blocks (ind s))) 0 kth 0.

(** One pass over the directories [j ..] of [ext2_reserch_file]: the block, the
    slot and the entry that stop it. *)
Fixpoint reserch_blocks (n : nat) (j : Z) (path : list Z) (mode : Z) : E (option (Z * nat * directory)) :=
  match n with
  | O => mret None
  | S n' =>
      b ← ind_block j;
      ext2_rd_dir b;;
      s ← get;
      let len := first_item_len path in
      match list_find (λ d, ¬ (dinode d = 0 ∨ Z.lor (dmode d) mode = dmode d)%Z ∧
                            strneq len (dname d) path = true) (dir s) with
      | Some (k, d) => mret (Some (j, k, d))
      | None => reserch_blocks n' (j + 1) path mode
      end
  end.

(** The results of the output parameters; every call of the recursion consumes a
    character of the path. *)
Fixpoint ext2_reserch_file (fuel : nat) (path : list Z) (mode : Z) : E (option (Z * Z * nat)) :=
  match fuel with
  | O => fail OutOfFuel
  | S n =>
      s ← get;
      ext2_rd_ind (current_dir s);;
      s ← get;
      r ← reserch_blocks (Z.to_nat (blocks (ind s))) 0 path mode;
      match r with
      | None => mret None
      | Some (j, k, d) =>
          modify (set_current_dir (dinode d));;
          let len := first_item_len path in
          if decide (len = length path) then mret (Some (dinode d, j, k))
          else ext2_reserch_file n (drop (S len) path) mode
      end
  end.

Definition ext2_cd (dirname : list Z) : E unit :=
  let dirname := if decide (dirname = [46; 46; 47]%Z) then [46; 46]%Z else dirname in
  let dirname := if decide (dirname = [46; 47]%Z) then [46]%Z else dirname in
  r ← ext2_reserch_file (S (length dirname)) dirname TYPE_DIR;
  match r with
  | Some (i, _, _) => modify (set_current_dir i)
  | None => mret tt
  end.

Definition ext2_search_file (idx : Z) : E bool :=
  s ← get; mret (bool_decide (idx ∈ take MAX_OPEN_FILE_AMUT (file_open_table s))).

Definition ext2_ind_prepare (idx par mode : Z) : E unit :=
  ext2_rd_ind idx;;
  (if decide (Z.land mode TYPE_DIR ≠ 0)%Z then
     ind_upd (set_isize (2 * Z.of_nat DIR_SIZE));;
     ind_upd (set_blocks 1);;
     b ← ext2_alloc_block; put_ind_block 0 b;;
     dir_upd 0 (set_dinode idx);;
     dir_upd 1 (set_dinode par);;
     dir_upd 1 (set_dmode TYPE_DIR);; dir_upd 0 (set_dmode TYPE_DIR);;
     for_range 2 (Z.of_nat DIR_AMUT) (λ k, dir_upd k (set_dinode 0));;
     dir_name 0 [46]%Z;;
     dir_name 1 [46; 46]%Z;;
     b ← ind_block 0; ext2_wr_dir b;;
     ind_upd (set_imode mode)
   else if decide (Z.land mode TYPE_FILE ≠ 0)%Z then
     ind_upd (set_isize 0);;
     ind_upd (set_blocks 0);;
     ind_upd (set_imode mode)
   else fail Halt);;
  ext2_wr_ind idx.

(** ** File contents *)

(** One of the two inner loops of [ext2_read], from [j] on, reading the buffer at
    [j + base]: the bytes read so far, and whether the function returned.  Each
    round adds a byte and [len] bytes end it. *)
Fixpoint read_loop (fuel : nat) (size offset len base bound j : Z) (buf out : list Z) : res (bool * list Z) :=
  match fuel with
  | O => Err OutOfFuel
  | S n =>
      if decide (j < bound)%Z then
        if decide (Z.of_nat (length out) = len ∨ Z.of_nat (length out) + offset = size)%Z then Ret (true, out)
        else
          match aget buf (j + base) with
          | Some c => read_loop n size offset len base bound (j + 1) buf (out ++ [c])
          | None => Err OutOfBounds
          end
      else Ret (false, out)
  end.

Fixpoint read_blocks (n : nat) (i skip first_offset offset len : Z) (out : list Z) : E (list Z) :=
  match n with
  | O => mret out
  | S n' =>
      b ← ind_block i;
      ext2_rd_datablock b;;
      s ← get;
      let sz := isize (ind s) in
      '(done_, out') ← lift (read_loop (S (Z.to_nat len)) sz offset len
        (if decide (i = skip)%Z then first_offset else 0) (u32 (sz - i * BLK_SIZE)) 0 (datablockbuf s) out);
      if done_ : bool then mret out' else read_blocks n' (i + 1) skip first_offset offset len out'
  end.

(** The bytes left in [buf]; their number is the value returned. *)
Definition ext2_read (ridx offset len : Z) : E (list Z) :=
  let skip_blocks := (offset / BLK_SIZE)%Z in
  let first_offset := (offset - skip_blocks * BLK_SIZE)%Z in
  ext2_rd_ind ridx;;
  s ← get;
  read_blocks (Z.to_nat (blocks (ind s) - skip_blocks)) skip_blocks skip_blocks first_offset offset len [].

Fixpoint grow (fuel : nat) (need : Z) : E unit :=
  match fuel with
  | O => fail OutOfFuel
  | S n =>
      s ← get;
      if decide (blocks (ind s) < need)%Z then
        let i := blocks (ind s) in
        ind_upd (set_blocks (i + 1));;
        b ← ext2_alloc_block;
        put_ind_block i b;;
        grow n need
      else mret tt
  end.

Fixpoint shrink (fuel : nat) (need : Z) : E unit :=
  match fuel with
  | O => fail OutOfFuel
  | S n =>
      s ← get;
      if decide (need < blocks (ind s))%Z then
        let i := (blocks (ind s) - 1)%Z in
        ind_upd (set_blocks i);;
        b ← ind_block i;
        ext2_remove_block b;;
        shrink n need
      else mret tt
  end.

(** [for (k; ret < len && k < 512; k++, ret++) datablockbuf[k] = buf[ret]]. *)
Fixpoint fill_loop (fuel : nat) (k ret len : Z) (buf data : list Z) : res (Z * list Z) :=
  match fuel with
  | O => Err OutOfFuel
  | S n =>
      if decide (ret < len ∧ k < BLK_SIZE)%Z then
        match aget buf ret with
        | None => Err OutOfBounds
        | Some c =>
            match aset data k c with
            | Some data' => fill_loop n (k + 1) (ret + 1) len buf data'
            | None => Err OutOfBounds
            end
        end
      else Ret (ret, data)
  end.

(** [for (k = 0; k < len - ret; k++, ret++) datablockbuf[k] = buf[ret]]: both
    sides of the test move. *)
Fixpoint fill_last (fuel : nat) (k ret len : Z) (buf data : list Z) : res (Z * list Z) :=
  match fuel with
  | O => Err OutOfFuel
  | S n =>
      if decide (k < u32 (len - ret))%Z then
        match aget buf ret with
        | None => Err OutOfBounds
        | Some c =>
            match aset data k c with
            | Some data' => fill_last n (k + 1) (ret + 1) len buf data'
            | None => Err OutOfBounds
            end
        end
      else Ret (ret, data)
  end.

Definition fill_fuel : nat := S (Z.to_nat BLK_SIZE).

Fixpoint write_blocks (cnt : nat) (n skip need first_offset len : Z) (buf : list Z) (ret : Z) : E Z :=
  match cnt with
  | O => mret ret
  | S cnt' =>
      b ← ind_block n;
      ext2_rd_datablock b;;
      s ← get;
      '(ret', data) ← lift (
        if decide (n = skip)%Z then fill_loop fill_fuel first_offset ret len buf (datablockbuf s)
        else if decide (n = need - 1)%Z then fill_last fill_fuel 0 ret len buf (datablockbuf s)
        else fill_loop fill_fuel 0 ret len buf (datablockbuf s));
      modify (set_datablockbuf data);;
      ext2_wr_datablock b;;
      write_blocks cnt' (n + 1) skip need first_offset len buf ret'
  end.

Definition ext2_write (ridx offset : Z) (buf : list Z) (len : Z) : E Z :=
  let skip_blocks := (offset / BLK_SIZE)%Z in
  let first_offset := (offset - skip_blocks * BLK_SIZE)%Z in
  let need_blocks := ((len + offset + (BLK_SIZE - 1)) / BLK_SIZE)%Z in
  ext2_rd_ind ridx;;
  s ← get;
  if decide (Z.land (imode (ind s)) WR_ABLE = 0)%Z then mret 0%Z
  else
    (if decide (blocks (ind s) ≤ need_blocks)%Z
     then grow (S (Z.to_nat (need_blocks - blocks (ind s)))) need_blocks
     else shrink (S (Z.to_nat (blocks (ind s) - need_blocks))) need_blocks);;
    ret ← write_blocks (Z.to_nat (need_blocks - skip_blocks)) skip_blocks skip_blocks need_blocks
      first_offset len buf 0;
    ind_upd (set_isize (u32 (offset + len)));;
    ext2_wr_ind ridx;;
    mret ret.

(** ** Creating and removing *)

(** The two loops of [ext2_create] before [CreateEnd]: the block index and the
    free slot; with no free slot the block index is past the last block. *)
Fixpoint find_free (n : nat) (i : Z) (j : Z) : E (Z * Z) :=
  match n with
  | O => mret (i, j)
  | S n' =>
      b ← ind_block i;
      ext2_rd_dir b;;
      s ← get;
      match first_index (λ d, bool_decide (dinode d = 0)%Z) (dir s) with
      | Some k => mret (i, Z.of_nat k)
      | None => find_free n' (i + 1) (Z.of_nat DIR_AMUT)
      end
  end.

(** The entry of a new file, whose inode is allocated on the way. *)
Definition new_entry (j : Z) (name : list Z) (mode : Z) : E Z :=
  idx ← ext2_alloc_inode;
  dir_upd j (set_dinode idx);;
  dir_upd j (set_dmode mode);;
  dir_upd j (set_name_len (Z.of_nat (length name)));;
  dir_name j name;;
  mret idx.

Definition ext2_create (ridx : Z) (name : list Z) (mode : Z) : E Z :=
  ext2_rd_ind ridx;;
  s ← get;
  assert (bool_decide (isize (ind s) < 4096)%Z);;
  idx ← (if decide (isize (ind s) ≠ u32 (blocks (ind s) * BLK_SIZE))%Z then
    '(i, j) ← find_free (Z.to_nat (blocks (ind s))) 0 0;
    idx ← new_entry j name mode;
    b ← ind_block i; ext2_wr_dir b;;
    mret idx
  else
    let n := blocks (ind s) in
    ind_upd (set_blocks (n + 1));;
    b ← ext2_alloc_block; put_ind_block n b;;
    b ← ind_block n; ext2_rd_dir b;;
    idx ← new_entry 0 name mode;
    for_range 1 (Z.of_nat DIR_AMUT) (λ k, dir_upd k (set_dinode 0));;
    b ← ind_block n; ext2_wr_dir b;;
    mret idx);
  ind_upd (λ x, set_isize (u32 (isize x + Z.of_nat DIR_SIZE)) x);;
  ext2_wr_ind ridx;;
  ext2_ind_prepare idx ridx mode;;
  mret (i32 idx).

(** The search of [ext2_remove]: block index, slot and the inode [k] found. *)
Fixpoint find_name (n : nat) (i : Z) (name : list Z) : E (option (Z * Z * Z)) :=
  match n with
  | O => mret None
  | S n' =>
      b ← ind_block i;
      ext2_rd_dir b;;
      s ← get;
      match first_index (λ d, streq (dname d) name) (dir s) with
      | Some j =>
          d ← dir_get (Z.of_nat j);
          if decide (i32 (dinode d) = -1)%Z then find_name n' (i + 1) name
          else mret (Some (i, Z.of_nat j, dinode d))
      | None => find_name n' (i + 1) name
      end
  end.

(** [0] for success. *)
Definition ext2_remove (ridx : Z) (name : list Z) (mode : Z) : E Z :=
  ext2_rd_ind ridx;;
  s ← get;
  r ← find_name (Z.to_nat (blocks (ind s))) 0 name;
  match r with
  | None => mret 1%Z
  | Some (i, j, _) =>
      d ← dir_get j;
      ext2_rd_ind (dinode d);;
      if decide (Z.land mode TYPE_DIR ≠ 0)%Z then
        s ← get;
        if decide (isize (ind s) = 2 * Z.of_nat DIR_SIZE)%Z then
          assert (bool_decide (blocks (ind s) = 1)%Z);;
          ind_upd (set_blocks 0);; ind_upd (set_isize 0);;
          b ← ind_block 0; ext2_remove_block b;;
          ext2_wr_ind (dinode d);;
          ext2_remove_inode (dinode d);;
          dir_upd j (set_dinode 0);;
          b ← ind_block i; ext2_wr_dir b;;
          ext2_rd_ind ridx;;
          ind_upd (λ x, set_isize (u32 (isize x - Z.of_nat DIR_SIZE)) x);;
          ext2_wr_ind ridx;;
          mret 0%Z
        else mret 1%Z
      else
        s ← get;
        for_range 0 (blocks (ind s)) (λ m,
          b ← ind_block m; ext2_remove_block b;; put_ind_block m 0);;
        ext2_wr_ind (dinode d);;
        ext2_remove_inode (dinode d);;
        dir_upd j (set_dinode 0);;
        b ← ind_block i; ext2_wr_dir b;;
        ext2_rd_ind ridx;;
        ind_upd (λ x, set_isize (u32 (isize x - Z.of_nat DIR_SIZE)) x);;
        ext2_wr_ind ridx;;
        mret 0%Z
  end.

(** ** Mounting *)

Definition zero_inode : inode := Inode 0 0 0 (replicate EXT2_N_BLOCKS 0%Z) (replicate 4 0%Z).
Definition zero_dir : directory := Directory 0 0 0 (replicate 16 0%Z) (replicate 4 0%Z).

(** [memset(ext2, 0x00, sizeof(ext2_t)); ext2->dev = dev]. *)
Definition ext2_zero (d : D) : ext2_t D :=
  Ext2 (SuperBlock (replicate 16 0%Z) 0 0 0 (replicate 10 0%Z))
    (GroupDesc (replicate 16 0%Z) 0 0 0 0 0 0 (replicate 4 0%Z))
    zero_inode (replicate DIR_AMUT zero_dir)
    (replicate (Z.to_nat BLK_SIZE) 0%Z) (replicate (Z.to_nat BLK_SIZE) 0%Z) (replicate (Z.to_nat BLK_SIZE) 0%Z)
    0 0 0 (replicate MAX_OPEN_FILE_AMUT 0%Z) d.

Definition nl : string := String.String (Ascii.ascii_of_nat 10) "".
Definition dq : string := String.String (Ascii.ascii_of_nat 34) "".
Definition hello_str : string :=
  "#include <iostream> " +:+ nl +:+ "using namespace std;" +:+ nl +:+ "int main(){" +:+ nl +:+ "  cout << " +:+
  dq +:+ "hello, world!" +:+ dq +:+ " << endl;" +:+ nl +:+ "  return 0;" +:+ nl +:+ "}" +:+ nl.
Definition label_str : string := "This is a label!" +:+ nl.
Definition FILE_RW : Z := Z.lor TYPE_FILE (Z.lor RD_ABLE WR_ABLE).

Definition ext2_init (name : string) (d : D) : E Z :=
  modify (λ _, set_last_alloc_inode 1 (ext2_zero d));;
  ext2_rd_ind 1;;
  ext2_rd_dir 0;;
  ext2_rd_gd;;
  modify (λ s, set_gdt (GroupDesc (gd_volume_name (gdt s)) BLK_BITMAP IND_BITMAP INDT_START
    DATA_BLOCK_COUNT INODE_TABLE_COUNT 0 (gd_pad (gdt s))) s);;
  ext2_wr_gd;;
  ext2_rd_blockbitmap;;
  ext2_rd_inodebitmap;;
  ind_upd (set_imode (Z.lor TYPE_DIR (Z.lor RD_ABLE WR_ABLE)));;
  ind_upd (set_blocks 0);;
  ind_upd (set_isize (2 * Z.of_nat DIR_SIZE));;
  b ← ext2_alloc_block; put_ind_block 0 b;;
  ind_upd (λ x, set_blocks (blocks x + 1) x);;
  root ← ext2_alloc_inode;
  modify (set_current_dir root);;
  ext2_wr_ind root;;
  dir_upd 1 (set_dinode root);; dir_upd 0 (set_dinode root);;
  dir_upd 1 (set_name_len 0);; dir_upd 0 (set_name_len 0);;
  dir_name 0 [46]%Z;;
  dir_name 1 [46; 46]%Z;;
  b ← ind_block 0; ext2_wr_dir b;;
  cur ← gets current_dir;
  hello_cpp ← ext2_create cur (string_bytes "hello.cpp") FILE_RW;
  ext2_write hello_cpp 0 (string_bytes hello_str) (Z.of_nat (String.length hello_str));;
  cur ← gets current_dir;
  label ← ext2_create cur (string_bytes (name +:+ ".txt")) FILE_RW;
  ext2_write label 0 (string_bytes label_str) (Z.of_nat (String.length label_str));;
  mret 1%Z.
End ext2.
