(* ===== verification/Ext2Props.v ===== *)
(** * The ext2-like file system: properties

    The byte layout round-trips, the bitmaps allocate and release exactly one
    bit on the disk, a file of one block reads back what was written, and two
    flaws: the last block of a longer write and the removal of a directory. *)
From S2P Require Import Prelude Bytes Common KString Device Ext2.

(** ** Well-formed structures *)

(** Structures whose members fit their widths. *)
Record inode_wf (x : inode) : Prop := {
  wf_imode : (0 ≤ imode x < 256 ^ Z.of_nat 4)%Z;
  wf_blocks : (0 ≤ blocks x < 256 ^ Z.of_nat 4)%Z;
  wf_isize : (0 ≤ isize x < 256 ^ Z.of_nat 4)%Z;
  wf_block : length (block x) = EXT2_N_BLOCKS ∧ Forall (λ b, 0 ≤ b < 256 ^ Z.of_nat 4)%Z (block x);
  wf_ipad : length (ipad x) = 4
}.

Record dir_wf (x : directory) : Prop := {
  wf_dinode : (0 ≤ dinode x < 256 ^ Z.of_nat 4)%Z;
  wf_dmode : (0 ≤ dmode x < 256 ^ Z.of_nat 4)%Z;
  wf_name_len : (0 ≤ name_len x < 256 ^ Z.of_nat 4)%Z;
  wf_dname : length (dname x) = DIR_NAME;
  wf_dpar : length (dpar x) = 4
}.

Lemma concat_length {A} (f : A → list Z) n l :
  (∀ x, x ∈ l → length (f x) = n) → length (l ≫= f) = n * length l.
Proof.
  induction l as [|x l IH]; intros Hf; [simpl; lia|]. rewrite bind_cons, length_app, Hf by left.
  rewrite IH; [simpl; lia|]. intros y Hy. apply Hf. by right.
Qed.

Lemma field_concat {A} (f : A → list Z) n l i x rest :
  (∀ y, y ∈ l → length (f y) = n) → l !! i = Some x → field (n * i) n ((l ≫= f) ++ rest) = f x.
Proof.
  intros Hf Hi. apply list_elem_of_split_length in Hi as (l1 & l2 & -> & ->).
  rewrite bind_app, <-(assoc_L (++)). rewrite field_skip.
  - rewrite (concat_length f n l1) by (intros; apply Hf; set_solver). rewrite Nat.sub_diag. simpl.
    rewrite <-(assoc_L (++)). apply field_here. apply Hf. set_solver.
  - rewrite (concat_length f n l1); [lia|]. intros; apply Hf; set_solver.
Qed.

Lemma dec_enc_inode x : inode_wf x → dec_inode (enc_inode x) = x ∧ length (enc_inode x) = IND_SIZE.
Proof.
  intros [H1 H2 H3 [H4 H4'] H5]. unfold dec_inode, enc_inode. split.
  - destruct x as [m b s blk pad]. cbn [imode blocks isize block ipad] in *. f_equal.
    + rewrite field_here by apply le_length. by apply unle_le.
    + rewrite field_skip, le_length by (by rewrite le_length). rewrite field_here by apply le_length. by apply unle_le.
    + do 2 (rewrite field_skip, le_length by (rewrite le_length; lia)).
      rewrite field_here by apply le_length. by apply unle_le.
    + apply list_eq. intros i. rewrite list_lookup_fmap.
      destruct (decide (i < EXT2_N_BLOCKS)) as [Hi|Hi].
      * destruct (lookup_lt_is_Some_2 blk i) as [v Hv]; [lia|]. rewrite Hv, lookup_seq_lt by done. cbn [fmap option_fmap option_map]. f_equal.
        do 3 (rewrite field_skip, le_length by (rewrite le_length; lia)).
        replace (12 + 4 * (0 + i) - 4 - 4 - 4) with (4 * i) by lia.
        rewrite (field_concat (le 4) 4 blk i v) by (done || (intros; apply le_length)).
        apply unle_le. rewrite Forall_forall in H4'. apply H4'. by eapply list_elem_of_lookup_2.
      * rewrite (lookup_ge_None_2 (seq _ _)), lookup_ge_None_2 by (rewrite ?length_seq; lia). done.
    + do 3 (rewrite field_skip, le_length by (rewrite le_length; lia)).
      rewrite field_skip; rewrite (concat_length (le 4) 4) by (intros; apply le_length); rewrite H4; [|unfold EXT2_N_BLOCKS; lia].
      by apply field_all.
  - rewrite !length_app, !le_length, (concat_length (le 4) 4), H4, H5 by (intros; apply le_length). done.
Qed.

Lemma dec_enc_dir x : dir_wf x → dec_dir (enc_dir x) = x ∧ length (enc_dir x) = DIR_SIZE.
Proof.
  intros [H1 H2 H3 H4 H5]. unfold dec_dir, enc_dir. split.
  - destruct x as [i m n nm pad]. cbn [dinode dmode name_len dname dpar] in *. f_equal.
    + rewrite field_here by apply le_length. by apply unle_le.
    + rewrite field_skip, le_length by (by rewrite le_length). rewrite field_here by apply le_length. by apply unle_le.
    + do 2 (rewrite field_skip, le_length by (rewrite le_length; lia)).
      rewrite field_here by apply le_length. by apply unle_le.
    + do 3 (rewrite field_skip, le_length by (rewrite le_length; lia)). by apply field_here.
    + do 3 (rewrite field_skip, le_length by (rewrite le_length; lia)).
      rewrite field_skip; rewrite H4; [|unfold DIR_NAME; lia]. by apply field_all.
  - rewrite !length_app, !le_length, H4, H5. done.
Qed.

Lemma dec_enc_dirs l :
  length l = DIR_AMUT → Forall dir_wf l → dec_dirs (enc_dirs l) = l ∧ length (enc_dirs l) = Z.to_nat BLK_SIZE.
Proof.
  intros Hlen Hwf. rewrite Forall_forall in Hwf. unfold enc_dirs. split.
  - apply list_eq. intros i. unfold dec_dirs. rewrite list_lookup_fmap.
    destruct (decide (i < DIR_AMUT)) as [Hi|Hi].
    + destruct (lookup_lt_is_Some_2 l i) as [d Hd]; [lia|]. rewrite Hd, lookup_seq_lt by done. simpl fmap. f_equal.
      rewrite <-(app_nil_r (l ≫= enc_dir)). change (0 + i) with i. rewrite (field_concat enc_dir 32 l i d).
      * apply dec_enc_dir, Hwf. by eapply list_elem_of_lookup_2.
      * intros y Hy. by apply dec_enc_dir, Hwf.
      * done.
    + rewrite (lookup_ge_None_2 (seq _ _)), lookup_ge_None_2 by (rewrite ?length_seq; lia). done.
  - rewrite (concat_length enc_dir 32), Hlen; [done|]. intros y Hy. by apply dec_enc_dir, Hwf.
Qed.

(** ** The bitmap loops *)

(** A full turn of the search from [cur] reaches any byte that is not full. *)
Lemma bm_byte_ok fuel buf cur t bt :
  length buf = Z.to_nat BLK_SIZE → (0 ≤ cur < BLK_SIZE)%Z → aget buf t = Some bt → bt ≠ 0xff%Z →
  ((t - cur) mod BLK_SIZE < Z.of_nat fuel)%Z →
  ∃ c b, bm_byte fuel buf cur = Ret c ∧ aget buf c = Some b ∧ b ≠ 0xff%Z.
Proof.
  intros Hlen. revert cur. induction fuel as [|fuel IH]; intros cur Hcur Ht Hbt Hd.
  { pose proof (Z.mod_pos_bound (t - cur) BLK_SIZE ltac:(done)). lia. }
  simpl. destruct (aget_is_Some buf cur) as [b Hb]; [rewrite Hlen; unfold BLK_SIZE in *; lia|]. rewrite Hb.
  case_decide as Hff; [|by exists cur, b].
  assert (Hne : t ≠ cur) by (intros ->; congruence).
  pose proof (aget_lt _ _ _ Ht) as Htr. rewrite Hlen in Htr. unfold BLK_SIZE in *.
  apply IH; [case_decide; lia|done|done|].
  destruct (decide (cur < t)%Z).
  - rewrite Z.mod_small in Hd by lia. case_decide; [lia|]. rewrite Z.mod_small; lia.
  - replace (t - cur)%Z with (t - cur + 512 + (-1) * 512)%Z in Hd by lia.
    rewrite Z_mod_plus_full, Z.mod_small in Hd by lia. case_decide.
    + rewrite Z.mod_small; lia.
    + replace (t - (cur + 1))%Z with (t - (cur + 1) + 512 + (-1) * 512)%Z by lia.
      rewrite Z_mod_plus_full, Z.mod_small by lia. lia.
Qed.

(** A byte that is not full has a clear bit; the search finds the first from the
    high end, and adding its weight sets that bit only. *)
Definition bm_bit_check (b : Z) : bool :=
  match bm_bit 9 b 0x80 0 with
  | Ret (con, flag) =>
      (0 <=? flag)%Z && (flag <=? 7)%Z && negb (Z.testbit b (7 - flag)) &&
      (u8 (b + con) =? b + con)%Z &&
      forallb (λ k, Bool.eqb (Z.testbit (b + con) (7 - k)) (Z.testbit b (7 - k) || (k =? flag)%Z)) (seqZ 0 8)
  | Err _ => false
  end.

Lemma bm_bit_all : forallb bm_bit_check (seqZ 0 255) = true.
Proof. by vm_compute. Qed.

Lemma bm_bit_ok b :
  (0 ≤ b < 255)%Z → ∃ con flag, bm_bit 9 b 0x80 0 = Ret (con, flag) ∧ (0 ≤ flag < 8)%Z ∧
    Z.testbit b (7 - flag) = false ∧
    ∀ k, (0 ≤ k < 8)%Z → Z.testbit (u8 (b + con)) (7 - k) = Z.testbit b (7 - k) || (k =? flag)%Z.
Proof.
  intros Hb. pose proof bm_bit_all as Hall. rewrite forallb_forall in Hall.
  specialize (Hall b). rewrite <-list_elem_of_In, elem_of_seqZ in Hall. specialize (Hall ltac:(lia)).
  unfold bm_bit_check in Hall. destruct (bm_bit 9 b 0x80 0) as [[con flag]|]; [|done].
  rewrite !andb_true_iff, negb_true_iff, forallb_forall in Hall. destruct Hall as [[[[H1 H2] H3] H4] H5].
  exists con, flag. split_and!; [done|lia|lia|done|]. intros k Hk. apply Z.eqb_eq in H4. rewrite H4.
  apply Bool.eqb_prop, H5. rewrite <-list_elem_of_In, elem_of_seqZ. lia.
Qed.

Definition clear_mask_check : bool :=
  forallb (λ i, forallb (λ k, Bool.eqb (Z.testbit (clear_mask i) (7 - k)) (negb (k =? i)%Z)) (seqZ 0 8)) (seqZ 0 8).

Lemma clear_mask_ok i k :
  (0 ≤ i < 8)%Z → (0 ≤ k < 8)%Z → Z.testbit (clear_mask i) (7 - k) = negb (k =? i)%Z.
Proof.
  intros Hi Hk. assert (Hall : clear_mask_check = true) by (by vm_compute).
  unfold clear_mask_check in Hall. rewrite forallb_forall in Hall.
  specialize (Hall i). rewrite <-list_elem_of_In, elem_of_seqZ, forallb_forall in Hall.
  apply Bool.eqb_prop, Hall; [lia|]. rewrite <-list_elem_of_In, elem_of_seqZ. lia.
Qed.

(** The bit of index [n]: byte [n / 8], from the high end. *)
Definition buf_bit (buf : list Z) (n : Z) : bool :=
  Z.testbit (default 0%Z (aget buf (n / 8))) (7 - n mod 8).

Lemma buf_bit_upd buf buf' c b b' flag (g : bool → bool → bool) :
  aget buf c = Some b → aset buf c b' = Some buf' → (0 ≤ flag < 8)%Z → (∀ x, g x false = x) →
  (∀ k, (0 ≤ k < 8)%Z → Z.testbit b' (7 - k) = g (Z.testbit b (7 - k)) (k =? flag)%Z) →
  ∀ m, buf_bit buf' m = g (buf_bit buf m) (m =? c * 8 + flag)%Z.
Proof.
  intros Hb Hset Hflag Hg Hbits m. unfold buf_bit. pose proof (Z.div_mod m 8 ltac:(lia)) as Hm.
  pose proof (Z.mod_pos_bound m 8 ltac:(lia)) as Hmod. destruct (decide (c = m / 8)%Z) as [->|Hne].
  - rewrite (aget_aset_eq _ _ _ _ Hset), Hb. simpl. rewrite Hbits by done. f_equal.
    destruct (Z.eqb_spec (m mod 8) flag), (Z.eqb_spec m (m / 8 * 8 + flag)); lia.
  - rewrite (aget_aset_ne _ _ _ _ _ Hset) by done.
    rewrite (proj2 (Z.eqb_neq m (c * 8 + flag))); [by rewrite Hg|]. intros Heq.
    apply Hne. apply (Z.div_unique_pos m 8 c flag); lia.
Qed.

(** ** The copy loops of [ext2_read] and [ext2_write] *)

Lemma fill_loop_ok fuel k ret len buf data :
  (0 ≤ ret ≤ len)%Z → (0 ≤ k)%Z → (k + (len - ret) ≤ BLK_SIZE)%Z → (len ≤ Z.of_nat (length buf))%Z →
  Z.of_nat (length data) = BLK_SIZE → (len - ret < Z.of_nat fuel)%Z →
  ∃ data', fill_loop fuel k ret len buf data = Ret (len, data') ∧ length data' = length data ∧
    ∀ j, aget data' j = if decide (k ≤ j < k + (len - ret))%Z then aget buf (ret + (j - k)) else aget data j.
Proof.
  revert k ret data. induction fuel as [|fuel IH]; intros k ret data Hret Hk Hroom Hbuf Hdata Hfuel; [lia|].
  simpl. destruct (decide (ret < len)%Z) as [Hlt|Hge].
  - rewrite decide_True by lia. destruct (aget_is_Some buf ret) as [c Hc]; [lia|]. rewrite Hc.
    pose proof (aset_Some data k c ltac:(lia)) as Hset. rewrite Hset. set (data1 := <[_ := c]> data) in *.
    destruct (IH (k + 1)%Z (ret + 1)%Z data1) as (data' & Hrun & Hlen & Hget); [lia|lia|lia|done| |lia|].
    { unfold data1. by rewrite length_insert. }
    exists data'. split; [done|]. split; [rewrite Hlen; unfold data1; apply length_insert|].
    intros j. rewrite Hget. destruct (decide (j = k)) as [->|Hne].
    + rewrite decide_False, decide_True by lia. rewrite (aget_aset_eq _ _ _ _ Hset).
      by replace (ret + (k - k))%Z with ret by lia.
    + rewrite (aget_aset_ne _ _ _ _ _ Hset) by done. repeat case_decide; try lia; [|done]. f_equal. lia.
  - rewrite decide_False by lia. exists data. assert (ret = len) as -> by lia. split_and!; [done..|].
    intros j. by rewrite decide_False by lia.
Qed.

Lemma read_loop_ok fuel size len j buf out :
  (0 ≤ j ≤ size)%Z → (size ≤ len)%Z → (size ≤ Z.of_nat (length buf))%Z → (size - j < Z.of_nat fuel)%Z →
  out = take (Z.to_nat j) buf →
  read_loop fuel size 0 len 0 size j buf out = Ret (false, take (Z.to_nat size) buf).
Proof.
  revert j out. induction fuel as [|fuel IH]; intros j out Hj Hlen Hbuf Hfuel ->; [lia|]. simpl.
  case_decide as Hlt.
  - rewrite length_take. rewrite decide_False by lia. rewrite Z.add_0_r.
    destruct (aget_is_Some buf j) as [c Hc]; [lia|]. rewrite Hc. apply IH; [lia..|].
    apply aget_Some in Hc as [_ Hc]. replace (Z.to_nat (j + 1)) with (S (Z.to_nat j)) by lia.
    by rewrite (take_S_r _ _ c).
  - by assert (j = size) as -> by lia.
Qed.

(** A write that spans several blocks loses data: the loop over the last block
    moves both sides of its test, so of the [r] bytes left it copies the first
    half (rounded up) and leaves the rest of the block as it was; the count
    returned is short by the rest. *)
Theorem last_block_half ret len buf data :
  (0 ≤ ret ≤ len)%Z → (len < 2 ^ 31)%Z → (len - ret ≤ BLK_SIZE)%Z → (len ≤ Z.of_nat (length buf))%Z →
  Z.of_nat (length data) = BLK_SIZE →
  ∃ data', fill_last fill_fuel 0 ret len buf data = Ret ((ret + (len - ret + 1) / 2)%Z, data') ∧
    ∀ j, aget data' j = if decide (0 ≤ j < (len - ret + 1) / 2)%Z then aget buf (ret + j) else aget data j.
Proof.
  intros Hret Hmax Hroom Hbuf Hdata. set (half := ((len - ret + 1) / 2)%Z).
  assert (Hhalf : (2 * half - 1 ≤ len - ret ≤ 2 * half)%Z).
  { unfold half. pose proof (Z.div_mod (len - ret + 1) 2 ltac:(lia)).
    pose proof (Z.mod_pos_bound (len - ret + 1) 2 ltac:(lia)). lia. }
  cut (∀ fuel k data, (0 ≤ k ≤ half)%Z → Z.of_nat (length data) = BLK_SIZE → (half - k < Z.of_nat fuel)%Z →
    ∃ data', fill_last fuel k (ret + k) len buf data = Ret ((ret + half)%Z, data') ∧
      ∀ j, aget data' j = if decide (k ≤ j < half)%Z then aget buf (ret + j) else aget data j).
  { intros Hloop. destruct (Hloop fill_fuel 0%Z data) as (data' & Hrun & Hget); [lia|done| |].
    - change (Z.of_nat fill_fuel) with 513%Z. unfold BLK_SIZE in *. lia.
    - rewrite Z.add_0_r in Hrun. by exists data'. }
  clear data Hdata. intros fuel. induction fuel as [|fuel IH]; intros k data Hk Hdata Hfuel; [lia|]. simpl.
  rewrite u32_small by lia. destruct (decide (k < half)%Z) as [Hlt|Hge].
  - rewrite decide_True by lia. destruct (aget_is_Some buf (ret + k)) as [c Hc]; [lia|]. rewrite Hc.
    pose proof (aset_Some data k c ltac:(lia)) as Hset. rewrite Hset. set (data1 := <[_ := c]> data) in *.
    destruct (IH (k + 1)%Z data1) as (data' & Hrun & Hget); [lia|unfold data1; by rewrite length_insert|lia|].
    exists data'. rewrite <-Z.add_assoc. split; [done|]. intros j. rewrite Hget. destruct (decide (j = k)) as [->|Hne].
    + rewrite decide_False, decide_True by lia. by rewrite (aget_aset_eq _ _ _ _ Hset).
    + rewrite (aget_aset_ne _ _ _ _ _ Hset) by done. by repeat case_decide; try lia.
  - rewrite decide_False by lia. exists data. assert (k = half) as -> by lia. split; [done|].
    intros j. by rewrite decide_False by lia.
Qed.

Section ext2.
Context {D : Type} `{!BlockDevice D}.
Implicit Types s : ext2_t D.

(** ** The disk under the structures *)

(** The device is usable and holds the whole file system. *)
Definition fs_ok (d : D) : Prop := dv_ok d ∧ (DATA_BLOCK + DATA_BLOCK_COUNT * BLK_SIZE ≤ dv_size d)%Z.

(** The [n] bytes of the device from [off] on. *)
Definition disk_bytes (d : D) (off : Z) (n : nat) : list Z :=
  (λ k, dv_byte d (off + Z.of_nat k)) <$> seq 0 n.

(** [d'] is [d] with the bytes [l] at [off]. *)
Record written (off : Z) (l : list Z) (d d' : D) : Prop := {
  wt_ok : fs_ok d';
  wt_bytes : ∀ a, dv_byte d' a =
    if decide (off ≤ a < off + Z.of_nat (length l))%Z then default 0%Z (l !! Z.to_nat (a - off)) else dv_byte d a
}.

Lemma set_dev_id s : set_dev (dev s) s = s.
Proof. by destruct s. Qed.

Lemma wp_rd_disk off n (Q : list Z → ext2_t D → Prop) s :
  fs_ok (dev s) → (0 ≤ off)%Z → (off + Z.of_nat n ≤ DATA_BLOCK + DATA_BLOCK_COUNT * BLK_SIZE)%Z →
  Q (disk_bytes (dev s) off n) s → wp (rd_disk off n) Q s.
Proof.
  intros [Hok Hsz] Hoff Hn HQ. unfold wp, rd_disk, zoom. rewrite dv_read_ok by (done || lia).
  by rewrite set_dev_id.
Qed.

Lemma wp_wr_disk off l (Q : unit → ext2_t D → Prop) s :
  fs_ok (dev s) → (0 ≤ off)%Z → (off + Z.of_nat (length l) ≤ DATA_BLOCK + DATA_BLOCK_COUNT * BLK_SIZE)%Z →
  (∀ d', written off l (dev s) d' → Q tt (set_dev d' s)) → wp (wr_disk off l) Q s.
Proof.
  intros [Hok Hsz] Hoff Hn HQ. unfold wp, wr_disk, zoom.
  destruct (dv_write_ok off l (dev s) Hok Hoff ltac:(lia)) as (d' & -> & Hok' & Hsz' & Hb).
  apply HQ. split; [split; [done|lia]|done].
Qed.

Lemma disk_bytes_length d off n : length (disk_bytes d off n) = n.
Proof. unfold disk_bytes. by rewrite length_fmap, length_seq. Qed.

Lemma disk_bytes_lookup d off n k : k < n → disk_bytes d off n !! k = Some (dv_byte d (off + Z.of_nat k)).
Proof. intros Hk. unfold disk_bytes. by rewrite list_lookup_fmap, lookup_seq_lt by done. Qed.

(** Reading back what was written. *)
Lemma written_same off l d d' : written off l d d' → disk_bytes d' off (length l) = l.
Proof.
  intros Hw. apply list_eq. intros k. destruct (decide (k < length l)) as [Hk|Hk].
  - rewrite disk_bytes_lookup, (wt_bytes _ _ _ _ Hw), decide_True by (done || lia).
    replace (Z.to_nat (off + Z.of_nat k - off)) with k by lia.
    by destruct (lookup_lt_is_Some_2 l k Hk) as [b ->].
  - rewrite !lookup_ge_None_2 by (rewrite ?disk_bytes_length; lia). done.
Qed.

Lemma written_other off l d d' off' n :
  written off l d d' → (off' + Z.of_nat n ≤ off ∨ off + Z.of_nat (length l) ≤ off')%Z →
  disk_bytes d' off' n = disk_bytes d off' n.
Proof.
  intros Hw Hd. apply list_eq. intros k. destruct (decide (k < n)) as [Hk|Hk].
  - rewrite !disk_bytes_lookup by done. rewrite (wt_bytes _ _ _ _ Hw), decide_False; [done|lia].
  - rewrite !lookup_ge_None_2 by (rewrite ?disk_bytes_length; lia). done.
Qed.

(** The inode stored in slot [i] of the inode table. *)
Definition disk_inode (d : D) (i : Z) : inode := dec_inode (disk_bytes d (ind_offset i) IND_SIZE).
Definition disk_block (d : D) (b : Z) : list Z := disk_bytes d (blk_offset b) (Z.to_nat BLK_SIZE).

Lemma ind_offset_eq i : (1 ≤ i ≤ INODE_TABLE_COUNT)%Z → ind_offset i = (2048 + (i - 1) * 64)%Z.
Proof. intros Hi. unfold ind_offset. rewrite u32_small; unfold INODE_TABLE_COUNT, INDT_START, BLK_SIZE, IND_SIZE in *; lia. Qed.

Lemma blk_offset_eq b : (0 ≤ b < DATA_BLOCK_COUNT)%Z → blk_offset b = (264192 + b * 512)%Z.
Proof. intros Hb. unfold blk_offset. rewrite u32_small; unfold DATA_BLOCK_COUNT, DATA_BLOCK, BLK_SIZE in *; lia. Qed.

Lemma DISK_END_eq : (DATA_BLOCK + DATA_BLOCK_COUNT * BLK_SIZE = 2361344)%Z.
Proof. done. Qed.

Ltac layout := rewrite ?ind_offset_eq, ?blk_offset_eq, ?DISK_END_eq by done;
  change (Z.of_nat IND_SIZE) with 64%Z; change (Z.of_nat (Z.to_nat BLK_SIZE)) with 512%Z;
  unfold INODE_TABLE_COUNT, DATA_BLOCK_COUNT in *; lia.

Lemma wp_rd_ind i (Q : unit → ext2_t D → Prop) s :
  fs_ok (dev s) → (1 ≤ i ≤ INODE_TABLE_COUNT)%Z → Q tt (set_ind (disk_inode (dev s) i) s) → wp (ext2_rd_ind i) Q s.
Proof.
  intros Hok Hi HQ. unfold ext2_rd_ind. wp_steps. apply wp_rd_disk; [done|layout|layout|]. by wp_steps.
Qed.

Lemma wp_wr_ind i (Q : unit → ext2_t D → Prop) s :
  fs_ok (dev s) → (1 ≤ i ≤ INODE_TABLE_COUNT)%Z → inode_wf (ind s) →
  (∀ d', written (ind_offset i) (enc_inode (ind s)) (dev s) d' → disk_inode d' i = ind s → Q tt (set_dev d' s)) →
  wp (ext2_wr_ind i) Q s.
Proof.
  intros Hok Hi Hwf HQ. pose proof (dec_enc_inode _ Hwf) as [Hdec Hlen].
  unfold ext2_wr_ind. wp_steps. apply wp_wr_disk; [done|layout|rewrite Hlen; layout|].
  intros d' Hw. apply HQ; [done|]. unfold disk_inode. pose proof (written_same _ _ _ _ Hw) as Hs.
  rewrite Hlen in Hs. by rewrite Hs.
Qed.

(** The inode table: writing an inode and reading it back gives the same
    inode, and no other inode, no data block and no bitmap changes. *)
Theorem inode_table_roundtrip s i :
  fs_ok (dev s) → (1 ≤ i ≤ INODE_TABLE_COUNT)%Z → inode_wf (ind s) →
  ∃ s', ext2_wr_ind i s = Ret (tt, s') ∧
    (∀ y, ext2_rd_ind i (set_ind y s') = Ret (tt, set_ind (ind s) s')) ∧
    (∀ j, (1 ≤ j ≤ INODE_TABLE_COUNT)%Z → j ≠ i → disk_inode (dev s') j = disk_inode (dev s) j) ∧
    (∀ b, (0 ≤ b < DATA_BLOCK_COUNT)%Z → disk_block (dev s') b = disk_block (dev s) b) ∧
    (∀ a, (a < INDT_START)%Z → dv_byte (dev s') a = dv_byte (dev s) a).
Proof.
  intros Hok Hi Hwf. pose proof (dec_enc_inode _ Hwf) as [_ Hlen].
  assert (Hwp : wp (ext2_wr_ind i) (λ _ s', ∃ d', s' = set_dev d' s ∧
    written (ind_offset i) (enc_inode (ind s)) (dev s) d' ∧ disk_inode d' i = ind s) s).
  { apply wp_wr_ind; [done..|]. intros d' Hw Hd. by exists d'. }
  apply wp_run in Hwp as ([] & s' & Hrun & d' & -> & Hw & Hd). exists (set_dev d' s). simpl.
  split_and!; [done| | | |].
  - intros y. assert (Hwp : wp (ext2_rd_ind i) (λ _ s', s' = set_ind (ind s) (set_dev d' s)) (set_ind y (set_dev d' s))).
    { apply wp_rd_ind; [apply (wt_ok _ _ _ _ Hw)|done|]. simpl. by rewrite Hd. }
    by apply wp_run in Hwp as ([] & ? & ? & ->).
  - intros j Hj Hne. unfold disk_inode. f_equal. eapply written_other; [exact Hw|]. rewrite Hlen. layout.
  - intros b Hb. eapply written_other; [exact Hw|]. rewrite Hlen. layout.
  - intros a Ha. rewrite (wt_bytes _ _ _ _ Hw), decide_False; [done|].
    rewrite ind_offset_eq by done. unfold INDT_START, BLK_SIZE in Ha. lia.
Qed.

(** ** Allocation on the disk *)

Definition gd_wf (x : group_desc) : Prop := length (gd_volume_name x) = 16 ∧ length (gd_pad x) = 4.

Lemma enc_gd_length x : gd_wf x → length (enc_gd x) = GD_SIZE.
Proof. intros [H1 H2]. unfold enc_gd. rewrite !length_app, !le_length, H1, H2. done. Qed.

(** The bitmap of the disk at [base]. *)
Definition disk_bitmap (base : Z) (d : D) : list Z := disk_bytes d base (Z.to_nat BLK_SIZE).
Definition block_bit (d : D) (n : Z) : bool := buf_bit (disk_bitmap BLK_BITMAP d) n.
Definition bytes_ok (l : list Z) : Prop := Forall (λ b, 0 ≤ b < 256)%Z l.

Lemma wp_rd_blockbitmap (Q : unit → ext2_t D → Prop) s :
  fs_ok (dev s) → Q tt (set_blockbitmapbuf (disk_bitmap BLK_BITMAP (dev s)) s) → wp ext2_rd_blockbitmap Q s.
Proof.
  intros Hok HQ. unfold ext2_rd_blockbitmap. wp_steps. apply wp_rd_disk; [done|done|done|]. by wp_steps.
Qed.

(** Writing a bitmap of a full block and then the group descriptor. *)
Lemma wp_wr_bitmap_gd {A} (k : M (ext2_t D) A) (Q : A → ext2_t D → Prop) s g :
  fs_ok (dev s) → length (blockbitmapbuf s) = Z.to_nat BLK_SIZE → gd_wf (g (gdt s)) →
  (∀ d', fs_ok d' → disk_bitmap BLK_BITMAP d' = blockbitmapbuf s →
     (∀ a, (IND_BITMAP ≤ a)%Z → dv_byte d' a = dv_byte (dev s) a) → wp k Q (set_dev d' (set_gdt (g (gdt s)) s))) →
  wp ext2_wr_blockbitmap (λ _, wp (modify (λ s, set_gdt (g (gdt s)) s);; ext2_wr_gd;; k) Q) s.
Proof.
  intros Hok Hlen Hgd HQ. pose proof (enc_gd_length _ Hgd) as Hgl. unfold ext2_wr_blockbitmap, ext2_wr_gd. wp_steps.
  apply wp_wr_disk; [done|done|by rewrite Hlen|]. intros d1 Hw1. wp_steps.
  apply wp_wr_disk; [apply (wt_ok _ _ _ _ Hw1)|done|simpl; by rewrite Hgl|]. simpl. intros d2 Hw2. wp_steps. apply HQ.
  - apply (wt_ok _ _ _ _ Hw2).
  - unfold disk_bitmap. rewrite (written_other _ _ _ _ _ _ Hw2) by (right; by rewrite Hgl).
    pose proof (written_same _ _ _ _ Hw1) as Hs. by rewrite Hlen in Hs.
  - intros a Ha. rewrite (wt_bytes _ _ _ _ Hw2), decide_False, (wt_bytes _ _ _ _ Hw1), decide_False; [done| |].
    + rewrite Hlen. unfold IND_BITMAP, BLK_BITMAP, BLK_SIZE in *. lia.
    + rewrite Hgl. unfold IND_BITMAP, GDT_START, GD_SIZE, BLK_SIZE in *. lia.
Qed.

Lemma wp_alloc_block (Q : Z → ext2_t D → Prop) s n0 :
  fs_ok (dev s) → gd_wf (gdt s) → free_blocks_count (gdt s) ≠ 0%Z →
  (0 ≤ last_alloc_block s < DATA_BLOCK_COUNT)%Z → bytes_ok (disk_bitmap BLK_BITMAP (dev s)) →
  (0 ≤ n0 < DATA_BLOCK_COUNT)%Z → block_bit (dev s) n0 = false →
  (∀ n s', (0 ≤ n < DATA_BLOCK_COUNT)%Z → block_bit (dev s) n = false → fs_ok (dev s') →
     (∀ m, block_bit (dev s') m = block_bit (dev s) m || (m =? n)%Z) →
     (∀ a, (IND_BITMAP ≤ a)%Z → dv_byte (dev s') a = dv_byte (dev s) a) →
     gdt s' = set_free_blocks (u16 (free_blocks_count (gdt s) - 1)) (gdt s) →
     ind s' = ind s → dir s' = dir s → last_alloc_block s' = n → Q n s') →
  wp ext2_alloc_block Q s.
Proof.
  intros Hok Hgd Hfree Hlast Hbytes Hn0 Hclear HQ. unfold ext2_alloc_block. wp_steps.
  rewrite decide_False by done. wp_steps. apply wp_rd_blockbitmap; [done|]. wp_steps.
  cbn [blockbitmapbuf set_blockbitmapbuf].
  set (buf := disk_bitmap BLK_BITMAP (dev s)) in *.
  assert (Hlen : length buf = Z.to_nat BLK_SIZE) by apply disk_bytes_length.
  unfold DATA_BLOCK_COUNT in *.
  destruct (aget_is_Some buf (n0 / 8)) as [bt Hbt].
  { rewrite Hlen. split; [apply Z.div_pos; lia|]. apply Z.div_lt_upper_bound; [lia|].
    change (Z.of_nat (Z.to_nat BLK_SIZE)) with 512%Z. lia. }
  assert (Hbt' : bt ≠ 255%Z).
  { intros ->. unfold block_bit, buf_bit in Hclear. fold buf in Hclear. rewrite Hbt in Hclear. simpl in Hclear.
    pose proof (Z.mod_pos_bound n0 8 ltac:(lia)).
    assert (Hall : ∀ k, (0 ≤ k < 8)%Z → Z.testbit 255 k = true); [|rewrite Hall in Hclear by lia; done].
    intros k Hk. change 255%Z with (Z.ones 8). apply Z.ones_spec_low. lia. }
  destruct (bm_byte_ok bm_fuel buf (last_alloc_block s / 8) (n0 / 8) bt) as (c & b & Hc & Hb & Hbff); try done.
  { split; [apply Z.div_pos; lia|]. apply Z.div_lt_upper_bound; [lia|]. unfold BLK_SIZE. lia. }
  { pose proof (Z.mod_pos_bound (n0 / 8 - last_alloc_block s / 8) BLK_SIZE ltac:(done)). unfold bm_fuel, BLK_SIZE in *. lia. }
  assert (Hb8 : (0 ≤ b < 256)%Z).
  { unfold bytes_ok in Hbytes. rewrite Forall_forall in Hbytes. apply Hbytes.
    apply aget_Some in Hb as [_ Hb]. by eapply list_elem_of_lookup_2. }
  destruct (bm_bit_ok b) as (con & flag & Hbit & Hflag & Hcl & Hset); [lia|].
  pose proof (aget_lt _ _ _ Hb) as Hcr.
  unfold lift. apply wp_run. eexists c, _. rewrite Hc. split; [done|]. wp_steps.
  apply wp_run. eexists (con, flag), _. rewrite Hbit. split; [done|]. wp_steps.
  eapply wp_deref; [by apply aset_Some|]. wp_steps.
  pose proof (aset_Some buf c (u8 (b + con)) Hcr) as Hbuf'.
  set (buf' := <[Z.to_nat c := u8 (b + con)]> buf) in *.
  eapply (wp_wr_bitmap_gd _ _ _ (λ g, set_free_blocks (u16 (free_blocks_count g - 1)) g)).
  - done.
  - simpl. unfold buf'. by rewrite length_insert.
  - done.
  - simpl. intros d' Hok' Hbm' Hfr'. wp_steps. rewrite Hlen in Hcr. unfold BLK_SIZE in Hcr.
    apply (HQ (c * 8 + flag)%Z); try done; cbn [dev set_dev].
    + lia.
    + unfold block_bit, buf_bit. fold buf.
      rewrite (Z.mul_comm c 8), (Z.add_comm _ flag), Z.mul_comm, Z.div_add, Z.div_small, Z.add_0_l, Hb by lia. simpl.
      by rewrite Z.mod_add, Z.mod_small by lia.
    + intros m. unfold block_bit. rewrite Hbm'. fold buf.
      apply (buf_bit_upd buf buf' c b _ flag orb Hb Hbuf' Hflag); [apply orb_false_r|done].
Qed.

Lemma wp_remove_block n (Q : unit → ext2_t D → Prop) s :
  fs_ok (dev s) → gd_wf (gdt s) → (0 ≤ n < DATA_BLOCK_COUNT)%Z →
  (∀ s', fs_ok (dev s') → (∀ m, block_bit (dev s') m = block_bit (dev s) m && negb (m =? n)%Z) →
     (∀ a, (IND_BITMAP ≤ a)%Z → dv_byte (dev s') a = dv_byte (dev s) a) →
     gdt s' = set_free_blocks (u16 (free_blocks_count (gdt s) + 1)) (gdt s) →
     ind s' = ind s → dir s' = dir s → Q tt s') →
  wp (ext2_remove_block n) Q s.
Proof.
  intros Hok Hgd Hn HQ. unfold ext2_remove_block. wp_steps. apply wp_rd_blockbitmap; [done|]. wp_steps.
  cbn [blockbitmapbuf set_blockbitmapbuf]. set (buf := disk_bitmap BLK_BITMAP (dev s)) in *.
  assert (Hlen : length buf = Z.to_nat BLK_SIZE) by apply disk_bytes_length. unfold DATA_BLOCK_COUNT in *.
  assert (Hcr : (0 ≤ n / 8 < Z.of_nat (length buf))%Z).
  { rewrite Hlen. split; [apply Z.div_pos; lia|]. apply Z.div_lt_upper_bound; [lia|].
    change (Z.of_nat (Z.to_nat BLK_SIZE)) with 512%Z. lia. }
  destruct (aget_is_Some buf (n / 8) Hcr) as [b Hb]. eapply wp_deref; [exact Hb|]. wp_steps.
  pose proof (aset_Some buf (n / 8) (Z.land b (clear_mask (n mod 8))) Hcr) as Hbuf'.
  eapply wp_deref; [exact Hbuf'|]. wp_steps. set (buf' := <[_ := _]> buf) in *.
  pose proof (Z.div_mod n 8 ltac:(lia)) as Hdm. pose proof (Z.mod_pos_bound n 8 ltac:(lia)) as Hmod.
  eapply (wp_mono _ (λ _ s', wp (modify (λ s, set_gdt (set_free_blocks (u16 (free_blocks_count (gdt s) + 1)) (gdt s)) s);;
    ext2_wr_gd;; mret tt) (λ _ s', Q tt s') s')).
  - eapply (wp_wr_bitmap_gd (mret tt) (λ _ s', Q tt s') _ (λ g, set_free_blocks (u16 (free_blocks_count g + 1)) g)).
    + done.
    + simpl. unfold buf'. by rewrite length_insert.
    + done.
    + cbn [blockbitmapbuf set_blockbitmapbuf]. intros d' Hok' Hbm' Hfr'. wp_steps.
      apply HQ; try done; cbn [dev set_dev]. intros m. unfold block_bit. rewrite Hbm'. fold buf.
      rewrite (buf_bit_upd buf buf' (n / 8) b _ (n mod 8) (λ x y, x && negb y) Hb Hbuf' Hmod).
      * by replace (n / 8 * 8 + n mod 8)%Z with n by lia.
      * intros x. apply andb_true_r.
      * intros k Hk. rewrite Z.land_spec. f_equal. by apply clear_mask_ok.
  - intros [] s' Hs'. apply wp_bind. unfold wp in *. unfold mbind, M_bind, modify, mret, M_ret in Hs'. simpl in Hs'.
    unfold modify. by destruct (ext2_wr_gd _) as [[[] s2]|].
Qed.

(** C16. Block allocation on the disk: with a free block left, [ext2_alloc_block]
    terminates, returns a block whose bit was clear, sets that bit in the
    bitmap on the disk and no other, counts one free block less, and leaves
    the inode table and all data blocks as they were. *)
Theorem alloc_block_spec s n0 :
  fs_ok (dev s) → gd_wf (gdt s) → (0 < free_blocks_count (gdt s) < 2 ^ 16)%Z →
  (0 ≤ last_alloc_block s < DATA_BLOCK_COUNT)%Z → bytes_ok (disk_bitmap BLK_BITMAP (dev s)) →
  (0 ≤ n0 < DATA_BLOCK_COUNT)%Z → block_bit (dev s) n0 = false →
  ∃ n s', ext2_alloc_block s = Ret (n, s') ∧ (0 ≤ n < DATA_BLOCK_COUNT)%Z ∧
    block_bit (dev s) n = false ∧ (∀ m, block_bit (dev s') m = block_bit (dev s) m || (m =? n)%Z) ∧
    free_blocks_count (gdt s') = (free_blocks_count (gdt s) - 1)%Z ∧
    (∀ a, (IND_BITMAP ≤ a)%Z → dv_byte (dev s') a = dv_byte (dev s) a).
Proof.
  intros Hok Hgd Hfree Hlast Hbytes Hn0 Hclear.
  enough (wp ext2_alloc_block (λ n s', (0 ≤ n < DATA_BLOCK_COUNT)%Z ∧
    block_bit (dev s) n = false ∧ (∀ m, block_bit (dev s') m = block_bit (dev s) m || (m =? n)%Z) ∧
    free_blocks_count (gdt s') = (free_blocks_count (gdt s) - 1)%Z ∧
    (∀ a, (IND_BITMAP ≤ a)%Z → dv_byte (dev s') a = dv_byte (dev s) a)) s) as Hwp.
  { apply wp_run in Hwp as (n & s' & Hrun & ?). by exists n, s'. }
  eapply wp_alloc_block; [done|done|lia|done|done|done|done|].
  intros n s1 Hn Hcl Hok1 Hbits Hfr Hg _ _ _. do 3 (split; [done|]). split; [|done].
  rewrite Hg. simpl. apply Z.mod_small. lia.
Qed.

(** Releasing an allocated block gives the bitmap back: after
    [ext2_alloc_block] and [ext2_remove_block] of its result, every bit and the
    free count are what they were. *)
Theorem alloc_remove_block s n0 :
  fs_ok (dev s) → gd_wf (gdt s) → (0 < free_blocks_count (gdt s) < 2 ^ 16)%Z →
  (0 ≤ last_alloc_block s < DATA_BLOCK_COUNT)%Z → bytes_ok (disk_bitmap BLK_BITMAP (dev s)) →
  (0 ≤ n0 < DATA_BLOCK_COUNT)%Z → block_bit (dev s) n0 = false →
  ∃ s', (n ← ext2_alloc_block; ext2_remove_block n) s = Ret (tt, s') ∧
    (∀ m, block_bit (dev s') m = block_bit (dev s) m) ∧
    free_blocks_count (gdt s') = free_blocks_count (gdt s).
Proof.
  intros Hok Hgd Hfree Hlast Hbytes Hn0 Hclear.
  enough (wp (n ← ext2_alloc_block; ext2_remove_block n) (λ _ s',
    (∀ m, block_bit (dev s') m = block_bit (dev s) m) ∧
    free_blocks_count (gdt s') = free_blocks_count (gdt s)) s) as Hwp.
  { apply wp_run in Hwp as ([] & s' & Hrun & ?). by exists s'. }
  wp_steps. eapply wp_alloc_block; [done|done|lia|done|done|done|done|].
  intros n s1 Hn Hcl Hok1 Hb1 Hfr1 Hg1 _ _ _.
  eapply wp_remove_block; [done|by rewrite Hg1|done|]. intros s2 Hok2 Hb2 _ Hg2 _ _. split.
  - intros m. rewrite Hb2, Hb1. destruct (Z.eqb_spec m n) as [->|]; simpl; [by rewrite Hcl|].
    by rewrite orb_false_r, andb_true_r.
  - rewrite Hg2, Hg1. simpl. unfold u16. rewrite Zplus_mod_idemp_l.
    replace (free_blocks_count (gdt s) - 1 + 1)%Z with (free_blocks_count (gdt s)) by lia. apply Z.mod_small. lia.
Qed.

Lemma wp_rd_datablock b (Q : unit → ext2_t D → Prop) s :
  fs_ok (dev s) → (0 ≤ b < DATA_BLOCK_COUNT)%Z → Q tt (set_datablockbuf (disk_block (dev s) b) s) →
  wp (ext2_rd_datablock b) Q s.
Proof.
  intros Hok Hb HQ. unfold ext2_rd_datablock. wp_steps. apply wp_rd_disk; [done|layout|layout|]. by wp_steps.
Qed.

Lemma wp_wr_datablock b (Q : unit → ext2_t D → Prop) s :
  fs_ok (dev s) → (0 ≤ b < DATA_BLOCK_COUNT)%Z → length (datablockbuf s) = Z.to_nat BLK_SIZE →
  (∀ d', fs_ok d' → disk_block d' b = datablockbuf s →
     (∀ b', (0 ≤ b' < DATA_BLOCK_COUNT)%Z → b' ≠ b → disk_block d' b' = disk_block (dev s) b') →
     Q tt (set_dev d' s)) → wp (ext2_wr_datablock b) Q s.
Proof.
  intros Hok Hb Hlen HQ. unfold ext2_wr_datablock. wp_steps.
  apply wp_wr_disk; [done|layout|rewrite Hlen; layout|]. intros d' Hw. apply HQ.
  - apply (wt_ok _ _ _ _ Hw).
  - pose proof (written_same _ _ _ _ Hw) as Hs. rewrite Hlen in Hs. exact Hs.
  - intros b' Hb' Hne. eapply written_other; [exact Hw|]. rewrite Hlen. layout.
Qed.

Lemma wr_ind_blocks i x (d d' : D) : (1 ≤ i ≤ INODE_TABLE_COUNT)%Z → inode_wf x →
  written (ind_offset i) (enc_inode x) d d' →
  ∀ b, (0 ≤ b < DATA_BLOCK_COUNT)%Z → disk_block d' b = disk_block d b.
Proof.
  intros Hi Hwf Hw b Hb. pose proof (dec_enc_inode _ Hwf) as [_ Hlen].
  eapply written_other; [exact Hw|]. rewrite Hlen. layout.
Qed.

(** The write of [buf] at the start of a file that has one block. *)
Lemma wp_write_block ridx b buf (Q : Z → ext2_t D → Prop) s :
  let x := disk_inode (dev s) ridx in
  let n := Z.of_nat (length buf) in
  fs_ok (dev s) → (1 ≤ ridx ≤ INODE_TABLE_COUNT)%Z → inode_wf x → blocks x = 1%Z →
  aget (block x) 0 = Some b → (0 ≤ b < DATA_BLOCK_COUNT)%Z → Z.land (imode x) WR_ABLE ≠ 0%Z →
  (0 < n ≤ BLK_SIZE)%Z →
  (∀ s', fs_ok (dev s') → disk_inode (dev s') ridx = set_isize n x →
     take (length buf) (disk_block (dev s') b) = buf →
     (∀ b', (0 ≤ b' < DATA_BLOCK_COUNT)%Z → b' ≠ b → disk_block (dev s') b' = disk_block (dev s) b') →
     Q n s') →
  wp (ext2_write ridx 0 buf n) Q s.
Proof.
  intros x n Hok Hr Hwf Hblk Hb Hbr Hmode Hn HQ. unfold ext2_write.
  assert ((n + 0 + (BLK_SIZE - 1)) / BLK_SIZE = 1)%Z as -> by (unfold BLK_SIZE in *; symmetry; apply Z.div_unique with (n - 1)%Z; lia).
  change (0 / BLK_SIZE)%Z with 0%Z. change (0 - 0 * BLK_SIZE)%Z with 0%Z. wp_steps.
  apply wp_rd_ind; [done..|]. wp_steps. fold x. rewrite decide_False by done. cbn [ind set_ind]. rewrite Hblk.
  rewrite decide_True by done. change (S (Z.to_nat (1 - 1))) with 1. change (Z.to_nat (1 - 0)) with 1.
  cbn [grow write_blocks]. wp_steps. cbn [ind set_ind]. rewrite Hblk, decide_False by done. wp_steps.
  unfold ind_block. wp_steps.
  apply wp_rd_datablock; [done..|]. wp_steps. rewrite decide_True by done. cbn [datablockbuf set_datablockbuf dev set_ind].
  pose proof (disk_bytes_length (dev s) (blk_offset b) (Z.to_nat BLK_SIZE)) as Hdl.
  fold (disk_block (dev s) b) in Hdl.
  destruct (fill_loop_ok fill_fuel 0 0 n buf (disk_block (dev s) b)) as (data' & Hrun & Hlen & Hget);
    [lia|lia|lia|lia|rewrite Hdl; done|change (Z.of_nat fill_fuel) with 513%Z; unfold BLK_SIZE in *; lia|].
  unfold lift. apply wp_run. rewrite Hrun. eexists (n, data'), _. split; [done|]. wp_steps.
  apply wp_wr_datablock; [done|done|cbn; congruence|]. cbn [datablockbuf set_datablockbuf].
  intros d1 Hok1 Hb1 Hoth1. wp_steps. rewrite u32_small by (unfold BLK_SIZE in *; lia). unfold ind_upd. wp_steps.
  assert (Hwf' : inode_wf (set_isize n x)).
  { destruct Hwf. split; simpl; try done. unfold BLK_SIZE in *. lia. }
  apply wp_wr_ind; [done|done|exact Hwf'|]. intros d2 Hw2 Hi2. wp_steps.
  assert (Hdb : ∀ b', (0 ≤ b' < DATA_BLOCK_COUNT)%Z → disk_block d2 b' = disk_block d1 b').
  { exact (wr_ind_blocks ridx (set_isize n x) d1 d2 Hr Hwf' Hw2). }
  apply HQ; cbn [dev set_dev].
  - apply (wt_ok _ _ _ _ Hw2).
  - exact Hi2.
  - rewrite Hdb by done. cbn [dev set_ind set_dev]. rewrite Hb1. apply list_eq. intros k.
    destruct (decide (k < length buf)) as [Hk|Hk].
    + rewrite lookup_take_lt by done. specialize (Hget (Z.of_nat k)). rewrite decide_True in Hget by lia.
      unfold aget in Hget. rewrite !decide_True in Hget by lia. rewrite Nat2Z.id in Hget.
      by replace (Z.to_nat (0 + (Z.of_nat k - 0))) with k in Hget by lia.
    + rewrite lookup_take_ge, lookup_ge_None_2 by lia. done.
  - intros b' Hb' Hne. rewrite Hdb by done. by apply Hoth1.
Qed.

(** C15. File contents: writing up to a block of bytes at the start of a file that
    has one block, and reading the file back, gives exactly those bytes; no
    other data block of the disk changes. *)
Theorem write_read_block s ridx b buf len :
  fs_ok (dev s) → (1 ≤ ridx ≤ INODE_TABLE_COUNT)%Z → inode_wf (disk_inode (dev s) ridx) →
  blocks (disk_inode (dev s) ridx) = 1%Z → aget (block (disk_inode (dev s) ridx)) 0 = Some b →
  (0 ≤ b < DATA_BLOCK_COUNT)%Z → Z.land (imode (disk_inode (dev s) ridx)) WR_ABLE ≠ 0%Z →
  (0 < Z.of_nat (length buf) ≤ BLK_SIZE)%Z → (Z.of_nat (length buf) ≤ len)%Z →
  ∃ s1 s2, ext2_write ridx 0 buf (Z.of_nat (length buf)) s = Ret (Z.of_nat (length buf), s1) ∧
    ext2_read ridx 0 len s1 = Ret (buf, s2) ∧
    ∀ b', (0 ≤ b' < DATA_BLOCK_COUNT)%Z → b' ≠ b → disk_block (dev s1) b' = disk_block (dev s) b'.
Proof.
  intros Hok Hr Hwf Hblk Hb Hbr Hmode Hn Hlen.
  assert (Hw : wp (ext2_write ridx 0 buf (Z.of_nat (length buf))) (λ r s1, r = Z.of_nat (length buf) ∧
    (∀ b', (0 ≤ b' < DATA_BLOCK_COUNT)%Z → b' ≠ b → disk_block (dev s1) b' = disk_block (dev s) b') ∧
    wp (ext2_read ridx 0 len) (λ l _, l = buf) s1) s).
  { eapply wp_write_block; [done..|]. intros s1 Hok1 Hi1 Hb1 Hoth. split; [done|]. split; [done|].
    unfold ext2_read. change (0 / BLK_SIZE)%Z with 0%Z. change (0 - 0 * BLK_SIZE)%Z with 0%Z. wp_steps.
    apply wp_rd_ind; [done..|]. wp_steps. rewrite Hi1. cbn [ind set_ind set_isize blocks]. rewrite Hblk.
    change (Z.to_nat (1 - 0)) with 1. cbn [read_blocks]. wp_steps. unfold ind_block. wp_steps.
    apply wp_rd_datablock; [done..|]. wp_steps.
    cbn [ind set_datablockbuf set_ind set_isize isize datablockbuf dev]. rewrite decide_True by done.
    replace (0 * BLK_SIZE)%Z with 0%Z by done. rewrite Z.sub_0_r, u32_small by (unfold BLK_SIZE in *; lia).
    pose proof (disk_bytes_length (dev s1) (blk_offset b) (Z.to_nat BLK_SIZE)) as Hdl.
    unfold lift. rewrite (read_loop_ok _ (Z.of_nat (length buf)) len 0 _ []).
    - rewrite Nat2Z.id, Hb1. done.
    - lia.
    - done.
    - unfold disk_block. rewrite Hdl. change (Z.of_nat (Z.to_nat BLK_SIZE)) with BLK_SIZE. lia.
    - lia.
    - done. }
  apply wp_run in Hw as (r & s1 & Hrun & -> & Hoth & Hrd). apply wp_run in Hrd as (l & s2 & Hrun2 & ->).
  by exists s1, s2.
Qed.
End ext2.

(** ** A concrete disk

    A blank disk of 4 MB, and the file system that mounting it leaves. *)
#[export] Program Instance blank_disk : BlockDevice (gmap Z Z) := {
  dv_size := λ _, RD_SIZE;
  dv_ok := λ _, True;
  dv_byte := λ m a, default 0%Z (m !! a);
  dv_read := λ off n m, Ret ((λ k, default 0%Z (m !! (off + Z.of_nat k)%Z)) <$> seq 0 n, m);
  dv_write := λ off l m, Ret (tt, put_bytes off l m)
}.
Next Obligation. done. Qed.
Next Obligation. intros. eexists. do 3 (split; [done|]). intros. apply put_bytes_lookup. Qed.

Definition mount_then {A} (m : M (ext2_t (gmap Z Z)) A) : M (ext2_t (gmap Z Z)) A :=
  ext2_init "ramdisk1" ∅;; m.
Definition demo_run {A} (m : M (ext2_t (gmap Z Z)) A) : res A := value_of (mount_then m (ext2_zero ∅)).
Definition demo_fs : ext2_t (gmap Z Z) := state_of (ext2_zero ∅) (mount_then (mret tt) (ext2_zero ∅)).

(** Removing a directory reports success and leaves its entry: the entry is
    cleared in the buffer, which is then written to a block of the removed
    directory in place of its parent's, so [readdir] still lists it, with an
    inode that is free again. *)
Theorem remove_dir_keeps_entry :
  demo_run (
    i ← ext2_create 1 (string_bytes "d") (Z.lor TYPE_DIR (Z.lor RD_ABLE WR_ABLE));
    r ← ext2_remove 1 (string_bytes "d") TYPE_DIR;
    e ← ext2_readdir 1 5;
    j ← ext2_alloc_inode;
    mret (r, e, bool_decide (i = j))) =
  Ret (0%Z, Some (Dirent "d" 4 (Z.lor TYPE_DIR (Z.lor RD_ABLE WR_ABLE))), true).
Proof. by vm_compute. Qed.

(** A file of 600 bytes is not stored: the write returns 556, and the bytes
    after them read back as what the block held before. *)
Theorem long_write_short :
  demo_run (
    i ← ext2_create 1 (string_bytes "f") FILE_RW;
    ext2_write i 0 (replicate 600 65%Z) 600) = Ret 556%Z.
Proof. by vm_compute. Qed.

Lemma demo_fs_ok : fs_ok (dev demo_fs).
Proof. by split. Qed.

Definition inode_wf_check (x : inode) : bool :=
  forallb (λ b, (0 <=? b)%Z && (b <? 256 ^ Z.of_nat 4)%Z) (imode x :: blocks x :: isize x :: block x) &&
  (length (block x) =? EXT2_N_BLOCKS) && (length (ipad x) =? 4).

Lemma inode_wf_dec x : inode_wf_check x = true → inode_wf x.
Proof.
  unfold inode_wf_check. rewrite !andb_true_iff, forallb_forall, !Nat.eqb_eq. intros [[Hall H2] H3].
  assert (Hin : ∀ b, b ∈ imode x :: blocks x :: isize x :: block x → (0 ≤ b < 256 ^ Z.of_nat 4)%Z).
  { intros b Hb. specialize (Hall b). rewrite <-list_elem_of_In in Hall. specialize (Hall Hb).
    by apply andb_true_iff in Hall as [?%Z.leb_le ?%Z.ltb_lt]. }
  split; [apply Hin; set_solver..| |done]. split; [done|]. apply Forall_forall. intros b Hb. apply Hin. set_solver.
Qed.

Lemma demo_inode_wf : inode_wf (disk_inode (dev demo_fs) 2).
Proof. apply inode_wf_dec. by vm_compute. Qed.

Lemma demo_ind_wf : inode_wf (ind demo_fs).
Proof. apply inode_wf_dec. by vm_compute. Qed.

Lemma demo_gd_wf : gd_wf (gdt demo_fs).
Proof. split; by vm_compute. Qed.

Lemma demo_bytes_ok : bytes_ok (disk_bitmap BLK_BITMAP (dev demo_fs)).
Proof. unfold bytes_ok. apply (bool_decide_eq_true_1 _). by vm_compute. Qed.

Lemma le_of_leb (a b c : Z) : (a <=? b)%Z && (b <? c)%Z = true → (a ≤ b < c)%Z.
Proof. lia. Qed.

Lemma alloc_block_spec_witness :
  ∃ n s', ext2_alloc_block demo_fs = Ret (n, s') ∧ block_bit (dev demo_fs) n = false.
Proof.
  destruct (alloc_block_spec demo_fs 100 demo_fs_ok demo_gd_wf) as (n & s' & Hrun & _ & Hcl & _).
  - vm_compute. done.
  - apply le_of_leb. vm_compute. reflexivity.
  - apply demo_bytes_ok.
  - apply le_of_leb. reflexivity.
  - vm_compute. reflexivity.
  - exists n, s'. split; [exact Hrun|exact Hcl].
Defined.

Lemma alloc_remove_block_witness :
  ∃ s', (n ← ext2_alloc_block; ext2_remove_block n) demo_fs = Ret (tt, s') ∧
    free_blocks_count (gdt s') = free_blocks_count (gdt demo_fs).
Proof.
  destruct (alloc_remove_block demo_fs 100 demo_fs_ok demo_gd_wf) as (s' & Hrun & _ & Hfree).
  - vm_compute. done.
  - apply le_of_leb. vm_compute. reflexivity.
  - apply demo_bytes_ok.
  - apply le_of_leb. reflexivity.
  - vm_compute. reflexivity.
  - exists s'. split; [exact Hrun|exact Hfree].
Defined.

Lemma inode_table_roundtrip_witness :
  ∃ s', ext2_wr_ind 7 demo_fs = Ret (tt, s').
Proof.
  destruct (inode_table_roundtrip demo_fs 7 demo_fs_ok) as (s' & Hrun & _).
  - split; done.
  - exact demo_ind_wf.
  - exists s'. exact Hrun.
Defined.

Lemma write_read_block_witness :
  ∃ s1 s2, ext2_write 2 0 [104; 105]%Z 2 demo_fs = Ret (2%Z, s1) ∧ ext2_read 2 0 10 s1 = Ret ([104; 105]%Z, s2).
Proof.
  destruct (write_read_block demo_fs 2 1 [104; 105]%Z 10 demo_fs_ok) as (s1 & s2 & Hw & Hr & _).
  - split; done.
  - exact demo_inode_wf.
  - vm_compute. reflexivity.
  - vm_compute. reflexivity.
  - split; done.
  - vm_compute. done.
  - split; done.
  - done.
  - exists s1, s2. split; [exact Hw|exact Hr].
Defined.

Lemma last_block_half_witness :
  ∃ data', fill_last fill_fuel 0 512 600 (replicate 600 65%Z) (replicate 512 0%Z) = Ret (556%Z, data').
Proof.
  destruct (last_block_half 512 600 (replicate 600 65%Z) (replicate 512 0%Z)) as (data' & Hrun & _).
  - split; done.
  - done.
  - done.
  - done.
  - done.
  - exists data'. exact Hrun.
Defined.
