(* ===== verification/Vfs.v ===== *)
(** * The virtual file system (kernel/src/fs/vfs.c, kernel/include/fs/vfs.h)

    One tree of [vinode]s (children chained by [next], "." and ".." entries and
    hard links as rings of links), filled from the mounted file systems when a
    path is looked up, and the table of open files.  A file system is reached
    through its operations: ext2 (Ext2.v) or procfs (Procfs.v).  Paths and names
    are character strings; indices are C [int]s, -1 for none. *)
From S2P Require Import Prelude Bytes Common KStdio Procfs Alloc KString Device Ext2.

Definition MAX_VINODE : nat := 1024.
Definition MAX_FILESYSTEM : nat := 16.
Definition MAX_PATH_LENGTH : nat := 256.
Definition MAX_NAME_LENGTH : nat := 32.
Definition NAME_lENGTH : nat := 32.

Definition VFS : Z := 0.
Definition EXT2FS : Z := 1.
Definition PROCFS : Z := 2.
Definition TTY : Z := 4.
Definition VFS_ROOT : Z := 0.
Definition EXT2_ROOT : Z := 1.

Record vinode := Vinode {
  path : string; name : string;
  dot : Z; ddot : Z; next : Z; child : Z;
  mode : Z; linkcnt : Z; ridx : Z; fs_type : Z;
  fs : option nat;              (* &filesys[i], or null *)
  prev_link : Z; next_link : Z
}.

Record file_t := File { refcnt : Z; vinode_idx : Z; offset : Z }.

(** The functions [init] and [readdir] of a file system come in two pairs. *)
Inductive fs_ops := ext2_ops | procfs_ops.

Record filesystem (D : Type) := Filesystem {
  fname : string;
  rfs : option (ext2_t D);      (* the structure rfs points to *)
  rfs_ptr : Z;                  (* its address, 0 for null *)
  fsops : fs_ops
}.
Arguments Filesystem {D}. Arguments fname {D}. Arguments rfs {D}. Arguments rfs_ptr {D}. Arguments fsops {D}.

Record vfs_st (D T : Type) := VfsSt {
  filesys : list (filesystem D);
  vinodes : list vinode;
  files : list file_t;
  vprocfs : procfs_st;
  vpmm : alloc_st;
  ttys : T                       (* the terminals, behind their device *)
}.
Arguments VfsSt {D T}. Arguments filesys {D T}. Arguments vinodes {D T}. Arguments files {D T}.
Arguments vprocfs {D T}. Arguments vpmm {D T}. Arguments ttys {D T}.

Definition vinode_zero : vinode := Vinode "" "" 0 0 0 0 UNUSED_MODE 0 0 0 None 0 0.
Definition vfs_boot {D T} (p : procfs_st) (m : alloc_st) (t : T) : vfs_st D T :=
  VfsSt (replicate MAX_FILESYSTEM (Filesystem "" None 0 ext2_ops)) (replicate MAX_VINODE vinode_zero)
    (replicate MAX_FILE (File 0 0 0)) p m t.

Definition set_path v x := Vinode v (name x) (dot x) (ddot x) (next x) (child x) (mode x) (linkcnt x) (ridx x) (fs_type x) (fs x) (prev_link x) (next_link x).
Definition set_name v x := Vinode (path x) v (dot x) (ddot x) (next x) (child x) (mode x) (linkcnt x) (ridx x) (fs_type x) (fs x) (prev_link x) (next_link x).
Definition set_dots a b x := Vinode (path x) (name x) a b (next x) (child x) (mode x) (linkcnt x) (ridx x) (fs_type x) (fs x) (prev_link x) (next_link x).
Definition set_next v x := Vinode (path x) (name x) (dot x) (ddot x) v (child x) (mode x) (linkcnt x) (ridx x) (fs_type x) (fs x) (prev_link x) (next_link x).
Definition set_child v x := Vinode (path x) (name x) (dot x) (ddot x) (next x) v (mode x) (linkcnt x) (ridx x) (fs_type x) (fs x) (prev_link x) (next_link x).
Definition set_mode v x := Vinode (path x) (name x) (dot x) (ddot x) (next x) (child x) v (linkcnt x) (ridx x) (fs_type x) (fs x) (prev_link x) (next_link x).
Definition set_linkcnt v x := Vinode (path x) (name x) (dot x) (ddot x) (next x) (child x) (mode x) v (ridx x) (fs_type x) (fs x) (prev_link x) (next_link x).
Definition set_ridx v x := Vinode (path x) (name x) (dot x) (ddot x) (next x) (child x) (mode x) (linkcnt x) v (fs_type x) (fs x) (prev_link x) (next_link x).
Definition set_fs t f x := Vinode (path x) (name x) (dot x) (ddot x) (next x) (child x) (mode x) (linkcnt x) (ridx x) t f (prev_link x) (next_link x).
Definition set_prev_link v x := Vinode (path x) (name x) (dot x) (ddot x) (next x) (child x) (mode x) (linkcnt x) (ridx x) (fs_type x) (fs x) v (next_link x).
Definition set_next_link v x := Vinode (path x) (name x) (dot x) (ddot x) (next x) (child x) (mode x) (linkcnt x) (ridx x) (fs_type x) (fs x) (prev_link x) v.

(** ** Path strings *)

Fixpoint sdrop (n : nat) (s : string) : string :=
  match n, s with
  | O, _ => s
  | Datatypes.S n', String.String _ s' => sdrop n' s'
  | Datatypes.S _, String.EmptyString => s
  end.
Definition stake (n : nat) (s : string) : string := String.substring 0 n s.
Definition slash : Ascii.ascii := Ascii.ascii_of_nat 47.

(** [path[i]], for [i] below the length. *)
Definition char_at (i : nat) (s : string) : option Ascii.ascii := String.get i s.

Fixpoint first_item_len (s : string) : nat :=
  match s with
  | String.EmptyString => 0
  | String.String c s' => if decide (c = slash) then 0 else Datatypes.S (first_item_len s')
  end.

(** The index of the last slash. *)
Fixpoint last_slash (n : nat) (s : string) : option nat :=
  match n with
  | O => None
  | Datatypes.S n' => if decide (char_at n' s = Some slash) then Some n' else last_slash n' s
  end.

Definition item_match (s1 s2 : string) (len : nat) : bool :=
  bool_decide (stake len s1 = stake len s2) && bool_decide (String.length s1 = len).

(** [if (path[len - 1] == '/') path[len - 1] = '\0'].  On the empty path the
    access is to the byte before the buffer, and the path stays empty. *)
Definition strip_slash (s : string) : string :=
  match String.length s with
  | O => s
  | Datatypes.S n => if decide (char_at n s = Some slash) then stake n s else s
  end.

Definition vfs_help_getpathlen (s : string) : nat := default 0 (last_slash (String.length s) s).

Section vfs.
Context {D T : Type} `{!BlockDevice D}.
(** The operation of the terminals behind /dev/ttyN: the device's name, the text,
    the count returned. *)
Context (tty_write : string → list Z → M T Z).
Abbreviation V := (M (vfs_st D T)).

Definition set_filesys (v : list (filesystem D)) (s : vfs_st D T) : vfs_st D T := VfsSt v (vinodes s) (files s) (vprocfs s) (vpmm s) (ttys s).
Definition set_vinodes (v : list vinode) (s : vfs_st D T) : vfs_st D T := VfsSt (filesys s) v (files s) (vprocfs s) (vpmm s) (ttys s).
Definition set_files (v : list file_t) (s : vfs_st D T) : vfs_st D T := VfsSt (filesys s) (vinodes s) v (vprocfs s) (vpmm s) (ttys s).
Definition set_vprocfs (v : procfs_st) (s : vfs_st D T) : vfs_st D T := VfsSt (filesys s) (vinodes s) (files s) v (vpmm s) (ttys s).
Definition set_vpmm (v : alloc_st) (s : vfs_st D T) : vfs_st D T := VfsSt (filesys s) (vinodes s) (files s) (vprocfs s) v (ttys s).
Definition set_ttys (v : T) (s : vfs_st D T) : vfs_st D T := VfsSt (filesys s) (vinodes s) (files s) (vprocfs s) (vpmm s) v.

Definition vget (i : Z) : V vinode := s ← get; deref OutOfBounds (aget (vinodes s) i).
Definition vupd (i : Z) (f : vinode → vinode) : V unit :=
  x ← vget i; s ← get;
  l ← deref OutOfBounds (aset (vinodes s) i (f x));
  modify (set_vinodes l).

(** [strcpy(v->name, ...)], [strcpy(v->path, ...)] and [strcat(v->path, ...)]. *)
Definition cpy_name (i : Z) (nm : string) : V unit :=
  vget i;; nm ← strcpy_buf MAX_NAME_LENGTH nm; vupd i (set_name nm).
Definition cpy_path (i : Z) (p : string) : V unit :=
  vget i;; p ← strcpy_buf MAX_PATH_LENGTH p; vupd i (set_path p).
Definition cat_path (i : Z) (p : string) : V unit := x ← vget i; cpy_path i (path x +:+ p).

(** ** Links *)

Definition add_link (oidx nidx : Z) : V unit :=
  o ← vget oidx;
  let n_link := next_link o in
  vupd nidx (set_next_link n_link);;
  vupd nidx (set_prev_link oidx);;
  vupd oidx (set_next_link nidx);;
  vupd n_link (set_prev_link nidx).

Definition remove_link (i : Z) : V unit :=
  x ← vget i;
  let p_link := prev_link x in
  let n_link := next_link x in
  x ← vget i; vupd p_link (set_next_link (next_link x));;
  x ← vget i; vupd n_link (set_prev_link (prev_link x)).

(** ** Vinodes *)

Definition vinodes_alloc : V Z :=
  s ← get;
  match first_index (λ x, bool_decide (mode x = UNUSED_MODE)) (vinodes s) with
  | Some i => vupd (Z.of_nat i) (λ x, set_mode (Z.lor (mode x) ALLOCED) x);; mret (Z.of_nat i)
  | None => mret (-1)%Z
  end.

Definition vinodes_free (i : Z) : V unit := vupd i (set_mode UNUSED_MODE).

Definition delete_vinode (i : Z) : V unit := vinodes_free i;; remove_link i.

Definition last_item_len (p : string) : V nat :=
  match last_slash (String.length p) p with
  | Some i => mret (String.length p - i - 1)
  | None => fail OutOfBounds
  end.

(** Chains of children and rings of links visit a vinode once, or never end. *)
Definition chain_fuel : nat := Datatypes.S MAX_VINODE.

(** [for (k; k != -1; k = vinodes[k].next) if (p(k)) break;]: where it stops. *)
Fixpoint chain_find (fuel : nat) (p : vinode → bool) (k : Z) : V Z :=
  match fuel with
  | O => fail OutOfFuel
  | Datatypes.S n =>
      if decide (k = -1)%Z then mret k
      else x ← vget k; if p x then mret k else chain_find n p (next x)
  end.

(** [while (vinodes[next].mode & TYPE_LINK) next = vinodes[next].next_link]. *)
Fixpoint follow_links (fuel : nat) (k : Z) : V Z :=
  match fuel with
  | O => fail OutOfFuel
  | Datatypes.S n =>
      x ← vget k;
      if decide (Z.land (mode x) TYPE_LINK ≠ 0)%Z then follow_links n (next_link x) else mret k
  end.

(** [lookup_cur]: the flag, the vinode and the offset reached.  Each call but the
    last consumes a character of the path. *)
Fixpoint lookup_cur (fuel : nat) (p : string) (cur : Z) (off : nat) : V (bool * Z * nat) :=
  match fuel with
  | O => fail OutOfFuel
  | Datatypes.S n =>
      if decide (p = "") then mret (true, cur, off)
      else
        let len := first_item_len p in
        x ← vget cur;
        k ← chain_find chain_fuel (λ x, item_match (name x) p len) (child x);
        if decide (k = -1)%Z then mret (false, cur, off)
        else
          nx ← follow_links chain_fuel k;
          let step := len + (if decide (char_at len p = Some slash) then 1 else 0) in
          lookup_cur n (sdrop step p) nx (off + step)
  end.

(** The two calls of [lookup_auto]: from the root, with the leading slash
    skipped or not. *)
Definition lookup_path (p : string) : V (bool * Z * nat) :=
  let fuel := Datatypes.S (String.length p) in
  if decide (char_at 0 p = Some slash) then lookup_cur fuel (sdrop 1 p) VFS_ROOT 1
  else lookup_cur fuel p VFS_ROOT 1.

(** ** File systems *)

Definition fs_get (f : option nat) : V (filesystem D) :=
  i ← deref NullDeref f; s ← get; deref OutOfBounds (filesys s !! i).

(** An ext2 operation on the structure [rfs] of a file system. *)
Definition on_ext2 {A} (f : option nat) (m : M (ext2_t D) A) : V A :=
  i ← deref NullDeref f;
  x ← fs_get f;
  e ← deref NullDeref (rfs x);
  '(a, e') ← lift (m e);
  modify (λ s, set_filesys (<[i := Filesystem (fname x) (Some e') (rfs_ptr x) (fsops x)]> (filesys s)) s);;
  mret a.

(** [fs->readdir(fs, ridx, kth, &buf)]. *)
Definition fs_readdir (f : option nat) (r kth : Z) : V (option dirent) :=
  x ← fs_get f;
  match fsops x with
  | ext2_ops => on_ext2 f (ext2_readdir r kth)
  | procfs_ops => zoom vprocfs set_vprocfs (procfs_readdir kth)
  end.

(** The state of the loop that fills a directory. *)
Record fill_st := FillSt { f_oidx : Z; f_dot : Z; f_ddot : Z; f_next : Z }.

(** One entry read from the file system into a new vinode of directory [i]. *)
Definition fill_entry (i : Z) (rest : string) (flen : nat) (e : dirent) (f : fill_st) : V fill_st :=
  nidx ← vinodes_alloc;
  (if decide (nidx = -1)%Z then fail Halt else mret tt);;
  let oidx := f_oidx f in
  f ← (if decide (d_name e = ".") then
    assert (bool_decide (oidx = -1)%Z);;
    vupd i (set_child nidx);;
    cpy_name nidx ".";;
    x ← vget i; cpy_path nidx (path x);;
    vupd nidx (set_dots (-1) (-1));;
    vupd nidx (set_next (-1));; vupd nidx (set_child i);;
    vupd nidx (set_next_link nidx);; vupd nidx (set_prev_link nidx);; vupd nidx (set_linkcnt 1);;
    vupd nidx (set_mode TYPE_LINK);; add_link i nidx;;
    mret (FillSt oidx nidx (f_ddot f) (f_next f))
  else if decide (d_name e = "..") then
    o ← vget oidx;
    assert (bool_decide (next o = -1)%Z);;
    vupd oidx (set_next nidx);;
    vupd oidx (λ o, set_dots (dot o) nidx o);;
    cpy_name nidx "..";;
    x ← vget i; xd ← vget (dot x); xp ← vget (child xd); cpy_path nidx (path xp);;
    vupd nidx (set_dots oidx (-1));;
    x ← vget i; xd ← vget (ddot x);
    vupd nidx (set_next (-1));; vupd nidx (set_child (child xd));;
    vupd nidx (set_next_link nidx);; vupd nidx (set_prev_link nidx);; vupd nidx (set_linkcnt 1);;
    vupd nidx (set_mode TYPE_LINK);;
    x ← vget i; xd ← vget (dot x); add_link (child xd) nidx;;
    mret (FillSt oidx (f_dot f) nidx (f_next f))
  else
    assert (bool_decide (f_dot f ≠ -1 ∧ f_ddot f ≠ -1)%Z);;
    o ← vget oidx;
    assert (bool_decide (next o = -1)%Z);;
    vupd oidx (set_next nidx);;
    cpy_name nidx (d_name e);;
    x ← vget i; cpy_path nidx (path x);;
    cat_path nidx (d_name e);;
    (if decide (Z.land (d_mode e) TYPE_DIR ≠ 0)%Z then cat_path nidx "/" else mret tt);;
    vupd nidx (set_dots (f_dot f) (f_ddot f));;
    vupd nidx (set_next (-1));; vupd nidx (set_child (-1));;
    vupd nidx (set_next_link nidx);; vupd nidx (set_prev_link nidx);; vupd nidx (set_linkcnt 1);;
    vupd nidx (set_mode (d_mode e));;
    mret f);
  vupd nidx (set_ridx (d_ridx e));;
  x ← vget i; vupd nidx (set_fs (fs_type x) (fs x));;
  if item_match (d_name e) rest flen then
    assert (bool_decide (f_next f = -1)%Z);;
    mret (FillSt nidx (f_dot f) (f_ddot f) nidx)
  else mret (FillSt nidx (f_dot f) (f_ddot f) (f_next f)).

(** [while ((ret = readdir(..., ++kth, &buf))) ...]; each round takes a vinode,
    so more rounds than vinodes end in its assertion. *)
Fixpoint fill_loop (fuel : nat) (i : Z) (rest : string) (flen : nat) (kth : Z) (f : fill_st) : V fill_st :=
  match fuel with
  | O => fail OutOfFuel
  | Datatypes.S n =>
      x ← vget i;
      e ← fs_readdir (fs x) (ridx x) (kth + 1);
      match e with
      | None => mret f
      | Some e => f' ← fill_entry i rest flen e f; fill_loop n i rest flen (kth + 1) f'
      end
  end.

Definition fill_fuel : nat := Datatypes.S (Datatypes.S MAX_VINODE).

(** [lookup_auto]: the vinode, or -1, and what is left in the path buffer.  Every
    call after the first has matched one more item of the path. *)
Fixpoint lookup_auto (fuel : nat) (p : string) : V (Z * string) :=
  match fuel with
  | O => fail OutOfFuel
  | Datatypes.S n =>
      let p := strip_slash p in
      '(flag, i, off) ← lookup_path p;
      if flag : bool then mret (i, p)
      else
        let rest := sdrop off p in
        let flen := first_item_len rest in
        x ← vget i;
        match fs x with
        | None => mret ((-1)%Z, p)
        | Some _ =>
            if decide (child x ≠ -1)%Z then mret ((-1)%Z, p)
            else
              f ← fill_loop fill_fuel i rest flen 0 (FillSt (-1) (-1) (-1) (-1));
              if decide (f_next f = -1)%Z then mret ((-1)%Z, p)
              else
                '(_, _, noff) ← lookup_path p;
                assert (bool_decide (off < noff));;
                lookup_auto n p
        end
  end.

Definition lookup (p : string) : V (Z * string) := lookup_auto (Datatypes.S (Datatypes.S (String.length p))) p.
Definition lookup_idx (p : string) : V Z := '(i, _) ← lookup p; mret i.

(** ** Building directories *)

Definition build_dot (dot_ ddot_ cur t : Z) (f : option nat) : V unit :=
  cpy_name dot_ ".";;
  c ← vget cur; cpy_path dot_ (path c);;
  vupd dot_ (set_dots (-1) ddot_);;
  vupd dot_ (set_next ddot_);; vupd dot_ (set_child cur);;
  vupd dot_ (set_next_link dot_);; vupd dot_ (set_prev_link dot_);; vupd dot_ (set_linkcnt 1);;
  vupd dot_ (set_mode TYPE_LINK);; add_link cur dot_;;
  vupd dot_ (set_fs t f).

Definition build_ddot (dot_ ddot_ parent t : Z) (f : option nat) : V unit :=
  cpy_name ddot_ "..";;
  c ← vget parent; cpy_path ddot_ (path c);;
  vupd ddot_ (set_dots dot_ (-1));;
  vupd ddot_ (set_next (-1));; vupd ddot_ (set_child parent);;
  vupd ddot_ (set_next_link ddot_);; vupd ddot_ (set_prev_link ddot_);; vupd ddot_ (set_linkcnt 1);;
  vupd ddot_ (set_mode TYPE_LINK);; add_link parent ddot_;;
  vupd ddot_ (set_fs t f).

(** [build_general_null_dir] and [build_general_file] differ by the slash that
    ends a directory's path. *)
Definition build_general (is_dir : bool) (i dot_ ddot_ : Z) (nm : string) (m t : Z) (f : option nat) : V unit :=
  cpy_name i nm;;
  d ← vget dot_; cpy_path i (path d);;
  cat_path i nm;;
  (if is_dir then cat_path i "/" else mret tt);;
  vupd i (set_dots dot_ ddot_);;
  vupd i (set_next (-1));; vupd i (set_child (-1));;
  vupd i (set_next_link i);; vupd i (set_prev_link i);;
  vupd i (set_linkcnt 1);;
  vupd i (set_mode m);;
  vupd i (set_fs t f).

Definition build_root : V Z :=
  i ← vinodes_alloc; dot_ ← vinodes_alloc; ddot_ ← vinodes_alloc;
  assert (bool_decide (i = VFS_ROOT));;
  cpy_name i "/";; cpy_path i "/";;
  vupd i (set_ridx (-1));;
  vupd i (set_dots (-1) (-1));;
  vupd i (set_next (-1));; vupd i (set_child dot_);;
  vupd i (set_next_link i);; vupd i (set_prev_link i);;
  vupd i (set_linkcnt 1);;
  vupd i (set_mode TYPE_DIR);;
  vupd i (set_fs VFS None);;
  build_dot dot_ ddot_ i VFS None;;
  build_ddot dot_ ddot_ i VFS None;;
  mret i.

(** The loop of [append_dir] and [append_file]: the last child and the "." and
    ".." entries met before it. *)
Fixpoint chain_last (fuel : nat) (k dot_ ddot_ : Z) : V (Z * Z * Z) :=
  match fuel with
  | O => fail OutOfFuel
  | Datatypes.S n =>
      x ← vget k;
      if decide (next x = -1)%Z then mret (k, dot_, ddot_)
      else if decide (name x = ".") then chain_last n (next x) k (next x)
      else chain_last n (next x) dot_ ddot_
  end.

Definition append (is_dir : bool) (par : Z) (nm : string) (m t : Z) (f : option nat) : V Z :=
  nidx ← vinodes_alloc;
  p ← vget par;
  assert (bool_decide (child p ≠ -1)%Z);;
  '(k, dot_, ddot_) ← chain_last chain_fuel (child p) (-1) (-1);
  assert (bool_decide (dot_ ≠ -1 ∧ ddot_ ≠ -1)%Z);;
  vupd k (set_next nidx);;
  build_general is_dir nidx dot_ ddot_ nm m t f;;
  mret nidx.

Definition append_dir := append true.
Definition append_file := append false.

Definition prepare_dir (i par t : Z) (f : option nat) : V Z :=
  dot_ ← vinodes_alloc; ddot_ ← vinodes_alloc;
  x ← vget i;
  assert (bool_decide (child x = -1)%Z);;
  vupd i (set_child dot_);;
  build_dot dot_ ddot_ i t f;;
  build_ddot dot_ ddot_ par t f;;
  mret dot_.

(** [for (; vinodes[pre].next != idx;) pre = vinodes[pre].next]. *)
Fixpoint chain_pre (fuel : nat) (i pre : Z) : V Z :=
  match fuel with
  | O => fail OutOfFuel
  | Datatypes.S n => x ← vget pre; if decide (next x = i) then mret pre else chain_pre n i (next x)
  end.

Fixpoint delete_chain (fuel : nat) (k : Z) : V unit :=
  match fuel with
  | O => fail OutOfFuel
  | Datatypes.S n =>
      if decide (k = -1)%Z then mret tt
      else delete_vinode k;; x ← vget k; delete_chain n (next x)
  end.

Definition remove_dir (i par : Z) : V Z :=
  p ← vget par;
  pre ← chain_pre chain_fuel i (child p);
  x ← vget i; vupd pre (set_next (next x));;
  x ← vget i; delete_chain chain_fuel (child x);;
  delete_vinode i;;
  mret 0%Z.

(** ** Mounted file systems *)

Definition filesys_alloc : V Z :=
  s ← get;
  match first_index (λ x, bool_decide (fname x = "")) (filesys s) with
  | Some i => mret (Z.of_nat i)
  | None => mret (-1)%Z
  end.

Definition put_filesys (i : Z) (x : filesystem D) : V unit :=
  s ← get; l ← deref OutOfBounds (aset (filesys s) i x); modify (set_filesys l).

Definition filesys_free (i : Z) : V unit :=
  s ← get; x ← deref OutOfBounds (aget (filesys s) i);
  put_filesys i (Filesystem "" (rfs x) (rfs_ptr x) (fsops x)).

Definition SIZEOF_EXT2 : Z := 2256.

(** [vfs_init_blockdev(name, dev, sizeof(ext2_t), ext2_init, ext2_readdir)]. *)
Definition vfs_init_blockdev (nm : string) (d : D) : V Z :=
  i ← filesys_alloc;
  nm ← strcpy_buf NAME_lENGTH nm;
  p ← zoom vpmm set_vpmm (kalloc SIZEOF_EXT2);
  '(_, e) ← lift (ext2_init nm d (ext2_zero d));
  put_filesys i (Filesystem nm (Some e) p ext2_ops);;
  mret i.

Definition vfs_init_procfs : V Z :=
  i ← filesys_alloc;
  put_filesys i (Filesystem "procfs" None 0 procfs_ops);;
  zoom vprocfs set_vprocfs procfs_init;;
  mret i.

(** ** Open files *)

Definition files_alloc : V Z :=
  s ← get;
  match first_index (λ x, bool_decide (refcnt x = 0)%Z) (files s) with
  | Some i => mret (Z.of_nat i)
  | None => mret (-1)%Z
  end.

Definition fget (fd : Z) : V file_t := s ← get; deref OutOfBounds (aget (files s) fd).
Definition fput (fd : Z) (x : file_t) : V unit :=
  s ← get; l ← deref OutOfBounds (aset (files s) fd x); modify (set_files l).
Definition files_free (fd : Z) : V unit := x ← fget fd; fput fd (File 0 (vinode_idx x) (offset x)).

Definition vinode_open (i : Z) : V Z :=
  fd ← files_alloc;
  if decide (fd = -1)%Z then mret (-1)%Z
  else
    x ← fget fd;
    fput fd (File (refcnt x + 1) i 0);;
    mret fd.

(** ** The interface *)

(** [strcpy(tmppath, path)]. *)
Definition TMPPATH : nat := 1024.
Definition cpy_tmp (p : string) : V string := strcpy_buf TMPPATH p.

(** [vfs_access]: the value returned and what it leaves in [tmppath]. *)
Definition access_tmp (p : string) (md : Z) : V (Z * string) :=
  t ← cpy_tmp p;
  '(i, t) ← lookup t;
  if decide (i = -1)%Z then mret (1%Z, t)
  else
    x ← vget i;
    mret ((if decide (Z.land (mode x) md = md) then 0 else 1)%Z, t).
Definition vfs_access (p : string) (md : Z) : V Z := '(r, _) ← access_tmp p md; mret r.

Definition vfs_getpath (p : string) : V string :=
  t ← cpy_tmp p; i ← lookup_idx t; x ← vget i; mret (path x).

(** [strlen(path) - last_item_len(path) - 1]. *)
Definition dir_offset (p : string) : V nat :=
  n ← last_item_len p; mret (String.length p - n - 1).

Definition vfs_mount (filename dirname : string) : V Z :=
  a ← vfs_access filename (Z.lor TYPE_FILE MNT_ABLE);
  if decide (a ≠ 0)%Z then mret 1%Z else
  b ← vfs_access dirname TYPE_DIR;
  if decide (b = 0)%Z then mret 2%Z else
  t ← cpy_tmp filename; file ← lookup_idx t;
  t ← cpy_tmp dirname;
  off ← dir_offset dirname;
  par ← lookup_idx (stake off t);
  f ← vget file;
  nidx ← append_dir par (sdrop (off + 1) t) (Z.lor TYPE_DIR UNMNT_ABLE) (fs_type f) (fs f);
  vupd file (λ x, set_mode (Z.land (mode x) (Z.lnot MNT_ABLE)) x);;
  vupd nidx (set_linkcnt file);;
  f ← vget file;
  (if decide (fs_type f = EXT2FS) then vupd nidx (set_ridx EXT2_ROOT) else mret tt);;
  mret 0%Z.

Definition vfs_unmount (p : string) : V Z :=
  a ← vfs_access p (Z.lor TYPE_DIR UNMNT_ABLE);
  if decide (a ≠ 0)%Z then mret 1%Z else
  t ← cpy_tmp p;
  '(i, t) ← lookup t;
  off ← dir_offset p;
  par ← lookup_idx (stake off t);
  x ← vget i;
  let file := linkcnt x in
  vupd file (λ x, set_mode (Z.lor (mode x) MNT_ABLE) x);;
  remove_dir i par;;
  mret 0%Z.

Definition vfs_init (d0 d1 : D) : V Z :=
  root ← build_root;
  dev ← append_dir root "dev" TYPE_DIR VFS None;
  mnt ← append_dir root "mnt" TYPE_DIR VFS None;
  procfs ← vfs_init_procfs;
  r0fs ← vfs_init_blockdev "ramdisk0" d0;
  r1fs ← vfs_init_blockdev "ramdisk1" d1;
  prepare_dir dev root VFS None;;
  prepare_dir mnt root VFS None;;
  append_dir root "proc" TYPE_DIR PROCFS (Some (Z.to_nat procfs));;
  append_file dev "ramdisk0" (Z.lor TYPE_FILE MNT_ABLE) EXT2FS (Some (Z.to_nat r0fs));;
  append_file dev "ramdisk1" (Z.lor TYPE_FILE MNT_ABLE) EXT2FS (Some (Z.to_nat r1fs));;
  append_file dev "tty1" (Z.lor TYPE_FILE WR_ABLE) TTY None;;
  append_file dev "tty2" (Z.lor TYPE_FILE WR_ABLE) TTY None;;
  append_file dev "tty3" (Z.lor TYPE_FILE WR_ABLE) TTY None;;
  append_file dev "tty4" (Z.lor TYPE_FILE WR_ABLE) TTY None;;
  vfs_mount "/dev/ramdisk0" "/R0";;
  vfs_mount "/dev/ramdisk1" "/mnt/R1";;
  mret 0%Z.

Definition vfs_create (p : string) : V Z :=
  let off := vfs_help_getpathlen p in
  if decide (String.length p = off) then mret 1%Z else
  t ← cpy_tmp p;
  i ← lookup_idx (stake off t);
  x ← vget i;
  if decide (fs_type x = EXT2FS) then
    r ← on_ext2 (fs x) (ext2_create (ridx x) (string_bytes (sdrop (off + 1) t)) TYPE_DIR);
    nidx ← append_dir i (sdrop (off + 1) t) TYPE_DIR (fs_type x) (fs x);
    prepare_dir nidx i (fs_type x) (fs x);;
    vupd nidx (set_ridx r);;
    mret 0%Z
  else mret 2%Z.

Definition has_dot (s : string) : bool :=
  existsb (λ c, bool_decide (c = Ascii.ascii_of_nat 46)) (String.list_ascii_of_string s).

(** The name is what follows the slash: the first lookup changes at most a slash
    at the end of the path, which is then the one at [off]. *)
Definition vfs_remove (p : string) : V Z :=
  let off := vfs_help_getpathlen p in
  if decide (String.length p = off) then mret 1%Z else
  t ← cpy_tmp p;
  '(nidx, t') ← lookup t;
  i ← lookup_idx (stake off t');
  let nm := sdrop (off + 1) t in
  let md := if has_dot nm then TYPE_FILE else TYPE_DIR in
  x ← vget i;
  if decide (fs_type x = EXT2FS) then
    r ← on_ext2 (fs x) (ext2_remove (ridx x) (string_bytes nm) md);
    if decide (r = 0)%Z then remove_dir nidx i;; mret 0%Z else mret 3%Z
  else mret 2%Z.

Definition vfs_link (oldpath newpath : string) : V Z :=
  t ← cpy_tmp oldpath; oidx ← lookup_idx t;
  if decide (oidx = -1)%Z then mret 1%Z else
  t ← cpy_tmp newpath;
  '(nidx, t') ← lookup t;
  if decide (nidx ≠ -1)%Z then mret 2%Z else
  off ← dir_offset newpath;
  par ← lookup_idx (stake off t');
  nidx ← append_dir par (sdrop (off + 1) t') TYPE_LINK VFS None;
  o ← vget oidx;
  (if decide (Z.land (mode o) TYPE_FILE ≠ 0)%Z
   then vupd nidx (λ x, set_path (stake (String.length (path x) - 1) (path x)) x) else mret tt);;
  add_link oidx nidx;;
  mret 0%Z.

Definition vfs_unlink (p : string) : V Z :=
  t ← cpy_tmp p;
  off ← dir_offset p;
  par ← lookup_idx (stake off t);
  let nm := sdrop (off + 1) t in
  d ← vget par;
  k ← chain_find chain_fuel (λ x, bool_decide (nm = name x)) (child d);
  if decide (k = -1)%Z then mret 1%Z else
  x ← vget k;
  assert (bool_decide (name x ≠ "."));;
  assert (bool_decide (name x ≠ ".."));;
  (if decide (Z.land (mode x) TYPE_LINK ≠ 0)%Z then
     remove_link k;; remove_dir k par;; mret tt
   else if decide (prev_link x ≠ k) then
     let l := prev_link x in
     vupd l (set_mode (mode x));;
     x ← vget k; vupd l (set_ridx (ridx x));;
     x ← vget k; vupd l (λ y, set_fs (fs_type y) (fs x) y);;
     x ← vget k; vupd l (λ y, set_fs (fs_type x) (fs y) y);;
     remove_link k;; remove_dir k par;; mret tt
   else vfs_remove p;; mret tt);;
  mret 0%Z.

Definition vfs_open (p : string) (md : Z) : V Z :=
  '(a, t) ← access_tmp p md;
  if decide (a ≠ 0)%Z then mret (-1)%Z
  else i ← lookup_idx t; vinode_open i.

(** The bytes read; the value returned is their number.  [ncpu] is [_ncpu()]. *)
Definition vfs_read (ncpu fd nbyte : Z) : V (list Z) :=
  if decide (fd < 0)%Z then mret [] else
  assert (bool_decide (nbyte ≤ 1024)%Z);;
  f ← fget fd;
  x ← vget (vinode_idx f);
  if decide (fs_type x = EXT2FS) then
    out ← on_ext2 (fs x) (ext2_read (ridx x) (offset f) nbyte);
    fput fd (File (refcnt f) (vinode_idx f) (u64 (offset f + Z.of_nat (length out))));;
    mret out
  else if decide (fs_type x = PROCFS) then
    txt ← zoom vprocfs set_vprocfs (procfs_read ncpu (ridx x) (offset f));
    let out := string_bytes txt in
    fput fd (File (refcnt f) (vinode_idx f) (u64 (offset f + Z.of_nat (length out))));;
    mret out
  else mret [].

Definition vfs_write (fd : Z) (buf : list Z) (nbyte : Z) : V Z :=
  if decide (fd < 0)%Z then mret 0%Z else
  assert (bool_decide (nbyte ≤ 1024)%Z);;
  f ← fget fd;
  x ← vget (vinode_idx f);
  if decide (fs_type x = EXT2FS) then
    n ← on_ext2 (fs x) (ext2_write (ridx x) (offset f) buf nbyte);
    fput fd (File (refcnt f) (vinode_idx f) (u64 (offset f + n)));;
    mret n
  else if decide (fs_type x = TTY) then
    n ← zoom ttys set_ttys (tty_write (name x) (take (Z.to_nat nbyte) buf));
    fput fd (File (refcnt f) (vinode_idx f) (u64 (offset f + n)));;
    mret n
  else mret 0%Z.

Definition vfs_lseek (fd off whence : Z) : V Z := mret 0%Z.
Definition vfs_close (fd : Z) : V Z := mret 0%Z.

(** [vfs_ls(dirname, outbuf)]: the text, or [None] when [outbuf] is left as it was. *)
Definition ls_rule : string := "-----------------------------------------------------------" +:+ KStdio.nl.
Definition ls_line (fmt : string) (k : Z) (x : vinode) : V string :=
  sprintf_m fmt [VLong k; VStr (chars (name x)); VStr (chars (path x))].

Fixpoint ls_lines (fuel : nat) (k : Z) : V string :=
  match fuel with
  | O => fail OutOfFuel
  | Datatypes.S n =>
      if decide (k = -1)%Z then mret ""
      else
        x ← vget k;
        l ← ls_line ("-    %4d         %12s          %s" +:+ KStdio.nl) k x;
        rest ← ls_lines n (next x);
        mret (l +:+ rest)
  end.

Definition vfs_ls (dirname : string) : V (option string) :=
  i ← lookup_idx dirname;
  if decide (i = -1)%Z then mret None
  else
    x ← vget i;
    hd ← sprintf_m ("      index       name                  path        " +:+ KStdio.nl) [];
    l ← ls_line (">>   %4d         %12s          %s" +:+ KStdio.nl +:+ KStdio.nl) i x;
    rest ← ls_lines chain_fuel (child x);
    mret (Some (ls_rule +:+ hd +:+ l +:+ rest +:+ ls_rule)).
End vfs.
