(* ===== verification/VfsProps.v ===== *)
(** * Properties of the virtual file system

    The rings of links, path resolution against a walk component by component,
    and the life of a file descriptor. *)
From S2P Require Import Prelude Bytes Common KStdio Procfs Alloc KString Device Ext2 Ext2Props Vfs.

Section props.
Context {D T : Type} `{!BlockDevice D}.
Notation st := (vfs_st D T).

(** ** Vinode accesses *)

Lemma wp_vget (i : Z) x (Q : vinode → st → Prop) s :
  aget (vinodes s) i = Some x → Q x s → wp (vget i) Q s.
Proof. intros Hx HQ. unfold vget. by wp_steps. Qed.

Lemma wp_vupd (i : Z) f x (Q : unit → st → Prop) s :
  aget (vinodes s) i = Some x →
  Q tt (set_vinodes (<[Z.to_nat i := f x]> (vinodes s)) s) → wp (vupd i f) Q s.
Proof.
  intros Hx HQ. unfold vupd. wp_steps. eapply wp_vget; [done|]. wp_steps.
  eapply wp_deref; [apply aset_Some; by eapply aget_lt|]. by wp_steps.
Qed.

(** The value of a member of vinode [i]. *)
Definition field_of {A} (g : vinode → A) (vs : list vinode) (i : Z) : option A := g <$> aget vs i.

Lemma aget_vupd vs i j (f : vinode → vinode) x :
  aget vs i = Some x →
  aget (<[Z.to_nat i := f x]> vs) j = (if decide (i = j) then Some (f x) else aget vs j).
Proof.
  intros Hi. pose proof (aget_lt _ _ _ Hi). case_decide as Hij.
  - subst j. eapply aget_aset_eq. by apply aset_Some.
  - eapply aget_aset_ne; [|done]. by apply aset_Some.
Qed.

Lemma field_vupd {A} (g : vinode → A) vs i j f x :
  aget vs i = Some x →
  field_of g (<[Z.to_nat i := f x]> vs) j = (if decide (i = j) then Some (g (f x)) else field_of g vs j).
Proof. intros Hi. unfold field_of. rewrite (aget_vupd _ _ _ _ _ Hi). by case_decide. Qed.

Lemma field_Some {A} (g : vinode → A) vs i v :
  field_of g vs i = Some v ↔ ∃ x, aget vs i = Some x ∧ g x = v.
Proof. unfold field_of. rewrite fmap_Some. naive_solver. Qed.

(** ** Rings of links *)

(** Consecutive elements of [l] are linked both ways. *)
Fixpoint links (vs : list vinode) (l : list Z) : Prop :=
  match l with
  | a :: (b :: _) as l' =>
      field_of next_link vs a = Some b ∧ field_of prev_link vs b = Some a ∧ links vs l'
  | _ => True
  end.

(** The names of one file: [o] and, in the order of [next_link], [l]. *)
Definition ring (vs : list vinode) (o : Z) (l : list Z) : Prop :=
  NoDup (o :: l) ∧ links vs (o :: l ++ [o]).

Lemma links_frame vs vs' a l z :
  (∀ i, i ∈ a :: l → field_of next_link vs' i = field_of next_link vs i) →
  (∀ i, i ∈ l ++ [z] → field_of prev_link vs' i = field_of prev_link vs i) →
  links vs (a :: l ++ [z]) → links vs' (a :: l ++ [z]).
Proof.
  revert a. induction l as [|b l IH]; intros a Hn Hp; simpl.
  - intros (H1 & H2 & _). rewrite Hn, Hp by set_solver. done.
  - intros (H1 & H2 & H3). rewrite Hn, Hp by set_solver. split_and!; [done..|].
    apply IH; [set_solver..|done].
Qed.

Lemma ring_aget vs o l i : ring vs o l → i ∈ o :: l → ∃ x, aget vs i = Some x.
Proof.
  intros [_ Hl]. revert Hl. generalize o at 1 3 as a.
  induction l as [|b l IH]; intros a Hl Hi; simpl in Hl.
  - destruct Hl as ((x & ? & _)%field_Some & _). exists x. by replace i with a by set_solver.
  - destruct Hl as ((x & ? & _)%field_Some & _ & Hl).
    apply elem_of_cons in Hi as [->|Hi]; [by exists x|]. by apply (IH b).
Qed.

Lemma links_app vs l1 a l2 : links vs (l1 ++ a :: l2) ↔ links vs (l1 ++ [a]) ∧ links vs (a :: l2).
Proof.
  induction l1 as [|b l1 IH]; simpl; [tauto|].
  destruct l1 as [|c l1]; simpl in *; tauto.
Qed.

(** [vs'] is [vs] with vinode [i] changed to [x]. *)
Definition changed (vs : list vinode) (i : Z) (x : vinode) (vs' : list vinode) : Prop :=
  ∀ j, aget vs' j = if decide (i = j) then Some x else aget vs j.

Lemma wp_vupd_changed (i : Z) f x (Q : unit → st → Prop) s :
  aget (vinodes s) i = Some x →
  (∀ vs', changed (vinodes s) i (f x) vs' → Q tt (set_vinodes vs' s)) → wp (vupd i f) Q s.
Proof. intros Hx HQ. eapply wp_vupd; [done|]. apply HQ. intros j. by apply aget_vupd. Qed.

(** Looks a vinode up through the changes recorded in the context. *)
Ltac look :=
  cbn [vinodes set_vinodes];
  repeat match goal with
  | H : changed _ _ _ ?vs |- context [aget ?vs _] => rewrite H
  end;
  repeat case_decide; simplify_eq; try done; try set_solver; try congruence; eauto.

Lemma add_link_run (s : st) o n xo xn xb :
  aget (vinodes s) o = Some xo → aget (vinodes s) n = Some xn →
  aget (vinodes s) (next_link xo) = Some xb → n ≠ o → n ≠ next_link xo →
  wp (add_link o n) (λ _ s', ∀ j, aget (vinodes s') j =
    if decide (j = n) then Some (set_prev_link o (set_next_link (next_link xo) xn))
    else if decide (j = next_link xo) then
      Some (set_prev_link n (if decide (j = o) then set_next_link n xo else xb))
    else if decide (j = o) then Some (set_next_link n xo)
    else aget (vinodes s) j) s.
Proof.
  intros Ho Hn Hb Hno Hnb. unfold add_link. wp_step. eapply wp_vget; [done|].
  wp_step. eapply wp_vupd_changed; [done|]. intros vs1 H1.
  wp_step. eapply wp_vupd_changed; [look|]. intros vs2 H2.
  wp_step. eapply wp_vupd_changed; [look|]. intros vs3 H3.
  eapply (wp_vupd_changed _ _ (if decide (next_link xo = o) then set_next_link n xo else xb)); [look|].
  intros vs4 H4 j. look.
Qed.

Lemma remove_link_run (s : st) p n xp xn xb :
  aget (vinodes s) n = Some xn → prev_link xn = p →
  aget (vinodes s) p = Some xp → aget (vinodes s) (next_link xn) = Some xb →
  n ≠ p → n ≠ next_link xn →
  wp (remove_link n) (λ _ s', ∀ j, aget (vinodes s') j =
    if decide (j = next_link xn) then
      Some (set_prev_link p (if decide (j = p) then set_next_link (next_link xn) xp else xb))
    else if decide (j = p) then Some (set_next_link (next_link xn) xp)
    else aget (vinodes s) j) s.
Proof.
  intros Hn <- Hp Hb Hnp Hnb. unfold remove_link. wp_step. eapply wp_vget; [done|].
  wp_step. eapply wp_vget; [done|].
  wp_step. eapply wp_vupd_changed; [done|]. intros vs1 H1.
  wp_step. eapply (wp_vget _ xn); [look|].
  eapply (wp_vupd_changed _ _ (if decide (next_link xn = prev_link xn) then set_next_link (next_link xn) xp else xb)); [look|].
  intros vs2 H2 j. look.
Qed.

Lemma links_enter vs vs' o n b l r :
  l ++ [o] = b :: r → NoDup (o :: n :: l) → links vs (o :: b :: r) →
  (∀ j, j ≠ o → j ≠ n → field_of next_link vs' j = field_of next_link vs j) →
  (∀ j, j ≠ b → j ≠ n → field_of prev_link vs' j = field_of prev_link vs j) →
  field_of next_link vs' o = Some n → field_of prev_link vs' n = Some o →
  field_of next_link vs' n = Some b → field_of prev_link vs' b = Some n →
  links vs' (o :: n :: b :: r).
Proof.
  intros Hb [Ho [Hn Hnd]%NoDup_cons]%NoDup_cons (_ & _ & Hl) F1 F2 G1 G2 G3 G4.
  do 4 (split; [done|]). destruct l as [|b' l]; simplify_eq/=; [done|].
  apply NoDup_cons in Hnd as [Hbl Hnd]. apply (links_frame vs vs' b l o); [| |done].
  - intros i Hi. apply F1; set_solver.
  - intros i Hi. apply F2; set_solver.
Qed.

Lemma links_bypass vs vs' o p b A B l1 n l2 :
  o :: l1 = A ++ [p] → l2 ++ [o] = b :: B → NoDup (o :: l1 ++ n :: l2) →
  links vs (A ++ p :: n :: b :: B) →
  (∀ j, j ≠ p → field_of next_link vs' j = field_of next_link vs j) →
  (∀ j, j ≠ b → field_of prev_link vs' j = field_of prev_link vs j) →
  field_of next_link vs' p = Some b → field_of prev_link vs' b = Some p →
  links vs' (A ++ p :: b :: B).
Proof.
  intros HA HB Hnd [HlA Hl]%links_app F1 F2 G1 G2.
  destruct Hl as (_ & _ & _ & _ & HlB).
  apply NoDup_cons in Hnd as [Ho (Hnd1 & Hdisj & [Hn Hnd2]%NoDup_cons)%NoDup_app].
  apply links_app. split.
  - destruct A as [|o' A]; [done|]. simplify_eq/=.
    apply NoDup_app in Hnd1 as (_ & Hp & _).
    assert (b ∉ A ++ [p]) by (destruct l2; simplify_eq/=; set_solver).
    apply (links_frame vs vs' o' A p); [| |done].
    + intros i Hi. apply F1. set_solver.
    + intros i Hi. apply F2. set_solver.
  - do 2 (split; [done|]). destruct l2 as [|b' l2]; simplify_eq/=; [done|].
    assert (p ∈ o :: l1) by (rewrite HA; set_solver).
    apply NoDup_cons in Hnd2 as [Hb _]. apply (links_frame vs vs' b l2 o); [| |done].
    + intros i Hi. apply F1. set_solver.
    + intros i Hi. apply F2. set_solver.
Qed.

Lemma add_link_ring (s : st) o n l xn :
  ring (vinodes s) o l → n ∉ o :: l → aget (vinodes s) n = Some xn →
  wp (add_link o n) (λ _ s', ring (vinodes s') o (n :: l) ∧
    ∀ i, i ∉ o :: n :: l → aget (vinodes s') i = aget (vinodes s) i) s.
Proof.
  intros Hr Hn Hxn. pose proof Hr as [Hnd Hl].
  assert (∃ b r, l ++ [o] = b :: r ∧ b ∈ o :: l) as (b & r & Hb & Hin).
  { destruct l as [|b l]; [exists o, []|exists b, (l ++ [o])]; set_solver. }
  destruct (ring_aget _ _ _ o Hr) as [xo Hxo]; [set_solver|].
  destruct (ring_aget _ _ _ b Hr Hin) as [xb Hxb].
  rewrite Hb in Hl. pose proof Hl as ((? & ? & Hnext)%field_Some & _ & _). simplify_eq.
  assert (Hno : n ≠ o) by set_solver. assert (Hnb : n ≠ next_link xo) by set_solver.
  eapply wp_mono; [by apply (add_link_run _ _ _ xo xn xb)|]. intros [] s' Hs.
  assert (Hnd' : NoDup (o :: n :: l)) by (apply NoDup_cons in Hnd as [??]; rewrite !NoDup_cons; split_and!; [set_solver..|done]).
  split; [split; [done|]|].
  - simpl. rewrite Hb. eapply links_enter; [done..| | | | | |];
      intros; unfold field_of; rewrite ?Hs; repeat case_decide; simplify_eq; try done;
      by rewrite ?Hxo, ?Hxb.
  - intros i Hi. rewrite Hs. repeat case_decide; set_solver.
Qed.

Lemma remove_link_ring (s : st) o l1 n l2 :
  ring (vinodes s) o (l1 ++ n :: l2) →
  wp (remove_link n) (λ _ s', ring (vinodes s') o (l1 ++ l2) ∧
    ∀ i, i ∉ o :: l1 ++ l2 → aget (vinodes s') i = aget (vinodes s) i) s.
Proof.
  intros Hr. pose proof Hr as [Hnd Hl].
  assert (∃ b B, l2 ++ [o] = b :: B ∧ b ∈ o :: l2) as (b & B & HB & Hb).
  { destruct l2 as [|b l]; [exists o, []|exists b, (l ++ [o])]; set_solver. }
  assert (∃ p A, o :: l1 = A ++ [p] ∧ p ∈ o :: l1) as (p & A & HA & Hp).
  { destruct (exists_last (l := o :: l1)) as (A & p & HA); [done|]. exists p, A. rewrite HA. set_solver. }
  assert (Hl' : links (vinodes s) (A ++ p :: n :: b :: B)).
  { rewrite <-HB, cons_middle, (assoc_L (++)), <-HA. by simplify_list_eq. }
  pose proof Hl' as [_ ((xp & Hxp & _)%field_Some & (xn & Hxn & Hpn)%field_Some & (? & ? & Hnn)%field_Some & (xb & Hxb & _)%field_Some & _)]%links_app.
  simplify_eq.
  pose proof Hnd as [Ho (Hnd1 & Hdisj & [Hn Hnd2]%NoDup_cons)%NoDup_app]%NoDup_cons.
  assert (Hnp : n ≠ prev_link xn) by set_solver. assert (Hnb : n ≠ next_link xn) by set_solver.
  eapply wp_mono; [by apply (remove_link_run _ (prev_link xn) _ xp xn xb)|]. intros [] s' Hs.
  split; [split|].
  - apply NoDup_cons. split; [set_solver|]. apply NoDup_app. set_solver.
  - replace (o :: (l1 ++ l2) ++ [o]) with (A ++ prev_link xn :: next_link xn :: B)
      by (rewrite <-HB, cons_middle, (assoc_L (++)), <-HA; by simplify_list_eq).
    apply (links_bypass (vinodes s) _ o _ _ A B l1 n l2); [done..| | | |];
      intros; unfold field_of; rewrite ?Hs; repeat case_decide; simplify_eq; try done;
      by rewrite ?Hxp, ?Hxb.
  - intros i Hi. rewrite Hs. repeat case_decide; set_solver.
Qed.

(** C14. The names of a file form a ring through [next_link] and [prev_link], and
    linking and unlinking keep it: [add_link] enters a vinode after the file,
    [remove_link] takes a vinode out of any place of the ring, and neither
    touches a vinode outside it. *)
Theorem links_ring (s : st) o l :
  ring (vinodes s) o l →
  (∀ n, n ∉ o :: l → is_Some (aget (vinodes s) n) →
     wp (add_link o n) (λ _ s', ring (vinodes s') o (n :: l) ∧
       ∀ i, i ∉ o :: n :: l → aget (vinodes s') i = aget (vinodes s) i) s) ∧
  (∀ l1 n l2, l = l1 ++ n :: l2 →
     wp (remove_link n) (λ _ s', ring (vinodes s') o (l1 ++ l2) ∧
       ∀ i, i ∉ o :: l1 ++ l2 → aget (vinodes s') i = aget (vinodes s) i) s).
Proof.
  intros Hr. split.
  - intros n Hn [x Hx]. by eapply add_link_ring.
  - intros l1 n l2 ->. by apply remove_link_ring.
Qed.

(** ** Path resolution leaves the open files alone *)

Definition keeps_files {A} (m : M st A) : Prop := ∀ s a s', m s = Ret (a, s') → files s' = files s.

Lemma kf_ret {A} (a : A) : keeps_files (mret a).
Proof. by intros s b s' [= _ <-]. Qed.
Lemma kf_fail {A} f : keeps_files (fail (A:=A) f).
Proof. done. Qed.
Lemma kf_get : keeps_files get.
Proof. by intros s b s' [= _ <-]. Qed.
Lemma kf_bind {A B} (m : M st A) (k : A → M st B) :
  keeps_files m → (∀ a, keeps_files (k a)) → keeps_files (m ≫= k).
Proof. intros Hm Hk s b s' (a & s1 & H1 & H2)%bind_inv. by rewrite (Hk _ _ _ _ H2), (Hm _ _ _ H1). Qed.
Lemma kf_modify f : (∀ s, files (f s) = files s) → keeps_files (modify f).
Proof. intros Hf s b s' [= _ <-]. apply Hf. Qed.
Lemma kf_deref {A} f (o : option A) : keeps_files (deref f o).
Proof. destruct o; [apply kf_ret|apply kf_fail]. Qed.
Lemma kf_assert b : keeps_files (assert b).
Proof. destruct b; [apply kf_ret|apply kf_fail]. Qed.
Lemma kf_lift {A} (r : res A) : keeps_files (lift r).
Proof. intros s b s'. unfold lift. destruct r; naive_solver. Qed.
Lemma kf_zoom {S A} (g : st → S) (p : S → st → st) (m : M S A) :
  (∀ v s, files (p v s) = files s) → keeps_files (zoom g p m).
Proof. intros Hp s b s'. unfold zoom. destruct (m (g s)) as [[a t]|]; [|done]. intros [= <- <-]. apply Hp. Qed.
Lemma kf_strcpy n src : keeps_files (strcpy_buf n src).
Proof. unfold strcpy_buf. case_decide; [apply kf_ret|apply kf_fail]. Qed.
End props.

(** The rules for the primitives are tried on every step; the operations proved
    so far are found in the database. *)
Create HintDb frame.
#[export] Hint Resolve kf_ret kf_fail kf_get kf_deref kf_assert kf_lift kf_strcpy : frame.

Ltac kf_step :=
  lazymatch goal with
  | |- keeps_files (_ ≫= _) => apply kf_bind; [|intros ?]
  | |- keeps_files (modify _) => apply kf_modify; by intros ?
  | |- keeps_files (zoom _ _ _) => apply kf_zoom; by intros ??
  | |- keeps_files (if ?b then _ else _) => destruct b
  | |- keeps_files (match ?x with _ => _ end) => destruct x
  | |- keeps_files ((λ _, _) _) => progress cbv beta
  | |- keeps_files _ => solve [auto with frame]
  end.
Ltac kf := repeat kf_step.

Section files.
Context {D T : Type} `{!BlockDevice D}.
Notation st := (vfs_st D T).

Lemma kf_vget i : keeps_files (D:=D) (T:=T) (vget i).
Proof. unfold vget. kf. Qed.
#[local] Hint Resolve kf_vget : frame.
Lemma kf_vupd i f : keeps_files (D:=D) (T:=T) (vupd i f).
Proof. unfold vupd. kf. Qed.
#[local] Hint Resolve kf_vupd : frame.
Lemma kf_cpy_name i nm : keeps_files (D:=D) (T:=T) (cpy_name i nm).
Proof. unfold cpy_name. kf. Qed.
Lemma kf_cpy_path i p : keeps_files (D:=D) (T:=T) (cpy_path i p).
Proof. unfold cpy_path. kf. Qed.
#[local] Hint Resolve kf_cpy_name kf_cpy_path : frame.
Lemma kf_cat_path i p : keeps_files (D:=D) (T:=T) (cat_path i p).
Proof. unfold cat_path. kf. Qed.
Lemma kf_add_link o n : keeps_files (D:=D) (T:=T) (add_link o n).
Proof. unfold add_link. kf. Qed.
Lemma kf_vinodes_alloc : keeps_files (D:=D) (T:=T) vinodes_alloc.
Proof. unfold vinodes_alloc. kf. Qed.
#[local] Hint Resolve kf_cat_path kf_add_link kf_vinodes_alloc : frame.
Lemma kf_chain_find n p k : keeps_files (D:=D) (T:=T) (chain_find n p k).
Proof. revert k. induction n; intros k; simpl; kf. Qed.
Lemma kf_follow_links n k : keeps_files (D:=D) (T:=T) (follow_links n k).
Proof. revert k. induction n; intros k; simpl; kf. Qed.
#[local] Hint Resolve kf_chain_find kf_follow_links : frame.
Lemma kf_lookup_cur n p cur off : keeps_files (D:=D) (T:=T) (lookup_cur n p cur off).
Proof. revert p cur off. induction n; intros p cur off; cbn [lookup_cur]; kf. Qed.
#[local] Hint Resolve kf_lookup_cur : frame.
Lemma kf_lookup_path p : keeps_files (D:=D) (T:=T) (lookup_path p).
Proof. unfold lookup_path. kf. Qed.
Lemma kf_fs_get f : keeps_files (D:=D) (T:=T) (fs_get f).
Proof. unfold fs_get. kf. Qed.
#[local] Hint Resolve kf_lookup_path kf_fs_get : frame.
Lemma kf_on_ext2 {A} f (m : M (ext2_t D) A) : keeps_files (T:=T) (on_ext2 f m).
Proof. unfold on_ext2. kf. Qed.
#[local] Hint Resolve kf_on_ext2 : frame.
Lemma kf_fs_readdir f r k : keeps_files (D:=D) (T:=T) (fs_readdir f r k).
Proof. unfold fs_readdir. kf. Qed.
Lemma kf_fill_entry i rest fl e f : keeps_files (D:=D) (T:=T) (fill_entry i rest fl e f).
Proof. unfold fill_entry. kf. Qed.
#[local] Hint Resolve kf_fs_readdir kf_fill_entry : frame.
Lemma kf_fill_loop n i rest fl k f : keeps_files (D:=D) (T:=T) (fill_loop n i rest fl k f).
Proof. revert k f. induction n; intros k f; cbn [fill_loop]; kf. Qed.
#[local] Hint Resolve kf_fill_loop : frame.
Lemma kf_lookup_auto n p : keeps_files (D:=D) (T:=T) (lookup_auto n p).
Proof. revert p. induction n; intros p; cbn [lookup_auto]; kf. Qed.
#[local] Hint Resolve kf_lookup_auto : frame.
Lemma kf_access_tmp p md : keeps_files (D:=D) (T:=T) (access_tmp p md).
Proof. unfold access_tmp, cpy_tmp, lookup. kf. Qed.
Lemma kf_lookup_idx p : keeps_files (D:=D) (T:=T) (lookup_idx p).
Proof. unfold lookup_idx, lookup. kf. Qed.

(** ** Descriptors *)

Definition is_free (f : file_t) : bool := bool_decide (refcnt f = 0)%Z.
Definition free_files (l : list file_t) : nat := length (filter (λ f, is_free f = true) l).

Lemma free_files_take l i f f' :
  l !! i = Some f → is_free f = true → is_free f' = false →
  S (free_files (<[i := f']> l)) = free_files l.
Proof.
  unfold free_files. intros Hf H1 H2. rewrite <-(take_drop_middle l i f Hf) at 2.
  rewrite insert_take_drop by (by eapply lookup_lt_Some).
  rewrite !filter_app, !filter_cons, !length_app, decide_False, decide_True by congruence. simpl. lia.
Qed.

Lemma vinode_open_run i (s s' : st) fd :
  length (files s) = MAX_FILE → vinode_open i s = Ret (fd, s') →
  (fd = (-1)%Z ∧ s' = s ∧ free_files (files s) = 0) ∨
  (first_index is_free (files s) = Some (Z.to_nat fd) ∧ (0 ≤ fd < 32)%Z ∧
   s' = set_files (<[Z.to_nat fd := File 1 i 0]> (files s)) s ∧
   S (free_files (files s')) = free_files (files s)).
Proof.
  intros Hlen Hrun. unfold vinode_open, files_alloc in Hrun.
  change (λ x, bool_decide (refcnt x = 0%Z)) with is_free in Hrun.
  apply bind_inv in Hrun as (fd' & s1 & H1 & H2). apply bind_inv in H1 as (s0 & s2 & [= <- <-] & H1).
  destruct (first_index is_free (files s)) as [k|] eqn:Hk.
  - pose proof Hk as [(f & Hf & Hfree) _]%first_index_Some.
    injection H1 as <- <-. rewrite decide_False in H2 by lia.
    pose proof (lookup_lt_Some _ _ _ Hf) as Hlt. rewrite Hlen in Hlt. unfold MAX_FILE in Hlt.
    assert (Hget : aget (files s) (Z.of_nat k) = Some f) by (apply aget_Some; rewrite Nat2Z.id; split; [lia|done]).
    apply bind_inv in H2 as (f' & s4 & H2 & H3).
    apply bind_inv in H2 as (s5 & s6 & [= <- <-] & H2). cbv beta in H2. rewrite Hget in H2. injection H2 as <- <-.
    apply bind_inv in H3 as ([] & s5 & H3 & [= <- <-]).
    apply bind_inv in H3 as (s6 & s7 & [= <- <-] & H3). cbv beta in H3.
    rewrite aset_Some in H3 by (rewrite Hlen; unfold MAX_FILE; lia). injection H3 as <-. right. rewrite Nat2Z.id.
    pose proof (proj1 (bool_decide_eq_true _) Hfree) as Hz. rewrite Hz. split_and!; [done|lia|lia|done|].
    eapply free_files_take; [done|done|done].
  - injection H1 as <- <-. rewrite decide_True in H2 by done. injection H2 as <- <-. left. split_and!; [done..|].
    unfold free_files. destruct (filter _ _) as [|f l] eqn:Hfl; [done|].
    assert (Hin : f ∈ filter (λ f, is_free f = true) (files s)) by (rewrite Hfl; set_solver).
    apply list_elem_of_filter in Hin as [Hf [j Hj]%list_elem_of_lookup].
    pose proof (proj1 (first_index_None _ _) Hk j f Hj). congruence.
Qed.

Lemma vfs_open_run p md (s s' : st) fd :
  length (files s) = MAX_FILE → vfs_open p md s = Ret (fd, s') →
  (fd = (-1)%Z ∧ files s' = files s) ∨
  (first_index is_free (files s) = Some (Z.to_nat fd) ∧ (0 ≤ fd < 32)%Z ∧
   (∃ i, files s' = <[Z.to_nat fd := File 1 i 0]> (files s)) ∧
   S (free_files (files s')) = free_files (files s)).
Proof.
  intros Hlen ((r & t) & s1 & Ha & Hrun)%bind_inv. apply kf_access_tmp in Ha.
  case_decide.
  - injection Hrun as <- <-. by left.
  - apply bind_inv in Hrun as (i & s2 & Hl & Hrun). apply kf_lookup_idx in Hl.
    rewrite <-Ha, <-Hl in Hlen.
    destruct (vinode_open_run _ _ _ _ Hlen Hrun) as [(-> & -> & _)|(H1 & H2 & -> & H3)].
    + left. by rewrite Hl, Ha.
    + right. rewrite <-Ha, <-Hl. split_and!; [done|lia|lia| |done]. by exists i.
Qed.

(** Opens each of the paths and closes it at once; the number of successes. *)
Fixpoint open_close_all (l : list (string * Z)) : M st nat :=
  match l with
  | [] => mret 0
  | (p, md) :: l' =>
      fd ← vfs_open p md; vfs_close fd;;
      n ← open_close_all l';
      mret (if decide (fd = -1)%Z then n else S n)
  end.

(** C21. A descriptor is the lowest free one and is never free again: [vfs_close]
    does nothing, so in any sequence of opens, each closed at once, the opens
    that succeed use up the free descriptors one by one, and from the table at
    boot at most [MAX_FILE] succeed. *)
Theorem descriptor_budget l (s s' : st) n :
  length (files s) = MAX_FILE → open_close_all l s = Ret (n, s') →
  n + free_files (files s') = free_files (files s) ∧ n ≤ MAX_FILE.
Proof.
  intros Hlen Hrun.
  assert (Hn : n + free_files (files s') = free_files (files s)).
  { revert s n Hlen Hrun. induction l as [|[p md] l IH]; intros s n Hlen Hrun; simpl in Hrun.
    - by injection Hrun as <- <-.
    - apply bind_inv in Hrun as (fd & s1 & Hop & Hrun).
      apply bind_inv in Hrun as (z & s2 & Hcl & Hrun). injection Hcl as <- <-.
      apply bind_inv in Hrun as (k & s3 & Hrec & Hrun). injection Hrun as <- <-.
      destruct (vfs_open_run _ _ _ _ _ Hlen Hop) as [[-> Hf]|(_ & Hfd & (i & Hi) & Hf)].
      + rewrite decide_True by done. rewrite <-Hf. apply IH; [by rewrite Hf|done].
      + rewrite decide_False by lia. rewrite <-Hf. simpl. f_equal. apply IH; [|done].
        by rewrite Hi, length_insert. }
  split; [done|].
  assert (free_files (files s) ≤ length (files s)) by apply length_filter.
  rewrite Hlen in *. lia.
Qed.
End files.

(** ** Path resolution *)

(** The items of a path: the pieces between slashes; a slash at the end adds none. *)
Fixpoint path_items (p : string) : list string :=
  match p with
  | String.EmptyString => []
  | String.String c p' =>
      if decide (c = slash) then "" :: path_items p'
      else match path_items p' with
           | [] => [String.String c ""]
           | it :: l => String.String c it :: l
           end
  end.

Lemma sdrop_sdrop n k p : sdrop n (sdrop k p) = sdrop (k + n) p.
Proof.
  revert p. induction k as [|k IH]; intros p; [done|].
  destruct p as [|c p]; simpl; [by destruct n|]. apply IH.
Qed.

Lemma sdrop_length n p : String.length (sdrop n p) = String.length p - n.
Proof.
  revert n. induction p as [|c p IH]; intros n; destruct n as [|n]; simpl; [done..|]. apply IH.
Qed.

Definition item_step (p : string) : nat :=
  first_item_len p + (if decide (char_at (first_item_len p) p = Some slash) then 1 else 0).

Lemma path_items_cons p : p ≠ "" →
  path_items p = stake (first_item_len p) p :: path_items (sdrop (item_step p) p) ∧ 0 < item_step p.
Proof.
  unfold item_step. induction p as [|c p IH]; intros Hp; [done|]. simpl. clear Hp.
  destruct (decide (c = slash)) as [->|Hc]; simpl.
  - split; [done|lia].
  - split; [|lia]. destruct (decide (p = "")) as [->|Hp]; [done|].
    destruct (IH Hp) as [-> _]. done.
Qed.

Lemma stake_full p : stake (String.length p) p = p.
Proof. induction p as [|c p IH]; [done|]. unfold stake in *. simpl. by rewrite IH. Qed.

Lemma first_item_len_stake p : String.length (stake (first_item_len p) p) = first_item_len p.
Proof.
  induction p as [|c p IH]; [done|]. unfold stake in *. simpl.
  case_decide; [done|]. simpl. by rewrite IH.
Qed.

(** An item matches a name only when it is the whole name. *)
Lemma item_match_iff nm p :
  item_match nm p (first_item_len p) = bool_decide (nm = stake (first_item_len p) p).
Proof.
  unfold item_match. rewrite <-bool_decide_and. apply bool_decide_ext. split.
  - intros [H Hl]. rewrite <-H, <-Hl. by rewrite stake_full.
  - intros ->. rewrite first_item_len_stake. split; [|done].
    rewrite <-(first_item_len_stake p) at 1. apply stake_full.
Qed.

Section resolve.
Context {D T : Type} `{!BlockDevice D}.
Notation st := (vfs_st D T).

(** The walk: from [cur], each item leads to the child of that very name and on
    along the links; it stops with the items left when no child has the name. *)
Fixpoint walk (l : list string) (cur : Z) : M st (list string * Z) :=
  match l with
  | [] => mret ([], cur)
  | it :: l' =>
      x ← vget cur;
      k ← chain_find chain_fuel (λ x, bool_decide (name x = it)) (child x);
      if decide (k = -1)%Z then mret (l, cur)
      else nx ← follow_links chain_fuel k; walk l' nx
  end.

Lemma chain_find_ext n (p q : vinode → bool) k (s : st) :
  (∀ x, p x = q x) → chain_find n p k s = chain_find n q k s.
Proof.
  intros Hpq. revert k. induction n as [|n IH]; intros k; [done|]. simpl. case_decide; [done|].
  unfold mbind, M_bind. destruct (vget k s) as [[x s1]|] eqn:Hx; [|done]. rewrite Hpq.
  destruct (q x); [done|].
  assert (s1 = s) as ->; [|apply IH].
  unfold vget in Hx. apply bind_inv in Hx as (s0 & s2 & [= <- <-] & Hx). cbv beta in Hx.
  destruct (aget (vinodes s) k); [by injection Hx|done].
Qed.

Lemma lookup_cur_walk n p cur off (s : st) : String.length p < n →
  ('(b, i, o) ← lookup_cur n p cur off; mret (b, i, path_items (sdrop (o - off) p), bool_decide (off ≤ o))) s =
  ('(l, i) ← walk (path_items p) cur; mret (bool_decide (l = []), i, l, true)) s.
Proof.
  revert p cur off s. induction n as [|n IH]; intros p cur off s Hn; [lia|].
  cbn [lookup_cur]. destruct (decide (p = "")) as [->|Hp].
  { unfold mbind, M_bind, mret, M_ret. cbn [path_items walk]. rewrite (bool_decide_eq_true_2 (off ≤ off)) by lia.
    by destruct (off - off). }
  destruct (path_items_cons p Hp) as [Hit Hstep]. rewrite Hit. cbn [walk].
  unfold mbind, M_bind. destruct (vget cur s) as [[x s1]|] eqn:Hx; [|done].
  rewrite (chain_find_ext _ _ (λ x, bool_decide (name x = stake (first_item_len p) p)))
    by (intros; apply item_match_iff).
  destruct (chain_find _ _ _ s1) as [[k s2]|] eqn:Hk; [|done].
  destruct (decide (k = -1)%Z) as [->|Hk1].
  { unfold mret, M_ret. rewrite Nat.sub_diag, (bool_decide_eq_true_2 (off ≤ off)) by lia. cbn [sdrop]. by rewrite Hit. }
  destruct (follow_links _ k s2) as [[nx s3]|] eqn:Hf; [|done].
  fold (item_step p). set (k' := item_step p) in *.
  assert (Hlen : String.length (sdrop k' p) < n) by (rewrite sdrop_length; destruct p; [done|]; simpl in *; lia).
  specialize (IH (sdrop k' p) nx (off + k') s3 Hlen). unfold mbind, M_bind in IH.
  destruct (lookup_cur n _ nx _ s3) as [[[[b i] o] s4]|]; cbn in IH; [|by rewrite <-IH].
  destruct (walk _ nx s3) as [[[l j] s5]|]; [|done]. cbn in IH.
  injection IH as -> <- <- Ho <-. apply bool_decide_eq_true in Ho.
  unfold mret, M_ret. rewrite sdrop_sdrop. replace (k' + (o - (off + k'))) with (o - off) by lia.
  by rewrite (bool_decide_eq_true_2 (off ≤ o)) by lia.
Qed.

(** C13. A path is resolved item by item: [lookup_cur] goes from the root to the
    child whose name is exactly the next item (never a prefix of it) and on along
    its links, until the items are exhausted, or stops at the directory that has
    no such child with the offset of the items left.  The recursion needs no more
    calls than the path has characters. *)
Theorem lookup_resolves p (s : st) :
  let p' := if decide (char_at 0 p = Some slash) then sdrop 1 p else p in
  ('(b, i, o) ← lookup_path p; mret (b, i, path_items (sdrop (o - 1) p'))) s =
  ('(l, i) ← walk (path_items p') VFS_ROOT; mret (bool_decide (l = []), i, l)) s.
Proof.
  intros p'. assert (Hlen : String.length p' < Datatypes.S (String.length p)).
  { unfold p'. case_decide; [|lia]. pose proof (sdrop_length 1 p). lia. }
  pose proof (lookup_cur_walk _ p' VFS_ROOT 1 s Hlen) as H.
  assert (lookup_path p = lookup_cur (Datatypes.S (String.length p)) p' VFS_ROOT 1) as ->
    by (unfold lookup_path, p'; by case_decide).
  unfold mbind, M_bind in *.
  destruct (lookup_cur _ _ _ _ s) as [[[[b i] o] s1]|], (walk _ _ s) as [[[l j] s2]|];
    unfold mret, M_ret in *; simplify_eq; done.
Qed.
End resolve.

(** ** A booted system

    Two blank disks and an allocator with room for the two file systems. *)
Definition tiny_pmm : alloc_st :=
  let unused i := MemBlock i UNUSED 0 0 0 Null Null in
  AllocSt UNLOCKED
    [MemBlock 0 UNALLOCATED 0x800000 0x100000 0x900000 (Special 0) (Special 1); unused 1; unused 2; unused 3]%Z
    [MemBlock 0 UNUSED 0 0 0 Null (Pool 0); MemBlock 0 UNUSED 0 0 0 (Pool 0) Null]%Z
    (Special 0) (Special 1) 1 0x100000 0x900000 procfs_boot.
Definition demo_boot : vfs_st (gmap Z Z) unit := vfs_boot procfs_boot tiny_pmm ().
Definition demo_vfs : vfs_st (gmap Z Z) unit := state_of demo_boot (vfs_init ∅ ∅ demo_boot).
Definition on_vfs {A} (m : M (vfs_st (gmap Z Z) unit) A) : res A := value_of (m demo_vfs).

(** The root directory has the names "." and "..", its own and the ones of the
    directories below. *)
Definition root_links : list Z := [8; 6; 2; 1]%Z.

(** A directory is made, a file is linked and unlinked, a disk is unmounted and
    mounted elsewhere. *)
Example vfs_session :
  on_vfs (
    _ ← vfs_access "/R0/none" 0;
    a ← vfs_create "/R0/sub"; b ← vfs_access "/R0/sub" TYPE_DIR;
    c ← vfs_link "/R0/hello.cpp" "/mnt/h"; d ← vfs_access "/mnt/h" TYPE_FILE;
    e ← vfs_unlink "/mnt/h"; f ← vfs_access "/mnt/h" TYPE_FILE;
    g ← vfs_remove "/R0/sub"; h ← vfs_unmount "/R0"; i ← vfs_access "/R0" TYPE_DIR;
    j ← vfs_mount "/dev/ramdisk0" "/mnt/R0"; k ← vfs_access "/mnt/R0/hello.cpp" RD_ABLE;
    mret [a; b; c; d; e; f; g; h; i; j; k]) = Ret [0; 0; 0; 0; 0; 1; 0; 0; 1; 0; 0]%Z.
Proof. vm_compute. reflexivity. Qed.

(** Creating a directory in one whose entries were never read stops the machine. *)
Example create_unlisted_halts : on_vfs (vfs_create "/R0/sub") = Err Halt.
Proof. vm_compute. reflexivity. Qed.

Lemma links_ring_witness :
  wp (remove_link 6) (λ _ s', ring (vinodes s') 0 [8; 2; 1]%Z ∧
    ∀ i, i ∉ [0; 8; 2; 1]%Z → aget (vinodes s') i = aget (vinodes demo_vfs) i) demo_vfs.
Proof.
  assert (Hr : ring (vinodes demo_vfs) 0 root_links).
  { split; [by apply (bool_decide_eq_true_1 _); vm_compute|]. repeat split; vm_compute; reflexivity. }
  apply (proj2 (links_ring demo_vfs 0%Z root_links Hr) [8]%Z 6%Z [2; 1]%Z). reflexivity.
Defined.

Definition demo_opens : list (string * Z) := [("/R0/hello.cpp", RD_ABLE); ("/none", 0%Z); ("/dev/tty1", WR_ABLE)].
Definition demo_opened : vfs_st (gmap Z Z) unit := state_of demo_vfs (open_close_all demo_opens demo_vfs).

Lemma descriptor_budget_witness : free_files (files demo_opened) = 30.
Proof.
  assert (Hv : value_of (open_close_all demo_opens demo_vfs) = Ret 2) by (vm_compute; reflexivity).
  assert (Hlen : length (files demo_vfs) = MAX_FILE) by (vm_compute; reflexivity).
  assert (Hfree : free_files (files demo_vfs) = 32) by (vm_compute; reflexivity).
  pose proof (proj1 (descriptor_budget demo_opens demo_vfs demo_opened 2 Hlen (run_eta _ 2 demo_vfs Hv))) as H.
  rewrite Hfree in H. exact (proj1 (Nat.add_cancel_l (free_files (files demo_opened)) 30 2) H).
Defined.
