(* ===== verification/Video.v ===== *)
(** * The frame buffer device (kernel/src/devices/video/video.c)

    Textures of 8 x 8 pixels in a byte-addressed memory, two of them per
    character of the terminal font, and sprites that place a texture on one of
    the virtual displays; those of the current display go to the platform's
    frame buffer controller. *)
From S2P Require Import Prelude Bytes Common Procfs Alloc Kthreads Kmt Ext2.

Definition NTEXTURE : Z := 16384.
Definition NSPRITE : Z := 16384.
Definition TEXTURE_W : Z := 8.
Definition TEXTURE_H : Z := 8.
Definition SPRITE_BRK : Z := 0x1000000.

(** sizeof(struct texture), sizeof(struct display_info), sizeof(struct sprite) *)
Definition SIZEOF_TEXTURE : Z := 256.
Definition SIZEOF_INFO : Z := 24.
Definition SIZEOF_SPRITE : nat := 8.

Record display_info := DisplayInfo {
  width : Z; height : Z; num_displays : Z; current : Z; num_textures : Z; num_sprites : Z
}.

(** uint16_t texture, x, y; unsigned display : 4, z : 12. *)
Record sprite := Sprite { texture : Z; x : Z; y : Z; display : Z; z : Z }.

Definition enc_sprite (s : sprite) : list Z :=
  le 2 (u16 (texture s)) ++ le 2 (u16 (x s)) ++ le 2 (u16 (y s)) ++
  le 2 (display s `mod` 16 + 16 * (z s `mod` 4096))%Z.
Definition dec_sprite (l : list Z) : sprite :=
  let dz := unle (field 6 2 l) in
  Sprite (unle (field 0 2 l)) (unle (field 2 2 l)) (unle (field 4 2 l)) (dz `mod` 16) (dz `div` 16).
Definition enc_info (i : display_info) : list Z :=
  le 4 (width i) ++ le 4 (height i) ++ le 4 (num_displays i) ++ le 4 (current i) ++
  le 4 (num_textures i) ++ le 4 (num_sprites i).

Definition set_current (c : Z) (i : display_info) : display_info :=
  DisplayInfo (width i) (height i) (num_displays i) c (num_textures i) (num_sprites i).

(** The memory of the textures: the byte at each offset. *)
Abbreviation txmem := (Z → Z).
Definition TX_SIZE : Z := NTEXTURE * SIZEOF_TEXTURE.

Definition tx_store (off : Z) (l : list Z) : M txmem unit :=
  if decide (0 ≤ off ∧ off + Z.of_nat (length l) ≤ TX_SIZE)%Z then modify (blit off l) else fail OutOfBounds.

(** Pixel [i] of texture [t], a 32-bit word. *)
Definition px_offset (t i : Z) : Z := t * SIZEOF_TEXTURE + 4 * i.
Definition get_px (m : txmem) (t i : Z) : Z :=
  unle ((λ k, m (px_offset t i + Z.of_nat k)%Z) <$> seq 0 4).
Definition put_px (t i v : Z) : M txmem unit := tx_store (px_offset t i) (le 4 v).

(** [texture_fill(&textures[t], top, bits, fg, bg)] *)
Definition texture_fill (t : Z) (top : bool) (bits : list Z) (fg bg : Z) : M txmem unit :=
  for_range 0 TEXTURE_H (λ y,
    for_range 0 TEXTURE_W (λ x,
      bitmask ← deref OutOfBounds (aget bits (if top then y + TEXTURE_H else y)%Z);
      put_px t (y * TEXTURE_W + x)
        (if decide (Z.land (Z.shiftr bitmask (7 - x)) 1 ≠ 0)%Z then fg else bg))).

Definition font_load (font : list Z) : M txmem unit :=
  for_range 0 256 (λ ch,
    texture_fill (ch * 2 + 1) false (drop (Z.to_nat (16 * ch)) font) 0xffffff 0;;
    texture_fill (ch * 2 + 2) true (drop (Z.to_nat (16 * ch)) font) 0xffffff 0).

(** ** The device *)

(** A rectangle sent to the controller: x, y and the pixels of 8 x 8. *)
Definition drawing : Type := Z * Z * list Z.

Section video.
Context {K : Type} `{!Kmt K}.

Record fb_st := FbSt {
  vkmt : K;
  vpmm : alloc_st;
  fb_sem : nat;
  info : display_info;
  textures : txmem;
  drawn : list drawing           (* everything sent, oldest first *)
}.
Definition set_vkmt (k : K) (s : fb_st) : fb_st := FbSt k (vpmm s) (fb_sem s) (info s) (textures s) (drawn s).
Definition set_vpmm (p : alloc_st) (s : fb_st) : fb_st := FbSt (vkmt s) p (fb_sem s) (info s) (textures s) (drawn s).
Definition set_info (i : display_info) (s : fb_st) : fb_st := FbSt (vkmt s) (vpmm s) (fb_sem s) i (textures s) (drawn s).
Definition set_textures (t : txmem) (s : fb_st) : fb_st := FbSt (vkmt s) (vpmm s) (fb_sem s) (info s) t (drawn s).
Definition set_drawn (l : list drawing) (s : fb_st) : fb_st := FbSt (vkmt s) (vpmm s) (fb_sem s) (info s) (textures s) l.

Abbreviation F := (M fb_st).
Definition fb_kmt {A} (m : M K A) : F A := zoom vkmt set_vkmt m.

(** [fb_init(dev)] on a screen of [w] x [h]; the device is called [nm]. *)
Definition fb_init (w h : Z) (TERM_FONT : list Z) (nm : string) : F Z :=
  zoom vpmm set_vpmm (kalloc SIZEOF_INFO);;
  zoom vpmm set_vpmm (kalloc (SIZEOF_TEXTURE * NTEXTURE));;
  zoom vpmm set_vpmm (kalloc (Z.of_nat SIZEOF_SPRITE * NSPRITE));;
  modify (set_info (DisplayInfo w h 8 0 NTEXTURE NSPRITE));;
  a ← gets fb_sem;
  fb_kmt (k_sem_init a nm 1);;
  zoom textures set_textures (font_load TERM_FONT);;
  mret 0%Z.

(** What is stored in the caller's buffer, if anything; the value returned is 0. *)
Definition fb_read (offset count : Z) : F (option (list Z)) :=
  if decide (offset ≠ 0)%Z then mret None
  else if decide (count ≠ SIZEOF_INFO) then mret None
  else i ← gets info; mret (Some (enc_info i)).

(** [ctl.x = sp->x; ...; _io_write(...)] for a sprite of the current display. *)
Definition draw_sprite (sp : sprite) : F unit :=
  s ← get;
  if decide (0 < texture sp ∧ display sp = current (info s))%Z then
    (if decide (texture sp < NTEXTURE)%Z then mret tt else fail OutOfBounds);;
    modify (set_drawn (drawn s ++ [(x sp, y sp, get_px (textures s) (texture sp) <$> seqZ 0 64)]))
  else mret tt.

(** The loop over the sprites in the [count] bytes of the buffer. *)
Fixpoint draw_sprites (n : nat) (buf : list Z) : F unit :=
  match n with
  | O => mret tt
  | Datatypes.S n' =>
      (if decide (SIZEOF_SPRITE ≤ length buf) then mret tt else fail OutOfBounds);;
      draw_sprite (dec_sprite buf);;
      draw_sprites n' (drop SIZEOF_SPRITE buf)
  end.

(** [fb_write(dev, offset, buf, count)] with the [count] bytes [buf]. *)
Definition fb_write (offset : Z) (buf : list Z) : F Z :=
  a ← gets fb_sem;
  fb_kmt (k_down a);;
  (if decide (offset = 0)%Z then
     (if decide (16 ≤ length buf) then mret tt else fail OutOfBounds);;
     let c := unle (field 12 4 buf) in
     i ← gets info;
     if decide (current i ≠ c) then modify (λ s, set_info (set_current c (info s)) s) else mret tt
   else if decide (offset < SPRITE_BRK)%Z then zoom textures set_textures (tx_store offset buf)
   else draw_sprites ((length buf + (SIZEOF_SPRITE - 1)) / SIZEOF_SPRITE) buf);;
  fb_kmt (k_signal a);;
  mret (Z.of_nat (length buf)).
End video.
Arguments fb_st : clear implicits.
