(* ===== verification/VideoProps.v ===== *)
(** * Properties of the frame buffer

    The two textures of a character show its glyph in the font, and a write of
    sprites draws those of the current display, in order. *)
From S2P Require Import Prelude Bytes Common Procfs Alloc Kthreads KthreadsProps Kmt Ext2 Ext2Props Video.

(** ** Pixels *)

Lemma get_px_put m off l t i : (∀ a, (0 ≤ a < 4)%Z → blit off l m (px_offset t i + a)%Z = m (px_offset t i + a)%Z) →
  get_px (blit off l m) t i = get_px m t i.
Proof.
  intros Hm. unfold get_px. f_equal. apply list_fmap_ext. intros k j [-> Hlt]%lookup_seq. apply Hm. lia.
Qed.

Lemma unle_4 a b c d : unle [a; b; c; d] = (a + 256 * (b + 256 * (c + 256 * (d + 256 * 0))))%Z.
Proof. done. Qed.

Lemma get_px_here t i v m : (0 ≤ v < 2 ^ 32)%Z → get_px (blit (px_offset t i) (le 4 v) m) t i = v.
Proof.
  intros Hv. rewrite <-(unle_le 4 v) at 2 by done. unfold get_px. f_equal. cbn [seq fmap list_fmap].
  unfold blit. rewrite le_length. generalize (px_offset t i). intros o.
  repeat (rewrite decide_True by lia). 
  replace (o + Z.of_nat 0 - o)%Z with 0%Z by lia. replace (o + Z.of_nat 1 - o)%Z with 1%Z by lia.
  replace (o + Z.of_nat 2 - o)%Z with 2%Z by lia. replace (o + Z.of_nat 3 - o)%Z with 3%Z by lia. done.
Qed.

(** A word of the screen's memory, and the state after storing one. *)
Definition stored (m m' : txmem) (t i v : Z) : Prop := ∀ t' i', (0 ≤ t')%Z → (0 ≤ i' < 64)%Z →
  get_px m' t' i' = if decide (t' = t ∧ i' = i) then v else get_px m t' i'.

Lemma wp_put_px t i v (Q : unit → txmem → Prop) m :
  (0 ≤ t < NTEXTURE)%Z → (0 ≤ i < 64)%Z → (0 ≤ v < 2 ^ 32)%Z →
  (∀ m', stored m m' t i v → Q tt m') → wp (put_px t i v) Q m.
Proof.
  intros Ht Hi Hv HQ. unfold put_px, tx_store. rewrite le_length.
  rewrite decide_True by (unfold TX_SIZE, px_offset, SIZEOF_TEXTURE, NTEXTURE in *; lia). wp_steps. apply HQ.
  intros t' i' Ht' Hi'. case_decide as Heq; [destruct Heq as [-> ->]; by apply get_px_here|].
  apply get_px_put. intros a Ha. unfold blit. rewrite le_length, decide_False; [done|].
  unfold px_offset, SIZEOF_TEXTURE. intros Hin. apply Heq. lia.
Qed.

(** ** Glyphs *)

(** Pixel [i] of a texture filled from the eight rows [rows] of a glyph. *)
Definition glyph_px (bits : list Z) (top : bool) (fg bg i : Z) : Z :=
  let row := default 0%Z (aget bits ((if top then TEXTURE_H else 0) + i `div` 8)%Z) in
  if Z.testbit row (7 - i `mod` 8) then fg else bg.

Lemma bit_test b k : (0 ≤ k)%Z → bool_decide (Z.land (Z.shiftr b k) 1 ≠ 0)%Z = Z.testbit b k.
Proof.
  intros Hk. replace (Z.testbit b k) with (Z.testbit (Z.shiftr b k) 0)
    by (rewrite Z.shiftr_spec by lia; f_equal; lia).
  generalize (Z.shiftr b k). intros a. change 1%Z with (Z.ones 1).
  rewrite Z.land_ones by lia. change (2 ^ 1)%Z with 2%Z. rewrite Zmod_odd, Z.bit0_odd. by destruct (Z.odd a).
Qed.

Definition filled (m m' : txmem) (t n : Z) (f : Z → Z) : Prop := ∀ t' i', (0 ≤ t')%Z → (0 ≤ i' < 64)%Z →
  get_px m' t' i' = if decide (t' = t ∧ (i' < n)%Z) then f i' else get_px m t' i'.

Lemma filled_step m m1 m2 t n f : filled m m1 t n f → stored m1 m2 t n (f n) → filled m m2 t (n + 1) f.
Proof.
  intros H1 H2 t' i' Ht' Hi'. rewrite H2, H1 by done.
  repeat case_decide; try done; [by destruct H as [-> ->]|exfalso; lia..].
Qed.

Lemma wp_texture_fill t top bits fg bg (Q : unit → txmem → Prop) m :
  (0 ≤ t < NTEXTURE)%Z → (0 ≤ fg < 2 ^ 32)%Z → (0 ≤ bg < 2 ^ 32)%Z → 16 ≤ length bits →
  (∀ m', filled m m' t 64 (glyph_px bits top fg bg) → Q tt m') →
  wp (texture_fill t top bits fg bg) Q m.
Proof.
  intros Ht Hfg Hbg Hlen HQ. unfold texture_fill, TEXTURE_H, TEXTURE_W. eapply wp_mono.
  - apply (wp_for_range (λ y m', filled m m' t (8 * y) (glyph_px bits top fg bg))); [lia| |].
    + intros t' i' Ht' Hi'. rewrite decide_False; [done|lia].
    + intros y m1 Hy Hm1. eapply wp_mono.
      * apply (wp_for_range (λ x m', filled m m' t (8 * y + x) (glyph_px bits top fg bg))); [lia| |].
        { by rewrite Z.add_0_r. }
        intros x m2 Hx Hm2. wp_steps.
        destruct (aget_is_Some bits (if top then y + 8 else y)%Z) as [row Hrow]; [destruct top; lia|].
        eapply wp_deref; [done|]. apply wp_put_px; [done|lia|by case_decide|].
        intros m3 Hm3. replace (8 * y + (x + 1))%Z with (8 * y + x + 1)%Z by lia.
        eapply filled_step; [done|]. intros t' i' Ht' Hi'. rewrite (Hm3 t' i') by done.
        replace (y * 8 + x)%Z with (8 * y + x)%Z by lia.
        destruct (decide (t' = t ∧ i' = 8 * y + x)%Z); [|done]. unfold glyph_px.
        replace ((8 * y + x) `div` 8)%Z with y by (apply Z.div_unique with x; lia).
        replace ((8 * y + x) `mod` 8)%Z with x by (apply Z.mod_unique with y; lia).
        replace ((if top then TEXTURE_H else 0) + y)%Z with (if top then y + 8 else y)%Z by (unfold TEXTURE_H; destruct top; lia).
        rewrite Hrow. simpl. rewrite <-bit_test by lia. by repeat case_decide; case_bool_decide.
      * intros [] m2. by replace (8 * (y + 1))%Z with (8 * y + 8)%Z by lia.
  - intros [] m' Hm'. by apply HQ.
Qed.

(** The glyphs of the characters below [n] are loaded. *)
Definition loaded (font : list Z) (n : Z) (m : txmem) : Prop := ∀ c i, (0 ≤ c < n)%Z → (0 ≤ i < 64)%Z →
  get_px m (2 * c + 1) i = glyph_px (drop (Z.to_nat (16 * c)) font) false 0xffffff 0 i ∧
  get_px m (2 * c + 2) i = glyph_px (drop (Z.to_nat (16 * c)) font) true 0xffffff 0 i.

Lemma wp_font_load font (Q : unit → txmem → Prop) m :
  length font = 4096 → (∀ m', loaded font 256 m' → Q tt m') → wp (font_load font) Q m.
Proof.
  intros Hlen HQ. unfold font_load. eapply wp_mono.
  - apply (wp_for_range (λ c m', loaded font c m')); [lia|intros c i Hc; lia|].
    intros c m1 Hc Hm1.
    assert (Hrows : 16 ≤ length (drop (Z.to_nat (16 * c)) font)) by (rewrite length_drop, Hlen; lia).
    wp_steps. apply wp_texture_fill; [unfold NTEXTURE; lia|lia|lia|done|]. intros m2 Hm2.
    apply wp_texture_fill; [unfold NTEXTURE; lia|lia|lia|done|]. intros m3 Hm3 c' i Hc' Hi.
    rewrite !Hm3, !Hm2 by lia.
    destruct (decide (c' = c)) as [->|Hne].
    + rewrite (decide_False (P := (2 * c + 1 = c * 2 + 2 ∧ _)%Z)), (decide_True (P := (2 * c + 1 = c * 2 + 1 ∧ _)%Z)),
        (decide_True (P := (2 * c + 2 = c * 2 + 2 ∧ _)%Z)) by lia. done.
    + rewrite !decide_False by lia. apply Hm1; lia.
  - intros [] m' Hm'. by apply HQ.
Qed.

(** The two textures of a character show its glyph: row [y] of 16 and column
    [x] of 8 of character [c] is white exactly when bit [7 - x] of the font's
    byte [16 c + y] is set. *)
Theorem font_glyphs font m :
  length font = 4096 →
  ∃ m', font_load font m = Ret (tt, m') ∧
    ∀ c y x row, (0 ≤ c < 256)%Z → (0 ≤ y < 16)%Z → (0 ≤ x < 8)%Z → aget font (16 * c + y) = Some row →
      get_px m' (c * 2 + 1 + y `div` 8) (y `mod` 8 * TEXTURE_W + x) =
      if Z.testbit row (7 - x) then 0xffffff%Z else 0%Z.
Proof.
  intros Hlen. assert (Hw : wp (font_load font) (λ _ m', loaded font 256 m') m) by (by apply wp_font_load).
  apply wp_run in Hw as ([] & m' & Hrun & Hm'). exists m'. split; [done|]. intros c y x row Hc Hy Hx Hrow.
  apply aget_Some in Hrow as [_ Hrow]. unfold TEXTURE_W.
  pose proof (Z.mod_pos_bound y 8 ltac:(lia)). pose proof (Z.div_mod y 8 ltac:(lia)).
  destruct (Hm' c (y `mod` 8 * 8 + x)%Z Hc ltac:(lia)) as [H1 H2].
  assert (Hdiv : ((y `mod` 8 * 8 + x) `div` 8 = y `mod` 8)%Z) by (symmetry; apply Z.div_unique with x; lia).
  assert (Hmod : ((y `mod` 8 * 8 + x) `mod` 8 = x)%Z) by (symmetry; apply Z.mod_unique with (y `mod` 8)%Z; lia).
  assert (Hget : ∀ k, (0 ≤ k)%Z → aget (drop (Z.to_nat (16 * c)) font) k = aget font (16 * c + k)).
  { intros k Hk. unfold aget. rewrite !decide_True by lia. rewrite lookup_drop. f_equal. lia. }
  unfold glyph_px in H1, H2. rewrite Hdiv, Hmod, Hget in H1, H2 by (unfold TEXTURE_H; lia).
  assert (y `div` 8 = 0 ∨ y `div` 8 = 1)%Z as [Hd|Hd] by lia; rewrite Hd.
  - replace (c * 2 + 1 + 0)%Z with (2 * c + 1)%Z by lia. rewrite H1.
    replace (16 * c + (0 + y `mod` 8))%Z with (16 * c + y)%Z by lia. unfold aget. by rewrite decide_True, Hrow by lia.
  - replace (c * 2 + 1 + 1)%Z with (2 * c + 2)%Z by lia. rewrite H2. unfold TEXTURE_H.
    replace (16 * c + (8 + y `mod` 8))%Z with (16 * c + y)%Z by lia. unfold aget. by rewrite decide_True, Hrow by lia.
Qed.

(** ** Sprites *)

Record sprite_ok (s : sprite) : Prop := {
  so_texture : (0 ≤ texture s < NTEXTURE)%Z;
  so_x : (0 ≤ x s < 2 ^ 16)%Z;
  so_y : (0 ≤ y s < 2 ^ 16)%Z;
  so_display : (0 ≤ display s < 16)%Z;
  so_z : (0 ≤ z s < 4096)%Z
}.

Lemma enc_sprite_length s : length (enc_sprite s) = SIZEOF_SPRITE.
Proof. unfold enc_sprite. by rewrite !length_app, !le_length. Qed.

Lemma dec_enc_sprite s rest : sprite_ok s → dec_sprite (enc_sprite s ++ rest) = s.
Proof.
  intros [Ht Hx Hy Hd Hz]. unfold NTEXTURE in Ht. destruct s as [t a b d c]. cbn [texture x y display z] in *.
  unfold dec_sprite, enc_sprite. cbn [texture x y display z].
  rewrite <-!(assoc_L (++)). unfold u16. rewrite !(Z.mod_small _ (2 ^ 16)), (Z.mod_small d), (Z.mod_small c) by lia.
  repeat ((rewrite field_here by apply le_length) ||
    (rewrite field_skip by (rewrite le_length; lia); rewrite le_length; cbn [Nat.sub])).
  rewrite !unle_le by (simpl Z.of_nat; lia).
  f_equal.
  - by rewrite (Z.mul_comm 16), Z.mod_add, Z.mod_small by lia.
  - by rewrite (Z.mul_comm 16), Z.div_add, Z.div_small by lia.
Qed.

(** The rectangle a sprite stands for, when it is on the current display. *)
Definition shown (cur : Z) (tx : txmem) (sp : sprite) : list drawing :=
  if decide (0 < texture sp ∧ display sp = cur)%Z
  then [(x sp, y sp, get_px tx (texture sp) <$> seqZ 0 64)] else [].

Section fb.
Context {K : Type} `{!Kmt K}.
Notation st := (fb_st K).

Lemma draw_sprites_ok sps (Q : unit → st → Prop) s :
  Forall sprite_ok sps →
  Q tt (set_drawn (drawn s ++ (sps ≫= shown (current (info s)) (textures s))) s) →
  wp (draw_sprites (length sps) (sps ≫= enc_sprite)) Q s.
Proof.
  intros Hok. revert s. induction Hok as [|sp sps Hsp Hok IH]; intros s HQ; cbn [length draw_sprites].
  { wp_steps. simpl in HQ. rewrite app_nil_r in HQ. by destruct s. }
  cbn [mbind list_bind]. rewrite length_app, enc_sprite_length, decide_True by lia. wp_steps.
  rewrite dec_enc_sprite by done. unfold draw_sprite. wp_steps.
  rewrite drop_app_length' by (by rewrite enc_sprite_length).
  cbn [mbind list_bind] in HQ. unfold shown at 1 in HQ.
  apply wp_decide; intros Hc; rewrite ?(decide_True (P := (0 < texture sp ∧ _)%Z)), ?(decide_False (P := (0 < texture sp ∧ _)%Z)) in HQ by done.
  - rewrite decide_True by apply (so_texture _ Hsp). wp_steps. apply IH. simpl.
    by rewrite <-(assoc_L (++)).
  - wp_steps. by apply IH.
Qed.

(** A write of whole sprites. *)
Lemma wp_fb_write sps (Q : Z → st → Prop) s :
  k_inv (vkmt s) → k_sem (vkmt s) (fb_sem s) = Some 1%Z → Forall sprite_ok sps →
  (∀ k', k_inv k' → (∀ b, k_sem k' b = k_sem (vkmt s) b) →
     Q (Z.of_nat (8 * length sps))
       (set_vkmt k' (set_drawn (drawn s ++ (sps ≫= shown (current (info s)) (textures s))) s))) →
  wp (fb_write SPRITE_BRK (sps ≫= enc_sprite)) Q s.
Proof.
  intros Hk Hsem Hok HQ. unfold fb_write, fb_kmt. wp_steps.
  eapply wp_k_down; [done|done|lia|]. intros k1 Hk1 _ Hs1. wp_steps.
  assert (Hlen : length (sps ≫= enc_sprite) = 8 * length sps).
  { clear. induction sps as [|sp sps IH]; [done|]. cbn [mbind list_bind]. rewrite length_app, enc_sprite_length.
    change (list_bind _ _ enc_sprite sps) with (sps ≫= enc_sprite). unfold SIZEOF_SPRITE. rewrite IH. simpl. lia. }
  rewrite (decide_False (P := SPRITE_BRK = 0%Z)), (decide_False (P := (SPRITE_BRK < SPRITE_BRK)%Z)) by (done || lia).
  rewrite Hlen. replace ((8 * length sps + (SIZEOF_SPRITE - 1)) / SIZEOF_SPRITE) with (length sps); cycle 1.
  { unfold SIZEOF_SPRITE. apply Nat.div_unique with 7; lia. }
  apply draw_sprites_ok; [done|]. wp_steps. simpl.
  eapply wp_k_signal; simpl; [done|rewrite Hs1, decide_True by done; done|lia|]. intros k2 Hk2 _ Hs2. wp_steps.
  replace (length sps + _) with (8 * length sps) by lia.
  apply HQ; [done|]. intros b. rewrite Hs2, Hs1. by case_decide; [subst b; rewrite Hsem|].
Qed.
End fb.

(** A font whose every row is 10000001. *)
Lemma font_glyphs_witness :
  ∃ m', font_load (replicate 4096 129%Z) (λ _, 0%Z) = Ret (tt, m') ∧
    ∀ c y x row, (0 ≤ c < 256)%Z → (0 ≤ y < 16)%Z → (0 ≤ x < 8)%Z →
      aget (replicate 4096 129%Z) (16 * c + y) = Some row →
      get_px m' (c * 2 + 1 + y `div` 8) (y `mod` 8 * TEXTURE_W + x) =
      if Z.testbit row (7 - x) then 0xffffff%Z else 0%Z.
Proof. apply (font_glyphs (replicate 4096 129%Z) (λ _, 0%Z)). apply length_replicate. Defined.
