(* ===== verification/Tty.v ===== *)
(** * The terminals (kernel/src/devices/tty/tty.c)

    A terminal keeps a screen of characters with a cursor, drawn through the
    frame buffer, and a ring buffer in which the characters typed are cooked into
    lines for the reader.  Pointers into an array are indices of it. *)
From S2P Require Import Prelude Ring Common Procfs Alloc Kthreads Kmt Ext2 Video Input.

Definition TTY_COOK_BUF_SZ : Z := 1024.

Record character := Character { metadata : Z; cch : Z }.
Definition tty_defaultch : character := Character 0 0.
Definition SIZEOF_CHARACTER : Z := 8.

Record tty_queue := TtyQueue { qbuf : list Z; qfront : Z; qrear : Z }.

Record tty_t := Tty {
  tlock : nat; cooked : nat;        (* semaphores *)
  tdisplay : Z;
  lines : Z; columns : Z; tsize : Z;
  tbuf : list character;
  cursor : Z;
  queue : tty_queue;
  dirty : list Z
}.

Definition set_geom d l c n t := Tty (tlock t) (cooked t) d l c n (tbuf t) (cursor t) (queue t) (dirty t).
Definition set_tbuf b t := Tty (tlock t) (cooked t) (tdisplay t) (lines t) (columns t) (tsize t) b (cursor t) (queue t) (dirty t).
Definition set_cursor c t := Tty (tlock t) (cooked t) (tdisplay t) (lines t) (columns t) (tsize t) (tbuf t) c (queue t) (dirty t).
Definition set_queue q t := Tty (tlock t) (cooked t) (tdisplay t) (lines t) (columns t) (tsize t) (tbuf t) (cursor t) q (dirty t).
Definition set_dirty d t := Tty (tlock t) (cooked t) (tdisplay t) (lines t) (columns t) (tsize t) (tbuf t) (cursor t) (queue t) d.

(** ** The line buffer *)

Abbreviation Q := (M tty_queue).

(** [*q->rear = ch] *)
Definition put_rear (c : Z) : Q unit :=
  q ← get;
  b ← deref OutOfBounds (aset (qbuf q) (qrear q) c);
  modify (λ q, TtyQueue b (qfront q) (qrear q)).

Definition tty_enqueue (c : Z) : Q unit :=
  put_rear c;;
  modify (λ q, TtyQueue (qbuf q) (qfront q) (qrear q + 1));;
  q ← get;
  (if decide (qrear q = TTY_COOK_BUF_SZ) then modify (λ q, TtyQueue (qbuf q) (qfront q) 0) else mret tt);;
  q ← get;
  (if decide (qrear q = qfront q) then fail Halt else mret tt);;
  put_rear 0.

Definition tty_pop_back : Q Z :=
  q ← get;
  if decide (qfront q ≠ TTY_COOK_BUF_SZ) then
    let pos := if decide (qrear q = 0)%Z then TTY_COOK_BUF_SZ else qrear q in
    c ← deref OutOfBounds (aget (qbuf q) (pos - 1));
    if decide (c ≠ 0)%Z then
      modify (λ q, TtyQueue (qbuf q) (qfront q) (pos - 1));;
      put_rear 0;;
      mret 0%Z
    else mret 1%Z
  else mret 1%Z.

(** The loop of [tty_read]: what is stored in the caller's buffer of [count]
    bytes and the value of [nread].  The buffer holds a null character, or the
    loop never ends. *)
Fixpoint tty_read_loop (fuel : nat) (count nread : Z) (out : list Z) : Q (list Z * Z) :=
  match fuel with
  | O => fail OutOfFuel
  | Datatypes.S n =>
      q ← get;
      c ← deref OutOfBounds (aget (qbuf q) (qfront q));
      let out := if decide (nread < count ∧ c ≠ 0)%Z then out ++ [c] else out in
      modify (λ q, TtyQueue (qbuf q) (qfront q + 1) (qrear q));;
      q ← get;
      (if decide (qfront q = TTY_COOK_BUF_SZ) then modify (λ q, TtyQueue (qbuf q) 0 (qrear q)) else mret tt);;
      if decide (c = 0)%Z then mret (out, nread) else tty_read_loop n count (nread + 1) out
  end.

(** ** The screen *)

Abbreviation T := (M tty_t).

Definition tput (i : Z) (c : character) : T unit :=
  t ← get; b ← deref OutOfBounds (aset (tbuf t) i c); modify (set_tbuf b).
Definition tget (i : Z) : T character := t ← get; deref OutOfBounds (aget (tbuf t) i).
(** [cursor->ch = ch] *)
Definition put_ch (c : Z) : T unit :=
  t ← get; x ← tget (cursor t); tput (cursor t) (Character (metadata x) (u8 c)).

(** [memmove(a, a + k, n)] on the elements of an array. *)
Definition shift_down_by {A} (k n : Z) (l : list A) : res (list A) :=
  if decide (0 ≤ n ∧ 0 ≤ k ∧ k + n ≤ Z.of_nat (length l))%Z
  then Ret (take (Z.to_nat n) (drop (Z.to_nat k) l) ++ drop (Z.to_nat n) l) else Err OutOfBounds.

Definition tty_upd_scrollup : T unit :=
  t ← get;
  let move_sz := (columns t * (lines t - 1))%Z in
  b ← lift (shift_down_by (columns t) move_sz (tbuf t)); modify (set_tbuf b);;
  d ← lift (shift_down_by (columns t) move_sz (dirty t)); modify (set_dirty d);;
  modify (λ t, set_cursor (cursor t - columns t) t);;
  for_range 0 (columns t) (λ i, t ← get; tput (cursor t + i) tty_defaultch).

Definition column_of (i : Z) : T Z :=
  t ← get; if decide (columns t = 0)%Z then fail DivByZero else mret (Z.rem i (columns t)).

Definition tty_upd_cr : T unit := t ← get; x ← column_of (cursor t); modify (λ t, set_cursor (cursor t - x) t).
Definition tty_upd_lf : T unit := modify (λ t, set_cursor (cursor t + columns t) t).
Definition tty_upd_backsp : T unit :=
  t ← get;
  if decide (0 < cursor t)%Z then modify (λ t, set_cursor (cursor t - 1) t);; put_ch 0 else mret tt.
Definition tty_upd_putc (c : Z) : T unit := put_ch c;; modify (λ t, set_cursor (cursor t + 1) t).

Definition tty_mark (i : Z) : T unit :=
  t ← get; d ← deref OutOfBounds (aset (dirty t) i 1%Z); modify (set_dirty d).
Definition tty_mark_line (i : Z) : T unit :=
  x ← column_of i; t ← get; for_range 0 (columns t) (λ k, tty_mark (i - x + k)).
Definition tty_mark_all : T unit := t ← get; for_range 0 (tsize t) tty_mark.

Definition tty_putc (c : Z) : T unit :=
  if decide (c = 13)%Z then tty_upd_cr;; t ← get; tty_mark_line (cursor t)
  else if decide (c = 8)%Z then
    tty_upd_backsp;; t ← get; tty_mark (cursor t);; tty_mark (cursor t + 1)
  else if decide (c = 10)%Z then
    tty_upd_cr;; tty_upd_lf;;
    t ← get;
    if decide (cursor t = tsize t) then tty_upd_scrollup;; tty_mark_all
    else tty_mark_line (cursor t - columns t);; tty_mark_line (cursor t)
  else
    tty_upd_putc c;;
    t ← get;
    if decide (cursor t = tsize t) then tty_upd_scrollup;; tty_mark_all
    else tty_mark (cursor t - 1);; tty_mark (cursor t).

(** ** The device *)

Section tty.
Context {K : Type} `{!Kmt K}.

Record tty_st := TtySt { tfb : fb_st K; tty : tty_t }.
Definition set_tfb (f : fb_st K) (s : tty_st) : tty_st := TtySt f (tty s).
Definition set_tty (t : tty_t) (s : tty_st) : tty_st := TtySt (tfb s) t.

Abbreviation D := (M tty_st).
Definition on_fb {A} (m : M (fb_st K) A) : D A := zoom tfb set_tfb m.
Definition on_tty {A} (m : T A) : D A := zoom tty set_tty m.
Definition on_queue {A} (m : Q A) : D A := on_tty (zoom queue set_queue m).
Definition tty_kmt {A} (m : M K A) : D A := on_fb (fb_kmt m).

Definition tty_cook (c : Z) : D Z :=
  t ← gets tty;
  tty_kmt (k_down (tlock t));;
  ret ← (if decide (c = 10)%Z then
           on_queue (tty_enqueue c);; on_queue (tty_enqueue 0);; tty_kmt (k_signal (cooked t));; mret 0%Z
         else if decide (c = 8)%Z then on_queue tty_pop_back
         else on_queue (tty_enqueue c);; mret 0%Z);
  tty_kmt (k_signal (tlock t));;
  mret ret.

(** The two sprites of the cell at column [x] of line [y]. *)
Definition cell_sprites (dis x y draw : Z) : list sprite :=
  [Sprite (u16 (draw * 2 + 1)) (u16 (x * 8)) (u16 (y * 16)) (dis `mod` 16) 0;
   Sprite (u16 (draw * 2 + 2)) (u16 (x * 8)) (u16 (y * 16 + 8)) (dis `mod` 16) 0].

(** The cell of index [i] = [y * columns + x], where the pointers [ch] and [d] are. *)
Definition render_cell (y x : Z) : D unit :=
  t ← gets tty;
  let i := (y * columns t + x)%Z in
  d ← deref OutOfBounds (aget (dirty t) i);
  if decide (d ≠ 0)%Z then
    c ← deref OutOfBounds (aget (tbuf t) i);
    let draw := if decide (i = cursor t) then 0xdb%Z else cch c in
    on_fb (fb_write SPRITE_BRK (cell_sprites (tdisplay t) x y draw ≫= enc_sprite));;
    mret tt
  else mret tt.

Definition tty_render : D unit :=
  t ← gets tty;
  tty_kmt (k_down (tlock t));;
  for_range 0 (lines t) (λ y, for_range 0 (columns t) (λ x, render_cell y x));;
  tty_kmt (k_signal (tlock t)).

(** [tty_init] of the terminal number [id]; the device's memory is [tty]. *)
Definition tty_init (id : Z) : D Z :=
  f ← gets (λ s, info (tfb s));
  let l := (height f `div` 16)%Z in
  let c := (width f `div` 8)%Z in
  on_tty (modify (set_geom (id - 1) l c (c * l)));;
  on_fb (zoom vpmm set_vpmm (kalloc (u32 (c * l * SIZEOF_CHARACTER))));;
  on_fb (zoom vpmm set_vpmm (kalloc (c * l)));;
  on_tty (for_range 0 (c * l) (λ i,
    tput i tty_defaultch;; tty_mark i));;
  on_tty (modify (set_cursor 0));;
  on_fb (zoom vpmm set_vpmm (kalloc TTY_COOK_BUF_SZ));;
  on_queue (modify (λ q, TtyQueue (qbuf q) 0 0));;
  t ← gets tty;
  tty_kmt (k_sem_init (tlock t) "tty lock" 1);;
  tty_kmt (k_sem_init (cooked t) "tty cooked lines" 0);;
  mret 0%Z.

Definition read_fuel : nat := S (Z.to_nat TTY_COOK_BUF_SZ).

Definition tty_read (count : Z) : D (list Z * Z) :=
  t ← gets tty;
  tty_kmt (k_down (cooked t));;
  tty_kmt (k_down (tlock t));;
  r ← on_queue (tty_read_loop read_fuel count 0 []);
  tty_kmt (k_signal (tlock t));;
  mret r.

Definition tty_write (buf : list Z) : D Z :=
  t ← gets tty;
  tty_kmt (k_down (tlock t));;
  for_each buf (λ c, on_tty (tty_putc c));;
  tty_kmt (k_signal (tlock t));;
  tty_render;;
  mret (Z.of_nat (length buf)).

(** ** The task that feeds the terminals *)

Record terms_st := TermsSt {
  gfb : fb_st K; terms : list tty_t;
  current_tty : Z;                   (* the terminal [ttydev], from 0 *)
  console : list string              (* what [printf] wrote, oldest first *)
}.
Definition say (m : string) : M terms_st unit :=
  modify (λ s, TermsSt (gfb s) (terms s) (current_tty s) (console s ++ [m])).

(** An operation on terminal [i]. *)
Definition on_term {A} (i : Z) (m : D A) : M terms_st A :=
  s ← get;
  t ← deref OutOfBounds (aget (terms s) i);
  '(a, s') ← lift (m (TtySt (gfb s) t));
  l ← deref OutOfBounds (aset (terms s) i (tty s'));
  modify (λ s, TermsSt (tfb s') l (current_tty s) (console s));;
  mret a.

(** [ttydev = next; ...] *)
Definition switch_tty (next : Z) : M terms_st unit :=
  modify (λ s, TermsSt (gfb s) (terms s) next (console s));;
  s ← get;
  t ← deref OutOfBounds (aget (terms s) next);
  on_term next (on_tty tty_mark_all);;
  on_term next (on_fb (fb_write 0 (enc_info (DisplayInfo 0 0 0 (tdisplay t) 0 0))));;
  on_term next (tty_write []);;
  mret tt.

(** One round of [tty_task], for the event read from the input device. *)
Definition tty_task_event (ev : input_event) : M terms_st unit :=
  s ← get;
  (if decide (ev_alt ev ≠ 0)%Z then
     let next := if decide (49 ≤ ev_data ev ≤ 52)%Z then (ev_data ev - 49)%Z else current_tty s in
     (if decide (ev_data ev = 55)%Z then say "Switch to terminal
" else mret tt);;
     if decide (next ≠ current_tty s) then switch_tty next else mret tt
   else mret tt);;
  (if decide (ev_ctrl ev ≠ 0)%Z then
     if decide (ev_data ev = 99)%Z then say "Ctrl - c
" else mret tt
   else mret tt);;
  s ← get;
  if decide (ev_ctrl ev = 0 ∧ ev_alt ev = 0)%Z then
    let ch := u8 (ev_data ev) in
    r ← on_term (current_tty s) (tty_cook ch);
    if decide (r = 0)%Z then on_term (current_tty s) (tty_write [ch]);; mret tt else mret tt
  else mret tt.
End tty.
Arguments tty_st : clear implicits.
Arguments terms_st : clear implicits.
