(* ===== verification/TtyProps.v ===== *)
(** * Properties of the terminals

    Characters typed are edited into lines that the reader gets in order; every
    change of the screen is marked for drawing; drawing sends the marked cells to
    the frame buffer. *)
From S2P Require Import Prelude Ring Common Procfs Alloc Kthreads KthreadsProps Kmt Ext2 Ext2Props Video VideoProps Input Tty.

Abbreviation SZ := TTY_COOK_BUF_SZ.

(** ** The line buffer as a list of lines *)

(** What the ring holds for the complete lines [done], each with its newline and
    followed by a null character, and the line [cur] being typed. *)
Definition flat (done : list (list Z)) (cur : list Z) : list Z := (done ≫= λ l, l ++ [0%Z]) ++ cur.

Record text_ring (q : tty_queue) (l : list Z) : Prop := {
  ht_len : Z.of_nat (length (qbuf q)) = SZ;
  ht_front : (0 ≤ qfront q < SZ)%Z;
  ht_rear : qrear q = ((qfront q + Z.of_nat (length l)) mod SZ)%Z;
  ht_room : (Z.of_nat (length l) < SZ)%Z;
  ht_held : ring_holds (qbuf q) (qfront q) l;
  ht_end : at_ring (qbuf q) (qfront q + Z.of_nat (length l)) = Some 0%Z
}.

(** The byte before the text is null, which stops [tty_pop_back]. *)
Definition holds_text (q : tty_queue) (l : list Z) : Prop :=
  text_ring q l ∧ at_ring (qbuf q) (qfront q - 1) = Some 0%Z.

Record line_buffer (q : tty_queue) (done : list (list Z)) (cur : list Z) : Prop := {
  lb_text : holds_text q (flat done cur);
  lb_done : Forall (Forall (λ c, c ≠ 0%Z)) done;
  lb_cur : Forall (λ c, c ≠ 0%Z) cur
}.

Lemma at_ring_in buf i : (0 ≤ i < Z.of_nat (length buf))%Z → at_ring (A:=Z) buf i = aget buf i.
Proof. intros Hi. unfold at_ring. by rewrite Z.mod_small. Qed.

Lemma wp_put_rear c (P : unit → tty_queue → Prop) q :
  (0 ≤ qrear q < Z.of_nat (length (qbuf q)))%Z →
  (∀ b, aset (qbuf q) (qrear q) c = Some b → P tt (TtyQueue b (qfront q) (qrear q))) →
  wp (put_rear c) P q.
Proof.
  intros Hr HP. unfold put_rear. wp_steps. eapply wp_deref; [by apply aset_Some|]. wp_steps.
  apply HP. by apply aset_Some.
Qed.

Lemma rear_bound q l : text_ring q l → (0 ≤ qrear q < Z.of_nat (length (qbuf q)))%Z.
Proof. intros [-> _ -> _ _ _]. by apply Z.mod_pos_bound. Qed.

(** The step of the pointer [rear], written with a comparison in the code. *)
Lemma rear_step f n : (0 ≤ f < SZ)%Z → (0 ≤ n < SZ)%Z →
  (if decide ((f + n) mod SZ + 1 = SZ)%Z then 0 else (f + n) mod SZ + 1)%Z = ((f + (n + 1)) mod SZ)%Z.
Proof.
  intros Hf Hn. pose proof (Z.mod_pos_bound (f + n) SZ ltac:(done)).
  rewrite Z.add_assoc, <-(Zplus_mod_idemp_l (f + n)). case_decide as Heq.
  - by rewrite Heq, Z_mod_same_full.
  - by rewrite (Z.mod_small (_ + 1)) by lia.
Qed.

Lemma mod_front f n : (0 ≤ f < SZ)%Z → (0 ≤ n < SZ)%Z → ((f + n) mod SZ = f)%Z → n = 0%Z.
Proof.
  intros Hf Hn Heq. destruct (decide (n = 0%Z)); [done|].
  exfalso. apply (mod_neq f n 0 SZ); [done|lia|lia|]. by rewrite Heq, Z.add_0_r, Z.mod_small.
Qed.

Lemma wp_enqueue c l (P : unit → tty_queue → Prop) q :
  holds_text q l → (Z.of_nat (S (length l)) < SZ)%Z →
  (∀ q', holds_text q' (l ++ [c]) → P tt q') → wp (tty_enqueue c) P q.
Proof.
  intros Hq Hroom HP. pose proof (rear_bound _ _ (proj1 Hq)) as Hrb. pose proof Hq as [[Hlen Hf Hr _ Hh _] Hb].
  unfold tty_enqueue. wp_step. apply wp_put_rear; [done|]. intros b1 Hb1.
  pose proof (aset_inv _ _ _ _ Hb1) as [_ Hb1'].
  assert (Hl1 : length b1 = length (qbuf q)) by (by rewrite Hb1', length_insert).
  wp_steps. cbn [qrear qfront qbuf].
  apply (wp_mono _ (λ _ q', q' = TtyQueue b1 (qfront q) ((qfront q + (Z.of_nat (length l) + 1)) mod SZ)%Z)).
  { rewrite <-(rear_step (qfront q)), <-Hr by lia. apply wp_decide; intros Hd.
    - wp_steps. by rewrite decide_True by (by rewrite Hd).
    - wp_steps. by rewrite decide_False. }
  intros [] q1 ->. wp_steps. cbn [qrear qfront qbuf]. rewrite decide_False by (intros Heq%mod_front; lia).
  wp_steps. apply wp_put_rear; [cbn; rewrite Hl1, Hlen; by apply Z.mod_pos_bound|]. cbn [qrear qfront qbuf].
  intros b2 Hb2. pose proof (aset_inv _ _ _ _ Hb2) as [_ Hb2'].
  assert (Hl2 : length b2 = length (qbuf q)) by (by rewrite Hb2', length_insert).
  rewrite <-Hlen, <-Hl1 in Hb2. rewrite Hr, <-Hlen in Hb1.
  assert (Hh1 : ring_holds b1 (qfront q) (l ++ [c])) by (eapply ring_holds_push; [done|lia|done]).
  assert (Hn : Z.of_nat (length (l ++ [c])) = (Z.of_nat (length l) + 1)%Z) by (rewrite length_app; simpl; lia).
  apply HP. split; [split|]; cbn [qrear qfront qbuf]; rewrite ?Hn.
  - by rewrite Hl2.
  - done.
  - done.
  - lia.
  - eapply ring_holds_set; [done| |exact Hb2]. lia.
  - by eapply at_ring_set_eq.
  - rewrite at_ring_pred, Hl2, Hlen. rewrite at_ring_pred, Hlen in Hb.
    destruct (decide (Z.of_nat (length l) + 1 = SZ - 1)%Z) as [Heq|Hne].
    + rewrite <-Heq. by eapply at_ring_set_eq.
    + rewrite <-Hb. erewrite at_ring_set_ne; [|exact Hb2|lia..]. eapply at_ring_set_ne; [exact Hb1|lia..].
Qed.

(** The cell before the end of the text. *)
Lemma last_cell q l : text_ring q l →
  ((if decide (qrear q = 0) then SZ else qrear q) - 1 = (qfront q + (Z.of_nat (length l) - 1)) mod SZ)%Z.
Proof.
  intros [_ Hf Hr Hroom _ _]. pose proof (Z.mod_pos_bound (qfront q + Z.of_nat (length l)) SZ ltac:(done)).
  rewrite <-Hr in *. replace (qfront q + (Z.of_nat (length l) - 1))%Z with (qfront q + Z.of_nat (length l) - 1)%Z by lia.
  rewrite <-Zminus_mod_idemp_l, <-Hr. case_decide as Hz.
  - rewrite Hz. done.
  - rewrite Z.mod_small by lia. done.
Qed.

Lemma wp_pop_back_at l c (P : Z → tty_queue → Prop) q :
  text_ring q l → at_ring (qbuf q) (qfront q + (Z.of_nat (length l) - 1)) = Some c →
  (c = 0%Z → P 1%Z q) →
  (c ≠ 0%Z → ∀ b, aset (qbuf q) ((qfront q + (Z.of_nat (length l) - 1)) mod SZ) 0%Z = Some b →
     P 0%Z (TtyQueue b (qfront q) ((qfront q + (Z.of_nat (length l) - 1)) mod SZ))) →
  wp tty_pop_back P q.
Proof.
  intros Hq Hc HP1 HP0. pose proof Hq as [Hlen Hf _ _ _ _]. pose proof (last_cell _ _ Hq) as Hlast.
  unfold tty_pop_back. wp_steps. rewrite decide_True by lia. rewrite Hlast.
  unfold at_ring in Hc. rewrite Hlen in Hc. wp_steps. apply wp_decide; intros Hz; wp_steps.
  - apply wp_put_rear; [cbn; rewrite Hlen; by apply Z.mod_pos_bound|]. cbn [qbuf qfront qrear].
    intros b Hb. wp_steps. by apply HP0.
  - apply HP1. lia.
Qed.

Lemma wp_pop_back_char l c (P : Z → tty_queue → Prop) q :
  holds_text q (l ++ [c]) → c ≠ 0%Z → (∀ q', holds_text q' l → P 0%Z q') → wp tty_pop_back P q.
Proof.
  intros [Hq Hb] Hc HP. pose proof Hq as [Hlen Hf Hr Hroom Hh He].
  rewrite length_app in *. simpl in *.
  assert (Hi : (qfront q + (Z.of_nat (length (l ++ [c])) - 1) = qfront q + Z.of_nat (length l))%Z)
    by (rewrite length_app; simpl; lia).
  eapply wp_pop_back_at; [done|rewrite Hi|done|].
  - apply Hh. by rewrite lookup_app_r, Nat.sub_diag by lia.
  - intros _ b Hset. rewrite Hi in *. apply HP. pose proof (aset_inv _ _ _ _ Hset) as [_ Hb'].
    assert (Hlb : length b = length (qbuf q)) by (by rewrite Hb', length_insert).
    rewrite <-Hlen in Hset. split; [split|]; cbn [qbuf qfront qrear].
    + by rewrite Hlb.
    + done.
    + done.
    + lia.
    + eapply ring_holds_set; [by eapply ring_holds_app| |exact Hset]. lia.
    + by eapply at_ring_set_eq.
    + rewrite at_ring_pred, Hlb, Hlen. rewrite at_ring_pred, Hlen in Hb.
      rewrite <-Hb. eapply at_ring_set_ne; [exact Hset|lia..].
Qed.

Lemma wp_pop_back_nul l (P : Z → tty_queue → Prop) q :
  holds_text q l → l = [] ∨ (∃ l', l = l' ++ [0%Z]) → P 1%Z q → wp tty_pop_back P q.
Proof.
  intros [Hq Hb] Hl HP. eapply wp_pop_back_at; [done| |done|done].
  destruct Hl as [->|[l' ->]]; [done|]. rewrite length_app. simpl.
  replace (Z.of_nat (length l' + 1) - 1)%Z with (Z.of_nat (length l')) by lia.
  apply (ht_held _ _ Hq). by rewrite lookup_app_r, Nat.sub_diag by lia.
Qed.

(** Reading up to the null character after the line [ln]. *)
Lemma wp_read_loop ln : ∀ fuel count nread out rest (P : list Z * Z → tty_queue → Prop) q,
  text_ring q (ln ++ 0%Z :: rest) → Forall (λ c, c ≠ 0%Z) ln → length ln < fuel → (0 ≤ nread)%Z →
  (∀ q', holds_text q' rest →
     P (out ++ take (Z.to_nat (count - nread)) ln, nread + Z.of_nat (length ln))%Z q') →
  wp (tty_read_loop fuel count nread out) P q.
Proof.
  induction ln as [|c ln IH]; intros [|fuel] count nread out rest P q Hq Hln Hfuel Hn HP; try (simpl in Hfuel; lia);
    cbn [tty_read_loop]; pose proof Hq as [Hlen Hf Hr Hroom Hh He]; simpl in Hh, Hroom;
    apply ring_holds_pop in Hh as [Hat Hh]; rewrite at_ring_in in Hat by lia; wp_steps; cbn [qrear qfront qbuf].
  - (* the null character *)
    set (f' := ((qfront q + 1) mod SZ)%Z).
    apply (wp_mono _ (λ _ q', q' = TtyQueue (qbuf q) f' (qrear q))).
    { apply wp_decide; intros Hd; cbn [qfront] in Hd; wp_steps; unfold f'.
      - by rewrite Hd.
      - by rewrite Z.mod_small by lia. }
    intros [] q1 ->. rewrite (decide_True (P := 0%Z = 0%Z)) by done. wp_steps.
    rewrite decide_False by tauto. cbn [length] in HP. rewrite take_nil, app_nil_r, Z.add_0_r in HP. apply HP.
    pose proof (Z.mod_pos_bound (qfront q + 1) SZ ltac:(done)).
    split; [split|]; cbn [qrear qfront qbuf]; try done.
    + unfold f'. rewrite Hr, Zplus_mod_idemp_l. f_equal. simpl. lia.
    + lia.
    + by rewrite Hlen in Hh.
    + unfold f'. rewrite <-Hlen, at_ring_shift, <-He. f_equal. simpl. lia.
    + unfold f'. rewrite <-Hlen. change (?a - 1)%Z with (a + -1)%Z. rewrite at_ring_shift.
      rewrite at_ring_in by lia. by replace (qfront q + 1 + -1)%Z with (qfront q) by lia.
  - (* a character of the line *)
    apply Forall_cons in Hln as [Hc Hln].
    apply (wp_mono _ (λ _ q', q' = TtyQueue (qbuf q) ((qfront q + 1) mod SZ) (qrear q))).
    { apply wp_decide; intros Hd; cbn [qfront] in Hd; wp_steps.
      - by rewrite Hd.
      - by rewrite Z.mod_small by lia. }
    intros [] q1 ->. rewrite (decide_False (P := c = 0%Z)) by done.
    apply (IH fuel _ _ _ rest); [|done|simpl in Hfuel; lia|lia|].
    + pose proof (Z.mod_pos_bound (qfront q + 1) SZ ltac:(done)). split; cbn [qrear qfront qbuf]; try done.
      * rewrite Hr, Zplus_mod_idemp_l. f_equal. simpl. lia.
      * lia.
      * by rewrite Hlen in Hh.
      * rewrite <-Hlen, at_ring_shift, <-He. f_equal. simpl. lia.
    + intros q' Hq'. specialize (HP q' Hq'). cbn [length] in HP.
      replace (nread + Z.of_nat (S (length ln)))%Z with (nread + 1 + Z.of_nat (length ln))%Z in HP by lia.
      case_decide as Hd.
      * replace (Z.to_nat (count - nread)) with (S (Z.to_nat (count - (nread + 1)))) in HP by lia.
        simpl in HP. by rewrite cons_middle, (assoc_L (++)) in HP.
      * replace (Z.to_nat (count - nread)) with 0 in HP by lia.
        by replace (Z.to_nat (count - (nread + 1))) with 0 by lia.
Qed.

Lemma flat_snoc done cur c : flat done (cur ++ [c]) = flat done cur ++ [c].
Proof. unfold flat. by rewrite (assoc_L (++)). Qed.

Lemma flat_done done cur : flat (done ++ [cur]) [] = flat done cur ++ [0%Z].
Proof. unfold flat. rewrite bind_app. simpl. by rewrite !app_nil_r, (assoc_L (++)). Qed.

Lemma flat_first ln done cur : flat (ln :: done) cur = ln ++ 0%Z :: flat done cur.
Proof. unfold flat. simpl. by rewrite <-!(assoc_L (++)). Qed.

Lemma exists_last' {A} (l : list A) : l = [] ∨ ∃ l' x, l = l' ++ [x].
Proof. induction l as [|x l _] using rev_ind; [by left|right; eauto]. Qed.

Lemma flat_nul done : flat done [] = [] ∨ ∃ l, flat done [] = l ++ [0%Z].
Proof.
  induction done as [|x d _] using rev_ind; [by left|right]. rewrite flat_done. by eexists.
Qed.

Section discipline.
Context {K : Type} `{!Kmt K}.
Notation st := (tty_st K).

(** The terminal is idle; [done] are the lines nobody has read yet, and [cur]
    the line being typed. *)
Record tty_lines (s : st) (done : list (list Z)) (cur : list Z) : Prop := {
  tl_kmt : k_inv (vkmt (tfb s));
  tl_sems : tlock (tty s) ≠ cooked (tty s);
  tl_lock : k_sem (vkmt (tfb s)) (tlock (tty s)) = Some 1%Z;
  tl_cooked : k_sem (vkmt (tfb s)) (cooked (tty s)) = Some (Z.of_nat (length done));
  tl_buffer : line_buffer (queue (tty s)) done cur
}.

(** What a character does to the lines, and the value [tty_cook] returns. *)
Definition edit (done : list (list Z)) (cur : list Z) (c : Z) : Z * list (list Z) * list Z :=
  if decide (c = 10)%Z then (0%Z, done ++ [cur ++ [10%Z]], [])
  else if decide (c = 8)%Z then
    match cur with [] => (1%Z, done, []) | _ => (0%Z, done, removelast cur) end
  else (0%Z, done, cur ++ [c]).

Lemma wp_on_queue {A} (m : M tty_queue A) (P : A → st → Prop) s :
  wp m (λ a q, P a (set_tty (set_queue q (tty s)) s)) (queue (tty s)) → wp (on_queue m) P s.
Proof. intros Hw. unfold on_queue, on_tty. by apply wp_zoom, wp_zoom. Qed.

Lemma wp_tty_down a v (P : unit → st → Prop) s :
  k_inv (vkmt (tfb s)) → k_sem (vkmt (tfb s)) a = Some v → (0 < v)%Z →
  (∀ k', k_inv k' →
     (∀ b, k_sem k' b = if decide (b = a) then Some (v - 1)%Z else k_sem (vkmt (tfb s)) b) →
     P tt (set_tfb (set_vkmt k' (tfb s)) s)) →
  wp (tty_kmt (k_down a)) P s.
Proof.
  intros Hk Hv Hpos HP. unfold tty_kmt, on_fb, fb_kmt. apply wp_zoom.
  eapply wp_k_down; [done|done|done|]. intros k' Hk' _ Hs'. by apply HP.
Qed.

Lemma wp_tty_signal a v (P : unit → st → Prop) s :
  k_inv (vkmt (tfb s)) → k_sem (vkmt (tfb s)) a = Some v → (0 ≤ v < 2 ^ 31 - 1)%Z →
  (∀ k', k_inv k' →
     (∀ b, k_sem k' b = if decide (b = a) then Some (v + 1)%Z else k_sem (vkmt (tfb s)) b) →
     P tt (set_tfb (set_vkmt k' (tfb s)) s)) →
  wp (tty_kmt (k_signal a)) P s.
Proof.
  intros Hk Hv Hpos HP. unfold tty_kmt, on_fb, fb_kmt. apply wp_zoom.
  eapply wp_k_signal; [done|done|done|]. intros k' Hk' _ Hs'. by apply HP.
Qed.

(** The end of an operation: the lock is given back and the value returned. *)
Lemma wp_release {A} (s0 s : st) done cur (r : A) (P : A → st → Prop) :
  tlock (tty s) = tlock (tty s0) → cooked (tty s) = cooked (tty s0) → tlock (tty s) ≠ cooked (tty s) →
  k_inv (vkmt (tfb s)) → k_sem (vkmt (tfb s)) (tlock (tty s)) = Some 0%Z →
  k_sem (vkmt (tfb s)) (cooked (tty s)) = Some (Z.of_nat (length done)) →
  line_buffer (queue (tty s)) done cur →
  (∀ s', tty_lines s' done cur → P r s') →
  wp (tty_kmt (k_signal (tlock (tty s0)));; mret r) P s.
Proof.
  intros Ht Hc Hne Hk Hl Hd Hq HP. rewrite <-Ht. wp_steps. eapply (wp_tty_signal _ 0%Z); [done|done|done|].
  intros k' Hk' Hs'. wp_steps. apply HP. split; cbn; try done.
  - by rewrite Hs', decide_True.
  - by rewrite Hs', decide_False.
Qed.

Lemma done_bound done cur : (Z.of_nat (length (flat done cur)) < SZ)%Z → (Z.of_nat (length done) < 2 ^ 31 - 1)%Z.
Proof.
  assert (length done ≤ length (flat done cur)); [|unfold SZ in *; lia].
  unfold flat. induction done as [|l d IH]; [simpl; lia|]. cbn [mbind list_bind length].
  rewrite !length_app in *. simpl. lia.
Qed.

Lemma wp_cook_line s done cur (P : Z → st → Prop) :
  tty_lines s done cur → (Z.of_nat (length (flat done cur)) + 2 < SZ)%Z →
  (∀ s', tty_lines s' (done ++ [cur ++ [10%Z]]) [] → P 0%Z s') → wp (tty_cook 10) P s.
Proof.
  intros [Hk Hne Hl Hc [Ht Hd Hcur]] Hroom HP. pose proof (done_bound done cur ltac:(lia)) as Hnd.
  unfold tty_cook. wp_steps. eapply wp_tty_down; [done|done|done|]. intros k1 Hk1 Hs1.
  rewrite (decide_True (P := 10%Z = 10%Z)) by done. wp_steps. apply wp_on_queue.
  eapply wp_enqueue; [exact Ht|lia|]. intros q1 Hq1. wp_steps. apply wp_on_queue.
  eapply wp_enqueue; [exact Hq1|rewrite length_app; simpl; lia|]. intros q2 Hq2. wp_steps.
  eapply (wp_tty_signal _ (Z.of_nat (length done))); cbn; [done|by rewrite Hs1, decide_False|lia|]. intros k2 Hk2 Hs2. apply wp_ret.
  eapply (wp_release s _ (done ++ [cur ++ [10%Z]]) []); cbn; try done.
  - by rewrite Hs2, decide_False, Hs1, decide_True.
  - rewrite Hs2, decide_True by done. rewrite length_app. simpl. f_equal. lia.
  - split; [by rewrite flat_done, flat_snoc|apply Forall_app; split; [done|]|done].
    apply Forall_singleton, Forall_app. split; [done|]. by apply Forall_singleton.
Qed.

Lemma wp_cook_back s done cur (P : Z → st → Prop) :
  tty_lines s done cur →
  (∀ s', let '(r, done', cur') := edit done cur 8 in tty_lines s' done' cur' → P r s') →
  wp (tty_cook 8) P s.
Proof.
  intros [Hk Hne Hl Hc [Ht Hd Hcur]] HP. unfold edit in HP.
  rewrite (decide_False (P := 8%Z = 10%Z)), (decide_True (P := 8%Z = 8%Z)) in HP by done.
  unfold tty_cook. wp_steps. eapply wp_tty_down; [done|done|done|]. intros k1 Hk1 Hs1.
  rewrite (decide_False (P := 8%Z = 10%Z)), (decide_True (P := 8%Z = 8%Z)) by done. wp_steps. apply wp_on_queue.
  destruct (exists_last' cur) as [->|(cur' & c & ->)].
  - eapply wp_pop_back_nul; [exact Ht|apply flat_nul|].
    eapply (wp_release s _ done []); cbn; try done; [by rewrite Hs1, decide_True|by rewrite Hs1, decide_False].
  - apply Forall_app in Hcur as [Hcur [Hlast _]%Forall_cons]. rewrite flat_snoc in Ht.
    eapply wp_pop_back_char; [exact Ht|done|]. intros q1 Hq1.
    eapply (wp_release s _ done cur'); cbn; try done; [by rewrite Hs1, decide_True|by rewrite Hs1, decide_False|].
    intros s' Hs'. specialize (HP s'). destruct (cur' ++ [c]) eqn:Heq; [by destruct cur'|]. rewrite <-Heq, removelast_last in HP.
    by apply HP.
Qed.

Lemma wp_cook_char s done cur c (P : Z → st → Prop) :
  tty_lines s done cur → c ≠ 0%Z → c ≠ 10%Z → c ≠ 8%Z → (Z.of_nat (length (flat done cur)) + 1 < SZ)%Z →
  (∀ s', tty_lines s' done (cur ++ [c]) → P 0%Z s') → wp (tty_cook c) P s.
Proof.
  intros [Hk Hne Hl Hc [Ht Hd Hcur]] H0 H10 H8 Hroom HP.
  unfold tty_cook. wp_steps. eapply wp_tty_down; [done|done|done|]. intros k1 Hk1 Hs1.
  rewrite !decide_False by done. wp_steps. apply wp_on_queue.
  eapply wp_enqueue; [exact Ht|lia|]. intros q1 Hq1. apply wp_ret.
  eapply (wp_release s _ done (cur ++ [c])); cbn; try done; [by rewrite Hs1, decide_True|by rewrite Hs1, decide_False|].
  split; [by rewrite flat_snoc|done|]. apply Forall_app. split; [done|]. by apply Forall_singleton.
Qed.

Lemma wp_tty_read s ln done cur count (P : list Z * Z → st → Prop) :
  tty_lines s (ln :: done) cur →
  (∀ s', tty_lines s' done cur → P (take (Z.to_nat count) ln, Z.of_nat (length ln)) s') →
  wp (tty_read count) P s.
Proof.
  intros [Hk Hne Hl Hc [Ht [Hln Hd]%Forall_cons Hcur]] HP. rewrite flat_first in Ht.
  assert (Hfuel : length ln < read_fuel).
  { pose proof (ht_room _ _ (proj1 Ht)) as Hr. rewrite length_app in Hr. unfold read_fuel. lia. }
  unfold tty_read. generalize dependent read_fuel. intros fuel Hfuel.
unfold tty_read. wp_steps. eapply wp_tty_down; [done|done|simpl; lia|]. intros k1 Hk1 Hs1. wp_steps.
  eapply (wp_tty_down _ 1%Z); cbn; [done|by rewrite Hs1, decide_False|done|]. intros k2 Hk2 Hs2. wp_steps.
  apply wp_on_queue. apply (wp_read_loop ln fuel count 0 [] (flat done cur)); [apply Ht|done|done|done|].
  intros q1 Hq1. rewrite Z.sub_0_r, Z.add_0_l. simpl.
  eapply (wp_release s _ done cur); cbn; try done.
  - by rewrite Hs2, decide_True.
  - rewrite Hs2, decide_False, Hs1, decide_True by done. simpl. f_equal. lia.
Qed.

(** C25. The line discipline: each character typed edits the line in progress
    (newline completes it and counts it for readers, backspace takes back its last
    character and never one of an earlier line), and a read returns the oldest
    complete line, cut to the caller's buffer, with its full length. *)
Theorem line_discipline s done cur :
  tty_lines s done cur →
  (∀ c, c ≠ 0%Z → (Z.of_nat (length (flat done cur)) + 2 < SZ)%Z →
     let '(r, done', cur') := edit done cur c in
     ∃ s', tty_cook c s = Ret (r, s') ∧ tty_lines s' done' cur') ∧
  (∀ ln rest count, done = ln :: rest →
     ∃ s', tty_read count s = Ret ((take (Z.to_nat count) ln, Z.of_nat (length ln)), s') ∧ tty_lines s' rest cur).
Proof.
  intros Hs. split.
  - intros c Hc Hroom. destruct (edit done cur c) as [[r done'] cur'] eqn:He.
    apply wp_run_ret. unfold edit in He. repeat case_decide; simplify_eq.
    + by eapply wp_cook_line.
    + eapply wp_cook_back; [done|]. unfold edit. intros s'. by destruct cur; simplify_eq.
    + eapply wp_cook_char; [done..|lia|done].
  - intros ln rest count ->. apply wp_run_ret. by eapply wp_tty_read.
Qed.
End discipline.

(** ** A small terminal: 2 x 2 cells, on a screen of 16 x 32 pixels *)

Definition demo_tty : tty_t :=
  Tty 0 1 0 2 2 4 (replicate 4 tty_defaultch) 0 (TtyQueue (replicate (Z.to_nat SZ) 0%Z) 0 0) (replicate 4 1%Z).
Definition demo_fb : fb_st kmt_st :=
  FbSt (kmt_of [1; 0; 1]%Z) (AllocSt UNLOCKED [] [] Null Null 0 0 0 procfs_boot) 2
    (DisplayInfo 16 32 8 0 NTEXTURE NSPRITE) (λ _, 0%Z) [].
Definition demo_term : tty_st kmt_st := TtySt demo_fb demo_tty.

Lemma demo_term_lines : tty_lines demo_term [] [].
Proof.
  split; [apply kmt_of_inv; by repeat constructor|done..|].
  split; [|done..]. split; [|done]. split; try done.
Qed.

Lemma line_discipline_witness :
  ∃ s', tty_cook 65 demo_term = Ret (0%Z, s') ∧ tty_lines s' [] [65%Z].
Proof.
  apply (proj1 (line_discipline demo_term [] [] demo_term_lines) 65%Z); [discriminate|reflexivity].
Defined.
