(* ===== verification/TtyScreen.v ===== *)
(** * Properties of the terminals: the screen

    Printing follows a reference screen of characters and a cursor, keeps every
    access inside the arrays, and marks every cell whose picture changes; drawing
    sends the marked cells to the frame buffer. *)
From S2P Require Import Prelude Ring Common Procfs Alloc Kthreads KthreadsProps Kmt Ext2 Ext2Props Video VideoProps Input Tty TtyProps.

Record screen_ok (t : tty_t) : Prop := {
  sk_lines : (0 < lines t)%Z;
  sk_columns : (0 < columns t)%Z;
  sk_size : tsize t = (columns t * lines t)%Z;
  sk_two : (2 ≤ tsize t)%Z;
  sk_buf : Z.of_nat (length (tbuf t)) = tsize t;
  sk_dirty : Z.of_nat (length (dirty t)) = tsize t;
  sk_cursor : (0 ≤ cursor t < tsize t)%Z
}.

(** ** The reference: rows of characters and a cursor *)

Definition scroll (cols : Z) (l : list Z) : list Z := drop (Z.to_nat cols) l ++ replicate (Z.to_nat cols) 0%Z.

Definition advance (cols : Z) (l : list Z) (cur : Z) : list Z * Z :=
  if decide (cur = Z.of_nat (length l)) then (scroll cols l, (cur - cols)%Z) else (l, cur).

Definition screen_putc (cols : Z) (scr : list Z * Z) (c : Z) : list Z * Z :=
  let '(l, cur) := scr in
  if decide (c = 13)%Z then (l, (cur - cur `mod` cols)%Z)
  else if decide (c = 8)%Z then
    if decide (0 < cur)%Z then (<[Z.to_nat (cur - 1) := 0%Z]> l, (cur - 1)%Z) else scr
  else if decide (c = 10)%Z then advance cols l (cur - cur `mod` cols + cols)
  else advance cols (<[Z.to_nat cur := u8 c]> l) (cur + 1).

Definition screen_of (t : tty_t) : list Z * Z := (cch <$> tbuf t, cursor t).

(** The picture of cell [i]: the cursor is a block. *)
Definition picture (scr : list Z * Z) (i : Z) : Z :=
  if decide (i = scr.2) then 0xdb%Z else default 0%Z (aget scr.1 i).

(** What printing leaves alone. *)
Definition chrome (t : tty_t) : nat * nat * Z * Z * Z * Z * tty_queue :=
  (tlock t, cooked t, tdisplay t, lines t, columns t, tsize t, queue t).

(** ** Marking *)

Definition marks (t t' : tty_t) (P : Z → Prop) : Prop :=
  ∃ d, t' = set_dirty d t ∧ length d = length (dirty t) ∧
    ∀ j, aget d j = Some 0%Z → ¬ P j ∧ aget (dirty t) j = Some 0%Z.

Lemma marks_refl t (P : Z → Prop) : (∀ j, ¬ P j) → marks t t P.
Proof. intros HP. exists (dirty t). split_and!; [by destruct t|done|]. intros j Hj. split; [apply HP|done]. Qed.

Lemma marks_trans t1 t2 t3 (P1 P2 P : Z → Prop) :
  marks t1 t2 P1 → marks t2 t3 P2 → (∀ j, P j → P1 j ∨ P2 j) → marks t1 t3 P.
Proof.
  intros (d1 & -> & Hl1 & H1) (d2 & -> & Hl2 & H2) HP. exists d2. split_and!; [done|by rewrite Hl2|].
  intros j [Hn2 [Hn1 Hd]%H1]%H2. split; [|done]. intros [?|?]%HP; auto.
Qed.

Lemma wp_mark i (Q : unit → tty_t → Prop) t : screen_ok t → (0 ≤ i < tsize t)%Z →
  (∀ t', screen_ok t' → marks t t' (λ j, j = i) → Q tt t') → wp (tty_mark i) Q t.
Proof.
  intros Hok Hi HQ. unfold tty_mark. wp_steps. eapply wp_deref; [apply aset_Some; destruct Hok; lia|]. wp_steps. apply HQ.
  - destruct Hok. split; simpl; try done. by rewrite length_insert.
  - exists (<[Z.to_nat i := 1%Z]> (dirty t)). split_and!; [done|by rewrite length_insert|].
    intros j [Hj Hget]%aget_Some. unfold aget. rewrite decide_True by done.
    apply lookup_insert_cases in Hget as [[_ [=]]|[Hne Hget]]. split; [lia|done].
Qed.

Lemma marks_sizes t t' P : marks t t' P →
  tsize t' = tsize t ∧ columns t' = columns t ∧ chrome t' = chrome t ∧ screen_of t' = screen_of t.
Proof. by intros (d & -> & _). Qed.

(** A loop that marks the cells [o + lo .. o + hi - 1]. *)
Lemma wp_mark_range (f : Z → M tty_t unit) o lo hi (Q : unit → tty_t → Prop) t :
  (∀ k, f k = tty_mark (o + k)) → (lo ≤ hi)%Z → screen_ok t → (0 ≤ o + lo ∧ o + hi ≤ tsize t)%Z →
  (∀ t', screen_ok t' → marks t t' (λ j, o + lo ≤ j < o + hi)%Z → Q tt t') →
  wp (for_range lo hi f) Q t.
Proof.
  intros Hf Hle Hok Hin HQ. eapply wp_mono.
  - apply (wp_for_range (λ k t', screen_ok t' ∧ marks t t' (λ j, o + lo ≤ j < o + k)%Z)); [done| |].
    + split; [done|]. apply marks_refl. lia.
    + intros k t1 Hk [Hok1 Hm]. pose proof (marks_sizes _ _ _ Hm) as (Hs & _). rewrite Hf.
      apply wp_mark; [done|lia|]. intros t2 Hok2 Hm2. split; [done|]. eapply marks_trans; [exact Hm|exact Hm2|]. simpl. lia.
  - intros [] t' [Hok' Hm]. by apply HQ.
Qed.

Lemma wp_mark_all (Q : unit → tty_t → Prop) t : screen_ok t →
  (∀ t', screen_ok t' → marks t t' (λ j, 0 ≤ j < tsize t)%Z → Q tt t') → wp tty_mark_all Q t.
Proof.
  intros Hok HQ. unfold tty_mark_all. wp_steps. apply (wp_mark_range _ 0); [done|destruct Hok; lia|done|lia|done].
Qed.

(** The first cell of the line of cell [i], and its line's end. *)
Lemma line_bounds cols n i : (0 < cols)%Z → (0 ≤ i < cols * n)%Z →
  (0 ≤ i - i `mod` cols)%Z ∧ (i - i `mod` cols + cols ≤ cols * n)%Z ∧ (0 ≤ i `mod` cols < cols)%Z.
Proof.
  intros Hc Hi. pose proof (Z.mod_pos_bound i cols Hc). pose proof (Z.div_mod i cols ltac:(lia)).
  assert (0 ≤ i `div` cols < n)%Z by (split; [apply Z.div_pos; lia|apply Z.div_lt_upper_bound; lia]).
  nia.
Qed.

Lemma wp_column_of i (Q : Z → tty_t → Prop) t : screen_ok t → (0 ≤ i)%Z →
  Q (i `mod` columns t)%Z t → wp (column_of i) Q t.
Proof.
  intros Hok Hi HQ. unfold column_of. wp_steps. pose proof (sk_columns _ Hok). rewrite decide_False by lia. wp_steps.
  by rewrite Z.rem_mod_nonneg by lia.
Qed.

Lemma wp_mark_line i (Q : unit → tty_t → Prop) t : screen_ok t → (0 ≤ i < tsize t)%Z →
  (∀ t', screen_ok t' → marks t t' (λ j, i - i `mod` columns t ≤ j < i - i `mod` columns t + columns t)%Z → Q tt t') →
  wp (tty_mark_line i) Q t.
Proof.
  intros Hok Hi HQ. unfold tty_mark_line. wp_steps. apply wp_column_of; [done|lia|]. wp_steps.
  pose proof (line_bounds (columns t) (lines t) i (sk_columns _ Hok)) as Hb. rewrite <-(sk_size _ Hok) in Hb.
  specialize (Hb Hi). eapply (wp_mark_range _ (i - i `mod` columns t)%Z); [done|lia|done|lia|].
  intros t' Hok' Hm. apply HQ; [done|]. by rewrite Z.add_0_r in Hm.
Qed.

(** ** The character operations *)

Lemma set_cursor_ok t c : screen_ok t → (0 ≤ c < tsize t)%Z → screen_ok (set_cursor c t).
Proof. intros [] Hc. by split. Qed.

Lemma set_tbuf_ok t b : screen_ok t → length b = length (tbuf t) → screen_ok (set_tbuf b t).
Proof. intros [] Hb. split; try done. simpl. by rewrite Hb. Qed.

Lemma wp_put_ch c (Q : unit → tty_t → Prop) t : screen_ok t →
  (∀ b, length b = length (tbuf t) → cch <$> b = <[Z.to_nat (cursor t) := u8 c]> (cch <$> tbuf t) →
     Q tt (set_tbuf b t)) → wp (put_ch c) Q t.
Proof.
  intros Hok HQ. unfold put_ch, tget, tput. wp_steps.
  destruct (aget_is_Some (tbuf t) (cursor t)) as [x Hx]; [destruct Hok; lia|]. eapply wp_deref; [done|]. wp_steps.
  eapply wp_deref; [apply aset_Some; destruct Hok; lia|]. wp_steps. apply HQ; [by rewrite length_insert|].
  by rewrite list_fmap_insert.
Qed.

Lemma lookup_scrolled {A} (l l' : list A) n x : n ≤ length l → length l' = length l →
  (∀ j, j < length l → l' !! j = if decide (length l - n ≤ j) then Some x else l !! (n + j)) →
  l' = drop n l ++ replicate n x.
Proof.
  intros Hn Hl Hj. apply list_eq_same_length with (length l);
    [rewrite length_app, length_drop, length_replicate; lia|done|].
  intros i a b Hi Ha Hb. rewrite Hj in Ha by done. case_decide as Hd.
  - rewrite lookup_app_r in Hb by (rewrite length_drop; lia). apply lookup_replicate in Hb as [-> _]. congruence.
  - rewrite lookup_app_l, lookup_drop in Hb by (rewrite length_drop; lia). congruence.
Qed.

(** A memory move towards the start of an array: the cells moved and those kept. *)
Lemma shift_down_by_ok {A} k n (l : list A) : (0 ≤ n)%Z → (0 ≤ k)%Z → (k + n ≤ Z.of_nat (length l))%Z →
  ∃ l', shift_down_by k n l = Ret l' ∧ length l' = length l ∧
    ∀ j, j < Z.to_nat n → l' !! j = l !! (Z.to_nat k + j).
Proof.
  intros Hn Hk Hb. unfold shift_down_by. rewrite decide_True by done. eexists. split_and!; [done| |].
  - rewrite length_app, length_take, !length_drop. lia.
  - intros j Hj. rewrite lookup_app_l by (rewrite length_take, length_drop; lia).
    by rewrite lookup_take, decide_True, lookup_drop by lia.
Qed.

Lemma wp_lift_ret {S A} (r : res A) a (Q : A → S → Prop) s : r = Ret a → Q a s → wp (lift r) Q s.
Proof. by intros ->. Qed.

(** The line the cursor leaves the screen from, cleared. *)
Lemma wp_clear_line (Q : unit → tty_t → Prop) t : screen_ok t → (cursor t + columns t = tsize t)%Z →
  (∀ b, length b = length (tbuf t) →
     (∀ j, j < length (tbuf t) → b !! j = if decide (length (tbuf t) - Z.to_nat (columns t) ≤ j) then Some tty_defaultch else tbuf t !! j) →
     Q tt (set_tbuf b t)) →
  wp (for_range 0 (columns t) (λ i, t ← get; tput (cursor t + i) tty_defaultch)) Q t.
Proof.
  intros Hok Hc HQ. pose proof Hok as [_ Hcol _ _ Hb _ Hcur]. eapply wp_mono.
  - apply (wp_for_range (λ i t', ∃ b, t' = set_tbuf b t ∧ length b = length (tbuf t) ∧
      ∀ j, j < length (tbuf t) → b !! j = if decide (cursor t ≤ Z.of_nat j < cursor t + i)%Z then Some tty_defaultch else tbuf t !! j)); [lia| |].
    + exists (tbuf t). split_and!; [by destruct t|done|]. intros j Hj. rewrite decide_False by lia. done.
    + intros i t1 Hi (b & -> & Hl & Hlk). unfold tput. wp_steps. cbn [cursor tbuf set_tbuf].
      eapply wp_deref; [apply aset_Some; cbn; lia|]. wp_steps. eexists. split_and!; [done|by rewrite length_insert|].
      intros j Hj. cbn [tbuf set_tbuf]. destruct (decide (Z.of_nat j = cursor t + i)%Z) as [Hji|Hji].
      * replace (Z.to_nat (cursor t + i)) with j by lia. rewrite list_lookup_insert_eq by lia. by rewrite decide_True by lia.
      * rewrite list_lookup_insert_ne, Hlk by lia. by repeat case_decide; try lia.
  - intros [] t1 (b & -> & Hl & Hlk). apply HQ; [done|]. intros j Hj. rewrite Hlk by done. by repeat case_decide; try lia.
Qed.

Lemma wp_scrollup (Q : unit → tty_t → Prop) t : screen_ok (set_cursor 0 t) → cursor t = tsize t →
  (∀ t', screen_ok t' → chrome t' = chrome t →
     screen_of t' = advance (columns t) (cch <$> tbuf t) (cursor t) → Q tt t') →
  wp tty_upd_scrollup Q t.
Proof.
  intros Hok Hcur HQ. pose proof Hok as [Hli Hcol Hs Htwo Hb Hd _]. cbn [lines columns tsize tbuf dirty set_cursor] in *.
  assert (Hmv : (0 ≤ columns t * (lines t - 1) ∧ columns t + columns t * (lines t - 1) = tsize t)%Z) by nia.
  destruct (shift_down_by_ok (columns t) (columns t * (lines t - 1)) (tbuf t)) as (b1 & Hb1 & Hlb1 & Hkb1); [lia..|].
  destruct (shift_down_by_ok (columns t) (columns t * (lines t - 1)) (dirty t)) as (d1 & Hd1 & Hld1 & _); [lia..|].
  unfold tty_upd_scrollup. wp_steps. eapply wp_lift_ret; [exact Hb1|]. wp_steps. eapply wp_lift_ret; [exact Hd1|]. wp_steps.
  assert (Hok1 : screen_ok (set_cursor (cursor t - columns t) (set_dirty d1 (set_tbuf b1 t)))).
  { split; simpl; try done; try lia. }
  apply (wp_clear_line Q _ Hok1); [simpl; lia|]. simpl. rewrite Hlb1. intros b2 Hlb2 Hkb2.
  apply HQ; [by apply set_tbuf_ok; [|simpl; rewrite Hlb1]|done..|].
  unfold screen_of, advance. simpl. rewrite length_fmap, decide_True by lia. f_equal. unfold scroll.
  apply lookup_scrolled; [rewrite length_fmap; lia|by rewrite !length_fmap|]. rewrite length_fmap. intros j Hj.
  rewrite !list_lookup_fmap, Hkb2 by done. case_decide; [done|]. by rewrite Hkb1 by lia.
Qed.

(** ** Printing *)

Record printed (t t' : tty_t) (c : Z) : Prop := {
  pr_ok : screen_ok t';
  pr_chrome : chrome t' = chrome t;
  pr_screen : screen_of t' = screen_putc (columns t) (screen_of t) c;
  pr_marks : ∀ j, aget (dirty t') j = Some 0%Z →
    aget (dirty t) j = Some 0%Z ∧ picture (screen_of t') j = picture (screen_of t) j
}.

Lemma picture_same l l' c c' j : j ≠ c → j ≠ c' → aget l' j = aget l j → picture (l', c') j = picture (l, c) j.
Proof. intros Hc Hc' Hl. unfold picture. simpl. by rewrite Hl, !decide_False by done. Qed.

(** The state after the cells and the cursor changed, then cells were marked. *)
Lemma printed_marked t t1 t' c (P : Z → Prop) :
  screen_ok t' → dirty t1 = dirty t → chrome t1 = chrome t → marks t1 t' P →
  screen_of t1 = screen_putc (columns t) (screen_of t) c →
  (∀ j, (0 ≤ j < tsize t1)%Z → ¬ P j → picture (screen_of t1) j = picture (screen_of t) j) →
  printed t t' c.
Proof.
  intros Hok Hd Hc Hm Hs Hpic. pose proof (marks_sizes _ _ _ Hm) as (Hts & _ & Hch & Hsc).
  split; [done|by rewrite Hch|by rewrite Hsc|].
  intros j Hj. destruct Hm as (d & -> & Hld & Hm). destruct (Hm j Hj) as [HP Hj']. rewrite Hd in Hj'. split; [done|].
  rewrite Hsc. apply Hpic; [|done]. pose proof (aget_lt _ _ _ Hj) as Hlt. simpl in Hlt.
  pose proof (sk_dirty _ Hok) as Hdl. simpl in Hdl. lia.
Qed.

(** After a scroll everything is marked. *)
Lemma wp_scroll_mark t t1 c (Q : unit → tty_t → Prop) :
  screen_ok (set_cursor 0 t1) → cursor t1 = tsize t1 → chrome t1 = chrome t →
  advance (columns t) (cch <$> tbuf t1) (cursor t1) = screen_putc (columns t) (screen_of t) c →
  (∀ t', printed t t' c → Q tt t') → wp (tty_upd_scrollup;; tty_mark_all) Q t1.
Proof.
  intros Hok Hcur Hc Hs HQ. apply wp_bind. apply wp_scrollup; [done|done|]. intros t2 Hok2 Hc2 Hs2.
  apply wp_mark_all; [done|]. intros t3 Hok3 Hm. pose proof (marks_sizes _ _ _ Hm) as (Hts3 & _ & Hc3 & Hsc).
  assert (Hcols : columns t1 = columns t) by (unfold chrome in Hc; congruence).
  apply HQ. split; [done|congruence|by rewrite Hsc, Hs2, Hcols|].
  intros j Hj. exfalso. destruct Hm as (d & -> & Hld & Hm). destruct (Hm j Hj) as [HP Hj2]. apply HP.
  pose proof (aget_lt _ _ _ Hj2). pose proof (sk_dirty _ Hok2). lia.
Qed.

Lemma advance_in cols l cur : (cur < Z.of_nat (length l))%Z → advance cols l cur = (l, cur).
Proof. intros Hlt. unfold advance. by rewrite decide_False by lia. Qed.

Lemma wp_tty_cr (Q : unit → tty_t → Prop) t : screen_ok t →
  Q tt (set_cursor (cursor t - cursor t `mod` columns t) t) → wp tty_upd_cr Q t.
Proof.
  intros Hok HQ. unfold tty_upd_cr. wp_steps. apply wp_column_of; [done|destruct Hok; lia|]. by wp_steps.
Qed.

Lemma wp_print_cr (Q : unit → tty_t → Prop) t : screen_ok t → (∀ t', printed t t' 13 → Q tt t') → wp (tty_putc 13) Q t.
Proof.
  intros Hok HQ. pose proof Hok as [_ Hcol Hs _ Hb _ Hcur]. unfold tty_putc. rewrite (decide_True (P := 13%Z = 13%Z)) by done.
  wp_steps. apply wp_tty_cr; [done|]. wp_steps.
  pose proof (line_bounds (columns t) (lines t) (cursor t) Hcol) as Hline. rewrite <-Hs in Hline. specialize (Hline Hcur).
  assert (Hok1 : screen_ok (set_cursor (cursor t - cursor t `mod` columns t) t)) by (apply set_cursor_ok; [done|lia]).
  apply wp_mark_line; [done|simpl; lia|]. intros t' Hok' Hm. apply HQ.
  eapply printed_marked; [done| | |exact Hm| |]; try done. cbn [cursor columns set_cursor]. intros j Hj HP.
  rewrite Zminus_mod_idemp_r, Z.sub_diag, Z.mod_0_l in HP by lia.
  unfold screen_of. cbn [cursor tbuf set_cursor]. apply picture_same; [lia..|done].
Qed.

Lemma wp_print_back (Q : unit → tty_t → Prop) t : screen_ok t → (∀ t', printed t t' 8 → Q tt t') → wp (tty_putc 8) Q t.
Proof.
  intros Hok HQ. pose proof Hok as [_ Hcol Hs Htwo Hb _ Hcur]. unfold tty_putc.
  rewrite (decide_False (P := 8%Z = 13%Z)), (decide_True (P := 8%Z = 8%Z)) by done.
  assert (Hpos : ∀ t1, dirty t1 = dirty t → chrome t1 = chrome t → screen_ok t1 →
    screen_of t1 = screen_putc (columns t) (screen_of t) 8 → (cursor t1 + 1 < tsize t)%Z →
    (∀ j, (0 ≤ j < tsize t)%Z → j ≠ cursor t1 → j ≠ (cursor t1 + 1)%Z → picture (screen_of t1) j = picture (screen_of t) j) →
    wp (t2 ← get; tty_mark (cursor t2);; tty_mark (cursor t2 + 1)) Q t1).
  { intros t1 Hd1 Hc1 Hok1 Hs1 Hlt Hpic. pose proof (sk_cursor _ Hok1).
    assert (Hts1 : tsize t1 = tsize t) by (unfold chrome in Hc1; congruence). wp_steps. apply wp_mark; [done|lia|].
    intros t2 Hok2 Hm2. pose proof (marks_sizes _ _ _ Hm2) as (Hts2 & _).
    apply wp_mark; [done|lia|]. intros t3 Hok3 Hm3. apply HQ.
    eapply (printed_marked t t1 t3 8 (λ j, j = cursor t1 ∨ j = (cursor t1 + 1)%Z)); try done; [by eapply marks_trans|].
    intros j Hj HP. apply Hpic; [lia|tauto..]. }
  apply wp_bind. unfold tty_upd_backsp. wp_steps. apply wp_decide; intros Hz.
  - wp_steps. apply wp_put_ch; [apply set_cursor_ok; [done|lia]|]. simpl. intros b Hlb Hb2. apply Hpos; try done.
    + apply set_tbuf_ok; [apply set_cursor_ok; [done|lia]|done].
    + unfold screen_putc, screen_of. simpl. by rewrite decide_True, Hb2 by done.
    + simpl. lia.
    + simpl. intros j Hj Hn1 Hn2. unfold screen_of. simpl. rewrite Hb2. apply picture_same; [lia|done|]. unfold aget.
      case_decide; [|done]. by rewrite list_lookup_insert_ne by lia.
  - apply wp_ret, Hpos; try done.
    + unfold screen_putc, screen_of. simpl. by rewrite decide_False by done.
    + lia.
Qed.

Lemma wp_print_lf (Q : unit → tty_t → Prop) t : screen_ok t → (∀ t', printed t t' 10 → Q tt t') → wp (tty_putc 10) Q t.
Proof.
  intros Hok HQ. pose proof Hok as [_ Hcol Hs _ Hb _ Hcur]. unfold tty_putc.
  rewrite (decide_False (P := 10%Z = 13%Z)), (decide_False (P := 10%Z = 8%Z)), (decide_True (P := 10%Z = 10%Z)) by done.
  wp_steps. apply wp_tty_cr; [done|]. unfold tty_upd_lf. wp_steps. cbn [cursor tsize columns set_cursor].
  pose proof (line_bounds (columns t) (lines t) (cursor t) Hcol) as Hline. rewrite <-Hs in Hline. specialize (Hline Hcur).
  set (c := (cursor t - cursor t `mod` columns t)%Z) in *.
  assert (Hc : (c `mod` columns t = 0)%Z) by (unfold c; rewrite Zminus_mod_idemp_r, Z.sub_diag, Z.mod_0_l by lia; done).
  change (set_cursor (c + columns t) (set_cursor c t)) with (set_cursor (c + columns t) t).
  assert (Hspec : advance (columns t) (cch <$> tbuf t) (c + columns t) = screen_putc (columns t) (screen_of t) 10) by done.
  apply wp_decide; intros Hend.
  - apply (wp_scroll_mark t _ 10); [apply (set_cursor_ok t 0); [done|lia]|exact Hend|done|exact Hspec|exact HQ].
  - wp_steps. assert (Hok1 : screen_ok (set_cursor (c + columns t) t)) by (apply set_cursor_ok; [done|lia]).
    rewrite advance_in in Hspec by (rewrite length_fmap; lia).
    apply wp_mark_line; [done|simpl; lia|]. intros t2 Hok2 Hm2. pose proof (marks_sizes _ _ _ Hm2) as (Hts2 & Hc2 & _).
    wp_steps. apply wp_mark_line; [done|rewrite Hts2; simpl; lia|]. intros t3 Hok3 Hm3. apply HQ.
    rewrite Hc2 in Hm3. cbn [cursor columns set_cursor] in Hm2, Hm3.
    replace (c + columns t - columns t)%Z with c in Hm2 by lia. rewrite Hc in Hm2.
    replace ((c + columns t) `mod` columns t)%Z with 0%Z in Hm3 by (rewrite <-(Z.mul_1_l (columns t)) at 1; by rewrite Z.mod_add by lia).
    eapply (printed_marked t (set_cursor (c + columns t) t) t3 10 (λ j, (c ≤ j < c + columns t) ∨ (c + columns t ≤ j < c + columns t + columns t))%Z);
      [done|done|done| |done|].
    + eapply marks_trans; [exact Hm2|exact Hm3|]. simpl. lia.
    + simpl. intros j Hj HP. unfold screen_of. simpl. apply picture_same; [lia..|done].
Qed.

Lemma wp_print_char c (Q : unit → tty_t → Prop) t : screen_ok t → c ≠ 13%Z → c ≠ 8%Z → c ≠ 10%Z →
  (∀ t', printed t t' c → Q tt t') → wp (tty_putc c) Q t.
Proof.
  intros Hok H13 H8 H10 HQ. pose proof Hok as [_ Hcol Hs _ Hb _ Hcur]. unfold tty_putc, tty_upd_putc. rewrite !decide_False by done.
  wp_steps. apply wp_put_ch; [done|]. intros b Hlb Hb2. wp_steps. cbn [cursor tsize set_cursor set_tbuf].
  assert (Hspec : advance (columns t) (cch <$> b) (cursor t + 1) = screen_putc (columns t) (screen_of t) c).
  { unfold screen_putc, screen_of. by rewrite !decide_False, Hb2 by done. }
  pose proof (set_tbuf_ok t b Hok Hlb) as Hokb. apply wp_decide; intros Hend.
  - apply (wp_scroll_mark t _ c); [apply (set_cursor_ok (set_tbuf b t) 0); [done|simpl; lia]|exact Hend|done|exact Hspec|exact HQ].
  - wp_steps. assert (Hok1 : screen_ok (set_cursor (cursor t + 1) (set_tbuf b t))) by (apply set_cursor_ok; [done|simpl; lia]).
    rewrite advance_in in Hspec by (rewrite length_fmap; lia).
    apply wp_mark; [done|simpl; lia|]. intros t2 Hok2 Hm2. pose proof (marks_sizes _ _ _ Hm2) as (Hts2 & _).
    wp_steps. apply wp_mark; [done|rewrite Hts2; simpl; lia|]. intros t3 Hok3 Hm3. apply HQ.
    cbn [cursor set_cursor set_tbuf] in Hm2, Hm3.
    eapply (printed_marked t (set_cursor (cursor t + 1) (set_tbuf b t)) t3 c (λ j, j = cursor t ∨ j = (cursor t + 1)%Z)); [done|done|done| |done|].
    + eapply marks_trans; [exact Hm2|exact Hm3|]. simpl. lia.
    + simpl. intros j Hj HP. unfold screen_of. simpl. rewrite Hb2. apply picture_same; [lia..|]. unfold aget.
      case_decide; [|done]. by rewrite list_lookup_insert_ne by lia.
Qed.

Lemma wp_tty_putc c (Q : unit → tty_t → Prop) t : screen_ok t → (∀ t', printed t t' c → Q tt t') → wp (tty_putc c) Q t.
Proof.
  intros Hok HQ. destruct (decide (c = 13%Z)) as [->|]; [by apply wp_print_cr|].
  destruct (decide (c = 8%Z)) as [->|]; [by apply wp_print_back|].
  destruct (decide (c = 10%Z)) as [->|]; [by apply wp_print_lf|by apply wp_print_char].
Qed.

(** Printing [text] on a terminal. *)
Record printed_text (t t' : tty_t) (text : list Z) : Prop := {
  pt_ok : screen_ok t';
  pt_chrome : chrome t' = chrome t;
  pt_screen : screen_of t' = fold_left (screen_putc (columns t)) text (screen_of t);
  pt_marks : ∀ j, aget (dirty t') j = Some 0%Z →
    aget (dirty t) j = Some 0%Z ∧ picture (screen_of t') j = picture (screen_of t) j
}.

Lemma wp_print_text text (Q : unit → tty_t → Prop) t : screen_ok t →
  (∀ t', printed_text t t' text → Q tt t') → wp (for_each text tty_putc) Q t.
Proof.
  intros Hok HQ. eapply wp_mono; [apply (wp_for_each (λ w t', printed_text t t' w))|].
  - by split.
  - intros w c rest t1 _ [Hok1 Hch1 Hs1 Hm1]. apply wp_tty_putc; [done|]. intros t2 [Hok2 Hch2 Hs2 Hm2].
    assert (Hc1 : columns t1 = columns t) by (unfold chrome in Hch1; congruence). split.
    + done.
    + congruence.
    + by rewrite Hs2, fold_left_app, Hc1, Hs1.
    + intros j [Hj Hp]%Hm2. apply Hm1 in Hj as [Hj Hp1]. split; [done|congruence].
  - intros [] t' Ht'. by apply HQ.
Qed.

(** C26. Printing any text on a terminal stays inside its arrays, leaves exactly the
    characters and the cursor of the reference screen (lines wrap, the screen
    scrolls, backspace blanks the cell before the cursor, on the previous line
    too), and a cell left unmarked was unmarked before and shows the same
    picture. *)
Theorem screen_prints t text :
  screen_ok t →
  ∃ t', for_each text tty_putc t = Ret (tt, t') ∧ screen_ok t' ∧
    screen_of t' = fold_left (screen_putc (columns t)) text (screen_of t) ∧
    ∀ j, aget (dirty t') j = Some 0%Z →
      aget (dirty t) j = Some 0%Z ∧ picture (screen_of t') j = picture (screen_of t) j.
Proof.
  intros Hok. apply wp_run_ret. apply wp_print_text; [done|]. intros t' []. by split_and!.
Qed.

(** ** Drawing *)

Definition bytes_only (l : list Z) : Prop := Forall (λ c, 0 ≤ c < 256)%Z l.

Lemma advance_bytes cols l cur : bytes_only l → bytes_only (advance cols l cur).1.
Proof.
  intros Hl. unfold advance. case_decide; [|done]. apply Forall_app. split; [by apply Forall_drop|by apply Forall_replicate].
Qed.

Lemma screen_putc_bytes cols scr c : bytes_only scr.1 → bytes_only (screen_putc cols scr c).1.
Proof.
  destruct scr as [l cur]. simpl. intros Hl. unfold screen_putc. repeat case_decide; try done.
  - by apply Forall_insert.
  - by apply advance_bytes.
  - apply advance_bytes, Forall_insert; [done|apply u8_range].
Qed.

Lemma screen_text_bytes cols text : ∀ scr, bytes_only scr.1 → bytes_only (fold_left (screen_putc cols) text scr).1.
Proof. induction text as [|c text IH]; intros scr Hs; simpl; [done|]. by apply IH, screen_putc_bytes. Qed.

Lemma picture_byte scr i : bytes_only scr.1 → (0 ≤ picture scr i < 256)%Z.
Proof.
  intros Hb. unfold picture. case_decide; [done|]. destruct (aget scr.1 i) as [c|] eqn:Hc; [|done].
  apply aget_Some in Hc as [_ Hc]. by apply (Forall_lookup_1 _ _ _ _ Hb Hc).
Qed.

Lemma cell_sprites_ok dis x y c : (0 ≤ c < 256)%Z → Forall sprite_ok (cell_sprites dis x y c).
Proof.
  intros Hc. pose proof (Z.mod_pos_bound dis 16 ltac:(lia)).
  assert (Hb : ∀ z, (0 ≤ u16 z < 2 ^ 16)%Z) by (intros z; apply Z.mod_pos_bound; lia).
  assert (Ht : ∀ k, (0 ≤ k ≤ 2)%Z → (0 ≤ u16 (c * 2 + k) < NTEXTURE)%Z)
    by (intros k Hk; unfold u16, NTEXTURE; rewrite Z.mod_small; lia).
  unfold cell_sprites. repeat apply Forall_cons_2; [| |apply Forall_nil_2];
    (split; cbn [texture Video.x Video.y display z]; [apply Ht; lia|apply Hb|apply Hb|lia|lia]).
Qed.

Section drawing.
Context {K : Type} `{!Kmt K}.
Notation st := (tty_st K).

(** The rectangles sent for the cell in column [x] of line [y]. *)
Definition cell_drawing (f : fb_st K) (t : tty_t) (y x : Z) : list drawing :=
  let i := (y * columns t + x)%Z in
  if decide (aget (dirty t) i = Some 0%Z) then []
  else cell_sprites (tdisplay t) x y (picture (screen_of t) i) ≫= shown (current (info f)) (textures f).
Definition line_drawing (f : fb_st K) (t : tty_t) (y : Z) : list drawing :=
  seqZ 0 (columns t) ≫= cell_drawing f t y.
Definition screen_drawing (f : fb_st K) (t : tty_t) : list drawing := seqZ 0 (lines t) ≫= line_drawing f t.

Record term_ready (s : st) : Prop := {
  tr_kmt : k_inv (vkmt (tfb s));
  tr_sems : tlock (tty s) ≠ fb_sem (tfb s);
  tr_lock : k_sem (vkmt (tfb s)) (tlock (tty s)) = Some 1%Z;
  tr_fb : k_sem (vkmt (tfb s)) (fb_sem (tfb s)) = Some 1%Z;
  tr_screen : screen_ok (tty s);
  tr_bytes : bytes_only (cch <$> tbuf (tty s))
}.

(** The frame buffer after more rectangles were sent. *)
Definition drew (f f' : fb_st K) (l : list drawing) : Prop :=
  ∃ k, f' = set_vkmt k (set_drawn (drawn f ++ l) f) ∧ k_inv k ∧ ∀ b, k_sem k b = k_sem (vkmt f) b.

Lemma drew_refl f : k_inv (vkmt f) → drew f f [].
Proof. intros Hk. exists (vkmt f). rewrite app_nil_r. by destruct f. Qed.

Lemma drew_trans f1 f2 f3 l1 l2 : drew f1 f2 l1 → drew f2 f3 l2 → drew f1 f3 (l1 ++ l2).
Proof.
  intros (k1 & -> & Hk1 & Hs1) (k2 & -> & Hk2 & Hs2). exists k2. split_and!; [|done|].
  - simpl. by rewrite (assoc_L (++)).
  - intros b. by rewrite Hs2, <-Hs1.
Qed.

(** What rests of the terminal while its lock is held. *)
Record drawing_ok (s : st) : Prop := {
  dk_kmt : k_inv (vkmt (tfb s));
  dk_fb : k_sem (vkmt (tfb s)) (fb_sem (tfb s)) = Some 1%Z;
  dk_screen : screen_ok (tty s);
  dk_bytes : bytes_only (cch <$> tbuf (tty s))
}.

Lemma wp_render_cell y x (Q : unit → st → Prop) s : drawing_ok s →
  (0 ≤ y * columns (tty s) + x < tsize (tty s))%Z →
  (∀ f, drew (tfb s) f (cell_drawing (tfb s) (tty s) y x) → Q tt (set_tfb f s)) →
  wp (render_cell y x) Q s.
Proof.
  intros [Hk Hfb Hok Hbytes] Hi HQ. unfold render_cell. wp_steps. set (i := (y * columns (tty s) + x)%Z) in *.
  destruct (aget_is_Some (dirty (tty s)) i) as [d Hd]; [by rewrite (sk_dirty _ Hok)|].
  eapply wp_deref; [done|]. unfold cell_drawing in HQ. fold i in HQ. rewrite Hd in HQ. apply wp_decide; intros Hz.
  - rewrite decide_False in HQ by congruence. wp_steps.
    destruct (aget_is_Some (tbuf (tty s)) i) as [c Hc]; [by rewrite (sk_buf _ Hok)|]. eapply wp_deref; [done|].
    assert (Hpic : (if decide (i = cursor (tty s)) then 219%Z else cch c) = picture (screen_of (tty s)) i).
    { unfold picture, screen_of. simpl. case_decide; [done|]. apply aget_Some in Hc as [Hi0 Hc]. unfold aget.
      rewrite decide_True by done. by rewrite list_lookup_fmap, Hc. }
    rewrite Hpic. wp_steps. unfold on_fb. apply wp_zoom. apply wp_fb_write; [done|done|by apply cell_sprites_ok, picture_byte|].
    intros k Hk' Hs'. wp_steps. apply HQ. by exists k.
  - assert (Hd0 : d = 0%Z) by lia. rewrite decide_True in HQ by congruence. wp_steps.
    specialize (HQ (tfb s) (drew_refl _ Hk)). by destruct s.
Qed.

Lemma drew_same f f' l : drew f f' l → info f' = info f ∧ textures f' = textures f ∧ fb_sem f' = fb_sem f.
Proof. by intros (k & -> & _). Qed.

Lemma drew_inv f f' l : drew f f' l → k_inv (vkmt f') ∧ ∀ b, k_sem (vkmt f') b = k_sem (vkmt f) b.
Proof. by intros (k & -> & Hk & Hs). Qed.

(** A loop whose iterations each draw. *)
Lemma wp_draw_loop (body : Z → M st unit) (what : Z → list drawing) n (Q : unit → st → Prop) s :
  (0 ≤ n)%Z → drawing_ok s →
  (∀ i f (P : unit → st → Prop), (0 ≤ i < n)%Z → drawing_ok (set_tfb f s) → info f = info (tfb s) → textures f = textures (tfb s) →
     (∀ f', drew f f' (what i) → P tt (set_tfb f' s)) → wp (body i) P (set_tfb f s)) →
  (∀ f, drew (tfb s) f (seqZ 0 n ≫= what) → Q tt (set_tfb f s)) →
  wp (for_range 0 n body) Q s.
Proof.
  intros Hn Hok Hbody HQ. eapply wp_mono.
  - apply (wp_for_range (λ i s', ∃ f, s' = set_tfb f s ∧ drew (tfb s) f (seqZ 0 i ≫= what))); [done| |].
    + exists (tfb s). split; [by destruct s|]. apply drew_refl, Hok.
    + intros i s1 Hi (f & -> & Hf). pose proof (drew_same _ _ _ Hf) as (Hinfo & Htx & Hfs). pose proof (drew_inv _ _ _ Hf) as [Hk Hs].
      apply Hbody; [done| |done|done|].
      * destruct Hok as [_ Hfb Hscr Hb]. split; simpl; [done|by rewrite Hfs, Hs|done|done].
      * intros f' Hf'. exists f'. split; [done|]. rewrite (seqZ_app 0 i 1), bind_app by lia. simpl.
        rewrite app_nil_r. eapply drew_trans; [exact Hf|]. by rewrite Z.add_0_l.
  - intros [] s' (f & -> & Hf). by apply HQ.
Qed.

Lemma cell_in_range cols n y x : (0 < cols)%Z → (0 ≤ y < n)%Z → (0 ≤ x < cols)%Z → (0 ≤ y * cols + x < cols * n)%Z.
Proof. nia. Qed.

Lemma wp_render_lines (Q : unit → st → Prop) s : drawing_ok s →
  (∀ f, drew (tfb s) f (screen_drawing (tfb s) (tty s)) → Q tt (set_tfb f s)) →
  wp (for_range 0 (lines (tty s)) (λ y, for_range 0 (columns (tty s)) (λ x, render_cell y x))) Q s.
Proof.
  intros Hok HQ. pose proof (dk_screen _ Hok) as [Hli Hcol Hsz _ _ _ _].
  apply (wp_draw_loop _ (line_drawing (tfb s) (tty s))); [lia|done| |done].
  intros y f P Hy Hokf Hinfo Htx HP. apply (wp_draw_loop _ (cell_drawing (tfb s) (tty s) y) _ _ (set_tfb f s)); [lia|done| |done].
  intros x f' P' Hx Hokf' Hinfo' Htx' HP'. apply wp_render_cell; [done| |].
  - simpl. rewrite Hsz. by apply cell_in_range.
  - intros f2 Hf2. apply HP'. unfold cell_drawing in *. simpl in *. by rewrite <-Hinfo, <-Hinfo', <-Htx, <-Htx'.
Qed.

Lemma wp_tty_render (Q : unit → st → Prop) s : term_ready s →
  (∀ f, drew (tfb s) f (screen_drawing (tfb s) (tty s)) → Q tt (set_tfb f s)) →
  wp tty_render Q s.
Proof.
  intros [Hk Hne Hl Hfb Hok Hb] HQ. unfold tty_render. wp_steps.
  eapply wp_tty_down; [done|done|done|]. intros k1 Hk1 Hs1. wp_steps.
  apply (wp_render_lines _ (set_tfb (set_vkmt k1 (tfb s)) s)).
  { split; simpl; [done|by rewrite Hs1, decide_False|done|done]. }
  intros f Hf. pose proof (drew_inv _ _ _ Hf) as [Hkf Hsf].
  eapply (wp_tty_signal _ 0%Z); simpl; [done|by rewrite Hsf; simpl; rewrite Hs1, decide_True|done|].
  intros k2 Hk2 Hs2. apply HQ. destruct Hf as (k & -> & _ & Hsk). exists k2. split_and!; [done|done|].
  intros b. rewrite Hs2. simpl. rewrite Hsk. simpl. rewrite Hs1. case_decide; [by subst b; rewrite Hl|done].
Qed.

Lemma wp_each_on_tty {A} (l : list A) (f : A → M tty_t unit) (Q : unit → st → Prop) : ∀ s,
  wp (for_each l f) (λ _ t, Q tt (set_tty t s)) (tty s) → wp (for_each l (λ c, on_tty (f c))) Q s.
Proof.
  induction l as [|x l IH]; intros s Hw; simpl in *.
  - wp_steps. unfold wp in Hw. simpl in Hw. by destruct s.
  - apply wp_bind, wp_zoom. unfold wp at 1 in Hw. unfold mbind, M_bind in Hw. unfold wp at 1.
    destruct (f x (tty s)) as [[[] t]|]; [|done]. by apply IH.
Qed.

Lemma wp_tty_write s text (P : Z → st → Prop) :
  term_ready s →
  (∀ s', term_ready s' → columns (tty s') = columns (tty s) →
    screen_of (tty s') = fold_left (screen_putc (columns (tty s))) text (screen_of (tty s)) →
    drawn (tfb s') = drawn (tfb s) ++ screen_drawing (tfb s) (tty s') →
    (∀ j, aget (dirty (tty s')) j = Some 0%Z → picture (screen_of (tty s')) j = picture (screen_of (tty s)) j) →
    P (Z.of_nat (length text)) s') →
  wp (tty_write text) P s.
Proof.
  intros [Hk Hne Hl Hfb Hok Hb] HP. unfold tty_write. wp_steps.
  eapply wp_tty_down; [done|done|done|]. intros k1 Hk1 Hs1. wp_steps.
  apply wp_each_on_tty, wp_print_text; [done|]. intros t [Hokt Hch Hscr Hm]. wp_steps.
  eapply (wp_tty_signal _ 0%Z); simpl; [done|by rewrite Hs1, decide_True|done|]. intros k2 Hk2 Hs2. wp_steps.
  assert (Hsem : ∀ b, k_sem k2 b = k_sem (vkmt (tfb s)) b).
  { intros b. rewrite Hs2, Hs1. case_decide; [by subst b; rewrite Hl|done]. }
  assert (Hlt : tlock t = tlock (tty s)) by (unfold chrome in Hch; simpl in Hch; congruence).
  assert (Hct : columns t = columns (tty s)) by (unfold chrome in Hch; simpl in Hch; congruence).
  assert (Hbt : bytes_only (cch <$> tbuf t)).
  { change (bytes_only (screen_of t).1). rewrite Hscr. by apply screen_text_bytes. }
  apply wp_tty_render; [by split; simpl; rewrite ?Hlt, ?Hsem|]. simpl. intros f Hf. wp_steps.
  pose proof (drew_same _ _ _ Hf) as (_ & _ & Hfs). pose proof (drew_inv _ _ _ Hf) as [Hkf Hsf].
  apply HP; simpl.
  - split; simpl; rewrite ?Hfs, ?Hlt, ?Hsf; simpl; rewrite ?Hsem; done.
  - done.
  - done.
  - by destruct Hf as (k & -> & _).
  - intros j Hj. by apply Hm.
Qed.

(** C27. Writing text on an idle terminal prints it and then sends to the frame
    buffer the two sprites of every marked cell, line by line, with the character
    the screen now shows (the block at the cursor); the terminal is idle again,
    and a cell not marked shows what it showed before. *)
Theorem tty_write_shows s text :
  term_ready s →
  ∃ s', tty_write text s = Ret (Z.of_nat (length text), s') ∧ term_ready s' ∧
    screen_of (tty s') = fold_left (screen_putc (columns (tty s))) text (screen_of (tty s)) ∧
    drawn (tfb s') = drawn (tfb s) ++ screen_drawing (tfb s) (tty s') ∧
    ∀ j, aget (dirty (tty s')) j = Some 0%Z → picture (screen_of (tty s')) j = picture (screen_of (tty s)) j.
Proof.
  intros Hs. apply wp_run_ret, wp_tty_write; [done|]. intros s' ? _ ? ? ?. by split_and!.
Qed.
End drawing.

(** ** On the small terminal *)

Lemma demo_tty_ok : screen_ok demo_tty.
Proof. by split. Qed.

(** A, newline, B and a backspace. *)
Lemma screen_prints_witness :
  ∃ t', for_each [65; 10; 66; 8]%Z tty_putc demo_tty = Ret (tt, t') ∧ screen_of t' = ([65; 0; 0; 0]%Z, 2%Z).
Proof.
  destruct (screen_prints demo_tty [65; 10; 66; 8]%Z demo_tty_ok) as (t' & Hrun & _ & Hs & _).
  exists t'. split; [exact Hrun|]. rewrite Hs. reflexivity.
Defined.

Lemma demo_term_ready : term_ready demo_term.
Proof.
  split; [exact (tl_kmt _ _ _ demo_term_lines)|done..|exact demo_tty_ok|by repeat constructor].
Qed.

Lemma tty_write_shows_witness :
  ∃ s', tty_write [72; 105]%Z demo_term = Ret (2%Z, s') ∧ screen_of (tty s') = ([72; 105; 0; 0]%Z, 2%Z).
Proof.
  destruct (tty_write_shows demo_term [72; 105]%Z demo_term_ready) as (s' & Hrun & _ & Hs & _).
  exists s'. split; [exact Hrun|]. rewrite Hs. reflexivity.
Defined.
