(* ===== verification/Shell.v ===== *)
(** * The shell (kernel/src/devices/tty/shell.c)

    A shell reads lines from its terminal, finds the command in a table and runs
    it on the virtual file system; the commands print through one buffer that all
    of them share.  The terminal is the interface [Terminal], which the terminals
    of Tty.v implement. *)
From S2P Require Import Prelude Common KStdio Procfs Alloc KString Device Ext2 Vfs Kthreads Kmt Video Tty.

(** ** The device a shell talks to *)

Class Terminal (T : Type) := {
  term_write : list Z → M T Z;
  term_read : Z → M T (list Z * Z);          (* the bytes stored, the count returned *)
  term_ok : T → Prop;
  term_shows : T → list Z → T → Prop;         (* what printing a text changes *)
  term_write_ok t l : term_ok t →
    ∃ t', term_write l t = Ret (Z.of_nat (length l), t') ∧ term_ok t' ∧ term_shows t l t';
  term_shows_app t1 t2 t3 l1 l2 : term_shows t1 l1 t2 → term_shows t2 l2 t3 → term_shows t1 (l1 ++ l2) t3
}.

Definition BIGBUF : nat := 2048.
Definition READBUF : nat := 128.
Definition PATHBUF : nat := 256.
Definition PWDBUF : nat := 1024.

Inductive cmd := UNLINK | LINK | UNMOUNT | MOUNT | RMDIR | MKDIR | CATTO | CAT | CD | LS | ECHO | PWD.
#[export] Instance cmd_eq_dec : EqDecision cmd.
Proof. solve_decision. Defined.

Record shellinfo := ShellInfo { iname : string; iscript : string; ifunc : cmd; ioffset : nat }.

Definition INFO : list shellinfo := [
  ShellInfo "unlink " "  unlink [path]            (unlink [path])" UNLINK 7;
  ShellInfo "link " "  link [oldpath] [newpath] (link two [path])" LINK 5;
  ShellInfo "unmount " "  unmount [path]    (unmount [path])" UNMOUNT 8;
  ShellInfo "mount " "  mount [fs] [path] (mount [fs] to [path])" MOUNT 6;
  ShellInfo "rmdir " "  rmdir [dirname]   (remove [dirname])" RMDIR 6;
  ShellInfo "mkdir " "  mkdir [dirname]   (create [dirname])" MKDIR 6;
  ShellInfo "cat > " "  cat > [file]  (write [file], end with [~])" CATTO 6;
  ShellInfo "cat " "  cat [file]    (read [file])" CAT 4;
  ShellInfo "cd " "  cd [dirname]      (change [work_dir])" CD 3;
  ShellInfo "ls " "  ls [dirname]      (list [dirname]'s items)" LS 3;
  ShellInfo "echo " "  echo [message]       (print [message])" ECHO 5;
  ShellInfo "pwd " "  pwd               (print [work_dir])" PWD 4
].

(** [strncmp(s, name, n) == 0] for a [name] of [n] characters. *)
Definition starts (s nm : string) (n : nat) : bool := bool_decide (stake n s = stake n nm).

Definition find_command (s : string) : option shellinfo :=
  List.find (λ i, starts s (iname i) (ioffset i)) INFO.

Section shell.
Context {D V T : Type} `{!BlockDevice D} `{!Terminal T}.
(** The write operation behind /dev/ttyN, and the number of processors. *)
Context (tty_write : string → list Z → M V Z) (ncpu : Z).

(** The arrays are the byte at each index; [abs_path] and [pwd] hold strings. *)
Record sh_st := ShSt {
  svfs : vfs_st D V;
  sterm : T;
  bigbuf : Z → Z;
  readbuf : Z → Z;
  abs_path : string;
  abs_path2 : string;
  pwd : string
}.
Definition set_svfs v s := ShSt v (sterm s) (bigbuf s) (readbuf s) (abs_path s) (abs_path2 s) (pwd s).
Definition set_sterm v s := ShSt (svfs s) v (bigbuf s) (readbuf s) (abs_path s) (abs_path2 s) (pwd s).
Definition set_bigbuf v s := ShSt (svfs s) (sterm s) v (readbuf s) (abs_path s) (abs_path2 s) (pwd s).
Definition set_readbuf v s := ShSt (svfs s) (sterm s) (bigbuf s) v (abs_path s) (abs_path2 s) (pwd s).
Definition set_abs_path v s := ShSt (svfs s) (sterm s) (bigbuf s) (readbuf s) v (abs_path2 s) (pwd s).
Definition set_abs_path2 v s := ShSt (svfs s) (sterm s) (bigbuf s) (readbuf s) (abs_path s) v (pwd s).
Definition set_pwd v s := ShSt (svfs s) (sterm s) (bigbuf s) (readbuf s) (abs_path s) (abs_path2 s) v.

Abbreviation S := (M sh_st).
Definition on_vfs {A} (m : M (vfs_st D V) A) : S A := zoom svfs set_svfs m.
Definition on_term {A} (m : M T A) : S A := zoom sterm set_sterm m.

(** The string at [off] in an array of [n] bytes. *)
Fixpoint c_string (l : list Z) : option (list Z) :=
  match l with
  | [] => None
  | c :: l' => if decide (c = 0)%Z then Some [] else cons c <$> c_string l'
  end.
Definition string_at (off : Z) (n : nat) (m : Z → Z) : S (list Z) :=
  deref OutOfBounds (c_string (slice off (n - Z.to_nat off) m)).

(** [sprintf(bigbuf, ...)] of the text. *)
Definition put_big (text : string) : S unit :=
  if decide (String.length text < BIGBUF)
  then modify (λ s, set_bigbuf (blit 0 (string_bytes text ++ [0%Z]) (bigbuf s)) s) else fail OutOfBounds.

(** [tty->ops->write(tty, 0, bigbuf, strlen(bigbuf))] *)
Definition write_big : S unit :=
  s ← get;
  l ← string_at 0 BIGBUF (bigbuf s);
  on_term (term_write l);; mret tt.

Definition say (text : string) : S unit := put_big text;; write_big.

Definition put_path (p : string) : S unit :=
  if decide (String.length p < PATHBUF) then modify (set_abs_path p) else fail OutOfBounds.

Definition slash_c : Ascii.ascii := Ascii.ascii_of_nat 47.

Definition build_abs_path (dirname : string) : S unit :=
  s ← get;
  if decide (char_at 0 dirname ≠ Some slash_c) then put_path (pwd s);; put_path (pwd s +:+ dirname)
  else put_path dirname.

(** [abs_path[strlen(abs_path) - 1] == '/' ? strcat(abs_path, ".") : strcat(abs_path, "/.")] *)
Definition append_dot : S unit :=
  s ← get;
  c ← deref OutOfBounds (match String.length (abs_path s) with O => None | Datatypes.S n => char_at n (abs_path s) end);
  put_path (abs_path s +:+ (if decide (c = slash_c) then "." else "/.")).

Definition pwd_do : S unit := s ← get; say (pwd s +:+ nl).
Definition echo_do (str : string) : S unit := say (str +:+ nl).

Definition ls_do (dirname : string) : S unit :=
  build_abs_path dirname;;
  append_dot;;
  s ← get;
  r ← on_vfs (vfs_ls (abs_path s));
  (match r with Some text => put_big text | None => mret tt end);;
  write_big.

Definition cd_do (dirname : string) : S unit :=
  build_abs_path dirname;;
  s ← get;
  a ← on_vfs (vfs_access (abs_path s) TYPE_DIR);
  (if decide (a ≠ 0)%Z then put_big ("That is not a dir! " +:+ nl)
   else
     append_dot;;
     s ← get;
     a ← on_vfs (vfs_access (abs_path s) TYPE_DIR);
     (if decide (a = 0)%Z then
        p ← on_vfs (vfs_getpath (abs_path s));
        if decide (String.length p < PWDBUF) then modify (set_pwd p) else fail OutOfBounds
      else mret tt);;
     s ← get;
     put_big ("Current: " +:+ pwd s +:+ nl));;
  write_big.

(** [while (vfs_read(fd, bigbuf, 1024)) write(bigbuf, strlen(bigbuf))] *)
Fixpoint cat_loop (fuel : nat) (fd : Z) : S unit :=
  match fuel with
  | O => fail OutOfFuel
  | Datatypes.S n =>
      out ← on_vfs (vfs_read ncpu fd 1024);
      modify (λ s, set_bigbuf (blit 0 out (bigbuf s)) s);;
      if decide (out = []) then mret tt else write_big;; cat_loop n fd
  end.

Definition cat_do (fuel : nat) (dirname : string) : S unit :=
  build_abs_path dirname;;
  s ← get;
  fd ← on_vfs (vfs_open (abs_path s) (Z.lor TYPE_FILE RD_ABLE));
  if decide (fd = -1)%Z then say ("That is not a readable file! " +:+ nl)
  else cat_loop fuel fd.

Fixpoint catto_loop (fuel : nat) (fd : Z) : S unit :=
  match fuel with
  | O => fail OutOfFuel
  | Datatypes.S n =>
      '(out, nread) ← on_term (term_read (Z.of_nat BIGBUF));
      modify (λ s, set_bigbuf (blit 0 out (bigbuf s)) s);;
      (if decide (0 ≤ nread - 2 < Z.of_nat BIGBUF)%Z then mret tt else fail OutOfBounds);;
      s ← get;
      if decide (bigbuf s (nread - 2) = 126)%Z then
        on_vfs (vfs_write tty_write fd (slice 0 (Z.to_nat (nread - 2)) (bigbuf s)) (nread - 2));; mret tt
      else
        on_vfs (vfs_write tty_write fd (slice 0 (Z.to_nat nread) (bigbuf s)) nread);; catto_loop n fd
  end.

Definition catto_do (fuel : nat) (dirname : string) : S unit :=
  build_abs_path dirname;;
  s ← get;
  fd ← on_vfs (vfs_open (abs_path s) (Z.lor TYPE_FILE WR_ABLE));
  if decide (fd = -1)%Z then say ("That is not a writeable file! " +:+ nl)
  else catto_loop fuel fd.

(** [switch (r) { case 0: ... case n: ... default: d }] on messages. *)
Definition report (r : Z) (msgs : list string) (default : S unit) : S unit :=
  match aget msgs r with Some m => put_big (m +:+ nl) | None => default end.

Definition mkdir_do (dirname : string) : S unit :=
  build_abs_path dirname;;
  s ← get;
  a ← on_vfs (vfs_access (abs_path s) TYPE_DIR);
  if decide (a = 0)%Z then put_big ("Dir is exists! " +:+ nl)
  else
    r ← on_vfs (vfs_create (abs_path s));
    report r ["Success! "; "Incorrect pathname! "; "Uncapable filesystem! "] (mret tt);;
    write_big.

Definition rmdir_do (dirname : string) : S unit :=
  build_abs_path dirname;;
  s ← get;
  a ← on_vfs (vfs_access (abs_path s) TYPE_DIR);
  (if decide (a ≠ 0)%Z then put_big ("Dir is not exists! " +:+ nl) else mret tt);;
  r ← on_vfs (vfs_remove (abs_path s));
  report r ["Success! "; "Incorrect pathname! "; "Uncapable filesystem! "; "Cannot remove! "] (fail Halt);;
  write_big.

(** The two arguments at [argv] in [readbuf]: the space between them becomes a
    null character; without one the second begins after the end of the line. *)
Fixpoint word_length (l : list Z) : nat :=
  match l with [] => 0 | c :: l' => if decide (c = 32)%Z then 0 else Datatypes.S (word_length l') end.
Definition split_args (argv : Z) : S unit :=
  s ← get;
  l ← string_at argv READBUF (readbuf s);
  let off := (argv + Z.of_nat (word_length l))%Z in
  modify (λ s, set_readbuf (blit off [0%Z] (readbuf s)) s);;
  s ← get;
  a ← string_at argv READBUF (readbuf s);
  build_abs_path (bytes_string a);;
  modify (λ s, set_abs_path2 (abs_path s) s);;
  b ← string_at (off + 1) READBUF (readbuf s);
  build_abs_path (bytes_string b).

Definition link_do (argv : Z) : S unit :=
  split_args argv;;
  s ← get;
  r ← on_vfs (vfs_link (abs_path2 s) (abs_path s));
  report r ["Success! "; "Oldpath is not exists! "; "Newpath is exists! "] (fail Halt);;
  write_big.

Definition unlink_do (path : string) : S unit :=
  build_abs_path path;;
  s ← get;
  r ← on_vfs (vfs_unlink (abs_path s));
  report r ["Success! "; "Failed! "] (fail Halt);;
  write_big.

Definition mount_do (argv : Z) : S unit :=
  split_args argv;;
  s ← get;
  r ← on_vfs (vfs_mount (abs_path2 s) (abs_path s));
  report r ["Success! "; "Uncapable filesystem! "; "Dir already exists! "] (fail Halt);;
  write_big.

Definition unmount_do (path : string) : S unit :=
  build_abs_path path;;
  s ← get;
  r ← on_vfs (vfs_unmount (abs_path s));
  report r ["Success! "; "Incorrect pathname! "] (fail Halt);;
  write_big.

(** [for (i = LENGTH(INFO); i >= 0; i--) offset += sprintf(bigbuf + offset, "%s\n", INFO[i].script);] *)
Fixpoint help_lines (n : nat) (text : string) : S string :=
  i ← deref OutOfBounds (INFO !! n);
  let text := text +:+ iscript i +:+ nl in
  match n with O => mret text | Datatypes.S n' => help_lines n' text end.

Definition default_do : S unit :=
  put_big ("Unexpected command" +:+ nl);;
  text ← help_lines (length INFO) ("Unexpected command" +:+ nl +:+ nl +:+ "             -- help --" +:+ nl);
  put_big text;;
  write_big.

(** The call of the command's function, on the tty, [readbuf + argv] and [pwd]. *)
Definition run_command (fuel : nat) (c : cmd) (argv : Z) : S unit :=
  s ← get;
  l ← string_at argv READBUF (readbuf s);
  let arg := bytes_string l in
  match c with
  | UNLINK => unlink_do arg | LINK => link_do argv | UNMOUNT => unmount_do arg | MOUNT => mount_do argv
  | RMDIR => rmdir_do arg | MKDIR => mkdir_do arg | CATTO => catto_do fuel arg | CAT => cat_do fuel arg
  | CD => cd_do arg | LS => ls_do arg | ECHO => echo_do arg | PWD => pwd_do
  end.

Definition put_line_buf (text : string) : S unit :=
  modify (λ s, set_readbuf (blit 0 (string_bytes text ++ [0%Z]) (readbuf s)) s).

(** [ls], [cd] and [pwd] may stand alone. *)
Definition complete_line : S unit :=
  s ← get;
  l ← string_at 0 READBUF (readbuf s);
  if decide (bytes_string l = "ls") then put_line_buf "ls "
  else if decide (bytes_string l = "cd") then put_line_buf "cd "
  else if decide (bytes_string l = "pwd") then put_line_buf "pwd " else mret tt.

(** What the shell does with the line in [readbuf]. *)
Definition do_line (fuel : nat) : S unit :=
  complete_line;;
  s ← get;
  l ← string_at 0 READBUF (readbuf s);
  (match find_command (bytes_string l) with
   | Some i => run_command fuel (ifunc i) (Z.of_nat (ioffset i))
   | None => default_do
   end);;
  put_big "".

(** One round of [shell_task]. *)
Definition shell_round (fuel : nat) (tname : string) : S unit :=
  on_term (term_write (string_bytes ("(" +:+ tname +:+ ") $ ")));;
  '(out, nread) ← on_term (term_read (Z.of_nat READBUF));
  modify (λ s, set_readbuf (blit 0 out (readbuf s)) s);;
  (if decide (0 ≤ nread - 1 < Z.of_nat READBUF)%Z then mret tt else fail OutOfBounds);;
  modify (λ s, set_readbuf (blit (nread - 1) [0%Z] (readbuf s)) s);;
  do_line fuel.
End shell.
