(* ===== verification/ShellProps.v ===== *)
(** * Properties of the shell

    How a line picks its command, what the printing commands show on the
    terminal, and the two ways in which the shared buffer leaks. *)
From S2P Require Import Prelude Common KStdio Procfs Alloc KString Device Ext2 Vfs Kthreads Kmt Video Tty TtyProps TtyScreen Shell.

(** ** Choosing the command *)

Lemma stake_app (s t : string) : stake (String.length s) (s +:+ t) = s.
Proof. induction s as [|c s IH]; [by destruct t|]. exact (f_equal (String.String c) IH). Qed.

Lemma stake_split n s : s = stake n s +:+ sdrop n s.
Proof.
  revert n. induction s as [|c s IH]; intros [|n]; try done. exact (f_equal (String.String c) (IH n)).
Qed.

Definition names_length_ok (i : shellinfo) : bool := bool_decide (String.length (iname i) = ioffset i).

Lemma starts_iff i s : i ∈ INFO → starts s (iname i) (ioffset i) = true ↔ ∃ rest, s = iname i +:+ rest.
Proof.
  intros Hi. assert (Hlen : ioffset i = String.length (iname i)).
  { assert (Hall : Forall (λ i, ioffset i = String.length (iname i)) INFO) by (by repeat constructor).
    by apply (proj1 (Forall_forall _ _) Hall i Hi). }
  unfold starts. rewrite bool_decide_eq_true, Hlen. split.
  - intros Heq. exists (sdrop (String.length (iname i)) s). rewrite (stake_split (String.length (iname i)) s) at 1. f_equal.
    rewrite Heq. unfold stake. clear. induction (iname i) as [|c t IH]; [done|]. exact (f_equal (String.String c) IH).
  - intros [rest ->]. rewrite stake_app. unfold stake. clear. induction (iname i) as [|c t IH]; [done|]. exact (f_equal (String.String c) IH).
Qed.

(** Of two names in the table one can only begin the other when they are those
    of the two cat commands. *)
Lemma names_prefix i j r1 r2 : i ∈ INFO → j ∈ INFO → iname i +:+ r1 = iname j +:+ r2 →
  i = j ∨ (ifunc i = CATTO ∧ ifunc j = CAT) ∨ (ifunc i = CAT ∧ ifunc j = CATTO).
Proof.
  intros Hi Hj. unfold INFO in Hi, Hj. repeat setoid_rewrite elem_of_cons in Hi. repeat setoid_rewrite elem_of_cons in Hj.
  destruct_or? Hi; try (by apply not_elem_of_nil in Hi); subst i;
    destruct_or? Hj; try (by apply not_elem_of_nil in Hj); subst j; intros Heq; simpl in Heq; first [by left|by auto|discriminate Heq|idtac].
Qed.

Lemma find_catto rest : find_command ("cat > " +:+ rest) = Some (ShellInfo "cat > " "  cat > [file]  (write [file], end with [~])" CATTO 6).
Proof. by destruct rest. Qed.

Lemma find_cat_not_catto s i rest : find_command s = Some i → ifunc i = CAT → s ≠ "cat > " +:+ rest.
Proof. intros Hf Hc ->. rewrite find_catto in Hf. by injection Hf as <-. Qed.

Lemma find_command_spec s i :
  find_command s = Some i ↔
  i ∈ INFO ∧ (∃ rest, s = iname i +:+ rest) ∧ (ifunc i = CAT → ∀ rest, s ≠ "cat > " +:+ rest).
Proof.
  assert (Hto : ∀ j, find_command s = Some j → j ∈ INFO ∧ (∃ rest, s = iname j +:+ rest)).
  { intros j Hj. apply find_some in Hj as [Hin Hst]. apply list_elem_of_In in Hin. split; [done|]. by apply starts_iff. }
  split.
  - intros Hf. destruct (Hto _ Hf). split_and!; [done|done|]. intros Hc rest. by eapply find_cat_not_catto.
  - intros (Hin & [rest Hs] & Hcat). destruct (find_command s) as [j|] eqn:Hf.
    + destruct (Hto _ eq_refl) as [Hjn [rest' Hs']]. rewrite Hs in Hs'.
      destruct (names_prefix i j _ _ Hin Hjn Hs') as [->|[[Hi Hj]|[Hi Hj]]]; [done| |].
      * exfalso. apply (find_cat_not_catto _ _ rest Hf Hj). rewrite Hs.
        assert (Hn : Forall (λ i, ifunc i = CATTO → iname i = "cat > ") INFO) by (by repeat constructor).
        by rewrite (proj1 (Forall_forall _ _) Hn i Hin Hi).
      * exfalso. apply (Hcat Hi rest'). rewrite Hs, Hs'.
        assert (Hn : Forall (λ i, ifunc i = CATTO → iname i = "cat > ") INFO) by (by repeat constructor).
        by rewrite (proj1 (Forall_forall _ _) Hn j Hjn Hj).
    + exfalso. unfold find_command in Hf. pose proof (find_none _ _ Hf i (proj1 (list_elem_of_In _ _) Hin)) as Hn.
      assert (Ht : starts s (iname i) (ioffset i) = true) by (apply starts_iff; [done|by exists rest]). simpl in Hn. congruence.
Qed.

(** ** The buffers *)

Lemma c_string_iff l r : c_string l = Some r ↔ ∃ t, l = r ++ 0%Z :: t ∧ Forall (λ c, c ≠ 0%Z) r.
Proof.
  revert r. induction l as [|c l IH]; intros r; simpl.
  { split; [done|]. intros (t & Ht & _). by destruct r. }
  case_decide as Hc.
  - split.
    + intros [= <-]. exists l. by subst c.
    + intros (t & Ht & Hr). destruct r as [|x r]; [done|]. simpl in Ht. injection Ht as <- _. by apply Forall_cons in Hr as [? _].
  - rewrite fmap_Some. split.
    + intros (r' & (t & -> & Hr)%IH & ->). exists t. split; [done|]. by constructor.
    + intros (t & Ht & Hr). destruct r as [|x r]; [simpl in Ht; congruence|]. simpl in Ht. injection Ht as <- ->.
      apply Forall_cons in Hr as [_ Hr]. exists r. split; [|done]. apply IH. by exists t.
Qed.

Lemma slice_app off n m f : slice off (n + m) f = slice off n f ++ slice (off + Z.of_nat n) m f.
Proof.
  unfold slice. rewrite seq_app, fmap_app. f_equal. cbn [Nat.add].
  replace (seq n m) with (Nat.add n <$> seq 0 m) by (by rewrite fmap_add_seq, Nat.add_0_r).
  rewrite <-list_fmap_compose. apply list_fmap_ext. intros i k _. simpl. f_equal. lia.
Qed.

Lemma slice_blit l n f : length l ≤ n → ∃ t, slice 0 n (blit 0 l f) = l ++ t.
Proof.
  intros Hl. replace n with (length l + (n - length l)) by lia. rewrite slice_app. eexists. f_equal.
  apply list_eq_same_length with (length l); [done|apply slice_length|].
  intros i x y Hi Hx Hy. rewrite slice_lookup in Hx by done. injection Hx as <-.
  apply blit_in; [|lia]. rewrite <-Hy. f_equal. lia.
Qed.

Lemma bytes_roundtrip s : bytes_string (string_bytes s) = s.
Proof.
  unfold bytes_string, string_bytes. rewrite <-(String.string_of_list_ascii_of_string s) at 2. f_equal.
  induction (String.list_ascii_of_string s) as [|a l IH]; [done|]. cbn [fmap list_fmap]. f_equal; [|exact IH].
  rewrite N2Z.id. apply Ascii.ascii_N_embedding.
Qed.

Lemma string_bytes_app s t : string_bytes (s +:+ t) = string_bytes s ++ string_bytes t.
Proof.
  unfold string_bytes. rewrite <-fmap_app. f_equal. induction s as [|c s IH]; [done|]. exact (f_equal (cons c) IH).
Qed.

Lemma string_bytes_length s : length (string_bytes s) = String.length s.
Proof. unfold string_bytes. rewrite length_fmap. induction s as [|c s IH]; [done|]. exact (f_equal Datatypes.S IH). Qed.

Lemma str_assoc s t u : (s +:+ t) +:+ u = s +:+ t +:+ u.
Proof. induction s as [|c s IH]; [done|]. exact (f_equal (String.String c) IH). Qed.

Lemma str_length_app s t : String.length (s +:+ t) = String.length s + String.length t.
Proof. by rewrite <-!string_bytes_length, string_bytes_app, length_app. Qed.

Section shell.
Context {D V T : Type} `{!BlockDevice D} `{!Terminal T}.
Context (tty_write : string → list Z → M V Z) (ncpu : Z).
Notation st := (sh_st (D:=D) (V:=V) (T:=T)).

(** A text a C string can hold. *)
Definition no_nul (s : string) : Prop := Forall (λ c, c ≠ 0%Z) (string_bytes s).

Lemma wp_string_at off n m l (P : list Z → st → Prop) s :
  c_string (slice off (n - Z.to_nat off) m) = Some l → P l s → wp (string_at off n m) P s.
Proof. intros Hl HP. unfold string_at. rewrite Hl. by wp_steps. Qed.

Lemma wp_put_big text (P : unit → st → Prop) s : String.length text < BIGBUF →
  P tt (set_bigbuf (blit 0 (string_bytes text ++ [0%Z]) (bigbuf s)) s) → wp (put_big text) P s.
Proof. intros Hl HP. unfold put_big. by rewrite decide_True. Qed.

(** The text of the buffer goes to the terminal. *)
Lemma wp_write_big l (P : unit → st → Prop) s :
  term_ok (sterm s) → c_string (slice 0 BIGBUF (bigbuf s)) = Some l →
  (∀ t, term_ok t → term_shows (sterm s) l t → P tt (set_sterm t s)) → wp write_big P s.
Proof.
  intros Hok Hl HP. unfold write_big. wp_steps. eapply wp_string_at; [exact Hl|]. wp_steps. apply wp_zoom.
  destruct (term_write_ok (sterm s) l Hok) as (t & Hrun & Hokt & Hsh). apply wp_run. eexists _, t. split; [exact Hrun|].
  wp_steps. by apply HP.
Qed.

Lemma big_string text (s : st) : String.length text < BIGBUF → no_nul text →
  c_string (slice 0 BIGBUF (blit 0 (string_bytes text ++ [0%Z]) (bigbuf s))) = Some (string_bytes text).
Proof.
  intros Hl Hn. destruct (slice_blit (string_bytes text ++ [0%Z]) BIGBUF (bigbuf s)) as [t Ht].
  { rewrite length_app, string_bytes_length. simpl. lia. }
  rewrite Ht. apply c_string_iff. exists t. by rewrite <-(assoc_L (++)).
Qed.

Lemma wp_say text (P : unit → st → Prop) s : String.length text < BIGBUF → no_nul text → term_ok (sterm s) →
  (∀ t b, term_ok t → term_shows (sterm s) (string_bytes text) t → P tt (set_sterm t (set_bigbuf b s))) →
  wp (say text) P s.
Proof.
  intros Hl Hn Hok HP. unfold say. wp_steps. apply wp_put_big; [done|].
  eapply wp_write_big; [done|by apply big_string|]. intros t Ht Hsh. by apply HP.
Qed.

(** ** Lines *)

(** The line in [readbuf]. *)
Definition line_is (s : st) (l : string) : Prop := c_string (slice 0 READBUF (readbuf s)) = Some (string_bytes l).

Lemma line_tail s a l : line_is s (a +:+ l) →
  c_string (slice (Z.of_nat (String.length a)) (READBUF - Z.to_nat (Z.of_nat (String.length a))) (readbuf s)) = Some (string_bytes l).
Proof.
  unfold line_is. intros Hl. apply c_string_iff in Hl as (t & Ht & Hn). rewrite string_bytes_app in Ht, Hn.
  assert (Hlen : String.length a ≤ READBUF).
  { apply (f_equal length) in Ht. rewrite slice_length, !length_app, string_bytes_length in Ht. lia. }
  rewrite Nat2Z.id. replace READBUF with (String.length a + (READBUF - String.length a)) in Ht by lia.
  rewrite slice_app, Z.add_0_l, <-!(assoc_L (++)) in Ht. apply app_inj_1 in Ht as [_ Ht]; [|by rewrite slice_length, string_bytes_length].
  apply c_string_iff. exists t. split; [done|]. by apply Forall_app in Hn as [_ Hn].
Qed.

Definition bare (l : string) : Prop := l = "ls" ∨ l = "cd" ∨ l = "pwd".

Lemma wp_complete_line l (P : unit → st → Prop) s : line_is s l → ¬ bare l → P tt s → wp complete_line P s.
Proof.
  intros Hl Hb HP. unfold complete_line. wp_steps. eapply wp_string_at; [exact Hl|]. rewrite bytes_roundtrip.
  rewrite !decide_False by (intros ->; apply Hb; unfold bare; tauto). done.
Qed.

(** What a line runs. *)
Lemma wp_do_line fuel l i (P : unit → st → Prop) s : line_is s l → ¬ bare l → find_command l = Some i →
  wp (run_command tty_write ncpu fuel (ifunc i) (Z.of_nat (ioffset i))) (λ _ s', P tt (set_bigbuf (blit 0 [0%Z] (bigbuf s')) s')) s →
  wp (do_line tty_write ncpu fuel) P s.
Proof.
  intros Hl Hb Hi Hw. unfold do_line. apply wp_bind. eapply wp_complete_line; [done|done|]. wp_steps.
  eapply wp_string_at; [exact Hl|]. rewrite bytes_roundtrip, Hi. apply wp_bind. eapply wp_mono; [exact Hw|].
  intros [] s' HP. by apply wp_put_big; [unfold BIGBUF; simpl; lia|].
Qed.

Lemma default_do_faults (s : st) : default_do s = Err OutOfBounds.
Proof. done. Qed.

(** The commands, by the names a user types: what each does with the text after its
    name.  [link] and [mount] take two paths, which they find in [readbuf]. *)
Definition commands : list (string * (nat → string → M st unit)) := [
  ("unlink ", λ _ path, unlink_do path);
  ("link ", λ _ _, link_do 5);
  ("unmount ", λ _ path, unmount_do path);
  ("mount ", λ _ _, mount_do 6);
  ("rmdir ", λ _ path, rmdir_do path);
  ("mkdir ", λ _ path, mkdir_do path);
  ("cat > ", λ fuel path, catto_do tty_write fuel path);
  ("cat ", λ fuel path, cat_do ncpu fuel path);
  ("cd ", λ _ path, cd_do path);
  ("ls ", λ _ path, ls_do path);
  ("echo ", λ _ text, echo_do text);
  ("pwd ", λ _ _, pwd_do)
].

Lemma run_string_at off n (s : st) l : c_string (slice off (n - Z.to_nat off) (readbuf s)) = Some l →
  string_at off n (readbuf s) s = Ret (l, s).
Proof. unfold string_at. by intros ->. Qed.

(** The part of [do_line] after the three names that may stand alone. *)
Lemma run_found fuel (s : st) nm arg c : (nm, c) ∈ commands → line_is s (nm +:+ arg) →
  (nm = "cat " → ∀ rest, arg ≠ "> " +:+ rest) →
  (s ← get;
   l ← string_at 0 READBUF (readbuf s);
   (match find_command (bytes_string l) with
    | Some i => run_command tty_write ncpu fuel (ifunc i) (Z.of_nat (ioffset i))
    | None => default_do
    end);;
   put_big "") s = (c fuel arg;; put_big "") s.
Proof.
  intros Hc Hl Hcat. pose proof (run_string_at 0 READBUF s _ Hl) as Hs.
  pose proof (run_string_at _ _ s _ (line_tail _ _ _ Hl)) as Ha.
  assert (Hg : @get st s = Ret (s, s)) by done.
  rewrite (bind_run _ _ _ _ _ Hg), (bind_run _ _ _ _ _ Hs), bytes_roundtrip.
  assert (Hi : ∃ i, iname i = nm ∧ i ∈ INFO ∧ ioffset i = String.length nm ∧ (ifunc i = CAT → nm = "cat ") ∧
    run_command tty_write ncpu fuel (ifunc i) (Z.of_nat (String.length nm)) s = c fuel arg s).
  { unfold run_command. unfold commands in Hc. repeat setoid_rewrite elem_of_cons in Hc.
    destruct_or? Hc; try (by apply not_elem_of_nil in Hc); injection Hc as -> ->; eexists (ShellInfo _ _ _ _);
      (split; [reflexivity|]); (split; [unfold INFO; repeat first [left; reflexivity|right]|]); (split; [reflexivity|]);
      (split; [done|]); cbn [ifunc]; by rewrite (bind_run _ _ _ _ _ Hg), (bind_run _ _ _ _ _ Ha), ?bytes_roundtrip. }
  destruct Hi as (i & Hn & Hin & Ho & Hk & Hrun).
  assert (Hf : find_command (nm +:+ arg) = Some i).
  { apply find_command_spec. split; [done|]. split; [exists arg; by rewrite Hn|]. intros HC rest Heq. rewrite (Hk HC) in Heq.
    apply (Hcat (Hk HC) rest). by injection Heq. }
  rewrite Hf, Ho. unfold mbind, M_bind. by rewrite Hrun.
Qed.

Lemma named_not_bare nm c arg : (nm, c) ∈ commands → ¬ bare (nm +:+ arg).
Proof.
  unfold commands. repeat setoid_rewrite elem_of_cons. intros Hc [Hl|[Hl|Hl]]; destruct_or? Hc;
    try (by apply not_elem_of_nil in Hc); injection Hc as -> _; discriminate Hl.
Qed.

Lemma run_complete (s : st) l : line_is s l → ¬ bare l → complete_line s = Ret (tt, s).
Proof.
  intros Hl Hb. assert (Hc : wp complete_line (λ _ s', s' = s) s) by (by eapply wp_complete_line).
  apply wp_run in Hc as ([] & s' & Hrun & ->). exact Hrun.
Qed.

Lemma run_bare (s : st) l : line_is s l → bare l →
  ∃ s1, put_line_buf (l +:+ " ") s = Ret (tt, s1) ∧ complete_line s = Ret (tt, s1) ∧ line_is s1 (l +:+ " ").
Proof.
  intros Hl Hb. eexists. split; [reflexivity|]. pose proof (run_string_at 0 READBUF s _ Hl) as Hs. split.
  - unfold complete_line. assert (Hg : @get st s = Ret (s, s)) by done.
    rewrite (bind_run _ _ _ _ _ Hg), (bind_run _ _ _ _ _ Hs), bytes_roundtrip.
    by destruct Hb as [->|[->| ->]].
  - unfold line_is. cbn [readbuf set_readbuf].
    destruct (slice_blit (string_bytes (l +:+ " ") ++ [0%Z]) READBUF (readbuf s)) as [t Ht].
    { destruct Hb as [->|[->| ->]]; apply Nat.leb_le; reflexivity. }
    rewrite Ht. apply c_string_iff. exists t. rewrite <-(assoc_L (++)). split; [done|].
    destruct Hb as [->|[->| ->]]; by repeat constructor.
Qed.

(** Cutting a string in memory by a null character. *)
Lemma slice_insert off n k f : k < n → slice off n (blit (off + Z.of_nat k) [0%Z] f) = <[k := 0%Z]> (slice off n f).
Proof.
  intros Hk. apply list_eq_same_length with n; [by rewrite length_insert, slice_length|apply slice_length|].
  intros i x y Hi Hx Hy. rewrite slice_lookup in Hx by done. injection Hx as <-.
  destruct (decide (i = k)) as [->|].
  - rewrite list_lookup_insert_eq in Hy by (by rewrite slice_length). injection Hy as <-. apply blit_in; [|lia].
    by rewrite Z.sub_diag.
  - rewrite list_lookup_insert_ne, slice_lookup in Hy by done. injection Hy as <-. apply blit_out. cbn. lia.
Qed.

Lemma c_string_cut off n x y f : c_string (slice off n f) = Some (x ++ y) →
  c_string (slice off n (blit (off + Z.of_nat (length x)) [0%Z] f)) = Some x.
Proof.
  intros (t & Ht & Hn)%c_string_iff. apply Forall_app in Hn as [Hx _].
  assert (Hlen : length x < n) by (apply (f_equal length) in Ht; rewrite slice_length, !length_app in Ht; simpl in Ht; lia).
  rewrite slice_insert, Ht, <-(assoc_L (++)) by done. apply c_string_iff.
  rewrite <-(Nat.add_0_r (length x)), insert_app_r.
  destruct (y ++ 0%Z :: t) as [|z r] eqn:E; [by destruct y|]. by exists r.
Qed.

Lemma word_length_app x y : 32%Z ∉ x → word_length (x ++ 32%Z :: y) = length x.
Proof. induction x as [|c x IH]; [done|]. intros [Hc Hx]%not_elem_of_cons. cbn. rewrite decide_False by done. f_equal. by apply IH. Qed.

(** The two arguments of a line in [readbuf]. *)
Lemma run_split_args (s : st) nm a b : line_is s (nm +:+ a +:+ " " +:+ b) → 32%Z ∉ string_bytes a →
  split_args (Z.of_nat (String.length nm)) s =
  (build_abs_path a;; modify (λ s, set_abs_path2 (abs_path s) s);; build_abs_path b)
    (set_readbuf (blit (Z.of_nat (String.length nm + String.length a)) [0%Z] (readbuf s)) s).
Proof.
  intros Hl Ha. set (off := Z.of_nat (String.length nm)).
  pose proof (line_tail _ _ _ Hl) as Hargs. fold off in Hargs.
  assert (Hl2 : line_is s ((nm +:+ a +:+ " ") +:+ b)) by (by rewrite !str_assoc).
  pose proof (line_tail _ _ _ Hl2) as Hb.
  rewrite !string_bytes_app in Hargs. change (string_bytes " ") with [32%Z] in Hargs.
  set (cut := blit (Z.of_nat (String.length nm + String.length a)) [0%Z] (readbuf s)).
  assert (Hoff : (off + Z.of_nat (word_length (string_bytes a ++ [32%Z] ++ string_bytes b)))%Z = Z.of_nat (String.length nm + String.length a)).
  { change ([32%Z] ++ string_bytes b) with (32%Z :: string_bytes b). rewrite (word_length_app _ _ Ha), string_bytes_length. unfold off. lia. }
  assert (Hca : c_string (slice off (READBUF - Z.to_nat off) cut) = Some (string_bytes a)).
  { unfold cut. rewrite Nat2Z.inj_add, <-(string_bytes_length a). by eapply c_string_cut. }
  assert (Hcb : c_string (slice (Z.of_nat (String.length nm + String.length a) + 1)
    (READBUF - Z.to_nat (Z.of_nat (String.length nm + String.length a) + 1)) cut) = Some (string_bytes b)).
  { rewrite !str_length_app in Hb. change (String.length " ") with 1 in Hb.
    replace (Z.of_nat (String.length nm + String.length a) + 1)%Z with (Z.of_nat (String.length nm + (String.length a + 1))) by lia.
    rewrite <-Hb. f_equal. apply slice_ext. intros k Hk. apply blit_out. cbn. lia. }
  set (s1 := set_readbuf cut s).
  assert (Hg : ∀ s : st, get s = Ret (s, s)) by done.
  unfold split_args. rewrite (bind_run _ _ _ _ _ (Hg s)), (bind_run _ _ _ _ _ (run_string_at _ _ s _ Hargs)), Hoff.
  assert (Hm : modify (λ s, set_readbuf (blit (Z.of_nat (String.length nm + String.length a)) [0%Z] (readbuf s)) s) s = Ret (tt, s1)) by done.
  rewrite (bind_run _ _ _ _ _ Hm), (bind_run _ _ _ _ _ (Hg s1)), (bind_run _ _ _ _ _ (run_string_at _ _ s1 _ Hca)), bytes_roundtrip.
  unfold mbind, M_bind. destruct (build_abs_path a s1) as [[[] s2]|]; [|done]. cbn [modify].
  unfold string_at. change (readbuf s1) with cut. rewrite Hcb. cbn. by rewrite bytes_roundtrip.
Qed.

(** C32. A line runs the command whose name it begins with, on the text after the
    name, and then empties the buffer; ls, cd and pwd may stand alone; a line that
    begins with cat > runs that command and not cat.  The two paths of link and
    mount are the words after the name.  A line that begins with no name reads
    past the end of the table of commands. *)
Theorem command_dispatch fuel (s : st) l : line_is s l →
  (∀ nm c arg, (nm, c) ∈ commands → l = nm +:+ arg → (nm = "cat " → ∀ rest, arg ≠ "> " +:+ rest) →
     do_line tty_write ncpu fuel s = (c fuel arg;; put_big "") s) ∧
  (∀ c, bare l → (l +:+ " ", c) ∈ commands →
     do_line tty_write ncpu fuel s = (put_line_buf (l +:+ " ");; c fuel "";; put_big "") s) ∧
  (∀ nm a b, nm = "link " ∨ nm = "mount " → l = nm +:+ a +:+ " " +:+ b → 32%Z ∉ string_bytes a →
     split_args (Z.of_nat (String.length nm)) s =
     (build_abs_path a;; modify (λ s, set_abs_path2 (abs_path s) s);; build_abs_path b)
       (set_readbuf (blit (Z.of_nat (String.length nm + String.length a)) [0%Z] (readbuf s)) s)) ∧
  (¬ bare l → (∀ nm c arg, (nm, c) ∈ commands → l ≠ nm +:+ arg) → do_line tty_write ncpu fuel s = Err OutOfBounds).
Proof.
  intros Hl. split; [|split; [|split]].
  - intros nm c arg Hc -> Hcat. unfold do_line. rewrite (bind_run _ _ _ _ _ (run_complete _ _ Hl (named_not_bare _ _ _ Hc))).
    by apply (run_found fuel s nm arg c).
  - intros c Hb Hc. destruct (run_bare s l Hl Hb) as (s1 & Hp & Hcl & Hl1). unfold do_line.
    rewrite (bind_run _ _ _ _ _ Hcl), (bind_run _ _ _ _ _ Hp).
    apply (run_found fuel s1 (l +:+ " ") "" c); [done|by destruct Hb as [->|[->| ->]]|].
    intros Heq. by destruct Hb as [->|[->| ->]].
  - intros nm a b _ -> Ha. by apply (run_split_args s nm a b).
  - intros Hb Hno. unfold do_line. rewrite (bind_run _ _ _ _ _ (run_complete _ _ Hl Hb)).
    assert (Hg : @get st s = Ret (s, s)) by done.
    rewrite (bind_run _ _ _ _ _ Hg), (bind_run _ _ _ _ _ (run_string_at 0 READBUF s _ Hl)), bytes_roundtrip.
    destruct (find_command l) as [i|] eqn:Hf; [|apply bind_err, default_do_faults].
    exfalso. apply find_command_spec in Hf as (Hi & [rest Hr] & _).
    assert (Hc : ∃ c, (iname i, c) ∈ commands).
    { unfold INFO in Hi. repeat setoid_rewrite elem_of_cons in Hi.
      destruct_or? Hi; try (by apply not_elem_of_nil in Hi); subst i; eexists; unfold commands; cbn [iname];
        repeat first [left; reflexivity|right]. }
    destruct Hc as [c Hc]. by apply (Hno _ c rest Hc).
Qed.

(** An echo prints its message and a newline on the shell's terminal, whatever
    implements it, and leaves the file system and the working directory alone. *)
Theorem echo_prints fuel (s : st) msg :
  line_is s ("echo " +:+ msg) → term_ok (sterm s) →
  ∃ s', do_line tty_write ncpu fuel s = Ret (tt, s') ∧ svfs s' = svfs s ∧ pwd s' = pwd s ∧
    term_ok (sterm s') ∧ term_shows (sterm s) (string_bytes msg ++ [10%Z]) (sterm s').
Proof.
  intros Hl Hok. apply wp_run_ret.
  assert (Hf : find_command ("echo " +:+ msg) = Some (ShellInfo "echo " "  echo [message]       (print [message])" ECHO 5)) by (by destruct msg).
  eapply wp_do_line; [exact Hl|by intros [Hx|[Hx|Hx]]; simpl in Hx; discriminate Hx|exact Hf|]. cbn [ifunc ioffset]. unfold run_command.
  pose proof (line_tail _ _ _ Hl) as Ht. change (String.length "echo ") with 5 in Ht.
  pose proof Hl as (t & Heq & Hn)%c_string_iff. rewrite string_bytes_app in Hn, Heq. apply Forall_app in Hn as [_ Hn].
  apply (f_equal length) in Heq. rewrite slice_length, !length_app, !string_bytes_length in Heq. simpl in Heq. unfold READBUF in Heq.
  wp_steps. eapply wp_string_at; [exact Ht|]. rewrite bytes_roundtrip. unfold echo_do.
  assert (Hmsg : string_bytes (msg +:+ nl) = string_bytes msg ++ [10%Z]) by (by rewrite string_bytes_app).
  apply wp_say.
  - rewrite <-string_bytes_length, Hmsg, length_app, string_bytes_length. unfold BIGBUF. simpl. lia.
  - unfold no_nul. rewrite Hmsg. apply Forall_app. split; [done|]. by repeat constructor.
  - done.
  - intros t' b Ht' Hsh. rewrite Hmsg in Hsh. by split_and!.
Qed.

(** A round of cat prints the bytes just read followed by what an earlier
    command left in the buffer after them: the buffer is written up to its first
    null character, and nothing ends the bytes read. *)
Theorem cat_shows_stale n fd (s : st) out v stale :
  vfs_read ncpu fd 1024 (svfs s) = Ret (out, v) → out ≠ [] → length out ≤ BIGBUF → Forall (λ c, c ≠ 0%Z) out →
  c_string (slice (Z.of_nat (length out)) (BIGBUF - length out) (bigbuf s)) = Some stale → term_ok (sterm s) →
  ∃ s', cat_loop ncpu (Datatypes.S n) fd s = cat_loop ncpu n fd s' ∧ svfs s' = v ∧
    term_ok (sterm s') ∧ term_shows (sterm s) (out ++ stale) (sterm s').
Proof.
  intros Hread Hne Hlen Hnz Hst Hok.
  assert (Hbig : c_string (slice 0 BIGBUF (blit 0 out (bigbuf s))) = Some (out ++ stale)).
  { apply c_string_iff in Hst as (t & Ht & Hs). apply c_string_iff. exists t. split; [|by apply Forall_app].
    replace BIGBUF with (length out + (BIGBUF - length out)) by lia. rewrite slice_app, <-(assoc_L (++)). f_equal.
    - apply list_eq_same_length with (length out); [done|apply slice_length|].
      intros i x y Hi Hx Hy. rewrite slice_lookup in Hx by done. injection Hx as <-. apply blit_in; [|lia]. rewrite <-Hy. f_equal. lia.
    - rewrite <-Ht. unfold slice. apply list_fmap_ext. intros i k [-> _]%lookup_seq. rewrite blit_out by lia. f_equal. }
  destruct (term_write_ok (sterm s) (out ++ stale) Hok) as (t & Hrun & Hokt & Hsh).
  set (s1 := set_bigbuf (blit 0 out (bigbuf s)) (set_svfs v s)).
  exists (set_sterm t s1). split_and!; [|done|done|done]. cbn [cat_loop].
  assert (Hr : on_vfs (vfs_read ncpu fd 1024) s = Ret (out, set_svfs v s)) by (unfold on_vfs, zoom; by rewrite Hread).
  rewrite (bind_run _ _ _ _ _ Hr). unfold modify at 1. unfold mbind at 1, M_bind at 1. rewrite decide_False by done.
  assert (Hw : write_big s1 = Ret (tt, set_sterm t s1)).
  { assert (Hw : wp write_big (λ _ s', s' = set_sterm t s1) s1).
    { unfold write_big. wp_steps. eapply wp_string_at; [exact Hbig|]. wp_steps. apply wp_zoom.
      apply wp_run. eexists _, t. split; [exact Hrun|done]. }
    apply wp_run in Hw as ([] & s' & Hw & ->). exact Hw. }
  by rewrite (bind_run _ _ _ _ _ Hw).
Qed.
End shell.

(** ** On a terminal *)

(** The terminals implement the interface: what a text shows is the reference
    screen's. *)
#[export] Program Instance tty_terminal K `{!Kmt K} : Terminal (tty_st K) := {|
  term_write := tty_write;
  term_read := tty_read;
  term_ok := term_ready;
  term_shows s l s' := columns (tty s') = columns (tty s) ∧
    screen_of (tty s') = fold_left (screen_putc (columns (tty s))) l (screen_of (tty s))
|}.
Next Obligation.
  intros K HK s l Hs. apply wp_run_ret, wp_tty_write; [done|]. intros s' ? ? ? _ _. by split_and!.
Qed.
Next Obligation.
  intros K HK s1 s2 s3 l1 l2 [Hc1 Hs1] [Hc2 Hs2]. split; [congruence|]. by rewrite fold_left_app, Hs2, Hc1, Hs1.
Qed.

(** A shell on the small terminal, whose first descriptor is /proc/cpuinfo, with
    a line read and the buffer's bytes from [old] on. *)
Definition demo_shell (line : string) (old : Z → Z) : sh_st (D:=rdisk) (V:=unit) (T:=tty_st kmt_st) :=
  ShSt (VfsSt [] [Vinode "/proc/cpuinfo" "cpuinfo" 0 0 (-1) (-1) 0 0 2 PROCFS None 0 0] [File 1 0 0]
          procfs_boot (AllocSt UNLOCKED [] [] Null Null 0 0 0 procfs_boot) tt)
    demo_term old (blit 0 (string_bytes line) (λ _, 0%Z)) "" "" "/".
Lemma demo_shell_ok line old : term_ok (sterm (demo_shell line old)).
Proof. exact demo_term_ready. Qed.
Definition no_tty : string → list Z → M unit Z := λ _ _, mret 0%Z.

Lemma command_dispatch_witness :
  do_line no_tty 0 1 (demo_shell "echo h" (λ _, 0%Z)) = (echo_do "h";; put_big "") (demo_shell "echo h" (λ _, 0%Z)) ∧
  do_line no_tty 0 1 (demo_shell "pwd" (λ _, 0%Z)) = (put_line_buf "pwd ";; pwd_do;; put_big "") (demo_shell "pwd" (λ _, 0%Z)) ∧
  do_line no_tty 0 1 (demo_shell "vi" (λ _, 0%Z)) = Err OutOfBounds.
Proof.
  split; [|split].
  - apply (command_dispatch no_tty 0 1 (demo_shell "echo h" (λ _, 0%Z)) "echo h" eq_refl) with (nm := "echo ") (c := λ _ text, echo_do text);
      [unfold commands; repeat first [left; reflexivity|right]|reflexivity|discriminate].
  - apply (command_dispatch no_tty 0 1 (demo_shell "pwd" (λ _, 0%Z)) "pwd" eq_refl) with (c := λ _ _, pwd_do);
      [by right; right|unfold commands; repeat first [left; reflexivity|right]].
  - apply (command_dispatch no_tty 0 1 (demo_shell "vi" (λ _, 0%Z)) "vi" eq_refl).
    + intros [H|[H|H]]; discriminate H.
    + intros nm c arg Hc. unfold commands in Hc. repeat setoid_rewrite elem_of_cons in Hc.
      destruct_or? Hc; try (by apply not_elem_of_nil in Hc); injection Hc as -> _; discriminate.
Defined.

Lemma echo_prints_witness : ∃ s', do_line no_tty 0 1 (demo_shell "echo h" (λ _, 0%Z)) = Ret (tt, s') ∧
  screen_of (tty (sterm s')) = ([104; 0; 0; 0]%Z, 2%Z).
Proof.
  destruct (echo_prints no_tty 0 1 (demo_shell "echo h" (λ _, 0%Z)) "h" eq_refl (demo_shell_ok _ _))
    as (s' & Hrun & _ & _ & _ & _ & Hs).
  exists s'. split; [exact Hrun|]. rewrite Hs. reflexivity.
Defined.

(** The buffer holds xy after the twelve bytes that are read. *)
Definition demo_cat := demo_shell "" (blit 12 [120; 121; 0]%Z (λ _, 32%Z)).
Definition demo_read := vfs_read (D:=rdisk) (T:=unit) 0 0 1024 (svfs demo_cat).

Lemma cat_shows_stale_witness : ∃ s', cat_loop 0 2 0 demo_cat = cat_loop 0 1 0 s' ∧
  term_shows (sterm demo_cat) (string_bytes (nl +:+ "  cpuinfo  " +:+ nl) ++ [121%Z]) (sterm s').
Proof.
  assert (Hread : demo_read = Ret (string_bytes (nl +:+ "  cpuinfo  " +:+ nl), state_of (svfs demo_cat) demo_read)).
  { apply run_eta. vm_compute. reflexivity. }
  destruct (cat_shows_stale 0 1 0 demo_cat _ _ [121%Z] Hread) as (s' & Hrun & _ & _ & Hs).
  - discriminate.
  - unfold BIGBUF. simpl. lia.
  - by repeat constructor.
  - reflexivity.
  - apply demo_shell_ok.
  - exists s'. split; [exact Hrun|exact Hs].
Defined.
