(* ===== verification/Kvdb.v ===== *)
(** * The key-value database (libkvdb/kvdb.c, kvdb.h)

    A database is one structure: an array of items, each a key with the chain of
    the data blocks that hold its value, and the array of blocks.  It is saved
    whole; between saves every operation appends a line to a log, which is run
    again on the last copy when the database was not closed.

    A C string is the list of its characters; the file names are strings, in
    arrays that hold zeros after them.  A file is a text or the image of a
    database. *)
From S2P Require Import Prelude Bytes.

Definition KEY_LENGTH : Z := 256.
Definition FILENAME_LENGTH : Z := 256.
Definition ITEMS_SIZE : Z := 256.
Definition DATAS_SIZE : Z := 12 * 1024.
Definition DATA_LENGTH : Z := 4 * 1024.
Definition MAX_LENGTH : Z := 32 * 1024 * 1024.

(** The number of rows of [vec], [readbuf] and [writebuf]. *)
Definition ROWS : Z := MAX_LENGTH / DATA_LENGTH.

Record node_t := Node { data : list Z; used : Z; next : Z }.
Record item_t := Item { head : Z; isize : Z; ikey : list Z }.
Record kvdb_t := Kvdb {
  filename : string; copyname : string; logname : string;
  dbsize : Z;
  tlock : bool;
  items : list item_t;
  datas : list node_t
}.

Definition set_names f c l d := Kvdb f c l (dbsize d) (tlock d) (items d) (datas d).
Definition set_dbsize n d := Kvdb (filename d) (copyname d) (logname d) n (tlock d) (items d) (datas d).
Definition set_tlock b d := Kvdb (filename d) (copyname d) (logname d) (dbsize d) b (items d) (datas d).
Definition set_items l d := Kvdb (filename d) (copyname d) (logname d) (dbsize d) (tlock d) l (datas d).
Definition set_datas l d := Kvdb (filename d) (copyname d) (logname d) (dbsize d) (tlock d) (items d) l.

Inductive content := Text (l : list Z) | Image (d : kvdb_t).

(** The database the caller works on, the static variables and the files. *)
Record kv_st := KvSt {
  db : kvdb_t;
  vec : list Z;
  readbuf : Z → Z;
  writebuf : Z → Z;
  value : list Z;
  disk : gmap string content
}.
Definition set_db d s := KvSt d (vec s) (readbuf s) (writebuf s) (value s) (disk s).
Definition set_vec v s := KvSt (db s) v (readbuf s) (writebuf s) (value s) (disk s).
Definition set_readbuf m s := KvSt (db s) (vec s) m (writebuf s) (value s) (disk s).
Definition set_writebuf m s := KvSt (db s) (vec s) (readbuf s) m (value s) (disk s).
Definition set_value v s := KvSt (db s) (vec s) (readbuf s) (writebuf s) v (disk s).
Definition set_disk m s := KvSt (db s) (vec s) (readbuf s) (writebuf s) (value s) m.

Abbreviation D := (M kvdb_t).
Abbreviation V := (M kv_st).
Definition on_db {A} (m : D A) : V A := zoom db set_db m.

(** ** Access to the arrays *)

Definition node (x : Z) : D node_t := d ← get; deref OutOfBounds (aget (datas d) x).
Definition put_node (x : Z) (n : node_t) : D unit :=
  d ← get; l ← deref OutOfBounds (aset (datas d) x n); modify (set_datas l).
Definition item (i : Z) : D item_t := d ← get; deref OutOfBounds (aget (items d) i).

(** The item's fields are stored one by one, the key with [strcpy]. *)
Definition put_item (i h n : Z) (key : list Z) : D unit :=
  if decide (Z.of_nat (length key) < KEY_LENGTH)%Z then
    d ← get; l ← deref OutOfBounds (aset (items d) i (Item h n key)); modify (set_items l)
  else fail OutOfBounds.

Definition get_vec (i : Z) : V Z := s ← get; deref OutOfBounds (aget (vec s) i).
Definition put_vec (i x : Z) : V unit :=
  s ← get; v ← deref OutOfBounds (aset (vec s) i x); modify (set_vec v).

(** ** Allocation *)

Definition blocks (size : Z) : Z := Z.quot (size + DATA_LENGTH - 1) DATA_LENGTH.

Fixpoint unused_in (l : list Z) : D Z :=
  match l with
  | [] => mret (-1)%Z
  | i :: l' => n ← node i; if decide (used n = 0)%Z then mret i else unused_in l'
  end.
Definition kvdb_get_unused_idx (k : Z) : D Z :=
  if decide (k < 0)%Z then mret (-1)%Z else unused_in (seqZ k (DATAS_SIZE - k)).

(** The first loop of [kvdb_alloc]: the new [cnt], or [None] when it gives up. *)
Fixpoint alloc_pick (need : nat) (cnt k : Z) : V (option Z) :=
  match need with
  | O => mret (Some cnt)
  | S n =>
      k' ← on_db (kvdb_get_unused_idx (k + 1));
      if decide (k' = -1)%Z then mret None else put_vec cnt k';; alloc_pick n (cnt + 1) k'
  end.

Definition kvdb_alloc (size : Z) (key : list Z) : V Z :=
  let need := blocks size in
  r ← alloc_pick (Z.to_nat need) 0 (-1);
  match r with
  | None => mret 1%Z
  | Some cnt =>
      if decide (cnt ≠ need) then mret 1%Z else
      put_vec cnt (-1);;
      for_range 0 need (λ i,
        x ← get_vec i;
        y ← get_vec (i + 1);
        on_db (n ← node x; put_node x (Node (data n) 1 y)));;
      h ← get_vec 0;
      on_db (d ← get;
             put_item (dbsize d) h size key;;
             modify (set_dbsize (dbsize d + 1)));;
      mret 0%Z
  end.

(** [for (i = 0; i < need; i++) { body(cnt++, x); x = datas[x].next; }]: the last
    value of [x]. *)
Fixpoint each_block (need : nat) (cnt x : Z) (body : Z → Z → V unit) : V Z :=
  match need with
  | O => mret x
  | S n => body cnt x;; nd ← on_db (node x); each_block n (cnt + 1) (next nd) body
  end.

Definition free_node (_ x : Z) : V unit := on_db (n ← node x; put_node x (Node (data n) 0 (next n))).

Definition kvdb_free (item_idx : Z) : V Z :=
  itm ← on_db (item item_idx);
  x ← each_block (Z.to_nat (blocks (isize itm))) 0 (head itm) free_node;
  if decide (x ≠ -1)%Z then mret 1%Z else
  on_db (d ← get;
         last ← item (dbsize d - 1);
         put_item item_idx (head last) (isize last) (ikey last);;
         modify (set_dbsize (dbsize d - 1)));;
  mret 0%Z.

(** ** Reading and writing *)

Definition check_row (cnt : Z) : V unit := if decide (0 ≤ cnt < ROWS)%Z then mret tt else fail OutOfBounds.

Definition read_node (cnt x : Z) : V unit :=
  n ← on_db (node x);
  check_row cnt;;
  modify (λ s, set_readbuf (blit (cnt * DATA_LENGTH) (strncpy_bytes (data n)) (readbuf s)) s).

Definition write_node (cnt x : Z) : V unit :=
  n ← on_db (node x);
  check_row cnt;;
  s ← get;
  on_db (put_node x
    (Node (strncpy_bytes (slice (cnt * DATA_LENGTH) (Z.to_nat DATA_LENGTH) (writebuf s))) (used n) (next n))).

Definition kvdb_read (item_idx : Z) : V Z :=
  itm ← on_db (item item_idx);
  x ← each_block (Z.to_nat (blocks (isize itm))) 0 (head itm) read_node;
  mret (if decide (x ≠ -1)%Z then 1%Z else 0%Z).

Definition kvdb_write (item_idx : Z) : V Z :=
  itm ← on_db (item item_idx);
  x ← each_block (Z.to_nat (blocks (isize itm))) 0 (head itm) write_node;
  mret (if decide (x ≠ -1)%Z then 1%Z else 0%Z).

(** [strcpy(writebuf, value)] *)
Definition fill_writebuf (v : list Z) : V unit :=
  if decide (Z.of_nat (length v) < MAX_LENGTH)%Z
  then modify (λ s, set_writebuf (blit 0 (v ++ [0%Z]) (writebuf s)) s) else fail OutOfBounds.

Definition kvdb_search_key (key : list Z) : D Z :=
  d ← get;
  mret match first_index (λ it, bool_decide (ikey it = key)) (take (Z.to_nat (dbsize d)) (items d)) with
       | Some i => Z.of_nat i
       | None => (-1)%Z
       end.

(** ** Running a log again *)

Definition kvdb_put_redo (key val : list Z) : V unit :=
  item_idx ← on_db (kvdb_search_key key);
  let size := Z.of_nat (length val) in
  (if decide (0 ≤ item_idx)%Z then kvdb_free item_idx;; mret tt else mret tt);;
  r ← kvdb_alloc size key;
  if decide (r ≠ 0)%Z then fail Halt else
  fill_writebuf val;;
  d ← gets db;
  r ← kvdb_write (dbsize d - 1);
  if decide (r ≠ 0)%Z then fail Halt else mret tt.

Definition kvdb_get_redo (key : list Z) : V unit :=
  item_idx ← on_db (kvdb_search_key key);
  if decide (item_idx = -1)%Z then mret tt else
  r ← kvdb_free item_idx;
  if decide (r ≠ 0)%Z then fail Halt else mret tt.

Definition NL : Z := 10.
Definition isspace (c : Z) : bool := bool_decide (c = 32 ∨ 9 ≤ c ≤ 13)%Z.

Fixpoint skip_ws (l : list Z) : list Z :=
  match l with [] => [] | c :: l' => if isspace c then skip_ws l' else l end.

(** A word of at most [width] characters and what follows it. *)
Fixpoint scan_word (width : nat) (l : list Z) : list Z * list Z :=
  match width, l with
  | S n, c :: l' => if isspace c then ([], l) else let '(w, r) := scan_word n l' in (c :: w, r)
  | _, _ => ([], l)
  end.

(** [fscanf(lp, "%3s %s ", operation, key)]: [None] when it does not return 2. *)
Definition fscanf_op (l : list Z) : option (list Z * list Z * list Z) :=
  let '(op, l1) := scan_word 3 (skip_ws l) in
  match op with
  | [] => None
  | _ =>
      let l1 := skip_ws l1 in
      let '(k, l2) := scan_word (length l1) l1 in
      match k with [] => None | _ => Some (op, k, skip_ws l2) end
  end.

(** A line with its newline, and what follows. *)
Fixpoint split_line (l : list Z) : list Z * list Z :=
  match l with
  | [] => ([], [])
  | c :: l' => if decide (c = NL) then ([c], l') else let '(w, r) := split_line l' in (c :: w, r)
  end.

(** [fgets(value, MAX_LENGTH, lp)] *)
Definition fgets (l : list Z) : list Z * list Z :=
  let '(line, rest) := split_line l in
  if decide (Z.of_nat (length line) ≤ MAX_LENGTH - 1)%Z then (line, rest)
  else (take (Z.to_nat (MAX_LENGTH - 1)) l, drop (Z.to_nat (MAX_LENGTH - 1)) l).

(** The log is the argument; each round reads at least a character of it. *)
Fixpoint redo_operation (fuel : nat) (lp : list Z) : V Z :=
  match fuel with
  | O => fail OutOfFuel
  | S n =>
      match fscanf_op lp with
      | None => mret 0%Z
      | Some (operation, key, lp) =>
          (if decide (Z.of_nat (length key) < KEY_LENGTH)%Z then mret tt else fail OutOfBounds);;
          if decide (operation = string_bytes "put") then
            let '(line, lp) := fgets lp in
            (if decide (line = []) then mret tt else modify (set_value line));;
            s ← get;
            (if decide (value s = []) then fail OutOfBounds else modify (set_value (removelast (value s))));;
            s ← get;
            kvdb_put_redo key (value s);;
            redo_operation n lp
          else if decide (operation = string_bytes "get") then
            kvdb_get_redo key;; redo_operation n lp
          else fail Halt
      end
  end.
Definition redo_fuel (lp : list Z) : nat := S (length lp).

(** ** Files *)

Definition exists_file (f : string) : V bool := s ← get; mret (bool_decide (is_Some (disk s !! f))).
Definition put_file (f : string) (c : content) : V unit := modify (λ s, set_disk (<[f := c]> (disk s)) s).
Definition unlink (f : string) : V unit := modify (λ s, set_disk (delete f (disk s)) s).

(** [fopen(f, "wb")] or ["wt"]: the file is emptied.  Opening for reading a file
    that is not there gives a null pointer, which [fileno] reads through. *)
Definition fopen_write (f : string) : V unit := put_file f (Text []).
Definition fopen_read (f : string) : V content := s ← get; deref NullDeref (disk s !! f).

(** [fread(db, sizeof(kvdb_t), 1, fp)]: an empty file leaves [db] as it was. *)
Definition fread_db (c : content) : V unit :=
  match c with
  | Image d => modify (set_db d)
  | Text [] => mret tt
  | Text _ => fail OutOfBounds
  end.
Definition fwrite_db (f : string) : V unit := s ← get; put_file f (Image (db s)).

(** A line appended to the log. *)
Definition append_log (line : list Z) : V unit :=
  s ← get;
  let f := logname (db s) in
  match disk s !! f with
  | None => put_file f (Text line)
  | Some (Text l) => put_file f (Text (l ++ line))
  | Some (Image _) => fail OutOfBounds
  end.

(** ** Opening and closing *)

(** [strncpy(dst, src, n)] when [src] has at least [n] characters: no null
    character is stored, so what [dst] held further on stays. *)
Definition overlay (n : nat) (src dst : string) : string := String.substring 0 n src +:+ String.substring n (String.length dst - n) dst.

Definition check_name (s : string) : D unit :=
  if decide (Z.of_nat (String.length s) < FILENAME_LENGTH)%Z then mret tt else fail OutOfBounds.

Definition set_filenames (name : string) : D unit :=
  let len := String.length name in
  (if decide (3 ≤ len) then mret tt else fail OutOfBounds);;
  check_name name;;
  d ← get;
  let c := overlay (len - 3) name (copyname d) +:+ ".dbc" in
  let l := overlay (len - 3) name (logname d) +:+ ".log" in
  check_name c;; check_name l;;
  modify (set_names (overlay len name (filename d)) c l).

Definition mutex_init : D unit := modify (set_tlock false).

Definition kvdb_open (name : string) : V Z :=
  on_db (set_filenames name);;
  d ← gets db;
  c ← exists_file (copyname d);
  l ← exists_file (logname d);
  f ← exists_file (filename d);
  (if (c : bool) && (l : bool) then
     fopen_write (filename d);;
     cp ← fopen_read (copyname d);
     lp ← fopen_read (logname d);
     fread_db cp;;
     (match lp with
      | Text t => redo_operation (redo_fuel t) t;; mret tt
      | Image _ => fail OutOfBounds
      end);;
     fwrite_db (filename d);;
     d ← gets db;
     fopen_write (logname d)
   else if (f : bool) then
     fp ← fopen_read (filename d);
     fopen_write (copyname d);; fopen_write (logname d);;
     fread_db fp;;
     fwrite_db (copyname d)
   else
     fopen_write (filename d);; fopen_write (copyname d);; fopen_write (logname d);;
     fwrite_db (filename d);; fwrite_db (copyname d));;
  on_db mutex_init;;
  mret 0%Z.

Definition kvdb_close : V Z :=
  d ← gets db;
  fopen_write (filename d);;
  fwrite_db (filename d);;
  unlink (copyname d);;
  unlink (logname d);;
  mret 0%Z.

(** ** The operations *)

Definition mutex_lock : D unit := d ← get; if tlock d then fail Spin else modify (set_tlock true).
Definition mutex_unlock : D unit := modify (set_tlock false).

Definition put_line (key val : list Z) : list Z := string_bytes "put " ++ key ++ [32%Z] ++ val ++ [NL].
Definition get_line (key : list Z) : list Z := string_bytes "get " ++ key ++ [32%Z; NL].

Definition kvdb_put (key val : list Z) : V Z :=
  on_db mutex_lock;;
  item_idx ← on_db (kvdb_search_key key);
  let size := Z.of_nat (length val) in
  (if decide (0 ≤ item_idx)%Z then kvdb_free item_idx;; mret tt else mret tt);;
  r ← kvdb_alloc size key;
  if decide (r ≠ 0)%Z then on_db mutex_unlock;; mret 1%Z else
  fill_writebuf val;;
  d ← gets db;
  r ← kvdb_write (dbsize d - 1);
  if decide (r ≠ 0)%Z then on_db mutex_unlock;; mret 1%Z else
  append_log (put_line key val);;
  on_db mutex_unlock;;
  mret 0%Z.

(** The result is [readbuf] or, for [None], the null pointer. *)
Definition kvdb_get (key : list Z) : V (option unit) :=
  on_db mutex_lock;;
  item_idx ← on_db (kvdb_search_key key);
  if decide (item_idx = -1)%Z then on_db mutex_unlock;; mret None else
  r ← kvdb_read item_idx;
  if decide (r ≠ 0)%Z then on_db mutex_unlock;; mret None else
  r ← kvdb_free item_idx;
  if decide (r ≠ 0)%Z then on_db mutex_unlock;; mret None else
  append_log (get_line key);;
  on_db mutex_unlock;;
  mret (Some tt).
