(* ===== verification/KvdbProps.v ===== *)
(** * Properties of the key-value database: put and get

    The structure represents a finite map from keys to values: a put inserts, a
    get returns the value and removes the key. *)
From S2P Require Import Prelude Bytes Kvdb.

(** ** Free blocks *)

Definition free_at (ns : list node_t) (i : Z) : Prop :=
  match aget ns i with Some n => used n = 0%Z | None => False end.
#[export] Instance free_at_dec ns i : Decision (free_at ns i).
Proof. unfold free_at. destruct (aget ns i); apply _. Defined.

Definition free_from (ns : list node_t) (k : Z) : list Z := filter (free_at ns) (seqZ k (DATAS_SIZE - k)).

Lemma free_from_unfold ns k : (k < DATAS_SIZE)%Z →
  free_from ns k = if decide (free_at ns k) then k :: free_from ns (k + 1) else free_from ns (k + 1).
Proof.
  intros Hk. unfold free_from. rewrite (seqZ_cons k) by lia.
  replace (Z.succ k) with (k + 1)%Z by lia. replace (Z.pred (DATAS_SIZE - k)) with (DATAS_SIZE - (k + 1))%Z by lia.
  by rewrite filter_cons.
Qed.

Lemma free_from_end ns k : (DATAS_SIZE ≤ k)%Z → free_from ns k = [].
Proof. intros Hk. unfold free_from. by rewrite seqZ_nil by lia. Qed.

Lemma free_from_cons ns k x l :
  free_from ns k = x :: l → (k ≤ x < DATAS_SIZE)%Z ∧ free_at ns x ∧ l = free_from ns (x + 1).
Proof.
  remember (Z.to_nat (DATAS_SIZE - k)) as n eqn:Hn. revert k Hn.
  induction n as [|n IH]; intros k Hn Heq.
  { by rewrite free_from_end in Heq by lia. }
  rewrite free_from_unfold in Heq by lia. case_decide as Hf.
  - injection Heq as <- <-. split_and!; [lia|lia|done|done].
  - apply IH in Heq as (? & ? & ?); [|lia]. split_and!; [lia|lia|done|done].
Qed.

Lemma free_from_nodup ns k : NoDup (free_from ns k).
Proof. apply NoDup_filter, NoDup_seqZ. Qed.

Lemma free_from_elem ns k x : x ∈ free_from ns k → (k ≤ x < DATAS_SIZE)%Z ∧ free_at ns x.
Proof. unfold free_from. rewrite list_elem_of_filter, elem_of_seqZ. intros [? ?]. split; [lia|done]. Qed.

Lemma wp_unused_in (P : Z → kvdb_t → Prop) d l :
  Forall (λ i, 0 ≤ i < Z.of_nat (length (datas d)))%Z l →
  P (List.hd (-1)%Z (filter (free_at (datas d)) l)) d → wp (unused_in l) P d.
Proof.
  intros Hl. induction Hl as [|i l Hi Hl IH]; intros HP; cbn [unused_in]; [by wp_steps|].
  destruct (aget_is_Some (datas d) i) as [n Hn]; [done|]. unfold node. wp_steps. rewrite filter_cons in HP.
  assert (Hiff : free_at (datas d) i ↔ used n = 0%Z) by (unfold free_at; by rewrite Hn).
  apply wp_decide; intros Hu; [rewrite decide_True in HP by tauto|rewrite decide_False in HP by tauto].
  - wp_steps. exact HP.
  - by apply IH.
Qed.

Lemma wp_unused (P : Z → kvdb_t → Prop) d k :
  Z.of_nat (length (datas d)) = DATAS_SIZE → (0 ≤ k)%Z →
  P (List.hd (-1)%Z (free_from (datas d) k)) d → wp (kvdb_get_unused_idx k) P d.
Proof.
  intros Hlen Hk HP. unfold kvdb_get_unused_idx. rewrite decide_False by lia. apply wp_unused_in; [|done].
  apply Forall_forall. intros i Hi%elem_of_seqZ. lia.
Qed.

Lemma wp_on_db {A} (m : M kvdb_t A) (P : A → kv_st → Prop) s :
  wp m (λ a d, P a (set_db d s)) (db s) → wp (on_db m) P s.
Proof. apply wp_zoom. Qed.

Lemma wp_alloc_pick n : ∀ cnt k (P : option Z → kv_st → Prop) s,
  Z.of_nat (length (datas (db s))) = DATAS_SIZE → (-1 ≤ k)%Z → (0 ≤ cnt)%Z →
  (cnt + Z.of_nat n ≤ Z.of_nat (length (vec s)))%Z →
  let fr := free_from (datas (db s)) (k + 1) in
  (n ≤ length fr → ∀ v, length v = length (vec s) →
     (∀ i, (i < cnt)%Z → aget v i = aget (vec s) i) →
     (∀ j x, take n fr !! j = Some x → aget v (cnt + Z.of_nat j) = Some x) → P (Some (cnt + Z.of_nat n)%Z) (set_vec v s)) →
  (length fr < n → ∀ v, length v = length (vec s) → P None (set_vec v s)) →
  wp (alloc_pick n cnt k) P s.
Proof.
  induction n as [|n IH]; intros cnt k P s Hlen Hk Hcnt Hn fr HS HN; cbn [alloc_pick].
  { wp_steps. specialize (HS ltac:(lia) (vec s) eq_refl). rewrite Z.add_0_r in HS. destruct s. apply HS; [done|].
    intros j x Hj. by rewrite take_0, lookup_nil in Hj. }
  wp_steps. apply wp_on_db. apply wp_unused; [done|lia|]. fold fr.
  replace (set_db (db s) s) with s by (by destruct s).
  destruct fr as [|x fr'] eqn:Hfr; subst fr; simpl.
  { wp_steps. destruct s. apply (HN ltac:(simpl; lia)); done. }
  apply free_from_cons in Hfr as ([Hx1 Hx2] & Hfree & ->). rewrite decide_False by lia.
  unfold put_vec. wp_steps. destruct (aset (vec s) cnt x) as [v|] eqn:Hset; cycle 1.
  { by rewrite aset_Some in Hset by lia. }
  pose proof (aset_inv _ _ _ _ Hset) as [_ Hv]. assert (Hlv : length v = length (vec s)) by (by rewrite Hv, length_insert).
  wp_steps. apply (IH (cnt + 1)%Z x _ (set_vec v s)); [done|lia|lia|simpl; rewrite Hlv; lia| |]; cbn [vec set_vec db].
  - intros Hle w Hlw Hw1 Hw2. replace (cnt + 1 + Z.of_nat n)%Z with (cnt + Z.of_nat (S n))%Z by lia.
    apply (HS ltac:(simpl; lia) w); [congruence| |].
    + intros i Hi. rewrite Hw1 by lia. eapply aget_aset_ne; [done|lia].
    + intros [|j] y Hj; simpl in Hj.
      * injection Hj as <-. rewrite Z.add_0_r, Hw1 by lia. by eapply aget_aset_eq.
      * rewrite <-(Hw2 j y Hj). f_equal. lia.
  - intros Hlt w Hlw. apply (HN ltac:(simpl; lia) w). congruence.
Qed.

(** ** Chains of blocks *)

Fixpoint linked (ns : list node_t) (x : Z) (l : list Z) : Prop :=
  match l with
  | [] => x = (-1)%Z
  | y :: l' => x = y ∧ ∃ nd, aget ns y = Some nd ∧ used nd ≠ 0%Z ∧ linked ns (next nd) l'
  end.

Definition BLK : nat := Z.to_nat DATA_LENGTH.

Lemma BLK_mul j : Z.of_nat (j * BLK) = (Z.of_nat j * DATA_LENGTH)%Z.
Proof. rewrite Nat2Z.inj_mul. unfold BLK. by rewrite Z2Nat.id by (by unfold DATA_LENGTH). Qed.

(** A block's bytes for the part [c] of a value. *)
Definition pad (c : list Z) : list Z := c ++ replicate (BLK - length c) 0%Z.

(** Block [j] of the chain holds the part [j] of the value. *)
Definition stored (ns : list node_t) (l : list Z) (v : list Z) : Prop :=
  ∀ j y, l !! j = Some y → data <$> aget ns y = Some (pad (take BLK (drop (j * BLK) v))).

(** The nodes [l !! 0], ..., [l !! (i - 1)] changed by [f 0], ..., [f (i - 1)]. *)
Record updated (f : nat → node_t → node_t) (l : list Z) (i : nat) (ns ns' : list node_t) : Prop := {
  up_length : length ns' = length ns;
  up_in : ∀ j y, j < i → l !! j = Some y → aget ns' y = f j <$> aget ns y;
  up_out : ∀ y, y ∉ take i l → aget ns' y = aget ns y
}.

Lemma updated_refl f l ns : updated f l 0 ns ns.
Proof. by split; intros; [|lia|]. Qed.

Lemma updated_next f l i ns ns1 ns2 y nd : NoDup l → updated f l i ns ns1 →
  l !! i = Some y → aget ns y = Some nd → aset ns1 y (f i nd) = Some ns2 → updated f l (S i) ns ns2.
Proof.
  intros Hnd [Hlen Hin Hout] Hy Hget Hset. split.
  - pose proof (aset_inv _ _ _ _ Hset) as [_ ->]. by rewrite length_insert.
  - intros j z Hj Hz. destruct (decide (j = i)) as [->|Hji].
    + rewrite Hy in Hz. injection Hz as <-. rewrite Hget. simpl. by eapply aget_aset_eq.
    + rewrite (aget_aset_ne _ _ _ _ _ Hset); [apply Hin; [lia|done]|].
      intros ->. apply Hji. by eapply NoDup_lookup.
  - intros z Hz. rewrite (take_S_r _ _ _ Hy), not_elem_of_app, list_elem_of_singleton in Hz. destruct Hz as [Hz Hne].
    rewrite (aget_aset_ne _ _ _ _ _ Hset) by done. by apply Hout.
Qed.

Lemma linked_elem ns x l y : linked ns x l → y ∈ l → ∃ nd, aget ns y = Some nd ∧ used nd ≠ 0%Z.
Proof.
  revert x. induction l as [|z l IH]; intros x Hl Hy; [by apply not_elem_of_nil in Hy|].
  destruct Hl as (-> & nd & Hg & Hu & Hl). apply elem_of_cons in Hy as [->|Hy]; [by exists nd|by eapply IH].
Qed.

Lemma linked_frame ns ns' x l :
  (∀ y, y ∈ l → (λ n, (used n, next n)) <$> aget ns' y = (λ n, (used n, next n)) <$> aget ns y) → linked ns x l → linked ns' x l.
Proof.
  revert x. induction l as [|z l IH]; intros x Hf Hl; [done|]. destruct Hl as (-> & nd & Hg & Hu & Hl).
  split; [done|]. pose proof (Hf z ltac:(by apply elem_of_cons; left)) as Hz. rewrite Hg in Hz.
  destruct (aget ns' z) as [nd'|]; [|done]. injection Hz as Hu' Hn'. exists nd'. split_and!; [done|by rewrite Hu'|].
  rewrite Hn'. apply IH; [|done]. intros y Hy. apply Hf. by apply elem_of_cons; right.
Qed.

Lemma stored_frame ns ns' l v : (∀ y, y ∈ l → aget ns' y = aget ns y) → stored ns l v → stored ns' l v.
Proof. intros Hf Hs j y Hy. rewrite Hf; [by apply Hs|]. by apply list_elem_of_lookup; exists j. Qed.

(** The loop over a chain keeps an invariant indexed by the blocks walked. *)
Lemma wp_each_block (I : nat → kv_st → Prop) body l : ∀ i cnt x ns s,
  linked ns x l → I i s →
  (∀ i s y, I i s → next <$> aget (datas (db s)) y = next <$> aget ns y) →
  (∀ j y s, l !! j = Some y → I (i + j) s → wp (body (cnt + Z.of_nat j)%Z y) (λ _ s', I (S (i + j)) s') s) →
  wp (each_block (length l) cnt x body) (λ x s', x = (-1)%Z ∧ I (i + length l) s') s.
Proof.
  induction l as [|y l IH]; intros i cnt x ns s Hl HI Hnx Hb; cbn [length each_block].
  { wp_steps. split; [done|]. by rewrite Nat.add_0_r. }
  destruct Hl as (-> & nd & Hg & _ & Hl). wp_steps.
  pose proof (Hb 0 y s eq_refl) as H0. rewrite Z.add_0_r, Nat.add_0_r in H0. eapply wp_mono; [by apply H0|].
  intros [] s1 HI1. wp_steps. apply wp_on_db. unfold node. wp_steps. pose proof (Hnx _ _ y HI1) as Hn. rewrite Hg in Hn.
  destruct (aget (datas (db s1)) y) as [nd'|] eqn:Hg'; [|done]. injection Hn as Hn. wp_steps. rewrite Hn.
  replace (set_db (db s1) s1) with s1 by (by destruct s1).
  rewrite <-Nat.add_succ_comm. apply (IH _ _ _ ns); [done|done|done|].
  intros j z s2 Hz HI2. rewrite Nat.add_succ_comm in *. replace (cnt + 1 + Z.of_nat j)%Z with (cnt + Z.of_nat (S j))%Z by lia.
  by apply Hb.
Qed.

(** ** The state of a call: the database's blocks change, then its items *)

Definition with_datas (ns : list node_t) (s : kv_st) : kv_st := set_db (set_datas ns (db s)) s.

Lemma wp_change_node (g : node_t → node_t) y nd (P : unit → kv_st → Prop) s :
  aget (datas (db s)) y = Some nd →
  (∀ ns, aset (datas (db s)) y (g nd) = Some ns → P tt (with_datas ns s)) →
  wp (on_db (n ← node y; put_node y (g n))) P s.
Proof.
  intros Hg HP. apply wp_on_db. unfold node, put_node. wp_steps.
  destruct (aset (datas (db s)) y (g nd)) as [ns|] eqn:Hset.
  - wp_steps. by apply HP.
  - pose proof (aget_lt _ _ _ Hg). by rewrite aset_Some in Hset by lia.
Qed.

Lemma updated_here f l i ns ns1 y nd : NoDup l → updated f l i ns ns1 → l !! i = Some y →
  aget ns y = Some nd → aget ns1 y = Some nd.
Proof.
  intros Hnd [_ _ Hout] Hy Hg. rewrite Hout; [done|]. intros (j & Hj)%list_elem_of_lookup.
  rewrite lookup_take_Some in Hj. destruct Hj as [Hj Hlt]. pose proof (NoDup_lookup _ _ _ _ Hnd Hj Hy). lia.
Qed.

(** ** Linking the blocks picked *)

Definition link_to (l : list Z) (j : nat) (n : node_t) : node_t := Node (data n) 1 (default (-1)%Z (l !! S j)).

Lemma wp_link_nodes l (P : unit → kv_st → Prop) s :
  NoDup l → (∀ j x, (l ++ [(-1)%Z]) !! j = Some x → aget (vec s) (Z.of_nat j) = Some x) →
  (∀ y, y ∈ l → is_Some (aget (datas (db s)) y)) →
  (∀ ns, updated (link_to l) l (length l) (datas (db s)) ns → P tt (with_datas ns s)) →
  wp (for_range 0 (Z.of_nat (length l)) (λ i,
        x ← get_vec i; y ← get_vec (i + 1); on_db (n ← node x; put_node x (Node (data n) 1 y)))) P s.
Proof.
  intros Hnd Hvec Hin HP. eapply wp_mono.
  - apply (wp_for_range (λ i s', ∃ ns, s' = with_datas ns s ∧ updated (link_to l) l (Z.to_nat i) (datas (db s)) ns)); [lia| |].
    + exists (datas (db s)). split; [by destruct s as [[] ? ? ? ? ?]|apply updated_refl].
    + intros i s1 Hi (ns1 & -> & Hup). destruct (lookup_lt_is_Some_2 l (Z.to_nat i)) as [x Hx]; [lia|].
      assert (Hx' : aget (vec s) i = Some x).
      { rewrite <-(Z2Nat.id i) by lia. apply Hvec. by apply lookup_app_l_Some. }
      set (y := default (-1)%Z (l !! S (Z.to_nat i))).
      assert (Hy : aget (vec s) (i + 1) = Some y).
      { replace (i + 1)%Z with (Z.of_nat (S (Z.to_nat i))) by lia. apply Hvec. unfold y.
        destruct (l !! S (Z.to_nat i)) as [z|] eqn:Hz; [by apply lookup_app_l_Some|].
        apply lookup_ge_None in Hz. rewrite lookup_app_r by lia. by replace (S (Z.to_nat i) - length l) with 0 by lia. }
      unfold get_vec. wp_steps.
      destruct (Hin x ltac:(apply list_elem_of_lookup; eauto)) as [nd Hnode].
      eapply (wp_change_node (λ n, Node (data n) 1 y)); [simpl; by eapply updated_here|]. simpl. intros ns2 Hset.
      exists ns2. split; [done|]. replace (Z.to_nat (i + 1)) with (S (Z.to_nat i)) by lia.
      by eapply updated_next.
  - intros [] s' (ns & -> & Hup). apply HP. by rewrite Nat2Z.id in Hup.
Qed.

Lemma linked_updated l ns ns' :
  updated (link_to l) l (length l) ns ns' → (∀ y, y ∈ l → is_Some (aget ns y)) →
  linked ns' (List.hd (-1)%Z l) l.
Proof.
  intros Hup Hin.
  enough (Hk : ∀ k, linked ns' (default (-1)%Z (l !! k)) (drop k l)).
  { specialize (Hk 0). rewrite drop_0 in Hk. by destruct l. }
  intros k. remember (length l - k) as m eqn:Hm. revert k Hm. induction m as [|m IH]; intros k Hm.
  { rewrite drop_ge, lookup_ge_None_2 by lia. done. }
  destruct (lookup_lt_is_Some_2 l k) as [y Hy]; [lia|]. rewrite (drop_S _ _ _ Hy), Hy. split; [done|].
  destruct (Hin y ltac:(apply list_elem_of_lookup; eauto)) as [nd Hnd].
  exists (link_to l k nd). split_and!; [|done|].
  - rewrite (up_in _ _ _ _ _ Hup k y) by (try done; lia). by rewrite Hnd.
  - apply IH. lia.
Qed.

(** ** What the structure represents *)

Definition value_ok (v : list Z) : Prop := Forall (λ c, c ≠ 0%Z) v ∧ (blocks (Z.of_nat (length v)) < ROWS)%Z.
Definition key_ok (k : list Z) : Prop := (Z.of_nat (length k) < KEY_LENGTH)%Z.

Record entry := Entry { ekey : list Z; eval : list Z; echain : list Z }.
Definition all_chains (es : list entry) : list Z := es ≫= echain.

Record entry_ok (d : kvdb_t) (i : nat) (e : entry) (h : Z) : Prop := {
  eo_item : items d !! i = Some (Item h (Z.of_nat (length (eval e))) (ekey e));
  eo_linked : linked (datas d) h (echain e);
  eo_stored : stored (datas d) (echain e) (eval e);
  eo_length : Z.of_nat (length (echain e)) = blocks (Z.of_nat (length (eval e)));
  eo_value : value_ok (eval e);
  eo_key : key_ok (ekey e)
}.

Record kv_rep (d : kvdb_t) (es : list entry) : Prop := {
  kr_items : Z.of_nat (length (items d)) = ITEMS_SIZE;
  kr_datas : Z.of_nat (length (datas d)) = DATAS_SIZE;
  kr_size : dbsize d = Z.of_nat (length es);
  kr_room : (Z.of_nat (length es) ≤ ITEMS_SIZE)%Z;
  kr_keys : NoDup (ekey <$> es);
  kr_entry : ∀ i e, es !! i = Some e → ∃ h, entry_ok d i e h;
  kr_nodup : NoDup (all_chains es);
  kr_used : ∀ y nd, aget (datas d) y = Some nd → used nd ≠ 0%Z → y ∈ all_chains es
}.

Lemma blocks_nonneg n : (0 ≤ n)%Z → (0 ≤ blocks n)%Z.
Proof. intros Hn. unfold blocks. apply Z.quot_pos; unfold DATA_LENGTH; lia. Qed.

Lemma blocks_bounds n : (0 ≤ n)%Z → ((blocks n - 1) * DATA_LENGTH < n ≤ blocks n * DATA_LENGTH)%Z ∨ n = 0%Z ∧ blocks n = 0%Z.
Proof.
  intros Hn. unfold blocks. change DATA_LENGTH with 4096%Z. rewrite Z.quot_div_nonneg by lia.
  pose proof (Z.div_mod (n + 4096 - 1) 4096 ltac:(done)). pose proof (Z.mod_pos_bound (n + 4096 - 1) 4096 ltac:(done)). lia.
Qed.

Lemma chain_in_all es e y : e ∈ es → y ∈ echain e → y ∈ all_chains es.
Proof. intros He Hy. apply list_elem_of_bind. by exists e. Qed.

Lemma all_chains_perm es es' : es ≡ₚ es' → all_chains es ≡ₚ all_chains es'.
Proof. intros Hp. unfold all_chains. by rewrite Hp. Qed.

(** ** Freeing *)

(** The array of items after the last one took the place of the item [i]. *)
Definition swap_out (i : nat) (es : list entry) : list entry :=
  match List.last es (Entry [] [] []) with z => take (length es - 1) (<[i := z]> es) end.

Lemma swap_out_perm i es e : es !! i = Some e → es ≡ₚ e :: swap_out i es.
Proof.
  intros Hi. unfold swap_out. destruct (exists_last (l := es)) as (es0 & z & ->); [by intros ->|].
  rewrite List.last_last, length_app, Nat.add_sub. destruct (decide (i < length es0)) as [Hlt|Hge].
  - rewrite lookup_app_l in Hi by done. rewrite insert_app_l, take_app_length' by (rewrite ?length_insert; done).
    rewrite insert_take_drop by done. pose proof (delete_Permutation _ _ _ Hi) as Hp.
    rewrite delete_take_drop in Hp. etrans; [by apply Permutation_app_tail, Hp|]. simpl. solve_Permutation.
  - apply lookup_lt_Some in Hi as Hlt. rewrite length_app in Hlt. simpl in Hlt.
    assert (i = length es0) as -> by lia. rewrite list_lookup_middle in Hi by done. injection Hi as <-.
    replace (length es0) with (length es0 + 0) at 2 by lia. rewrite insert_app_r. simpl.
    rewrite take_app_length' by done. apply (Permutation_app_comm es0 [z]).
Qed.

Lemma swap_out_length i es : es ≠ [] → length (swap_out i es) = length es - 1.
Proof. intros Hne. unfold swap_out. rewrite length_take, length_insert. lia. Qed.

Lemma swap_out_lookup i es j e z : i < length es → es !! (length es - 1) = Some z →
  swap_out i es !! j = Some e → j < length es - 1 ∧ ((j = i ∧ e = z) ∨ (j ≠ i ∧ es !! j = Some e)).
Proof.
  intros Hlt Hz. unfold swap_out. assert (Hl : List.last es (Entry [] [] []) = z).
  { destruct (exists_last (l := es)) as (es0 & z' & ->); [by intros ->|]. rewrite List.last_last.
    rewrite length_app, Nat.add_sub, list_lookup_middle in Hz by done. by injection Hz. }
  rewrite Hl. intros [Hj Hlj]%lookup_take_Some. split; [done|].
  destruct (decide (j = i)) as [->|Hne].
  - left. rewrite list_lookup_insert_eq in Hj by done. by injection Hj.
  - right. by rewrite list_lookup_insert_ne in Hj by done.
Qed.

Definition unuse (_ : nat) (n : node_t) : node_t := Node (data n) 0 (next n).

Lemma wp_free_chain l x (P : Z → kv_st → Prop) s :
  linked (datas (db s)) x l → NoDup l →
  (∀ ns, updated unuse l (length l) (datas (db s)) ns → P (-1)%Z (with_datas ns s)) →
  wp (each_block (length l) 0 x free_node) P s.
Proof.
  intros Hl Hnd HP. eapply wp_mono.
  - apply (wp_each_block (λ i s', ∃ ns, s' = with_datas ns s ∧ updated unuse l i (datas (db s)) ns) _ l 0 0 x (datas (db s))).
    + done.
    + exists (datas (db s)). split; [by destruct s as [[] ? ? ? ? ?]|apply updated_refl].
    + intros i s1 y (ns & -> & Hup). simpl. destruct (decide (y ∈ take i l)) as [Hy|Hy].
      * apply list_elem_of_lookup in Hy as (j & [Hj Hlt]%lookup_take_Some). rewrite (up_in _ _ _ _ _ Hup j y Hlt Hj).
        by destruct (aget (datas (db s)) y).
      * by rewrite (up_out _ _ _ _ _ Hup).
    + intros j y s1 Hy (ns & -> & Hup). simpl in Hup.
      destruct (linked_elem _ _ _ y Hl ltac:(apply list_elem_of_lookup; eauto)) as (nd & Hg & _).
      eapply (wp_change_node (unuse j)); [simpl; by eapply updated_here|]. simpl. intros ns2 Hset.
      exists ns2. split; [done|]. by eapply updated_next.
  - intros z s' (-> & ns & -> & Hup). by apply HP.
Qed.

(** What a change of the blocks [l] keeps of the entries that do not use them. *)
Lemma entry_frame f l d ns i e h n its :
  updated f l (length l) (datas d) ns → (∀ y, y ∈ echain e → y ∉ l) →
  its !! i = Some (Item h (Z.of_nat (length (eval e))) (ekey e)) → (∃ j, entry_ok d j e h) →
  entry_ok (set_dbsize n (set_items its (set_datas ns d))) i e h.
Proof.
  intros [_ _ Hout] Hdis Hit (j & [_ Hli Hst Hle Hv Hk]). rewrite firstn_all in Hout. split; simpl; try done.
  - eapply linked_frame; [|done]. intros y Hy. by rewrite Hout by auto.
  - eapply stored_frame; [|done]. intros y Hy. by apply Hout; auto.
Qed.

(** The fields that put and get leave alone. *)
Definition frame_of (d : kvdb_t) : string * string * string * bool := (filename d, copyname d, logname d, tlock d).

Lemma wp_item i it (P : item_t → kvdb_t → Prop) d : items d !! i = Some it → P it d → wp (item (Z.of_nat i)) P d.
Proof.
  intros Hi HP. unfold item. wp_steps. eapply wp_deref; [|exact HP]. apply aget_Some. split; [lia|by rewrite Nat2Z.id].
Qed.

Lemma wp_put_item i h n k (P : unit → kvdb_t → Prop) d : key_ok k → i < length (items d) →
  P tt (set_items (<[i := Item h n k]> (items d)) d) → wp (put_item (Z.of_nat i) h n k) P d.
Proof.
  intros Hk Hi HP. unfold put_item. rewrite decide_True by done. wp_steps.
  eapply wp_deref; [apply aset_Some; lia|]. wp_steps. by rewrite Nat2Z.id.
Qed.

Lemma kv_rep_freed d es i e ns n its :
  kv_rep d es → es !! i = Some e → updated unuse (echain e) (length (echain e)) (datas d) ns →
  n = (dbsize d - 1)%Z → length its = length (items d) →
  (∀ j e' h, swap_out i es !! j = Some e' → (∃ k, entry_ok d k e' h ∧ es !! k = Some e') →
     its !! j = Some (Item h (Z.of_nat (length (eval e'))) (ekey e'))) →
  kv_rep (set_dbsize n (set_items its (set_datas ns d))) (swap_out i es).
Proof.
  intros [Hi Hd Hs Hr Hk He Hn Hu] Hie Hup -> Hlen Hits. pose proof (swap_out_perm _ _ _ Hie) as Hp.
  assert (Hne : length (swap_out i es) = length es - 1) by (apply swap_out_length; by destruct es).
  pose proof (lookup_lt_Some _ _ _ Hie). pose proof (all_chains_perm _ _ Hp) as Hc. simpl in Hc. rewrite Hc in Hn.
  apply NoDup_app in Hn as (Hn1 & Hdis & Hn2). rewrite Hp in Hk. apply NoDup_cons in Hk as [_ Hk]. split; simpl; try done.
  - by rewrite Hlen.
  - by rewrite (up_length _ _ _ _ _ Hup).
  - lia.
  - lia.
  - intros j e' Hj. assert (He' : e' ∈ swap_out i es) by (by apply list_elem_of_lookup; exists j).
    assert (He2 : e' ∈ es) by (rewrite Hp; by apply elem_of_cons; right).
    apply list_elem_of_lookup in He2 as (k & Hke). destruct (He k e' Hke) as [h Hok]. exists h.
    apply (entry_frame unuse (echain e)); [done| |by eapply Hits; eauto|by exists k].
    intros y Hy Hy'. apply (Hdis y Hy'). by eapply chain_in_all.
  - intros y nd Hg Hu'. destruct Hup as [_ Hin Hout]. rewrite firstn_all in Hout.
    destruct (decide (y ∈ echain e)) as [Hy|Hy].
    + apply list_elem_of_lookup in Hy as (j & Hj). rewrite (Hin j y (lookup_lt_Some _ _ _ Hj) Hj) in Hg.
      destruct (aget (datas d) y); [|done]. simpl in Hg. by injection Hg as <-.
    + rewrite Hout in Hg by done. pose proof (Hu _ _ Hg Hu') as Hin'. rewrite Hc in Hin'. apply elem_of_app in Hin'. tauto.
Qed.

Lemma wp_free es i e (P : Z → kv_st → Prop) s :
  kv_rep (db s) es → es !! i = Some e →
  (∀ d, kv_rep d (swap_out i es) → frame_of d = frame_of (db s) → P 0%Z (set_db d s)) →
  wp (kvdb_free (Z.of_nat i)) P s.
Proof.
  intros Hrep Hie HP. pose proof (lookup_lt_Some _ _ _ Hie) as Hlt. destruct (kr_entry _ _ Hrep _ _ Hie) as [h [Hit Hl _ Hlen _ _]].
  destruct (lookup_lt_is_Some_2 es (length es - 1)) as [z Hz]; [lia|].
  destruct (kr_entry _ _ Hrep _ _ Hz) as [hz [Hitz _ _ _ _ Hkz]].
  unfold kvdb_free. wp_steps. apply wp_on_db. eapply wp_item; [done|]. wp_steps.
  replace (set_db (db s) s) with s by (by destruct s). cbn [isize head]. rewrite <-Hlen, Nat2Z.id.
  assert (Hnd : NoDup (echain e)).
  { pose proof (kr_nodup _ _ Hrep) as Hn. rewrite (all_chains_perm _ _ (swap_out_perm _ _ _ Hie)) in Hn. by apply NoDup_app in Hn as [? _]. }
  apply wp_free_chain with (x := h); [done|done|]. intros ns Hup. rewrite decide_False by (intros Hn; by apply Hn). wp_steps.
  apply wp_on_db. wp_steps. cbn [dbsize with_datas db set_db set_datas]. rewrite (kr_size _ _ Hrep).
  replace (Z.of_nat (length es) - 1)%Z with (Z.of_nat (length es - 1)) by lia.
  eapply wp_item; [exact Hitz|]. pose proof (kr_items _ _ Hrep) as Hni. pose proof (kr_room _ _ Hrep).
  apply wp_bind, wp_put_item; [done|simpl; lia|]. wp_steps. cbn [head isize ikey items set_datas].
  apply HP; [|by destruct s as [[] ? ? ? ? ?]].
  apply (kv_rep_freed _ es i e); [done|done|done|by rewrite (kr_size _ _ Hrep); lia|by rewrite length_insert|].
  intros j e' h' Hj (k & Hok & Hk).
  destruct (swap_out_lookup _ _ _ _ _ Hlt Hz Hj) as (Hjl & [[-> ->]|[Hji Hje]]).
  - assert (k = length es - 1) as ->.
    { apply (NoDup_lookup _ _ _ (ekey z) (kr_keys _ _ Hrep)); by rewrite list_lookup_fmap, ?Hk, ?Hz. }
    rewrite list_lookup_insert_eq by lia. rewrite (eo_item _ _ _ _ Hok) in Hitz. by injection Hitz as ->.
  - assert (k = j) as ->.
    { apply (NoDup_lookup _ _ _ (ekey e') (kr_keys _ _ Hrep)); by rewrite list_lookup_fmap, ?Hk, ?Hje. }
    rewrite list_lookup_insert_ne by done. by apply Hok.
Qed.

(** ** Allocation *)

(** The database after the item [length es] got the free blocks [l]. *)
Definition reserved (d : kvdb_t) (n : nat) (k : list Z) (size : Z) (l : list Z) (ns : list node_t) : kvdb_t :=
  set_dbsize (Z.of_nat n + 1) (set_items (<[n := Item (List.hd (-1)%Z l) size k]> (items d)) (set_datas ns d)).

Lemma wp_alloc es k size (P : Z → kv_st → Prop) s :
  kv_rep (db s) es → (Z.of_nat (length es) < ITEMS_SIZE)%Z → key_ok k → (0 ≤ size)%Z → (blocks size < ROWS)%Z →
  Z.of_nat (length (vec s)) = ROWS →
  (∀ v l ns, length v = length (vec s) → NoDup l → Z.of_nat (length l) = blocks size →
     (∀ y, y ∈ l → free_at (datas (db s)) y) → updated (link_to l) l (length l) (datas (db s)) ns →
     (blocks size ≤ Z.of_nat (length (free_from (datas (db s)) 0)))%Z →
     P 0%Z (set_db (reserved (db s) (length es) k size l ns) (set_vec v s))) →
  (∀ v, length v = length (vec s) → (Z.of_nat (length (free_from (datas (db s)) 0)) < blocks size)%Z → P 1%Z (set_vec v s)) →
  wp (kvdb_alloc size k) P s.
Proof.
  intros Hrep Hroom Hk Hsz Hrows Hvec HS HN. pose proof (blocks_nonneg _ Hsz) as Hb. pose proof (kr_datas _ _ Hrep) as Hds.
  unfold kvdb_alloc. wp_steps. apply wp_alloc_pick; [done|lia|lia|lia| |].
  all: change (-1 + 1)%Z with 0%Z; set (fr := free_from (datas (db s)) 0) in *.
  - intros Hle v Hlv _ Hv. rewrite decide_False by lia. unfold put_vec. wp_steps. cbn [vec set_vec].
    set (l := take (Z.to_nat (blocks size)) fr) in *.
    assert (Hll : Z.of_nat (length l) = blocks size) by (unfold l; rewrite length_take; lia).
    rewrite Z.add_0_l, Z2Nat.id by done. destruct (aset v (blocks size) (-1)%Z) as [w|] eqn:Hw; cycle 1.
    { by rewrite aset_Some in Hw by lia. }
    wp_steps. assert (Hwv : ∀ j x, (l ++ [(-1)%Z]) !! j = Some x → aget w (Z.of_nat j) = Some x).
    { intros j x [Hj|[Hge Hj]]%lookup_app_Some.
      - rewrite (aget_aset_ne _ _ _ _ _ Hw) by (apply lookup_lt_Some in Hj; lia). rewrite <-(Z.add_0_l (Z.of_nat j)). by apply Hv.
      - destruct (j - length l) eqn:Hjl; [|done]. injection Hj as <-. replace (Z.of_nat j) with (blocks size) by lia. by eapply aget_aset_eq. }
    assert (Hfree : ∀ y, y ∈ l → free_at (datas (db s)) y).
    { intros y (j & [Hj _]%lookup_take_Some)%list_elem_of_lookup. eapply free_from_elem, list_elem_of_lookup; eauto. }
    assert (Hnd : NoDup l) by (apply (sublist_NoDup _ fr); [apply free_from_nodup|apply sublist_take]).
    rewrite <-Hll. apply (wp_link_nodes _ _ (set_vec w (set_vec v s))); [done|done| |].
    { intros y Hy%Hfree. unfold free_at in Hy. simpl. by destruct (aget (datas (db s)) y). }
    intros ns Hup. unfold get_vec. wp_steps. cbn [vec with_datas set_db set_vec].
    assert (Hh : aget w 0 = Some (List.hd (-1)%Z l)) by (apply (Hwv 0); by destruct l).
    wp_steps. apply wp_on_db. wp_steps. cbn [dbsize with_datas db set_db set_datas set_vec]. rewrite (kr_size _ _ Hrep).
    pose proof (kr_items _ _ Hrep). apply wp_put_item; [done|simpl; lia|]. wp_steps.
    apply (HS w l ns); try done; [|lia].
    pose proof (aset_inv _ _ _ _ Hw) as [_ ->]. by rewrite length_insert.
  - intros Hlt v Hlv. wp_steps. apply HN; [done|lia].
Qed.

(** Freshly linked blocks are used by nobody else. *)
Lemma reserved_fresh d es (l : list Z) : kv_rep d es → (∀ y, y ∈ l → free_at (datas d) y) → ∀ y, y ∈ all_chains es → y ∉ l.
Proof.
  intros Hrep Hfree y Hy Hl%Hfree. apply list_elem_of_bind in Hy as (e & Hy & (i & Hi)%list_elem_of_lookup).
  destruct (kr_entry _ _ Hrep _ _ Hi) as [h Hok]. destruct (linked_elem _ _ _ _ (eo_linked _ _ _ _ Hok) Hy) as (nd & Hg & Hu).
  unfold free_at in Hl. by rewrite Hg in Hl.
Qed.

(** ** Counting blocks *)

Lemma free_count d es : kv_rep d es → (Z.of_nat (length (free_from (datas d) 0) + length (all_chains es)) = DATAS_SIZE)%Z.
Proof.
  intros Hrep. set (all := seqZ 0 DATAS_SIZE). assert (Hlen : Z.of_nat (length all) = DATAS_SIZE) by (unfold all; by rewrite length_seqZ).
  assert (Hp : all_chains es ≡ₚ filter (λ x, ¬ free_at (datas d) x) all).
  { apply NoDup_Permutation; [apply Hrep|apply NoDup_filter, NoDup_seqZ|]. intros y.
    unfold all. rewrite list_elem_of_filter, elem_of_seqZ. split.
    - intros Hy. apply list_elem_of_bind in Hy as (e & Hy & (i & Hi)%list_elem_of_lookup).
      destruct (kr_entry _ _ Hrep _ _ Hi) as [h Hok]. destruct (linked_elem _ _ _ _ (eo_linked _ _ _ _ Hok) Hy) as (nd & Hg & Hu).
      unfold free_at. rewrite Hg. split; [done|]. apply aget_lt in Hg. pose proof (kr_datas _ _ Hrep). lia.
    - intros [Hf Hr]. destruct (aget_is_Some (datas d) y) as [nd Hg]; [rewrite (kr_datas _ _ Hrep); lia|].
      apply (kr_used _ _ Hrep _ _ Hg). unfold free_at in Hf. by rewrite Hg in Hf. }
  rewrite Hp, <-length_app. unfold free_from. rewrite Z.sub_0_r. fold all. by rewrite filter_app_complement.
Qed.

(** ** Writing a value *)

(** The part [j] of a value, as [strncpy] reads it from the buffer. *)
Lemma chunk_written v m j : Forall (λ c, c ≠ 0%Z) v → j * BLK ≤ length v →
  strncpy_bytes (slice (Z.of_nat j * DATA_LENGTH) BLK (blit 0 (v ++ [0%Z]) m)) = pad (take BLK (drop (j * BLK) v)).
Proof.
  intros Hv Hj. set (c := take BLK (drop (j * BLK) v)). set (w := slice _ _ _).
  assert (Hw : length w = BLK) by apply slice_length.
  assert (Hoff : ∀ i x, i < BLK → (v ++ [0%Z]) !! (j * BLK + i) = Some x → w !! i = Some x).
  { intros i x Hi Hx. unfold w. rewrite slice_lookup by done. f_equal. apply blit_in; [|rewrite <-BLK_mul; lia].
    rewrite <-Hx. f_equal. rewrite <-BLK_mul. lia. }
  assert (Hc : ∀ i x, c !! i = Some x → i < BLK ∧ v !! (j * BLK + i) = Some x).
  { intros i x Hx. unfold c in Hx. apply lookup_take_Some in Hx as [Hx Hi]. by rewrite lookup_drop in Hx. }
  assert (Hcl : length c ≤ BLK) by (unfold c; rewrite length_take; lia).
  assert (Hcut : cut0 w = c).
  { apply cut0_prefix.
    - by apply Forall_take, Forall_drop.
    - apply list_eq_same_length with (length c); [done|rewrite length_take; lia|].
      intros i x y Hi Hx Hy. apply lookup_take_Some in Hx as [Hx _]. apply Hc in Hy as [HiB Hy].
      rewrite (Hoff i y HiB) in Hx by (by apply lookup_app_l_Some). congruence.
    - destruct (decide (length c = BLK)) as [Heq|Hne]; [left; lia|right].
      assert (Hlen : length c = length v - j * BLK) by (unfold c in *; rewrite length_take, length_drop in *; lia).
      apply Hoff; [lia|]. replace (j * BLK + length c) with (length v) by lia. by apply list_lookup_middle. }
  unfold strncpy_bytes, pad. by rewrite Hcut, Hw.
Qed.

Definition fill (v : list Z) (j : nat) (n : node_t) : node_t :=
  Node (pad (take BLK (drop (j * BLK) v))) (used n) (next n).

(** The part [j] of a value of [n] blocks begins inside it. *)
Lemma part_inside n m j : Z.of_nat n = blocks (Z.of_nat m) → j < n → j * BLK < m.
Proof.
  intros Hn Hj. pose proof (blocks_bounds (Z.of_nat m) ltac:(lia)) as [Hb|Hb]; [|lia].
  rewrite <-Hn in Hb. apply Nat2Z.inj_lt. rewrite BLK_mul. change DATA_LENGTH with 4096%Z in *. nia.
Qed.

Lemma wp_check_row cnt (P : unit → kv_st → Prop) s : (0 ≤ cnt < ROWS)%Z → P tt s → wp (check_row cnt) P s.
Proof. intros Hc HP. unfold check_row. by rewrite decide_True. Qed.

Lemma wp_write_chain l x v m (P : Z → kv_st → Prop) s :
  linked (datas (db s)) x l → NoDup l → Z.of_nat (length l) = blocks (Z.of_nat (length v)) → value_ok v →
  writebuf s = blit 0 (v ++ [0%Z]) m →
  (∀ ns, updated (fill v) l (length l) (datas (db s)) ns → P (-1)%Z (with_datas ns s)) →
  wp (each_block (length l) 0 x write_node) P s.
Proof.
  intros Hl Hnd Hlen [Hv Hrows] Hbuf HP. eapply wp_mono.
  - apply (wp_each_block (λ i s', ∃ ns, s' = with_datas ns s ∧ updated (fill v) l i (datas (db s)) ns) _ l 0 0 x (datas (db s))).
    + done.
    + exists (datas (db s)). split; [by destruct s as [[] ? ? ? ? ?]|apply updated_refl].
    + intros i s1 y (ns & -> & Hup). simpl. destruct (decide (y ∈ take i l)) as [Hy|Hy].
      * apply list_elem_of_lookup in Hy as (j & [Hj Hlt]%lookup_take_Some). rewrite (up_in _ _ _ _ _ Hup j y Hlt Hj).
        by destruct (aget (datas (db s)) y).
      * by rewrite (up_out _ _ _ _ _ Hup).
    + intros j y s1 Hy (ns & -> & Hup). simpl in Hup. pose proof (lookup_lt_Some _ _ _ Hy) as Hj.
      destruct (linked_elem _ _ _ y Hl ltac:(apply list_elem_of_lookup; eauto)) as (nd & Hg & _).
      pose proof (updated_here _ _ _ _ _ _ _ Hnd Hup Hy Hg) as Hg1.
      unfold write_node. wp_steps. apply wp_on_db. unfold node. wp_steps. apply wp_check_row; [lia|]. wp_steps.
      apply wp_on_db. unfold put_node. wp_steps. cbn [db writebuf with_datas set_db datas set_datas]. rewrite Hbuf, Z.add_0_l.
      fold BLK. rewrite chunk_written by (try done; apply Nat.lt_le_incl; by eapply part_inside).
      change (Node _ (used nd) (next nd)) with (fill v j nd).
      destruct (aset ns y (fill v j nd)) as [ns2|] eqn:Hset; cycle 1.
      { pose proof (aget_lt _ _ _ Hg1). by rewrite aset_Some in Hset by lia. }
      wp_steps. exists ns2. split; [done|]. by eapply updated_next.
  - intros z s' (-> & ns & -> & Hup). by apply HP.
Qed.

Lemma kv_rep_added d es k v l ns1 ns2 :
  kv_rep d es → (Z.of_nat (length es) < ITEMS_SIZE)%Z → k ∉ (ekey <$> es) → key_ok k → value_ok v →
  NoDup l → Z.of_nat (length l) = blocks (Z.of_nat (length v)) → (∀ y, y ∈ l → free_at (datas d) y) →
  updated (link_to l) l (length l) (datas d) ns1 → updated (fill v) l (length l) ns1 ns2 →
  kv_rep (set_datas ns2 (reserved d (length es) k (Z.of_nat (length v)) l ns1)) (es ++ [Entry k v l]).
Proof.
  intros Hrep Hroom Hnew Hk Hv Hnd Hlen Hfree Hup1 Hup2. pose proof (reserved_fresh _ _ _ Hrep Hfree) as Hfresh.
  pose proof Hrep as [Hi Hd Hs Hr Hks He Hn Hu]. pose proof (up_out _ _ _ _ _ Hup1) as Hout1. pose proof (up_out _ _ _ _ _ Hup2) as Hout2.
  rewrite firstn_all in Hout1, Hout2.
  assert (Hup : updated (λ j n, fill v j (link_to l j n)) l (length l) (datas d) ns2).
  { destruct Hup1 as [Hl1 Hin1 Ho1], Hup2 as [Hl2 Hin2 Ho2]. split; [congruence| |].
    - intros j y Hj Hy. rewrite (Hin2 j y Hj Hy), (Hin1 j y Hj Hy). by destruct (aget (datas d) y).
    - intros y Hy. by rewrite Ho2, Ho1. }
  assert (Hall : all_chains (es ++ [Entry k v l]) = all_chains es ++ l).
  { unfold all_chains. rewrite bind_app. simpl. by rewrite app_nil_r. }
  split; simpl.
  - by rewrite length_insert.
  - by rewrite (up_length _ _ _ _ _ Hup).
  - rewrite length_app. simpl. lia.
  - rewrite length_app. simpl. lia.
  - rewrite fmap_app. apply NoDup_app. split_and!; [done| |by apply NoDup_singleton].
    intros x Hx Hx'%list_elem_of_singleton. by subst x.
  - intros i e [Hie|[Hge Hie]]%lookup_app_Some.
    + destruct (He i e Hie) as [h Hok]. exists h.
      apply (entry_frame (λ j n, fill v j (link_to l j n)) l d ns2 i e h (Z.of_nat (length es) + 1)%Z
        (<[length es := Item (List.hd (-1)%Z l) (Z.of_nat (length v)) k]> (items d))); [exact Hup| | |by exists i].
      * intros y Hy. apply Hfresh. by eapply chain_in_all; [apply list_elem_of_lookup; exists i|].
      * apply lookup_lt_Some in Hie. etrans; [apply list_lookup_insert_ne; lia|apply Hok].
    + destruct (i - length es) eqn:Hj; [|done]. injection Hie as <-. assert (i = length es) as -> by lia.
      exists (List.hd (-1)%Z l). split; cbn [ekey eval echain items datas]; try done.
      * apply list_lookup_insert_eq. lia.
      * eapply linked_frame; [|eapply (linked_updated l (datas d)); [exact Hup1|]].
        -- intros y (j & Hj')%list_elem_of_lookup. simpl. rewrite (up_in _ _ _ _ _ Hup2 j y (lookup_lt_Some _ _ _ Hj') Hj').
           by destruct (aget ns1 y).
        -- intros y Hy%Hfree. unfold free_at in Hy. by destruct (aget (datas d) y).
      * intros j y Hjy. simpl. rewrite (up_in _ _ _ _ _ Hup j y (lookup_lt_Some _ _ _ Hjy) Hjy).
        assert (Hf : free_at (datas d) y) by (apply Hfree, list_elem_of_lookup; by exists j).
        unfold free_at in Hf. by destruct (aget (datas d) y).
  - rewrite Hall. apply NoDup_app. by split_and!.
  - intros y nd Hg Hu'. rewrite Hall. apply elem_of_app. destruct (decide (y ∈ l)) as [Hy|Hy]; [by right|left].
    rewrite Hout2, Hout1 in Hg by done. by eapply Hu.
Qed.

(** ** Reading a value *)

Lemma pad_length c : length c ≤ BLK → length (pad c) = BLK.
Proof. intros Hc. unfold pad. rewrite length_app, length_replicate. lia. Qed.

Lemma strncpy_pad c : length c ≤ BLK → Forall (λ x, x ≠ 0%Z) c → strncpy_bytes (pad c) = pad c.
Proof.
  intros Hl Hc. unfold strncpy_bytes. rewrite pad_length by done. unfold pad at 1 2.
  rewrite (cut0_prefix c); [done|done|by rewrite take_app_length|].
  rewrite length_app, length_replicate. destruct (decide (length c = BLK)); [left; lia|right].
  rewrite lookup_app_r, lookup_replicate_2 by lia. done.
Qed.

Lemma part_lookup v j i : i < BLK →
  pad (take BLK (drop (j * BLK) v)) !! i = Some (default 0%Z (v !! (j * BLK + i))).
Proof.
  intros Hi. unfold pad. destruct (decide (i < length (take BLK (drop (j * BLK) v)))) as [Hlt|Hge].
  - rewrite lookup_app_l by done. rewrite lookup_take_lt, lookup_drop by done.
    rewrite length_take, length_drop in Hlt. destruct (lookup_lt_is_Some_2 v (j * BLK + i)) as [x Hx]; [lia|]. by rewrite Hx.
  - rewrite lookup_app_r by lia. rewrite length_take, length_drop in *. rewrite lookup_replicate_2 by lia.
    by rewrite lookup_ge_None_2 by lia.
Qed.

(** [readbuf] holds the first [n] blocks of [v] and, further on, what [m0] has. *)
Definition holds_value (v : list Z) (n : nat) (m0 m : Z → Z) : Prop :=
  (∀ a, a < n * BLK → m (Z.of_nat a) = default 0%Z (v !! a)) ∧
  (∀ a, (Z.of_nat (n * BLK) ≤ a)%Z → m a = m0 a).

Lemma wp_read_chain l x v (P : Z → kv_st → Prop) s :
  linked (datas (db s)) x l → stored (datas (db s)) l v →
  Z.of_nat (length l) = blocks (Z.of_nat (length v)) → value_ok v →
  (∀ m, holds_value v (length l) (readbuf s) m → P (-1)%Z (set_readbuf m s)) →
  wp (each_block (length l) 0 x read_node) P s.
Proof.
  intros Hl Hst Hlen [Hv Hrows] HP. eapply wp_mono.
  - apply (wp_each_block (λ i s', ∃ m, s' = set_readbuf m s ∧ holds_value v i (readbuf s) m) _ l 0 0 x (datas (db s))).
    + done.
    + exists (readbuf s). split; [by destruct s|]. split; [lia|done].
    + by intros i s1 y (m & -> & _).
    + intros j y s1 Hy (m & -> & Hm1 & Hm2). pose proof (lookup_lt_Some _ _ _ Hy) as Hj. cbn [Nat.add] in *.
      destruct (linked_elem _ _ _ y Hl ltac:(apply list_elem_of_lookup; eauto)) as (nd & Hg & _).
      pose proof (Hst j y Hy) as Hdata. rewrite Hg in Hdata. injection Hdata as Hdata.
      unfold read_node. wp_steps. apply wp_on_db. unfold node. wp_steps. apply wp_check_row; [lia|]. wp_steps.
      rewrite Hdata, strncpy_pad by (try (by apply Forall_take, Forall_drop); rewrite length_take; lia).
      eexists. split; [done|]. cbn [readbuf set_readbuf set_db]. rewrite Z.add_0_l, <-BLK_mul.
      assert (Hpl : length (pad (take BLK (drop (j * BLK) v))) = BLK) by (apply pad_length; rewrite length_take; lia).
      split.
      * intros a Ha. destruct (decide (a < j * BLK)) as [Hlt|Hge].
        -- rewrite blit_out by lia. by apply Hm1.
        -- apply blit_in; [|lia]. replace (Z.to_nat (Z.of_nat a - Z.of_nat (j * BLK))) with (a - j * BLK) by lia.
           rewrite part_lookup by lia. do 3 f_equal. lia.
      * intros a Ha. rewrite blit_out by lia. apply Hm2. lia.
  - intros z s' (-> & m & -> & Hm). by apply HP.
Qed.

(** ** The map *)

Definition es_map (es : list entry) : gmap (list Z) (list Z) := list_to_map ((λ e, (ekey e, eval e)) <$> es).

Lemma fst_pairs es : ((λ e, (ekey e, eval e)) <$> es).*1 = ekey <$> es.
Proof. by rewrite <-list_fmap_compose. Qed.

Lemma es_map_perm es es' : NoDup (ekey <$> es) → es ≡ₚ es' → es_map es = es_map es'.
Proof. intros Hnd Hp. apply list_to_map_proper; [by rewrite fst_pairs|by rewrite Hp]. Qed.

Lemma es_map_in es i e : NoDup (ekey <$> es) → es !! i = Some e → es_map es !! ekey e = Some (eval e).
Proof.
  intros Hnd Hi. apply elem_of_list_to_map_1; [by rewrite fst_pairs|].
  apply list_elem_of_fmap. exists e. split; [done|]. apply list_elem_of_lookup. by exists i.
Qed.

Lemma es_map_out es k : k ∉ (ekey <$> es) → es_map es !! k = None.
Proof. intros Hk. apply not_elem_of_list_to_map_1. by rewrite fst_pairs. Qed.

Lemma es_map_swap es i e : NoDup (ekey <$> es) → es !! i = Some e → es_map (swap_out i es) = delete (ekey e) (es_map es).
Proof.
  intros Hnd Hi. pose proof (swap_out_perm _ _ _ Hi) as Hp. rewrite (es_map_perm _ _ Hnd Hp).
  rewrite Hp in Hnd. apply NoDup_cons in Hnd as [Hn _]. change (es_map (e :: ?l)) with (<[ekey e := eval e]> (es_map l)).
  by rewrite delete_insert_id by (by apply es_map_out).
Qed.

Lemma es_map_snoc es k v l : NoDup (ekey <$> es) → k ∉ (ekey <$> es) →
  es_map (es ++ [Entry k v l]) = <[k := v]> (es_map es).
Proof.
  intros Hnd Hk. rewrite (es_map_perm _ (Entry k v l :: es)); [done| |by rewrite (Permutation_app_comm es)].
  rewrite fmap_app. apply NoDup_app. split_and!; [done| |apply NoDup_singleton].
  intros x Hx Hx'%list_elem_of_singleton. by subst x.
Qed.

Definition used_blocks (m : gmap (list Z) (list Z)) : Z := map_fold (λ _ v n, (blocks (Z.of_nat (length v)) + n)%Z) 0%Z m.

Lemma used_blocks_chains d es : kv_rep d es → used_blocks (es_map es) = Z.of_nat (length (all_chains es)).
Proof.
  intros Hrep. assert (Hl : Forall (λ e, Z.of_nat (length (echain e)) = blocks (Z.of_nat (length (eval e)))) es).
  { apply Forall_lookup. intros i e Hi. destruct (kr_entry _ _ Hrep _ _ Hi) as [h Hok]. apply Hok. }
  pose proof (kr_keys _ _ Hrep) as Hnd. clear Hrep. induction es as [|e es IH]; [done|].
  apply Forall_cons in Hl as [He Hl]. apply NoDup_cons in Hnd as [Hn Hnd].
  change (es_map (e :: es)) with (<[ekey e := eval e]> (es_map es)). unfold used_blocks.
  rewrite map_fold_insert_L by (try (by apply es_map_out); intros; lia).
  fold (used_blocks (es_map es)). rewrite IH by done.
  change (all_chains (e :: es)) with (echain e ++ all_chains es). rewrite length_app. lia.
Qed.

Lemma es_map_size es : NoDup (ekey <$> es) → base.size (es_map es) = length es.
Proof.
  induction es as [|e es IH]; intros Hnd; [done|]. apply NoDup_cons in Hnd as [Hn Hnd].
  change (es_map (e :: es)) with (<[ekey e := eval e]> (es_map es)).
  rewrite map_size_insert_None by (by apply es_map_out). simpl. by rewrite IH.
Qed.

(** ** Searching *)

Lemma item_keys d es : kv_rep d es → ikey <$> take (Z.to_nat (dbsize d)) (items d) = ekey <$> es.
Proof.
  intros Hrep. pose proof (kr_items _ _ Hrep). pose proof (kr_room _ _ Hrep). rewrite (kr_size _ _ Hrep), Nat2Z.id.
  apply list_eq_same_length with (length es); [by rewrite length_fmap|rewrite length_fmap, length_take; lia|].
  intros i k k' Hi Hk Hk'. rewrite list_lookup_fmap in Hk. rewrite list_lookup_fmap in Hk'.
  apply fmap_Some in Hk as (it & [Hit _]%lookup_take_Some & ->). apply fmap_Some in Hk' as (e & He & ->).
  destruct (kr_entry _ _ Hrep _ _ He) as [h Hok]. rewrite (eo_item _ _ _ _ Hok) in Hit. by injection Hit as <-.
Qed.

Lemma wp_search k es (P : Z → kvdb_t → Prop) d : kv_rep d es →
  (∀ i e, es !! i = Some e → ekey e = k → P (Z.of_nat i) d) → (k ∉ (ekey <$> es) → P (-1)%Z d) →
  wp (kvdb_search_key k) P d.
Proof.
  intros Hrep HS HN. unfold kvdb_search_key. wp_steps. pose proof (item_keys _ _ Hrep) as Hks.
  destruct (first_index _ _) as [i|] eqn:Hf.
  - apply first_index_Some in Hf as [(it & Hit & Hb%bool_decide_eq_true) _].
    assert (Hk : (ekey <$> es) !! i = Some k) by (by rewrite <-Hks, list_lookup_fmap, Hit, <-Hb).
    rewrite list_lookup_fmap in Hk. apply fmap_Some in Hk as (e & He & ->). by eapply HS.
  - apply HN. rewrite <-Hks. intros (it & -> & (i & Hi)%list_elem_of_lookup)%list_elem_of_fmap.
    pose proof (proj1 (first_index_None _ _) Hf i it Hi) as Hb. simpl in Hb. by rewrite bool_decide_eq_true_2 in Hb.
Qed.

(** ** The body of a put *)

(** What stays of the state besides the database's contents. *)
Definition quiet (s s' : kv_st) : Prop :=
  frame_of (db s') = frame_of (db s) ∧ disk s' = disk s ∧ value s' = value s ∧ length (vec s') = length (vec s).

Lemma quiet_trans s1 s2 s3 : quiet s1 s2 → quiet s2 s3 → quiet s1 s3.
Proof. intros (? & ? & ? & ?) (? & ? & ? & ?). split_and!; congruence. Qed.

Lemma quiet_db s d : frame_of d = frame_of (db s) → quiet s (set_db d s).
Proof. done. Qed.

Definition enough (m : gmap (list Z) (list Z)) (v : list Z) : Prop :=
  (used_blocks m + blocks (Z.of_nat (length v)) ≤ DATAS_SIZE)%Z.
#[export] Instance enough_dec m v : Decision (enough m v) := ltac:(unfold enough; apply _).

(** After the old item of the key is gone: the new one is added, or there is no room. *)
Lemma wp_put_new {X} (A B : M kv_st X) k v es (P : X → kv_st → Prop) s :
  kv_rep (db s) es → k ∉ (ekey <$> es) → key_ok k → value_ok v → Z.of_nat (length (vec s)) = ROWS →
  (Z.of_nat (length es) < ITEMS_SIZE)%Z →
  (enough (es_map es) v → ∀ s' es', kv_rep (db s') es' → es_map es' = <[k := v]> (es_map es) → quiet s s' → wp B P s') →
  (¬ enough (es_map es) v → ∀ s', kv_rep (db s') es → quiet s s' → wp A P s') →
  wp (r ← kvdb_alloc (Z.of_nat (length v)) k;
      if decide (r ≠ 0)%Z then A else
      fill_writebuf v;; d ← gets db; r ← kvdb_write (dbsize d - 1); if decide (r ≠ 0)%Z then A else B) P s.
Proof.
  intros Hrep Hk Hkok Hv Hvec Hroom HB HA. pose proof (free_count _ _ Hrep) as Hfc. pose proof (used_blocks_chains _ _ Hrep) as Hub.
  wp_steps. eapply wp_alloc; [exact Hrep|done|done|lia|apply Hv|done| |].
  - intros vc l ns Hlv Hnd Hlen Hfree Hup Henough. rewrite decide_False by (intros Hn; by apply Hn). wp_steps.
    unfold fill_writebuf. assert (Hmax : (Z.of_nat (length v) < MAX_LENGTH)%Z).
    { destruct Hv as [_ Hr]. pose proof (blocks_bounds (Z.of_nat (length v)) ltac:(lia)) as [Hb|Hb]; [|by rewrite (proj1 Hb)].
      unfold ROWS in Hr. change MAX_LENGTH with 33554432%Z in *. change DATA_LENGTH with 4096%Z in *.
      change (33554432 `div` 4096)%Z with 8192%Z in Hr. lia. }
    rewrite decide_True by done. wp_steps. cbn [db dbsize set_db set_writebuf reserved set_dbsize].
    replace (Z.of_nat (length es) + 1 - 1)%Z with (Z.of_nat (length es)) by lia.
    unfold kvdb_write. wp_steps. apply wp_on_db. pose proof (kr_items _ _ Hrep) as Hni.
    eapply wp_item; [apply list_lookup_insert_eq; lia|]. wp_steps. cbn [isize head]. rewrite <-Hlen, Nat2Z.id.
    assert (Hlink : linked ns (List.hd (-1)%Z l) l).
    { apply (linked_updated l (datas (db s))); [done|]. intros y Hy%Hfree. unfold free_at in Hy. by destruct (aget (datas (db s)) y). }
    eapply (wp_write_chain l _ v); [exact Hlink|done|done|done|reflexivity|]. intros ns2 Hup2.
    rewrite decide_False by (intros Hn; by apply Hn). wp_steps. rewrite decide_False by (intros Hn; by apply Hn).
    apply (HB ltac:(unfold enough; lia) _ (es ++ [Entry k v l])); [|by apply es_map_snoc; [apply Hrep|]|].
    + exact (kv_rep_added _ _ _ _ _ _ _ Hrep Hroom Hk Hkok Hv Hnd Hlen Hfree Hup Hup2).
    + by destruct s as [[] ? ? ? ? ?].
  - intros vc Hlv Hlt. rewrite decide_True by done. apply (HA ltac:(unfold enough; lia)); [done|].
    by destruct s as [[] ? ? ? ? ?].
Qed.

Lemma wp_put_body {X} (A B : M kv_st X) k v es (P : X → kv_st → Prop) s :
  kv_rep (db s) es → key_ok k → value_ok v → Z.of_nat (length (vec s)) = ROWS →
  (Z.of_nat (base.size (delete k (es_map es))) < ITEMS_SIZE)%Z →
  (enough (delete k (es_map es)) v → ∀ s' es', kv_rep (db s') es' → es_map es' = <[k := v]> (es_map es) → quiet s s' → wp B P s') →
  (¬ enough (delete k (es_map es)) v → ∀ s' es', kv_rep (db s') es' → es_map es' = delete k (es_map es) → quiet s s' → wp A P s') →
  wp (item_idx ← on_db (kvdb_search_key k);
      (if decide (0 ≤ item_idx)%Z then kvdb_free item_idx;; mret tt else mret tt);;
      r ← kvdb_alloc (Z.of_nat (length v)) k;
      if decide (r ≠ 0)%Z then A else
      fill_writebuf v;; d ← gets db; r ← kvdb_write (dbsize d - 1); if decide (r ≠ 0)%Z then A else B) P s.
Proof.
  intros Hrep Hk Hv Hvec Hroom HB HA. apply wp_bind, wp_on_db. pose proof (kr_keys _ _ Hrep) as Hnd.
  eapply wp_search; [exact Hrep| |].
  - intros i e Hi <-. apply wp_bind. rewrite decide_True by lia. wp_steps.
    replace (set_db (db s) s) with s by (by destruct s). eapply wp_free; [exact Hrep|done|]. intros d Hrepd Hfr. apply wp_ret.
    pose proof (es_map_swap _ _ _ Hnd Hi) as Hm. pose proof (kr_keys _ _ Hrepd) as Hndd. pose proof (swap_out_perm _ _ _ Hi) as Hp.
    rewrite Hp in Hnd. apply NoDup_cons in Hnd as [Hnew _]. rewrite <-Hm in *. rewrite es_map_size in Hroom by done.
    apply (wp_put_new _ _ _ _ (swap_out i es)); [done..| |].
    + intros He s' es' Hr' Hm' Hq. apply (HB He s' es' Hr'); [|by eapply quiet_trans; [apply quiet_db|]].
      rewrite Hm', Hm. by rewrite insert_delete_eq.
    + intros He s' Hr' Hq. apply (HA He s' _ Hr'); [done|by eapply quiet_trans; [apply quiet_db|]].
  - intros Hnew. apply wp_bind. rewrite decide_False by lia. apply wp_ret. replace (set_db (db s) s) with s by (by destruct s).
    rewrite delete_id in * by (by apply es_map_out). rewrite es_map_size in Hroom by done.
    apply (wp_put_new _ _ _ _ es); [done..| |].
    + intros He s' es' Hr' Hm' Hq. by apply (HB He s' es' Hr').
    + intros He s' Hr' Hq. by apply (HA He s' es Hr').
Qed.

(** ** The operations *)

(** The files are [fs] and the log, whose text is [lg]. *)
Record kv_state (names : string * string * string) (fs : gmap string content) (s : kv_st)
    (m : gmap (list Z) (list Z)) (lg : list Z) : Prop := {
  ks_rep : ∃ es, kv_rep (db s) es ∧ m = es_map es;
  ks_vec : Z.of_nat (length (vec s)) = ROWS;
  ks_frame : frame_of (db s) = (names, false);
  ks_disk : disk s = <[names.2 := Text lg]> fs
}.

Lemma kv_rep_tlock d es b : kv_rep d es → kv_rep (set_tlock b d) es.
Proof.
  intros [? ? ? ? ? He ? ?]. split; try done. intros i e Hi. destruct (He i e Hi) as [h []]. exists h. by split.
Qed.

Lemma wp_lock (P : unit → kv_st → Prop) names s : frame_of (db s) = (names, false) →
  P tt (set_db (set_tlock true (db s)) s) → wp (on_db mutex_lock) P s.
Proof.
  intros Hf HP. apply wp_on_db. unfold mutex_lock. wp_steps. unfold frame_of in Hf. injection Hf as _ ->. by wp_steps.
Qed.

(** The end of an operation: a line may be appended, and the lock is given back. *)
Lemma wp_unlock {A} (r : A) names fs m lg es (P : A → kv_st → Prop) s :
  kv_rep (db s) es → m = es_map es → Z.of_nat (length (vec s)) = ROWS →
  frame_of (db s) = (names, true) → disk s = <[names.2 := Text lg]> fs →
  (∀ s', kv_state names fs s' m lg → readbuf s' = readbuf s → P r s') →
  wp (on_db mutex_unlock;; mret r) P s.
Proof.
  intros Hrep Hm Hv Hf Hd HP. wp_steps. apply wp_on_db. unfold mutex_unlock. wp_steps. apply HP; [|done].
  split; try done.
  - exists es. split; [by apply kv_rep_tlock|done].
  - unfold frame_of in *. simpl. by injection Hf as <-.
Qed.

Lemma wp_append names fs lg line (P : unit → kv_st → Prop) s b :
  frame_of (db s) = (names, b) → disk s = <[names.2 := Text lg]> fs →
  P tt (set_disk (<[names.2 := Text (lg ++ line)]> fs) s) → wp (append_log line) P s.
Proof.
  intros Hf Hd HP. unfold append_log. wp_steps. assert (Hl : logname (db s) = names.2) by (unfold frame_of in Hf; by injection Hf as <- _).
  rewrite Hl, Hd, lookup_insert_eq. unfold put_file. wp_steps. rewrite Hd, insert_insert_eq. exact HP.
Qed.

(** A put: done and logged, or refused with the old value lost. *)
Lemma kvdb_put_run names fs s m lg k v :
  kv_state names fs s m lg → key_ok k → value_ok v → (Z.of_nat (base.size (delete k m)) < ITEMS_SIZE)%Z →
  ∃ s', if decide (enough (delete k m) v)
        then kvdb_put k v s = Ret (0%Z, s') ∧ kv_state names fs s' (<[k := v]> m) (lg ++ put_line k v)
        else kvdb_put k v s = Ret (1%Z, s') ∧ kv_state names fs s' (delete k m) lg.
Proof.
  intros [(es & Hrep & ->) Hvec Hf Hd] Hk Hv Hroom.
  enough (Hw : wp (kvdb_put k v) (λ r s', if decide (enough (delete k (es_map es)) v)
    then r = 0%Z ∧ kv_state names fs s' (<[k := v]> (es_map es)) (lg ++ put_line k v)
    else r = 1%Z ∧ kv_state names fs s' (delete k (es_map es)) lg) s).
  { apply wp_run in Hw as (r & s' & Hrun & Hpost). exists s'. case_decide; destruct Hpost as [-> ?]; done. }
  unfold kvdb_put. apply wp_bind. eapply wp_lock; [done|]. pose proof (kv_rep_tlock _ _ true Hrep) as Hrep1.
  assert (Hf1 : frame_of (set_tlock true (db s)) = (names, true)) by (unfold frame_of in *; simpl; by injection Hf as <- _).
  apply (wp_put_body _ _ k v es _ (set_db (set_tlock true (db s)) s)); [done..| |].
  - intros He s' es' Hr' Hm' (Hq1 & Hq2 & _ & Hq4). apply wp_bind.
    eapply (wp_append names fs lg); [by rewrite Hq1|by rewrite Hq2|].
    eapply wp_unlock; [exact Hr'|done|by rewrite <-Hvec; simpl; rewrite Hq4|by simpl; rewrite Hq1|done|].
    intros s2 Hs2 _. by rewrite decide_True by done.
  - intros He s' es' Hr' Hm' (Hq1 & Hq2 & _ & Hq4).
    eapply wp_unlock; [exact Hr'|done|by rewrite <-Hvec; simpl; rewrite Hq4|by simpl; rewrite Hq1|by rewrite Hq2|].
    intros s2 Hs2 _. by rewrite decide_False by done.
Qed.

Lemma blocks_cover n nb : Z.of_nat nb = blocks (Z.of_nat n) →
  n ≤ nb * BLK ∧ (n < nb * BLK ↔ (Z.of_nat n `mod` DATA_LENGTH ≠ 0)%Z).
Proof.
  intros Hnb. rewrite Nat2Z.inj_le, Nat2Z.inj_lt, BLK_mul, Hnb.
  pose proof (Z.div_mod (Z.of_nat n) DATA_LENGTH ltac:(done)). pose proof (Z.mod_pos_bound (Z.of_nat n) DATA_LENGTH ltac:(done)).
  pose proof (blocks_bounds (Z.of_nat n) ltac:(lia)) as [Hb|[Hb1 Hb2]].
  - change DATA_LENGTH with 4096%Z in *. lia.
  - rewrite Hb2, Hb1. split; [lia|]. rewrite Z.mod_0_l by done. lia.
Qed.

(** A get: the value read and its key removed, or the null pointer. *)
Lemma kvdb_get_run names fs s m lg k :
  kv_state names fs s m lg →
  match m !! k with
  | None => ∃ s', kvdb_get k s = Ret (None, s') ∧ kv_state names fs s' m lg
  | Some v => ∃ s', kvdb_get k s = Ret (Some tt, s') ∧ kv_state names fs s' (delete k m) (lg ++ get_line k) ∧
      (∀ i c, v !! i = Some c → readbuf s' (Z.of_nat i) = c) ∧
      readbuf s' (Z.of_nat (length v)) =
      if decide (Z.of_nat (length v) `mod` DATA_LENGTH = 0)%Z then readbuf s (Z.of_nat (length v)) else 0%Z
  end.
Proof.
  intros [(es & Hrep & ->) Hvec Hf Hd]. pose proof (kr_keys _ _ Hrep) as Hnd.
  assert (Hf1 : frame_of (set_tlock true (db s)) = (names, true)) by (unfold frame_of in *; simpl; by injection Hf as <- _).
  pose proof (kv_rep_tlock _ _ true Hrep) as Hrep1.
  enough (Hw : wp (kvdb_get k) (λ r s', match es_map es !! k with
    | None => r = None ∧ kv_state names fs s' (es_map es) lg
    | Some v => r = Some tt ∧ kv_state names fs s' (delete k (es_map es)) (lg ++ get_line k) ∧
       (∀ i c, v !! i = Some c → readbuf s' (Z.of_nat i) = c) ∧
       readbuf s' (Z.of_nat (length v)) =
       if decide (Z.of_nat (length v) `mod` DATA_LENGTH = 0)%Z then readbuf s (Z.of_nat (length v)) else 0%Z end) s).
  { apply wp_run in Hw as (r & s' & Hrun & Hpost). destruct (es_map es !! k); destruct Hpost as [-> ?]; by exists s'. }
  unfold kvdb_get. apply wp_bind. eapply wp_lock; [done|]. wp_steps. apply wp_on_db.
  eapply wp_search; [exact Hrep1| |].
  - intros i e Hi <-. rewrite (es_map_in _ _ _ Hnd Hi), decide_False by lia. wp_steps.
    destruct (kr_entry _ _ Hrep1 _ _ Hi) as [h [Hit Hl Hst Hlen Hv _]].
    unfold kvdb_read. wp_steps. apply wp_on_db. eapply wp_item; [exact Hit|]. wp_steps. cbn [isize head]. rewrite <-Hlen, Nat2Z.id.
    eapply (wp_read_chain _ _ (eval e)); [exact Hl|exact Hst|done|done|]. intros rb [Hrb1 Hrb2]. cbn [readbuf set_db] in Hrb2.
    rewrite !decide_False by (intros Hn; by apply Hn). apply wp_ret. rewrite decide_False by (intros Hn; by apply Hn).
    apply wp_bind. eapply wp_free; [exact Hrep1|exact Hi|]. intros d Hrepd Hfr. rewrite decide_False by (intros Hn; by apply Hn). apply wp_bind.
    eapply (wp_append names fs lg); [by simpl; rewrite Hfr|done|].
    eapply wp_unlock; [exact Hrepd|reflexivity|done|by simpl; rewrite Hfr|done|].
    rewrite (es_map_swap _ _ _ Hnd Hi). intros s2 Hs2 Hbuf. destruct (blocks_cover _ _ Hlen) as [Hc1 Hc2]. rewrite Hbuf. simpl. split_and!; [done|done| |].
    + intros j c Hj. apply lookup_lt_Some in Hj as Hjl. rewrite Hrb1 by lia. by rewrite Hj.
    + case_decide as Hm; [apply Hrb2; lia|]. rewrite Hrb1 by tauto. by rewrite lookup_ge_None_2 by done.
  - intros Hk. rewrite (es_map_out _ _ Hk), decide_True by done.
    eapply wp_unlock; [exact Hrep1|done|done|done|done|]. intros s2 Hs2 _. done.
Qed.

(** C29. The database is a finite map.  A put binds the key to the value, replacing
    the old one, and logs itself; when the blocks do not suffice it returns 1,
    logs nothing and the old value is lost.  A get of a bound key returns the
    buffer with its value, logs itself and removes the key; one of an unbound key
    returns the null pointer.  The value in the buffer is followed by a null
    character unless its length is a multiple of the block length: then what
    follows is left from an earlier read. *)
Theorem kvdb_refines names fs s m lg :
  kv_state names fs s m lg →
  (∀ k v, key_ok k → value_ok v → (Z.of_nat (base.size (delete k m)) < ITEMS_SIZE)%Z →
     ∃ s', if decide (enough (delete k m) v)
           then kvdb_put k v s = Ret (0%Z, s') ∧ kv_state names fs s' (<[k := v]> m) (lg ++ put_line k v)
           else kvdb_put k v s = Ret (1%Z, s') ∧ kv_state names fs s' (delete k m) lg) ∧
  (∀ k, m !! k = None → ∃ s', kvdb_get k s = Ret (None, s') ∧ kv_state names fs s' m lg) ∧
  (∀ k v, m !! k = Some v →
     ∃ s', kvdb_get k s = Ret (Some tt, s') ∧ kv_state names fs s' (delete k m) (lg ++ get_line k) ∧
       (∀ i c, v !! i = Some c → readbuf s' (Z.of_nat i) = c) ∧
       readbuf s' (Z.of_nat (length v)) =
       if decide (Z.of_nat (length v) `mod` DATA_LENGTH = 0)%Z then readbuf s (Z.of_nat (length v)) else 0%Z).
Proof.
  intros Hs. split_and!.
  - intros k v Hk Hv Hroom. by apply kvdb_put_run.
  - intros k Hk. pose proof (kvdb_get_run names fs s m lg k Hs) as H. by rewrite Hk in H.
  - intros k v Hk. pose proof (kvdb_get_run names fs s m lg k Hs) as H. by rewrite Hk in H.
Qed.

(** ** A new database *)

Definition node_zero : node_t := Node (replicate BLK 0%Z) 0 0.
Definition db_zero : kvdb_t :=
  Kvdb "" "" "" 0 false (replicate (Z.to_nat ITEMS_SIZE) (Item 0 0 [])) (replicate (Z.to_nat DATAS_SIZE) node_zero).
Definition proc_zero (fs : gmap string content) : kv_st :=
  KvSt db_zero (replicate (Z.to_nat ROWS) 0%Z) (λ _, 0%Z) (λ _, 0%Z) [] fs.

Lemma db_zero_rep f c l b : kv_rep (set_tlock b (set_names f c l db_zero)) [].
Proof.
  split; unfold db_zero; cbn [items datas dbsize set_tlock set_names].
  - rewrite length_replicate. by apply Z2Nat.id.
  - rewrite length_replicate. by apply Z2Nat.id.
  - done.
  - done.
  - apply NoDup_nil_2.
  - intros i e Hi. by rewrite lookup_nil in Hi.
  - apply NoDup_nil_2.
  - intros y nd [_ Hg]%aget_Some Hu. by apply lookup_replicate in Hg as [-> _].
Qed.

Lemma zero_state : kv_state ("", "", "") ∅ (proc_zero {[ "" := Text [] ]}) ∅ [].
Proof.
  split.
  - exists []. split; [exact (db_zero_rep "" "" "" false)|done].
  - unfold proc_zero, vec. rewrite length_replicate. by apply Z2Nat.id.
  - done.
  - done.
Qed.

Lemma demo_key : key_ok [107%Z].
Proof. done. Qed.
Lemma demo_value : value_ok [118%Z].
Proof. split; [by repeat constructor|done]. Qed.

(** The empty database is given k = v, and asked for k. *)
Lemma kvdb_refines_witness : ∃ s1 s2,
  kvdb_put [107%Z] [118%Z] (proc_zero {[ "" := Text [] ]}) = Ret (0%Z, s1) ∧
  kvdb_get [107%Z] s1 = Ret (Some tt, s2) ∧ readbuf s2 0 = 118%Z ∧ readbuf s2 1 = 0%Z.
Proof.
  destruct (proj1 (kvdb_refines _ _ _ _ _ zero_state) [107%Z] [118%Z] demo_key demo_value) as (s1 & H1); [reflexivity|].
  rewrite decide_True in H1 by discriminate. destruct H1 as [Hput Hs1].
  destruct (proj2 (proj2 (kvdb_refines _ _ _ _ _ Hs1)) [107%Z] [118%Z]) as (s2 & Hget & _ & Hbuf & Hend); [reflexivity|].
  exists s1, s2. split_and!; [exact Hput|exact Hget|exact (Hbuf 0 118%Z eq_refl)|exact Hend].
Defined.
