(* ===== verification/KvdbLog.v ===== *)
(** * Properties of the key-value database: the log and recovery

    The log of a session, run again on the copy made when it began, gives the
    map the session left; the recovery keeps the old copy and empties the log, so
    a second crash loses the session. *)
From S2P Require Import Prelude Bytes Kvdb KvdbProps.

Abbreviation kvmap := (gmap (list Z) (list Z)).

Inductive op := OpPut (k v : list Z) | OpGet (k : list Z).

Definition run_op (o : op) : M kv_st unit :=
  match o with OpPut k v => kvdb_put k v;; mret tt | OpGet k => kvdb_get k;; mret tt end.
Definition run_ops (os : list op) : M kv_st unit := for_each os run_op.

Definition map_op (o : op) (m : kvmap) : kvmap :=
  match o with OpPut k v => <[k := v]> m | OpGet k => delete k m end.
Definition map_ops (os : list op) (m : kvmap) : kvmap := fold_left (flip map_op) os m.

Definition line_of (o : op) (m : kvmap) : list Z :=
  match o with
  | OpPut k v => put_line k v
  | OpGet k => match m !! k with Some _ => get_line k | None => [] end
  end.
Fixpoint log_of (os : list op) (m : kvmap) : list Z :=
  match os with [] => [] | o :: os' => line_of o m ++ log_of os' (map_op o m) end.

(** ** Keys and values the log's format can carry *)

Record key_clean (k : list Z) : Prop := {
  kc_ne : k ≠ [];
  kc_word : Forall (λ c, isspace c = false) k;
  kc_ok : key_ok k
}.
Record value_clean (v : list Z) : Prop := {
  vc_first : ∃ c v', v = c :: v' ∧ isspace c = false;
  vc_line : Forall (λ c, c ≠ NL) v;
  vc_ok : value_ok v
}.

(** The database has room for every put. *)
Fixpoint fits (os : list op) (m : kvmap) : Prop :=
  match os with
  | [] => True
  | o :: os' =>
      match o with
      | OpPut k v => key_clean k ∧ value_clean v ∧ (Z.of_nat (base.size (delete k m)) < ITEMS_SIZE)%Z ∧ enough (delete k m) v
      | OpGet k => key_clean k
      end ∧ fits os' (map_op o m)
  end.

(** ** Parsing *)

Lemma isspace_spec c : isspace c = true ↔ (c = 32 ∨ 9 ≤ c ≤ 13)%Z.
Proof. unfold isspace. apply bool_decide_eq_true. Qed.

Lemma skip_ws_word c l : isspace c = false → skip_ws (c :: l) = c :: l.
Proof. intros Hc. simpl. by rewrite Hc. Qed.

Lemma scan_word_app w c rest : ∀ n, length w < n → Forall (λ x, isspace x = false) w → isspace c = true →
  scan_word n (w ++ c :: rest) = (w, c :: rest).
Proof.
  induction w as [|x w IH]; intros [|n] Hn Hw Hc; simpl in *; try lia; [by rewrite Hc|].
  apply Forall_cons in Hw as [Hx Hw]. rewrite Hx, IH; [done|lia|done|done].
Qed.

(** An operation of three letters, a key and a space. *)
Lemma fscanf_op_line a b c k rest :
  isspace a = false → isspace b = false → isspace c = false → key_clean k →
  fscanf_op ([a; b; c; 32%Z] ++ k ++ 32%Z :: rest) = Some ([a; b; c], k, skip_ws rest).
Proof.
  intros Ha Hb Hc [Hne Hw _]. unfold fscanf_op. cbn [app]. rewrite skip_ws_word by done.
  cbn [scan_word]. rewrite Ha, Hb, Hc. destruct k as [|x k]; [done|]. apply Forall_cons in Hw as Hw'. destruct Hw' as [Hx _].
  assert (Hs : skip_ws (32%Z :: (x :: k) ++ 32%Z :: rest) = (x :: k) ++ 32%Z :: rest).
  { cbn [skip_ws]. rewrite (proj2 (isspace_spec 32%Z)) by (by left). cbn [app]. by apply skip_ws_word. }
  rewrite Hs, scan_word_app; [|rewrite length_app; simpl; lia|done|by apply isspace_spec; left].
  simpl. done.
Qed.

Lemma fscanf_put k v rest : key_clean k → value_clean v →
  fscanf_op (put_line k v ++ rest) = Some (string_bytes "put", k, v ++ NL :: rest).
Proof.
  intros Hk [(c & v' & Hv & Hc) _ _].
  assert (Heq : put_line k v ++ rest = [112; 117; 116; 32]%Z ++ k ++ 32%Z :: (v ++ NL :: rest)).
  { unfold put_line. change (string_bytes "put ") with [112; 117; 116; 32]%Z. by rewrite <-!(assoc_L (++)). }
  rewrite Heq, fscanf_op_line by done. f_equal. f_equal. rewrite Hv. by apply skip_ws_word.
Qed.

Lemma fscanf_get k rest : key_clean k → fscanf_op (get_line k ++ rest) = Some (string_bytes "get", k, skip_ws rest).
Proof.
  intros Hk. unfold get_line. change (string_bytes "get ") with [103; 101; 116; 32]%Z. change (string_bytes "get") with [103; 101; 116]%Z.
  rewrite <-!(assoc_L (++)). exact (fscanf_op_line 103 101 116 k (NL :: rest) eq_refl eq_refl eq_refl Hk).
Qed.

Lemma split_line_app v rest : Forall (λ c, c ≠ NL) v → split_line (v ++ NL :: rest) = (v ++ [NL], rest).
Proof.
  induction 1 as [|c v Hc _ IH]; [done|]. cbn [app split_line]. by rewrite decide_False, IH.
Qed.

Lemma fgets_line v rest : value_clean v → fgets (v ++ NL :: rest) = (v ++ [NL], rest).
Proof.
  intros [_ Hnl [_ Hr]]. unfold fgets. rewrite split_line_app by done. rewrite decide_True; [done|].
  rewrite length_app. simpl. pose proof (blocks_bounds (Z.of_nat (length v)) ltac:(lia)) as [Hb|Hb].
  - unfold ROWS in Hr. change MAX_LENGTH with 33554432%Z in *. change DATA_LENGTH with 4096%Z in *.
    change (33554432 `div` 4096)%Z with 8192%Z in Hr. lia.
  - destruct Hb as [Hb _]. change MAX_LENGTH with 33554432%Z. lia.
Qed.

Lemma skip_ws_log os m : skip_ws (log_of os m) = log_of os m.
Proof.
  revert m. induction os as [|[k v|k] os IH]; intros m; [done|done|]. cbn [log_of line_of].
  destruct (m !! k); [done|]. apply IH.
Qed.

(** ** Running the log again *)

(** What a replay keeps: the names, the files and the size of [vec]. *)
Definition same_files (s s' : kv_st) : Prop :=
  frame_of (db s') = frame_of (db s) ∧ disk s' = disk s ∧ length (vec s') = length (vec s).

Lemma same_files_trans s1 s2 s3 : same_files s1 s2 → same_files s2 s3 → same_files s1 s3.
Proof. intros (? & ? & ?) (? & ? & ?). split_and!; congruence. Qed.

Lemma quiet_same s s' : quiet s s' → same_files s s'.
Proof. by intros (? & ? & _ & ?). Qed.

Lemma wp_put_redo k v es (P : unit → kv_st → Prop) s :
  kv_rep (db s) es → key_ok k → value_ok v → Z.of_nat (length (vec s)) = ROWS →
  (Z.of_nat (base.size (delete k (es_map es))) < ITEMS_SIZE)%Z → enough (delete k (es_map es)) v →
  (∀ s' es', kv_rep (db s') es' → es_map es' = <[k := v]> (es_map es) → same_files s s' → P tt s') →
  wp (kvdb_put_redo k v) P s.
Proof.
  intros Hrep Hk Hv Hvec Hroom He HP. unfold kvdb_put_redo.
  eapply (wp_put_body (fail Halt) (mret tt)); [exact Hrep|done..| |].
  - intros _ s' es' Hr' Hm' Hq. wp_steps. by apply (HP s' es'); [| |apply quiet_same].
  - done.
Qed.

Lemma wp_get_redo k es (P : unit → kv_st → Prop) s :
  kv_rep (db s) es →
  (∀ s' es', kv_rep (db s') es' → es_map es' = delete k (es_map es) → same_files s s' → P tt s') →
  wp (kvdb_get_redo k) P s.
Proof.
  intros Hrep HP. pose proof (kr_keys _ _ Hrep) as Hnd. unfold kvdb_get_redo. wp_steps. apply wp_on_db.
  replace (set_db (db s) s) with s by (by destruct s).
  eapply wp_search; [exact Hrep| |].
  - intros i e Hi <-. rewrite decide_False by lia. replace (set_db (db s) s) with s by (by destruct s). wp_steps.
    eapply wp_free; [exact Hrep|exact Hi|]. intros d Hrepd Hfr. rewrite decide_False by (intros Hn; by apply Hn). wp_steps.
    apply (HP _ (swap_out i es)); [exact Hrepd|by apply es_map_swap|done].
  - intros Hk. rewrite decide_True by done. replace (set_db (db s) s) with s by (by destruct s). wp_steps.
    apply (HP s es); [done| |done]. by rewrite delete_id by (by apply es_map_out).
Qed.

Lemma wp_redo os : ∀ fuel m es (P : Z → kv_st → Prop) s,
  kv_rep (db s) es → es_map es = m → fits os m → Z.of_nat (length (vec s)) = ROWS → length (log_of os m) < fuel →
  (∀ s' es', kv_rep (db s') es' → es_map es' = map_ops os m → same_files s s' → P 0%Z s') →
  wp (redo_operation fuel (log_of os m)) P s.
Proof.
  induction os as [|o os IH]; intros fuel m es P s Hrep Hm Hfit Hvec Hfuel HP.
  { destruct fuel; [simpl in Hfuel; lia|]. cbn. wp_steps. by eapply HP. }
  destruct Hfit as [Ho Hfit]. cbn [map_ops fold_left] in HP. unfold flip at 2 in HP. cbn [log_of] in *.
  destruct o as [k v|k]; cbn [line_of map_op] in *.
  - destruct Ho as (Hk & Hv & Hroom & He). destruct fuel as [|fuel]; [lia|]. cbn [redo_operation].
    rewrite fscanf_put by done. wp_steps. rewrite decide_True by apply Hk. wp_steps. rewrite decide_True by done.
    rewrite fgets_line by done. wp_steps. rewrite decide_False by (by destruct v). wp_steps. cbn [value set_value].
    rewrite decide_False by (by destruct v). wp_steps. cbn [value set_value]. rewrite removelast_last. subst m.
    eapply wp_put_redo; [exact Hrep|apply Hk|apply Hv|done|done|done|]. intros s1 es1 Hr1 Hm1 Hs1.
    assert (Hlen : length (log_of os (<[k := v]> (es_map es))) < fuel).
    { unfold put_line in Hfuel. rewrite !length_app in Hfuel. simpl in Hfuel. lia. }
    eapply IH; [exact Hr1|exact Hm1|exact Hfit| |exact Hlen|].
    + destruct Hs1 as (_ & _ & Hl). by rewrite Hl.
    + intros s2 es2 Hr2 Hm2 Hs2. apply (HP s2 es2 Hr2 Hm2). by eapply same_files_trans.
  - destruct (m !! k) as [v|] eqn:Hmk.
    + destruct fuel as [|fuel]; [lia|]. cbn [redo_operation]. rewrite fscanf_get by done. wp_steps.
      rewrite decide_True by apply Ho. wp_steps. rewrite decide_False, decide_True by done. wp_steps.
      rewrite skip_ws_log. subst m. eapply wp_get_redo; [exact Hrep|]. intros s1 es1 Hr1 Hm1 Hs1.
      assert (Hlen : length (log_of os (delete k (es_map es))) < fuel).
      { unfold get_line in Hfuel. rewrite !length_app in Hfuel. simpl in Hfuel. lia. }
      eapply IH; [exact Hr1|exact Hm1|exact Hfit| |exact Hlen|].
      * destruct Hs1 as (_ & _ & Hl). by rewrite Hl.
      * intros s2 es2 Hr2 Hm2 Hs2. apply (HP s2 es2 Hr2 Hm2). by eapply same_files_trans.
    + rewrite delete_id in * by done. by eapply IH.
Qed.

(** ** A session *)

Lemma run_ops_ok names fs os : ∀ s m lg,
  kv_state names fs s m lg → fits os m →
  ∃ s', run_ops os s = Ret (tt, s') ∧ kv_state names fs s' (map_ops os m) (lg ++ log_of os m).
Proof.
  induction os as [|o os IH]; intros s m lg Hs Hfit.
  { exists s. split; [done|]. cbn. by rewrite app_nil_r. }
  destruct Hfit as [Ho Hfit].
  assert (Hone : ∃ s1, run_op o s = Ret (tt, s1) ∧ kv_state names fs s1 (map_op o m) (lg ++ line_of o m)).
  { destruct o as [k v|k]; cbn [run_op map_op line_of].
    - destruct Ho as (Hk & Hv & Hroom & He).
      destruct (kvdb_put_run names fs s m lg k v Hs) as (s1 & H1); [apply Hk|apply Hv|done|].
      rewrite decide_True in H1 by done. destruct H1 as [Hrun H1]. exists s1. split; [by rewrite (bind_run _ _ _ _ _ Hrun)|done].
    - pose proof (kvdb_get_run names fs s m lg k Hs) as H1. destruct (m !! k) as [v|] eqn:Hmk.
      + destruct H1 as (s1 & Hrun & H1 & _). exists s1. split; [by rewrite (bind_run _ _ _ _ _ Hrun)|done].
      + destruct H1 as (s1 & Hrun & H1). exists s1. split; [by rewrite (bind_run _ _ _ _ _ Hrun)|].
        by rewrite delete_id, app_nil_r. }
  destruct Hone as (s1 & Hrun1 & Hs1). destruct (IH s1 _ _ Hs1 Hfit) as (s2 & Hrun2 & Hs2).
  exists s2. split; [unfold run_ops; cbn [for_each]; by rewrite (bind_run _ _ _ _ _ Hrun1)|].
  cbn [log_of map_ops fold_left]. by rewrite (assoc_L (++)).
Qed.

(** ** File names *)

Lemma append_nil_r (s : string) : s +:+ "" = s.
Proof. induction s as [|c s IH]; [done|]. exact (f_equal (String.String c) IH). Qed.

Lemma append_length (s t : string) : String.length (s +:+ t) = String.length s + String.length t.
Proof. induction s as [|c s IH]; [done|]. exact (f_equal S IH). Qed.

Lemma substring_all s : String.substring 0 (String.length s) s = s.
Proof. induction s as [|c s IH]; [done|]. exact (f_equal (String.String c) IH). Qed.

Lemma substring_length n s : n ≤ String.length s → String.length (String.substring 0 n s) = n.
Proof. revert n. induction s as [|c s IH]; intros [|n] Hn; simpl in *; [done|lia|done|]. by rewrite IH by lia. Qed.

Lemma overlay_empty n s : overlay n s "" = String.substring 0 n s.
Proof.
  unfold overlay. change (String.length "" - n) with 0. replace (String.substring n 0 "") with "" by (by destruct n).
  apply append_nil_r.
Qed.

Definition stem (name : string) : string := String.substring 0 (String.length name - 3) name.
Definition names_of (name : string) : string * string * string := (name, stem name +:+ ".dbc", stem name +:+ ".log").

Record name_ok (name : string) : Prop := {
  no_short : 3 ≤ String.length name;
  no_long : (Z.of_nat (String.length name) + 1 < FILENAME_LENGTH)%Z
}.

Lemma stem_length name : name_ok name → String.length (stem name) = String.length name - 3.
Proof. intros [? ?]. apply substring_length. lia. Qed.

Lemma names_differ name : name_ok name →
  name ≠ stem name +:+ ".dbc" ∧ name ≠ stem name +:+ ".log" ∧ stem name +:+ ".dbc" ≠ stem name +:+ ".log".
Proof.
  intros Hn. pose proof (stem_length _ Hn) as Hl. destruct Hn as [H3 _]. split_and!.
  - intros Heq. apply (f_equal String.length) in Heq. rewrite append_length, Hl in Heq. simpl in Heq. lia.
  - intros Heq. apply (f_equal String.length) in Heq. rewrite append_length, Hl in Heq. simpl in Heq. lia.
  - intros Heq. by apply (inj (String.append (stem name))) in Heq.
Qed.

(** The structure of a new process: its names are empty. *)
Definition unnamed (d : kvdb_t) : Prop := filename d = "" ∧ copyname d = "" ∧ logname d = "".

Lemma wp_set_filenames name (P : unit → kvdb_t → Prop) d : name_ok name → unnamed d →
  P tt (set_names name (stem name +:+ ".dbc") (stem name +:+ ".log") d) → wp (set_filenames name) P d.
Proof.
  intros Hn (Hf & Hc & Hl) HP. pose proof (stem_length _ Hn) as Hsl. destruct Hn as [H3 Hlong].
  unfold set_filenames. rewrite decide_True by done. wp_steps. unfold check_name.
  rewrite decide_True by lia. wp_steps. rewrite Hf, Hc, Hl, !overlay_empty, substring_all. fold (stem name).
  rewrite !decide_True by (rewrite append_length, Hsl; simpl; lia). by wp_steps.
Qed.

(** ** Opening *)

Lemma wp_exists_file f (P : bool → kv_st → Prop) s : P (bool_decide (is_Some (disk s !! f))) s → wp (exists_file f) P s.
Proof. done. Qed.

(** Opening when there is a copy and a log: the copy, brought forward by the log. *)
Lemma wp_recover name d0 b es0 os (P : Z → kv_st → Prop) s :
  name_ok name → unnamed (db s) → Z.of_nat (length (vec s)) = ROWS →
  disk s !! (names_of name).1.2 = Some (Image d0) →
  disk s !! (names_of name).2 = Some (Text (log_of os (es_map es0))) →
  kv_rep d0 es0 → frame_of d0 = (names_of name, b) → fits os (es_map es0) →
  (∀ s' es' d, kv_rep (db s') es' → es_map es' = map_ops os (es_map es0) → frame_of (db s') = (names_of name, false) →
     Z.of_nat (length (vec s')) = ROWS →
     disk s' = <[(names_of name).2 := Text []]> (<[name := Image d]> (disk s)) → P 0%Z s') →
  wp (kvdb_open name) P s.
Proof.
  intros Hn Hun Hvec Hcopy Hlog Hrep Hf Hfit HP. destruct (names_differ _ Hn) as (Hne1 & Hne2 & _). cbn [names_of fst snd] in *.
  set (copy := stem name +:+ ".dbc") in *. set (log := stem name +:+ ".log") in *.
  unfold kvdb_open. apply wp_bind, wp_on_db, wp_set_filenames; [done|done|]. wp_steps. cbn [db set_db copyname logname filename set_names].
  fold copy log. apply wp_exists_file. cbn [disk set_db]. rewrite Hcopy. wp_steps. apply wp_exists_file. cbn [disk set_db]. rewrite Hlog.
  wp_steps. apply wp_exists_file. rewrite !(bool_decide_eq_true_2 (is_Some (Some _))) by eauto. cbn [andb].
  unfold fopen_write, fopen_read, put_file. wp_steps. cbn [disk set_disk set_db].
  rewrite lookup_insert_ne, Hcopy by done. wp_steps. cbn [disk set_disk set_db]. rewrite lookup_insert_ne, Hlog by done. wp_steps.
  cbn [fread_db]. wp_steps. eapply wp_redo; [exact Hrep|reflexivity|exact Hfit|done|unfold redo_fuel; lia|].
  intros s1 es1 Hr1 Hm1 (Hs1 & Hs2 & Hs3). cbn [db set_db disk set_disk vec] in *. wp_steps. unfold fwrite_db, put_file. wp_steps.
  cbn [db set_disk disk]. apply wp_on_db. unfold mutex_init. wp_steps.
  assert (Hlogn : logname (db s1) = log) by (change (logname (db s1)) with ((frame_of (db s1)).1.2); by rewrite Hs1, Hf).
  apply (HP _ es1 (db s1)).
  - by apply kv_rep_tlock.
  - done.
  - transitivity ((frame_of (db s1)).1, false); [done|by rewrite Hs1, Hf].
  - simpl. by rewrite Hs3.
  - simpl. rewrite Hlogn, Hs2. by rewrite insert_insert_eq.
Qed.

(** The state of a process that begins: no names, any statics, the files as they
    were left. *)
Record restarted (s s' : kv_st) : Prop := {
  rs_unnamed : unnamed (db s');
  rs_vec : Z.of_nat (length (vec s')) = ROWS;
  rs_disk : disk s' = disk s
}.

(** A session of the database [name]: the copy made when it was opened holds the
    map [m], the log is empty. *)
Record session (name : string) (s : kv_st) (m : kvmap) : Prop := {
  ss_name : name_ok name;
  ss_state : ∃ fs, kv_state (names_of name) fs s m [] ∧
    ∃ d b es, fs !! (names_of name).1.2 = Some (Image d) ∧ kv_rep d es ∧ es_map es = m ∧ frame_of d = (names_of name, b)
}.

(** The files of a session after [os]. *)
Lemma session_files name s m os : session name s m → fits os m →
  ∃ s', run_ops os s = Ret (tt, s') ∧ (∃ es, kv_rep (db s') es ∧ es_map es = map_ops os m) ∧
    ∃ d b es, disk s' !! (names_of name).1.2 = Some (Image d) ∧ disk s' !! (names_of name).2 = Some (Text (log_of os m)) ∧
      kv_rep d es ∧ es_map es = m ∧ frame_of d = (names_of name, b).
Proof.
  intros [Hn (fs & Hs & d & b & es & Hcopy & Hrep & Hm & Hf)] Hfit.
  destruct (run_ops_ok _ _ _ _ _ _ Hs Hfit) as (s' & Hrun & [(es' & Hr' & Hm') _ _ Hd]). exists s'.
  split; [done|]. split; [by exists es'|]. exists d, b, es. destruct (names_differ _ Hn) as (_ & _ & Hne).
  rewrite Hd. rewrite lookup_insert_ne, lookup_insert_eq by done. by split_and!.
Qed.

(** C30. Crash recovery: whatever operations a session ran, a new process that opens
    the database finds the map the session left. *)
Theorem crash_recovery name s m os :
  session name s m → fits os m →
  ∃ s1, run_ops os s = Ret (tt, s1) ∧
    ∀ s2, restarted s1 s2 →
      ∃ s3, kvdb_open name s2 = Ret (0%Z, s3) ∧ ∃ es, kv_rep (db s3) es ∧ es_map es = map_ops os m.
Proof.
  intros Hs Hfit. destruct (session_files _ _ _ _ Hs Hfit) as (s1 & Hrun & _ & d & b & es & Hcopy & Hlog & Hrep & Hm & Hf).
  exists s1. split; [done|]. intros s2 [Hun Hvec Hd]. apply wp_run_ret. subst m. rewrite <-Hd in Hcopy, Hlog.
  eapply wp_recover; [apply Hs|done|done|exact Hcopy|exact Hlog|exact Hrep|exact Hf|done|].
  intros s3 es3 d3 Hr3 Hm3 _ _ _. split; [done|]. by exists es3.
Qed.

(** C31. The recovery empties the log and leaves the old copy: if the process that
    recovered the database crashes too, the next one finds the map from before
    the first session, and everything since is lost. *)
Theorem second_crash_loses name s m os :
  session name s m → fits os m →
  ∃ s1, run_ops os s = Ret (tt, s1) ∧
    ∀ s2, restarted s1 s2 → ∃ s3, kvdb_open name s2 = Ret (0%Z, s3) ∧
      ∀ s4, restarted s3 s4 →
        ∃ s5, kvdb_open name s4 = Ret (0%Z, s5) ∧ ∃ es, kv_rep (db s5) es ∧ es_map es = m.
Proof.
  intros Hs Hfit. destruct (session_files _ _ _ _ Hs Hfit) as (s1 & Hrun & _ & d & b & es & Hcopy & Hlog & Hrep & Hm & Hf).
  exists s1. split; [done|]. intros s2 [Hun Hvec Hd]. apply wp_run_ret. subst m. rewrite <-Hd in Hcopy, Hlog.
  pose proof (ss_name _ _ _ Hs) as Hn. destruct (names_differ _ Hn) as (Hne1 & _ & Hne3).
  eapply wp_recover; [done|done|done|exact Hcopy|exact Hlog|exact Hrep|exact Hf|done|].
  intros s3 es3 d3 _ _ _ _ Hd3. split; [done|]. intros s4 [Hun4 Hvec4 Hd4]. apply wp_run_ret.
  eapply (wp_recover name d b es []); [done|done|done| | |exact Hrep|exact Hf|done|].
  - rewrite Hd4, Hd3. cbn [names_of fst snd] in *. by rewrite !lookup_insert_ne by done.
  - rewrite Hd4, Hd3. by rewrite lookup_insert_eq.
  - intros s5 es5 d5 Hr5 Hm5 _ _ _. split; [done|]. by exists es5.
Qed.

(** ** A new database *)

(** Opening a database that does not exist creates it empty and begins a session. *)
Lemma create_session name fs :
  name_ok name → fs !! name = None → fs !! (names_of name).1.2 = None → fs !! (names_of name).2 = None →
  ∃ s, kvdb_open name (proc_zero fs) = Ret (0%Z, s) ∧ session name s ∅.
Proof.
  intros Hn Hf Hc Hl. destruct (names_differ _ Hn) as (Hne1 & Hne2 & Hne3). cbn [names_of fst snd] in *. apply wp_run_ret.
  unfold kvdb_open. apply wp_bind, wp_on_db, wp_set_filenames; [done|done|]. wp_steps.
  cbn [db set_db copyname logname filename set_names]. apply wp_exists_file. cbn [disk set_db proc_zero]. wp_steps.
  apply wp_exists_file. cbn [disk set_db proc_zero]. wp_steps. apply wp_exists_file. cbn [disk set_db proc_zero].
  rewrite Hf, Hc. rewrite !bool_decide_eq_false_2 by (by intros []). cbn [andb].
  unfold fopen_write, fwrite_db, put_file. wp_steps. cbn [db disk set_disk set_db]. apply wp_on_db. unfold mutex_init. wp_steps.
  split; [done|]. split; [done|].
  set (d := set_names name (stem name +:+ ".dbc") (stem name +:+ ".log") db_zero).
  exists (<[stem name +:+ ".dbc" := Image d]> (<[name := Image d]> fs)). split.
  - split; cbn [db set_db vec disk set_disk names_of snd].
    + exists []. split; [apply db_zero_rep|done].
    + unfold proc_zero, vec. rewrite length_replicate. by rewrite Z2Nat.id.
    + done.
    + apply map_eq. intros g. destruct (decide (g = stem name +:+ ".log")) as [->|Hg1].
      { by rewrite !lookup_insert_ne, !lookup_insert_eq by done. }
      rewrite (lookup_insert_ne _ (stem name +:+ ".log")) by done.
      destruct (decide (g = stem name +:+ ".dbc")) as [->|Hg2]; [by rewrite !lookup_insert_eq|].
      destruct (decide (g = name)) as [->|Hg3].
      { rewrite lookup_insert_ne, !lookup_insert_eq by done. by rewrite lookup_insert_ne, lookup_insert_eq by done. }
      by rewrite !lookup_insert_ne by done.
  - exists d, false, []. cbn [names_of fst snd]. rewrite lookup_insert_eq. split_and!; [done|exact (db_zero_rep _ _ _ false)|done|done].
Qed.

(** k is bound to v in a new database, then the process crashes. *)
Definition demo_ops : list op := [OpPut [107%Z] [118%Z]].

Lemma demo_fits : fits demo_ops ∅.
Proof.
  split; [|done]. split_and!.
  - split; [done|by repeat constructor|done].
  - split; [by eexists _, _|by repeat constructor|]. split; [by repeat constructor|done].
  - done.
  - done.
Qed.

Lemma demo_name : name_ok "a.db".
Proof. split; [simpl; lia|done]. Qed.

Lemma crash_recovery_witness : ∃ s, session "a.db" s ∅ ∧ ∃ s1, run_ops demo_ops s = Ret (tt, s1) ∧
  ∀ s2, restarted s1 s2 →
    ∃ s3, kvdb_open "a.db" s2 = Ret (0%Z, s3) ∧ ∃ es, kv_rep (db s3) es ∧ es_map es = {[ [107%Z] := [118%Z] ]}.
Proof.
  destruct (create_session "a.db" ∅ demo_name) as (s & _ & Hs); [reflexivity..|].
  exists s. split; [exact Hs|]. exact (crash_recovery "a.db" s ∅ demo_ops Hs demo_fits).
Defined.

Lemma second_crash_loses_witness : ∃ s, session "a.db" s ∅ ∧ ∃ s1, run_ops demo_ops s = Ret (tt, s1) ∧
  ∀ s2, restarted s1 s2 → ∃ s3, kvdb_open "a.db" s2 = Ret (0%Z, s3) ∧
    ∀ s4, restarted s3 s4 → ∃ s5, kvdb_open "a.db" s4 = Ret (0%Z, s5) ∧ ∃ es, kv_rep (db s5) es ∧ es_map es = ∅.
Proof.
  destruct (create_session "a.db" ∅ demo_name) as (s & _ & Hs); [reflexivity..|].
  exists s. split; [exact Hs|]. exact (second_crash_loses "a.db" s ∅ demo_ops Hs demo_fits).
Defined.
