(* ===== verification/Insertion.v ===== *)
(** * Insertion into an ordered list

    The loop shared by the process tree (pstree/pstree.c) and the profiler
    (sperf/sperf.c): a new element passes those that come before it.  [before x y]
    says that [x] passes [y]. *)
From S2P Require Import Prelude.
From Stdlib Require Import Sorting.Sorted.

Section insertion.
Context {A : Type} (before : A → A → bool).
Implicit Types (x y : A) (l : list A).

Fixpoint insert_by x l : list A :=
  match l with
  | [] => [x]
  | y :: l' => if before x y then y :: insert_by x l' else x :: l
  end.

Definition ordered l : Prop := Sorted (λ x y, before x y = false) l.

Lemma insert_by_perm x l : insert_by x l ≡ₚ x :: l.
Proof.
  induction l as [|y l IH]; [done|]. cbn. destruct (before x y); [|done]. rewrite IH. apply Permutation_swap.
Qed.

Lemma insert_by_ordered x l :
  (∀ y, y ∈ l → before x y = true → before y x = false) → ordered l → ordered (insert_by x l).
Proof.
  intros Hasym Hl. induction Hl as [|y l Hl IH Hhd]; [by repeat constructor|]. cbn.
  destruct (before x y) eqn:Hxy; [|by repeat constructor].
  constructor; [apply IH; intros z Hz; apply Hasym; by right|].
  destruct l as [|z l]; cbn; [constructor; apply Hasym; [by left|done]|].
  destruct (before x z); constructor; [by inversion Hhd|apply Hasym; [by left|done]].
Qed.

Lemma insert_by_passed x l1 l2 :
  (∀ y, y ∈ l1 → before x y = true) → insert_by x (l1 ++ l2) = l1 ++ insert_by x l2.
Proof.
  induction l1 as [|y l1 IH]; intros H; [done|]. cbn. rewrite (H y) by (by left).
  f_equal. apply IH. intros z Hz. apply H. by right.
Qed.

(** Where the element goes. *)
Lemma insert_by_split x l :
  ∃ l1 l2, l = l1 ++ l2 ∧ insert_by x l = l1 ++ x :: l2 ∧
    (∀ y, y ∈ l1 → before x y = true) ∧ (match l2 with [] => True | y :: _ => before x y = false end).
Proof.
  induction l as [|y l (l1 & l2 & -> & Hins & H1 & H2)]; cbn.
  - exists [], []. split_and!; try done. by intros y ?%not_elem_of_nil.
  - destruct (before x y) eqn:Hxy.
    + exists (y :: l1), l2. rewrite Hins. split_and!; try done. intros z [->|Hz]%elem_of_cons; auto.
    + exists [], (y :: l1 ++ l2). split_and!; try done. by intros z ?%not_elem_of_nil.
Qed.

Lemma ordered_sublist l k : transitive A (λ x y, before x y = false) → k `sublist_of` l → ordered l → ordered k.
Proof.
  intros Htr Hsub Hl. apply Sorted_StronglySorted in Hl; [|exact Htr]. apply StronglySorted_Sorted.
  induction Hsub as [|x k l Hsub IH|x k l Hsub IH]; [done|..]; apply StronglySorted_inv in Hl as [Hl Hx].
  - constructor; [auto|]. rewrite List.Forall_forall in Hx |- *. intros y Hy. apply Hx.
    apply list_elem_of_In. apply list_elem_of_In in Hy. by eapply elem_of_sublist.
  - auto.
Qed.
End insertion.
