(* ===== verification/Snake.v ===== *)
(** * The snake of amgame (amgame/src/game.c)

    The board is an array of 40 x 40 cells; a cell of the body holds the
    direction of the next cell towards the head.  The marks [unchange] say which
    cells the screen already shows.  Rectangles sent to the platform's frame
    buffer controller are recorded in [drawn]; key events come one per step. *)
From S2P Require Import Prelude KStdio KString Input.

Definition MAX_WIDTH : Z := 40.
Definition MAX_HEIGHT : Z := 40.

(** ** [enum map_ele] ([empty] is [empty_ele] here) *)
Definition empty_ele : Z := 0.
Definition apple : Z := 1.
Definition wall : Z := 2.
Definition bodyu : Z := 3.
Definition bodyr : Z := 4.
Definition bodyd : Z := 5.
Definition bodyl : Z := 6.

(** ** The state *)

Record pnt := Pnt { px : Z; py : Z }.

(** One call of [draw_rect]. *)
Record rect := Rect { rpixels : list Z; rx : Z; ry : Z; rw : Z; rh : Z }.

Record game := Game {
  snake_map : list Z;           (* [MAX_HEIGHT][MAX_WIDTH], row by row *)
  unchange : list Z;
  empty_cnt : Z;
  ghead : pnt;
  gtail : pnt;
  score : Z;
  pixels : list Z;
  rand_next : Z;                (* the state of rand() *)
  sw : Z;                       (* w and h: the screen's size *)
  sh : Z;
  drawn : list rect;            (* what the screen was sent *)
}.

Definition set_map v g := Game v (unchange g) (empty_cnt g) (ghead g) (gtail g) (score g) (pixels g) (rand_next g) (sw g) (sh g) (drawn g).
Definition set_unchange v g := Game (snake_map g) v (empty_cnt g) (ghead g) (gtail g) (score g) (pixels g) (rand_next g) (sw g) (sh g) (drawn g).
Definition set_empty_cnt v g := Game (snake_map g) (unchange g) v (ghead g) (gtail g) (score g) (pixels g) (rand_next g) (sw g) (sh g) (drawn g).
Definition set_ghead v g := Game (snake_map g) (unchange g) (empty_cnt g) v (gtail g) (score g) (pixels g) (rand_next g) (sw g) (sh g) (drawn g).
Definition set_gtail v g := Game (snake_map g) (unchange g) (empty_cnt g) (ghead g) v (score g) (pixels g) (rand_next g) (sw g) (sh g) (drawn g).
Definition set_score v g := Game (snake_map g) (unchange g) (empty_cnt g) (ghead g) (gtail g) v (pixels g) (rand_next g) (sw g) (sh g) (drawn g).
Definition set_pixels v g := Game (snake_map g) (unchange g) (empty_cnt g) (ghead g) (gtail g) (score g) v (rand_next g) (sw g) (sh g) (drawn g).
Definition set_rand v g := Game (snake_map g) (unchange g) (empty_cnt g) (ghead g) (gtail g) (score g) (pixels g) v (sw g) (sh g) (drawn g).
Definition set_drawn v g := Game (snake_map g) (unchange g) (empty_cnt g) (ghead g) (gtail g) (score g) (pixels g) (rand_next g) (sw g) (sh g) v.

(** ** Access to the two-dimensional arrays: [a[i][j]] *)

Definition cell_index (i j : Z) : option Z :=
  if decide (0 ≤ i < MAX_HEIGHT ∧ 0 ≤ j < MAX_WIDTH)%Z then Some (i * MAX_WIDTH + j)%Z else None.
Definition get_cell (i j : Z) : M game Z :=
  g ← get;
  deref OutOfBounds (k ← cell_index i j; aget (snake_map g) k).
Definition put_cell (i j v : Z) : M game unit :=
  g ← get;
  a ← deref OutOfBounds (k ← cell_index i j; aset (snake_map g) k v);
  modify (set_map a).
Definition get_unchange (i j : Z) : M game Z :=
  g ← get;
  deref OutOfBounds (k ← cell_index i j; aget (unchange g) k).
Definition put_unchange (i j v : Z) : M game unit :=
  g ← get;
  a ← deref OutOfBounds (k ← cell_index i j; aset (unchange g) k v);
  modify (set_unchange a).

(** [for (i...) for (j...)]: the cells row by row. *)
Definition cells : list (Z * Z) :=
  (λ k, (k `div` MAX_WIDTH, k `mod` MAX_WIDTH)%Z) <$> seqZ 0 (MAX_HEIGHT * MAX_WIDTH).

Definition g_rand : M game Z := zoom rand_next set_rand rand.

(** ** The board *)

(** The loops of [gen_apple], from the cells left and the value of [index]. *)
Fixpoint gen_scan (todo : list (Z * Z)) (index : Z) : M game unit :=
  match todo with
  | [] => mret tt
  | (i, j) :: todo' =>
      c ← get_cell i j;
      let index' := if decide (c = empty_ele) then u32 (index - 1) else index in
      if decide (index' = 0)%Z then
        put_cell i j apple;;
        put_unchange i j 0;;
        modify (λ g, set_empty_cnt (u32 (empty_cnt g - 1)) g)
      else gen_scan todo' index'
  end.

Definition gen_apple : M game unit :=
  r ← g_rand;
  n ← gets empty_cnt;
  if decide (n = 0)%Z then fail DivByZero
  else gen_scan cells (u32 (u32 r `mod` n + 1)).

(** [_head] and [_tail] *)
Definition get_head : M game Z := p ← gets ghead; get_cell (py p) (px p).
Definition put_head (v : Z) : M game unit := p ← gets ghead; put_cell (py p) (px p) v.
Definition get_tail : M game Z := p ← gets gtail; get_cell (py p) (px p).
Definition put_tail (v : Z) : M game unit := p ← gets gtail; put_cell (py p) (px p) v.

Definition init_game : M game unit :=
  for_each cells (λ '(i, j),
    if decide (i = 0 ∨ i = MAX_HEIGHT - 1 ∨ j = 0 ∨ j = MAX_WIDTH - 1)%Z
    then put_cell i j wall else put_cell i j empty_ele);;
  modify (set_ghead (Pnt ((MAX_WIDTH + 1) / 2) (MAX_HEIGHT / 2)));;
  modify (set_gtail (Pnt ((MAX_WIDTH - 1) / 2) (MAX_HEIGHT / 2)));;
  put_head bodyr;;
  put_tail bodyr;;
  modify (set_score 0);;
  modify (set_empty_cnt 0);;
  for_each cells (λ '(i, j),
    c ← get_cell i j;
    when (bool_decide (c = empty_ele)) (modify (λ g, set_empty_cnt (u32 (empty_cnt g + 1)) g)));;
  gen_apple.

(** The local arrays [x] and [y] of [step_game_do]. *)
Definition xs : list Z := [0; 1; 0; -1]%Z.
Definition ys : list Z := [-1; 0; 1; 0]%Z.
Definition dir_at (a : list Z) (c : Z) : M game Z := deref OutOfBounds (aget a (u32 (c - bodyu))).

(** What both branches of a move do: [_next = _head] and the head goes on. *)
Definition advance_head (dx dy : Z) : M game unit :=
  c ← get_head;
  p ← gets ghead;
  put_cell (py p + dy) (px p + dx) c;;
  put_unchange (py p) (px p) 0;;
  modify (set_ghead (Pnt (px p + dx) (py p + dy)));;
  p' ← gets ghead;
  put_unchange (py p') (px p') 0.

Definition step_game_do : M game Z :=
  hc ← get_head;
  dx ← dir_at xs hc;
  dy ← dir_at ys hc;
  tc ← get_tail;
  tx ← dir_at xs tc;
  ty ← dir_at ys tc;
  p ← gets ghead;
  nx ← get_cell (py p + dy) (px p + dx);
  if decide (nx ≠ empty_ele ∧ nx ≠ apple) then mret 0%Z
  else if decide (nx = apple) then
    gen_apple;;
    advance_head dx dy;;
    modify (λ g, set_score (score g + 1) g);;
    mret 1%Z
  else
    advance_head dx dy;;
    put_tail empty_ele;;
    q ← gets gtail;
    put_unchange (py q) (px q) 0;;
    modify (set_gtail (Pnt (px q + tx) (py q + ty)));;
    q' ← gets gtail;
    put_unchange (py q') (px q') 0;;
    mret 1%Z.

(** ** Drawing *)

Definition col : list Z :=
  [0xffffff; 0xff0000; 0x000000; 0x3f9fff; 0x3f9fff; 0x3f9fff; 0x3f9fff; 0x1f6fff]%Z.

Definition put_pixel (i c : Z) : M game unit :=
  g ← get;
  a ← deref OutOfBounds (aset (pixels g) i c);
  modify (set_pixels a).

(** [draw_rect(pixels, x, y, w, h)] of klib: the rectangle, whose parameters are
    [int]s, goes to the controller with the pixels it is to read. *)
Definition draw_rect (x y w h : Z) : M game unit :=
  modify (λ g, set_drawn (drawn g ++
    [Rect (take (Z.to_nat (i32 w * i32 h)) (pixels g)) (i32 x) (i32 y) (i32 w) (i32 h)]) g).

(** The constant [font8x8_basic]. *)
Definition font8x8_basic : list (list Z) := (
  [[0; 0; 0; 0; 0; 0; 0; 0]; [0; 0; 0; 0; 0; 0; 0; 0];
   [0; 0; 0; 0; 0; 0; 0; 0]; [0; 0; 0; 0; 0; 0; 0; 0];
   [0; 0; 0; 0; 0; 0; 0; 0]; [0; 0; 0; 0; 0; 0; 0; 0];
   [0; 0; 0; 0; 0; 0; 0; 0]; [0; 0; 0; 0; 0; 0; 0; 0];
   [0; 0; 0; 0; 0; 0; 0; 0]; [0; 0; 0; 0; 0; 0; 0; 0];
   [0; 0; 0; 0; 0; 0; 0; 0]; [0; 0; 0; 0; 0; 0; 0; 0];
   [0; 0; 0; 0; 0; 0; 0; 0]; [0; 0; 0; 0; 0; 0; 0; 0];
   [0; 0; 0; 0; 0; 0; 0; 0]; [0; 0; 0; 0; 0; 0; 0; 0];
   [0; 0; 0; 0; 0; 0; 0; 0]; [0; 0; 0; 0; 0; 0; 0; 0];
   [0; 0; 0; 0; 0; 0; 0; 0]; [0; 0; 0; 0; 0; 0; 0; 0];
   [0; 0; 0; 0; 0; 0; 0; 0]; [0; 0; 0; 0; 0; 0; 0; 0];
   [0; 0; 0; 0; 0; 0; 0; 0]; [0; 0; 0; 0; 0; 0; 0; 0];
   [0; 0; 0; 0; 0; 0; 0; 0]; [0; 0; 0; 0; 0; 0; 0; 0];
   [0; 0; 0; 0; 0; 0; 0; 0]; [0; 0; 0; 0; 0; 0; 0; 0];
   [0; 0; 0; 0; 0; 0; 0; 0]; [0; 0; 0; 0; 0; 0; 0; 0];
   [0; 0; 0; 0; 0; 0; 0; 0]; [0; 0; 0; 0; 0; 0; 0; 0];
   [0; 0; 0; 0; 0; 0; 0; 0]; [24; 60; 60; 24; 24; 0; 24; 0];
   [54; 54; 0; 0; 0; 0; 0; 0]; [54; 54; 127; 54; 127; 54; 54; 0];
   [12; 62; 3; 30; 48; 31; 12; 0]; [0; 99; 51; 24; 12; 102; 99; 0];
   [28; 54; 28; 110; 59; 51; 110; 0]; [6; 6; 3; 0; 0; 0; 0; 0];
   [24; 12; 6; 6; 6; 12; 24; 0]; [6; 12; 24; 24; 24; 12; 6; 0];
   [0; 102; 60; 255; 60; 102; 0; 0]; [0; 12; 12; 63; 12; 12; 0; 0];
   [0; 0; 0; 0; 0; 12; 12; 6]; [0; 0; 0; 63; 0; 0; 0; 0];
   [0; 0; 0; 0; 0; 12; 12; 0]; [96; 48; 24; 12; 6; 3; 1; 0];
   [62; 99; 115; 123; 111; 103; 62; 0]; [12; 14; 12; 12; 12; 12; 63; 0];
   [30; 51; 48; 28; 6; 51; 63; 0]; [30; 51; 48; 28; 48; 51; 30; 0];
   [56; 60; 54; 51; 127; 48; 120; 0]; [63; 3; 31; 48; 48; 51; 30; 0];
   [28; 6; 3; 31; 51; 51; 30; 0]; [63; 51; 48; 24; 12; 12; 12; 0];
   [30; 51; 51; 30; 51; 51; 30; 0]; [30; 51; 51; 62; 48; 24; 14; 0];
   [0; 12; 12; 0; 0; 12; 12; 0]; [0; 12; 12; 0; 0; 12; 12; 6];
   [24; 12; 6; 3; 6; 12; 24; 0]; [0; 0; 63; 0; 0; 63; 0; 0];
   [6; 12; 24; 48; 24; 12; 6; 0]; [30; 51; 48; 24; 12; 0; 12; 0];
   [62; 99; 123; 123; 123; 3; 30; 0]; [12; 30; 51; 51; 63; 51; 51; 0];
   [63; 102; 102; 62; 102; 102; 63; 0]; [60; 102; 3; 3; 3; 102; 60; 0];
   [31; 54; 102; 102; 102; 54; 31; 0]; [127; 70; 22; 30; 22; 70; 127; 0];
   [127; 70; 22; 30; 22; 6; 15; 0]; [60; 102; 3; 3; 115; 102; 124; 0];
   [51; 51; 51; 63; 51; 51; 51; 0]; [30; 12; 12; 12; 12; 12; 30; 0];
   [120; 48; 48; 48; 51; 51; 30; 0]; [103; 102; 54; 30; 54; 102; 103; 0];
   [15; 6; 6; 6; 70; 102; 127; 0]; [99; 119; 127; 127; 107; 99; 99; 0];
   [99; 103; 111; 123; 115; 99; 99; 0]; [28; 54; 99; 99; 99; 54; 28; 0];
   [63; 102; 102; 62; 6; 6; 15; 0]; [30; 51; 51; 51; 59; 30; 56; 0];
   [63; 102; 102; 62; 54; 102; 103; 0]; [30; 51; 7; 14; 56; 51; 30; 0];
   [63; 45; 12; 12; 12; 12; 30; 0]; [51; 51; 51; 51; 51; 51; 63; 0];
   [51; 51; 51; 51; 51; 30; 12; 0]; [99; 99; 99; 107; 127; 119; 99; 0];
   [99; 99; 54; 28; 28; 54; 99; 0]; [51; 51; 51; 30; 12; 12; 30; 0];
   [127; 99; 49; 24; 76; 102; 127; 0]; [30; 6; 6; 6; 6; 6; 30; 0];
   [3; 6; 12; 24; 48; 96; 64; 0]; [30; 24; 24; 24; 24; 24; 30; 0];
   [8; 28; 54; 99; 0; 0; 0; 0]; [0; 0; 0; 0; 0; 0; 0; 255];
   [12; 12; 24; 0; 0; 0; 0; 0]; [0; 0; 30; 48; 62; 51; 110; 0];
   [7; 6; 6; 62; 102; 102; 59; 0]; [0; 0; 30; 51; 3; 51; 30; 0];
   [56; 48; 48; 62; 51; 51; 110; 0]; [0; 0; 30; 51; 63; 3; 30; 0];
   [28; 54; 6; 15; 6; 6; 15; 0]; [0; 0; 110; 51; 51; 62; 48; 31];
   [7; 6; 54; 110; 102; 102; 103; 0]; [12; 0; 14; 12; 12; 12; 30; 0];
   [48; 0; 48; 48; 48; 51; 51; 30]; [7; 6; 102; 54; 30; 54; 103; 0];
   [14; 12; 12; 12; 12; 12; 30; 0]; [0; 0; 51; 127; 127; 107; 99; 0];
   [0; 0; 31; 51; 51; 51; 51; 0]; [0; 0; 30; 51; 51; 51; 30; 0];
   [0; 0; 59; 102; 102; 62; 6; 15]; [0; 0; 110; 51; 51; 62; 48; 120];
   [0; 0; 59; 110; 102; 6; 15; 0]; [0; 0; 62; 3; 30; 48; 31; 0];
   [8; 12; 62; 12; 12; 44; 24; 0]; [0; 0; 51; 51; 51; 51; 110; 0];
   [0; 0; 51; 51; 51; 30; 12; 0]; [0; 0; 99; 107; 127; 127; 54; 0];
   [0; 0; 99; 54; 28; 54; 99; 0]; [0; 0; 51; 51; 51; 62; 48; 31];
   [0; 0; 63; 25; 12; 38; 63; 0]; [56; 12; 12; 7; 12; 12; 56; 0];
   [24; 24; 24; 0; 24; 24; 24; 0]; [7; 12; 12; 56; 12; 12; 7; 0];
   [110; 59; 0; 0; 0; 0; 0; 0]; [0; 0; 0; 0; 0; 0; 0; 0]])%Z.

(** A row of a character: the columns left and [_tmp]. *)
Fixpoint print_row (todo : list Z) (bits i size tmp : Z) : M game unit :=
  match todo with
  | [] => mret tt
  | j :: todo' =>
      put_pixel (i * 8 * size + j) (if decide (Z.land bits tmp ≠ 0) then 0xffffff else 0)%Z;;
      print_row todo' bits i size (if decide (j `mod` size = 0) then u8 (Z.shiftl tmp 1) else tmp)%Z
  end.

Definition print_char (c x y size : Z) : M game unit :=
  for_range 0 (8 * size) (λ i,
    row ← deref OutOfBounds (aget font8x8_basic c);
    bits ← deref OutOfBounds (aget row (i / size));
    print_row (seqZ 0 (8 * size)) bits i size 1);;
  draw_rect x y (8 * size) (8 * size).

Definition FONT_SIZE : Z := 2.

Definition print_string (s : list Z) (x y size : Z) : M game unit :=
  for_range 0 (Z.of_nat (length s)) (λ i,
    c ← deref OutOfBounds (aget s i);
    print_char (u8 c) (u32 (x + i * 8 * size)) y size).

(** [_SIDE], the side of a cell in pixels. *)
Definition SIDE (g : game) : Z :=
  if decide (sw g / MAX_WIDTH < sh g / MAX_HEIGHT)%Z then sw g / MAX_WIDTH else sh g / MAX_HEIGHT.

Definition fill_pixels (n c : Z) : M game unit := for_range 0 n (λ i, put_pixel i c).

Definition CLEAR_SCREEN : M game unit :=
  g ← get;
  let side := SIDE g in
  if decide (side = 0)%Z then fail DivByZero
  else
    for_range 0 (sw g / side) (λ x,
      for_range 0 (sh g / side) (λ y,
        fill_pixels (u32 (side * side)) 0;;
        draw_rect (x * side) (y * side) side side)).

Definition show_welcome : M game unit :=
  CLEAR_SCREEN;;
  g ← get;
  print_string (string_bytes "WELCOME") (u32 (sw g / 2 - 96)) (u32 (sh g / 2 - 64)) 4;;
  print_string (string_bytes "SNAKE") (u32 (sw g / 2 - 64)) (u32 (sh g / 2 - 32)) 4.

Definition show_gameover : M game unit :=
  CLEAR_SCREEN;;
  g ← get;
  print_string (string_bytes "GAME OVER") (u32 (sw g / 2 - 128)) (u32 (sh g / 2 - 32)) 4.

(** [str]: the label above the score. *)
Definition str : string := " SCORE".

(** The body of [show]'s loops: the cell in column [x] and row [y]. *)
Definition show_cell (side x y : Z) : M game unit :=
  u ← get_unchange y x;
  if decide (u ≠ 0)%Z then mret tt
  else
    put_unchange y x 1;;
    for_range 0 (u32 (side * side)) (λ i,
      c ← get_cell y x;
      k ← deref OutOfBounds (aget col c);
      put_pixel i k);;
    draw_rect (x * side) (y * side) side side.

Definition show_head (side : Z) : M game unit :=
  k ← deref OutOfBounds (aget col 7);
  fill_pixels (u32 (side * side)) k;;
  p ← gets ghead;
  draw_rect (px p * side) (py p * side) side side.

Definition show_score (side : Z) : M game unit :=
  n ← gets score;
  num ← (λ g, match sprintf " %05d" [VLong n] with Ret t => Ret (t, g) | Err f => Err f end);
  print_string (string_bytes str) ((MAX_WIDTH + 2) * side) (8 * FONT_SIZE * 2) FONT_SIZE;;
  print_string (string_bytes num) ((MAX_WIDTH + 2) * side) (8 * FONT_SIZE * 3) FONT_SIZE.

Definition show : M game unit :=
  side ← gets SIDE;
  for_range 0 MAX_WIDTH (λ x, for_range 0 MAX_HEIGHT (λ y, show_cell side x y));;
  show_head side;;
  show_score side.

(** ** A step of the game *)

(** What [_io_read] leaves in [event]. *)
Record kbd := Kbd { keydown : bool; keycode : Z }.
Definition KEY_NONE : Z := 0.

(** [if (_head != back) _head = fwd;] *)
Definition turn (back fwd : Z) : M game unit :=
  c ← get_head;
  if decide (c ≠ back) then put_head fwd else mret tt.

(** The switch on the key; [false] when it ends the game. *)
Definition step_key (event : kbd) : M game bool :=
  if decide (keycode event ≠ KEY_NONE ∧ keydown event = true) then
    if decide (keycode event = KEY "W") then turn bodyd bodyu;; mret true
    else if decide (keycode event = KEY "D") then turn bodyl bodyr;; mret true
    else if decide (keycode event = KEY "S") then turn bodyu bodyd;; mret true
    else if decide (keycode event = KEY "A") then turn bodyr bodyl;; mret true
    else if decide (keycode event = KEY "Q") then mret false
    else mret true
  else mret true.

Definition step_game (event : kbd) : M game Z :=
  go ← step_key event;
  if (go : bool) then
    ret ← step_game_do;
    show;;
    mret ret
  else mret 0%Z.

(** The loop of [main] over the events that its steps read. *)
Fixpoint game_loop (events : list kbd) : M game unit :=
  match events with
  | [] => mret tt
  | e :: events' =>
      r ← step_game e;
      if decide (r = 0)%Z then mret tt else game_loop events'
  end.

(** [main] up to its loop; the waits of [setTimeout] leave nothing behind. *)
Definition start_game : M game unit :=
  init_game;;
  show_welcome;;
  CLEAR_SCREEN.

Definition main (events : list kbd) : M game unit :=
  start_game;;
  game_loop events;;
  show_gameover.

(** The static arrays before [main], on a screen of [w] x [h] pixels. *)
Definition boot_game (w h : Z) : game :=
  Game (replicate 1600 0%Z) (replicate 1600 0%Z) 0 (Pnt 0 0) (Pnt 0 0) 0
       (replicate 2048 0%Z) 1 w h [].
