(* ===== verification/SnakeProps.v ===== *)
(** * The snake: its rules, and that the program plays by them

    The rules are [splay]: a body that is a path of cells, the food, the points.
    [snake_plays] shows that the program follows them for every sequence of key
    events, that the screen shows the board after every step, and that the one
    way to fail is eating the last apple that the board has room for. *)
From S2P Require Import Prelude KStdio KString Input Snake.

(** ** The rules *)

Inductive dir := Up | Right | Down | Left.
#[export] Instance dir_eq_dec : EqDecision dir.
Proof. solve_decision. Defined.

Definition dcode (d : dir) : Z :=
  match d with Up => bodyu | Right => bodyr | Down => bodyd | Left => bodyl end.
Definition opposite (d : dir) : dir :=
  match d with Up => Down | Right => Left | Down => Up | Left => Right end.

(** A position is its row and its column. *)
Notation pos := (Z * Z)%type.
Definition move (p : pos) (d : dir) : pos :=
  match d with
  | Up => (p.1 - 1, p.2) | Right => (p.1, p.2 + 1)
  | Down => (p.1 + 1, p.2) | Left => (p.1, p.2 - 1)
  end%Z.

Definition in_range (p : pos) : Prop := (0 ≤ p.1 < MAX_HEIGHT ∧ 0 ≤ p.2 < MAX_WIDTH)%Z.
Definition is_wall (p : pos) : Prop :=
  (p.1 = 0 ∨ p.1 = MAX_HEIGHT - 1 ∨ p.2 = 0 ∨ p.2 = MAX_WIDTH - 1)%Z.
#[export] Instance is_wall_dec p : Decision (is_wall p).
Proof. unfold is_wall. apply _. Defined.

#[export] Instance in_range_dec p : Decision (in_range p).
Proof. unfold in_range. apply _. Defined.

(** The body has its head first; each cell points to the one before it. *)
Record snake := SnakeState {
  body : list (pos * dir);
  food : option pos;
  points : Z;
  seed : Z;
}.

Fixpoint dir_of (b : list (pos * dir)) (p : pos) : option dir :=
  match b with
  | [] => None
  | (q, d) :: b' => if decide (p = q) then Some d else dir_of b' p
  end.

Definition board (a : snake) (p : pos) : Z :=
  if decide (is_wall p) then wall
  else match dir_of (body a) p with
       | Some d => dcode d
       | None => if decide (food a = Some p) then apple else empty_ele
       end.

(** The cells where food can appear, row by row. *)
Definition free_of (f : pos → Z) : list pos := filter (λ p, f p = empty_ele) cells.

(** The generator: its next state, and the place it chooses. *)
Definition roll (s : Z) : Z := u32 (s * 1103515245 + 12345).
Definition pick (s : Z) (l : list pos) : option pos :=
  l !! Z.to_nat ((s / 65536) `mod` 32768 `mod` Z.of_nat (length l)).

Inductive status := Playing | Over | Full.
#[export] Instance status_eq_dec : EqDecision status.
Proof. solve_decision. Defined.

Definition sstep (a : snake) : status * snake :=
  match body a with
  | [] => (Over, a)
  | (p, d) :: _ =>
      let n := move p d in
      if decide (is_wall n ∨ n ∈ (body a).*1) then (Over, a)
      else if decide (food a = Some n) then
        if decide (free_of (board a) = []) then (Full, a)
        else (Playing, SnakeState ((n, d) :: body a) (pick (roll (seed a)) (free_of (board a)))
                         (points a + 1) (roll (seed a)))
      else (Playing, SnakeState ((n, d) :: removelast (body a)) (food a) (points a) (seed a))
  end.

(** A key turns the head unless it points back. *)
Definition key_dir (k : kbd) : option dir :=
  if decide (keydown k = true) then
    if decide (keycode k = KEY "W") then Some Up
    else if decide (keycode k = KEY "D") then Some Right
    else if decide (keycode k = KEY "S") then Some Down
    else if decide (keycode k = KEY "A") then Some Left
    else None
  else None.
Definition quits (k : kbd) : Prop := keydown k = true ∧ keycode k = KEY "Q".
#[export] Instance quits_dec k : Decision (quits k).
Proof. unfold quits. apply _. Defined.

Definition set_body b a := SnakeState b (food a) (points a) (seed a).
Definition steer (k : kbd) (a : snake) : snake :=
  match key_dir k, body a with
  | Some d, (p, e) :: b => if decide (e = opposite d) then a else set_body ((p, d) :: b) a
  | _, _ => a
  end.

Fixpoint splay (ks : list kbd) (a : snake) : status * snake :=
  match ks with
  | [] => (Playing, a)
  | k :: ks' =>
      if decide (quits k) then (Over, a)
      else match sstep (steer k a) with
           | (Playing, a') => splay ks' a'
           | o => o
           end
  end.

(** The beginning: two cells in the middle, then the first food. *)
Definition hatch : snake :=
  SnakeState [((20, 20), Right); ((20, 19), Right)]%Z None 0 1.
Definition start : snake :=
  SnakeState (body hatch) (pick (roll 1) (free_of (board hatch))) 0 (roll 1).

(** ** What holds of every snake reached *)

Fixpoint linked (b : list (pos * dir)) : Prop :=
  match b with
  | (p, _) :: (((q, e) :: _) as b') => p = move q e ∧ linked b'
  | _ => True
  end.

Record snake_wf (a : snake) : Prop := {
  wf_len : 2 ≤ length (body a);
  wf_nodup : NoDup (body a).*1;
  wf_inner : Forall (λ p, in_range p ∧ ¬ is_wall p) (body a).*1;
  wf_linked : linked (body a);
  wf_food : ∀ p, food a = Some p → p ∉ (body a).*1 ∧ in_range p ∧ ¬ is_wall p;
  wf_points : points a = (Z.of_nat (length (body a)) - 2)%Z;
}.

(** ** The cells and the arrays over them *)

Definition upd (f : pos → Z) (p : pos) (v : Z) : pos → Z := λ q, if decide (q = p) then v else f q.

Lemma upd_eq f p v : upd f p v p = v.
Proof. unfold upd. by rewrite decide_True. Qed.
Lemma upd_ne f p v q : q ≠ p → upd f p v q = f q.
Proof. intros. unfold upd. by rewrite decide_False. Qed.

Lemma cells_lookup k p :
  cells !! k = Some p ↔ in_range p ∧ Z.of_nat k = (p.1 * MAX_WIDTH + p.2)%Z.
Proof.
  unfold cells, in_range, MAX_WIDTH, MAX_HEIGHT.
  rewrite list_lookup_fmap, fmap_Some. split.
  - intros (z & [-> ?]%lookup_seqZ & ->). cbn [fst snd].
    pose proof (Z.div_mod (0 + Z.of_nat k) 40). pose proof (Z.mod_pos_bound (0 + Z.of_nat k) 40).
    lia.
  - destruct p as [i j]; cbn [fst snd]. intros (Hr & Hk). exists (Z.of_nat k).
    split; [apply lookup_seqZ; lia|]. f_equal.
    + apply (Z.div_unique _ _ _ j); lia.
    + apply (Z.mod_unique _ _ i); lia.
Qed.

Lemma cells_length : length cells = 1600.
Proof. unfold cells. rewrite length_fmap, length_seqZ. done. Qed.

#[local] Opaque cells.

Lemma elem_of_cells p : p ∈ cells ↔ in_range p.
Proof.
  rewrite list_elem_of_lookup. split.
  - by intros (k & [? _]%cells_lookup).
  - intros Hp. exists (Z.to_nat (p.1 * MAX_WIDTH + p.2)). apply cells_lookup.
    split; [done|]. unfold in_range, MAX_WIDTH in *. lia.
Qed.

Lemma cells_inj k1 k2 p : cells !! k1 = Some p → cells !! k2 = Some p → k1 = k2.
Proof. intros [_ H1]%cells_lookup [_ H2]%cells_lookup. lia. Qed.

Lemma NoDup_cells : NoDup cells.
Proof. apply NoDup_alt. eauto using cells_inj. Qed.

Lemma cell_index_spec p :
  in_range p → ∃ k, cell_index p.1 p.2 = Some (Z.of_nat k) ∧ cells !! k = Some p.
Proof.
  intros Hp. exists (Z.to_nat (p.1 * MAX_WIDTH + p.2)).
  assert (0 ≤ p.1 * MAX_WIDTH + p.2)%Z by (unfold in_range, MAX_WIDTH in *; lia).
  unfold cell_index. rewrite decide_True by done. rewrite Z2Nat.id by done.
  split; [done|]. apply cells_lookup. split; [done|lia].
Qed.

Lemma aget_cells (f : pos → Z) i j :
  in_range (i, j) → (k ← cell_index i j; aget (f <$> cells) k) = Some (f (i, j)).
Proof.
  intros (k & Hk' & Hk)%cell_index_spec. cbn [fst snd] in Hk'. rewrite Hk'. simpl. unfold aget.
  rewrite decide_True, Nat2Z.id, list_lookup_fmap, Hk by lia. done.
Qed.

Lemma aset_cells (f : pos → Z) i j v :
  in_range (i, j) → (k ← cell_index i j; aset (f <$> cells) k v) = Some (upd f (i, j) v <$> cells).
Proof.
  intros (k & Hk' & Hk)%cell_index_spec. cbn [fst snd] in Hk'. rewrite Hk'. simpl. unfold aset.
  pose proof (lookup_lt_Some _ _ _ Hk).
  rewrite decide_True, Nat2Z.id by (rewrite length_fmap; lia). f_equal.
  apply list_eq. intros i0. rewrite list_lookup_fmap.
  destruct (decide (i0 = k)) as [->|Hne].
  - rewrite list_lookup_insert_eq by (rewrite length_fmap; lia).
    rewrite Hk. simpl. by rewrite upd_eq.
  - rewrite list_lookup_insert_ne, list_lookup_fmap by done.
    destruct (cells !! i0) as [q|] eqn:Hq; [|done]. simpl. f_equal.
    symmetry. apply upd_ne. intros ->. apply Hne. by apply (cells_inj _ _ (i, j)).
Qed.

Lemma cells_ext (f g : pos → Z) :
  (∀ p, in_range p → f p = g p) → f <$> cells = g <$> cells.
Proof. intros H. apply list_fmap_ext. intros i p Hp%list_elem_of_lookup_2. by apply H, elem_of_cells. Qed.

Section access.
Implicit Types (f u : pos → Z) (g : game).

Lemma get_cell_run f i j g :
  snake_map g = f <$> cells → in_range (i, j) → get_cell i j g = Ret (f (i, j), g).
Proof.
  intros Hm Hr. unfold get_cell. erewrite bind_run by done. rewrite Hm.
  by rewrite (aget_cells f i j Hr).
Qed.

Lemma wp_get_cell f i j g Q :
  snake_map g = f <$> cells → in_range (i, j) → Q (f (i, j)) g → wp (get_cell i j) Q g.
Proof. intros Hm Hr HQ. unfold wp. by rewrite (get_cell_run f). Qed.

Lemma wp_put_cell f i j v g Q :
  snake_map g = f <$> cells → in_range (i, j) →
  Q tt (set_map (upd f (i, j) v <$> cells) g) → wp (put_cell i j v) Q g.
Proof.
  intros Hm Hr HQ. unfold put_cell. wp_step. wp_step. wp_step. rewrite Hm.
  apply (wp_deref _ _ _ _ _ (aset_cells f i j v Hr)). by wp_step.
Qed.

Lemma wp_get_unchange u i j g Q :
  unchange g = u <$> cells → in_range (i, j) → Q (u (i, j)) g → wp (get_unchange i j) Q g.
Proof.
  intros Hm Hr HQ. unfold get_unchange. wp_step. wp_step. rewrite Hm.
  by apply (wp_deref _ _ _ _ _ (aget_cells u i j Hr)).
Qed.

Lemma wp_put_unchange u i j v g Q :
  unchange g = u <$> cells → in_range (i, j) →
  Q tt (set_unchange (upd u (i, j) v <$> cells) g) → wp (put_unchange i j v) Q g.
Proof.
  intros Hm Hr HQ. unfold put_unchange. wp_step. wp_step. wp_step. rewrite Hm.
  apply (wp_deref _ _ _ _ _ (aset_cells u i j v Hr)). by wp_step.
Qed.
End access.

(** ** Counting the empty cells *)

Definition count (l : list pos) (f : pos → Z) : Z := Z.of_nat (length (filter (λ p, f p = empty_ele) l)).
Definition one_if (v : Z) : Z := if decide (v = empty_ele) then 1 else 0.

Lemma count_cons p l f : count (p :: l) f = (one_if (f p) + count l f)%Z.
Proof. unfold count, one_if. rewrite filter_cons. case_decide; simpl; lia. Qed.

Lemma count_same l (f g : pos → Z) : (∀ p, p ∈ l → f p = g p) → count l f = count l g.
Proof.
  induction l as [|p l IH]; intros H; [done|]. rewrite !count_cons, (H p), IH by set_solver. done.
Qed.

Lemma count_upd l f p v :
  NoDup l → p ∈ l → count l (upd f p v) = (count l f - one_if (f p) + one_if v)%Z.
Proof.
  induction 1 as [|q l Hq Hnd IH]; [by intros ?%not_elem_of_nil|].
  rewrite !count_cons. intros [->|Hp]%elem_of_cons.
  - rewrite upd_eq, (count_same l _ f); [lia|]. intros r Hr. apply upd_ne. by intros ->.
  - rewrite (upd_ne f p v q), IH by (done || (intros ->; done)). lia.
Qed.

Lemma count_le l f : (0 ≤ count l f ≤ Z.of_nat (length l))%Z.
Proof. unfold count. pose proof (length_filter (λ p, f p = empty_ele) l). lia. Qed.

Lemma count_free f : count cells f = Z.of_nat (length (free_of f)).
Proof. done. Qed.

(** ** Placing the food *)

Lemma wp_gen_scan f u todo index p g (Q : unit → game → Prop) :
  snake_map g = f <$> cells → unchange g = u <$> cells → Forall in_range todo →
  (1 ≤ index < 2 ^ 32)%Z → filter (λ p, f p = empty_ele) todo !! Z.to_nat (index - 1) = Some p →
  Q tt (set_empty_cnt (u32 (empty_cnt g - 1))
         (set_unchange (upd u p 0 <$> cells) (set_map (upd f p apple <$> cells) g))) →
  wp (gen_scan todo index) Q g.
Proof.
  intros Hm Hu Hall. revert index. induction Hall as [|[i j] todo Hr Hall IH]; intros index Hi Hp HQ; [done|].
  cbn [gen_scan]. wp_step. apply (wp_get_cell f); [done|done|]. cbn zeta.
  rewrite filter_cons in Hp. destruct (decide (f (i, j) = empty_ele)) as [He|He].
  - rewrite u32_small by lia. destruct (decide (index - 1 = 0)%Z) as [Hz|Hz].
    + rewrite Hz in Hp. simplify_eq/=.
      wp_step. apply (wp_put_cell f); [done|done|].
      wp_step. apply (wp_put_unchange u); [done|done|]. by wp_step.
    + apply IH; [lia| |done]. rewrite <-Hp, lookup_cons_ne_0 by lia. f_equal. lia.
  - rewrite decide_False by lia. by apply IH.
Qed.

Lemma pick_Some s l : l ≠ [] → ∃ p, pick s l = Some p.
Proof.
  intros Hl. apply lookup_lt_is_Some_2. destruct l as [|q l]; [done|]. cbn [length].
  pose proof (Z.mod_pos_bound ((s / 65536) `mod` 32768) (Z.of_nat (S (length l)))). lia.
Qed.

Lemma pick_elem s l p : pick s l = Some p → p ∈ l.
Proof. apply list_elem_of_lookup_2. Qed.

Lemma elem_of_free f p : p ∈ free_of f ↔ f p = empty_ele ∧ in_range p.
Proof. unfold free_of. by rewrite list_elem_of_filter, elem_of_cells. Qed.

Lemma g_rand_run g :
  g_rand g = Ret ((roll (rand_next g) / 65536) `mod` 32768, set_rand (roll (rand_next g)) g)%Z.
Proof.
  unfold g_rand, zoom, rand. erewrite bind_run by done. erewrite bind_run by done.
  unfold mret, M_ret. fold (roll (rand_next g)). repeat f_equal.
  pose proof (u32_range (rand_next g * 1103515245 + 12345)). fold (roll (rand_next g)) in *.
  apply Z.rem_mod_nonneg; [|done]. apply Z.div_pos; lia.
Qed.

Lemma wp_gen_apple f u p g (Q : unit → game → Prop) :
  snake_map g = f <$> cells → unchange g = u <$> cells → empty_cnt g = count cells f →
  pick (roll (rand_next g)) (free_of f) = Some p →
  Q tt (set_empty_cnt (count cells f - 1)
         (set_unchange (upd u p 0 <$> cells) (set_map (upd f p apple <$> cells)
           (set_rand (roll (rand_next g)) g)))) →
  wp gen_apple Q g.
Proof.
  intros Hm Hu Hc Hp HQ. unfold gen_apple. wp_step.
  eapply wp_run. eexists _, _. split; [apply g_rand_run|]. wp_step. wp_step.
  change (empty_cnt (set_rand _ g)) with (empty_cnt g). rewrite Hc.
  pose proof (count_le cells f) as Hle. rewrite cells_length in Hle.
  assert (Hpos : (0 < count cells f)%Z).
  { rewrite count_free. apply lookup_lt_Some in Hp. lia. }
  rewrite decide_False by lia.
  pose proof (Z.mod_pos_bound (roll (rand_next g) / 65536) 32768) as Hr.
  pose proof (Z.mod_pos_bound ((roll (rand_next g) / 65536) `mod` 32768) (count cells f)) as Hk.
  rewrite !u32_small by (rewrite ?u32_small; lia).
  eapply (wp_gen_scan f u _ _ p); [exact Hm|exact Hu| |lia| |].
  - apply Forall_forall. intros q. by rewrite elem_of_cells.
  - unfold pick in Hp. rewrite <-count_free in Hp. unfold free_of in Hp. by rewrite Z.add_simpl_r.
  - change (empty_cnt (set_rand _ g)) with (empty_cnt g). rewrite Hc, u32_small by lia. done.
Qed.

Lemma gen_apple_full f g :
  empty_cnt g = count cells f → free_of f = [] → gen_apple g = Err DivByZero.
Proof.
  intros Hc Hf. unfold gen_apple. erewrite bind_run by apply g_rand_run. erewrite bind_run by done.
  change (empty_cnt (set_rand _ g)) with (empty_cnt g). rewrite Hc, count_free, Hf. done.
Qed.

(** ** The board of a body *)

Lemma dir_of_None b p : dir_of b p = None ↔ p ∉ b.*1.
Proof.
  induction b as [|[q d] b IH]; simpl; [split; [intros _; apply not_elem_of_nil|done]|].
  rewrite not_elem_of_cons. case_decide; [|rewrite IH]; naive_solver.
Qed.

Lemma dir_of_app b t d p :
  p ≠ t → dir_of (b ++ [(t, d)]) p = dir_of b p.
Proof. intros Hne. induction b as [|[q e] b IH]; simpl; case_decide; done. Qed.

Lemma dir_of_last b t d : t ∉ b.*1 → dir_of (b ++ [(t, d)]) t = Some d.
Proof.
  induction b as [|[q e] b IH]; simpl; [by rewrite decide_True|].
  intros [? ?]%not_elem_of_cons. rewrite decide_False by done. auto.
Qed.

Lemma board_body a p d : snake_wf a → dir_of (body a) p = Some d → board a p = dcode d ∧ in_range p.
Proof.
  intros Hwf Hd. assert (Hp : p ∈ (body a).*1).
  { destruct (decide (p ∈ (body a).*1)) as [|Hn]; [done|]. apply dir_of_None in Hn. congruence. }
  pose proof (proj1 (Forall_forall _ _) (wf_inner _ Hwf) _ Hp) as [? ?].
  unfold board. by rewrite decide_False, Hd.
Qed.

(** A body of at least two cells has a head, and a tail that is another cell. *)
Lemma body_ends a :
  snake_wf a → ∃ p d b t e,
  body a = (p, d) :: b ++ [(t, e)] ∧ p ≠ t ∧ p ∉ b.*1 ∧ t ∉ b.*1.
Proof.
  intros [Hlen Hnd _ _ _ _]. destruct (body a) as [|[p d] b']; [simpl in Hlen; lia|].
  destruct b' as [|x b' _] using rev_ind; [simpl in Hlen; lia|]. destruct x as [t e].
  exists p, d, b', t, e. split; [done|]. rewrite fmap_cons, fmap_app in Hnd.
  apply NoDup_cons in Hnd as [Hp Hnd]. apply NoDup_app in Hnd as (_ & Hd & _). set_solver.
Qed.

Definition head_pos (a : snake) : pos := match body a with (p, _) :: _ => p | [] => (0, 0)%Z end.
Definition tail_pos (a : snake) : pos := match last (body a) with Some (t, _) => t | None => (0, 0)%Z end.

Lemma last_body (x y : pos * dir) b : last (x :: b ++ [y]) = Some y.
Proof. by rewrite app_comm_cons, last_snoc. Qed.

Lemma elem_of_fst_app (x : pos * dir) b n (e : dir) : n ∈ (x :: b ++ [(n, e)]).*1.
Proof. rewrite fmap_cons, fmap_app. right. apply elem_of_app. right. by left. Qed.

Lemma board_grow a n d q fd pts sd p :
  ¬ is_wall n → food a = Some n → fd = Some q → board a q = empty_ele →
  board (SnakeState ((n, d) :: body a) fd pts sd) p = upd (upd (board a) q apple) n (dcode d) p.
Proof.
  intros Hn Hfood -> Hq. unfold upd. case_decide as H1; [subst p|].
  { unfold board. rewrite decide_False by done. simpl. by rewrite decide_True. }
  case_decide as H2.
  - subst p. unfold board in *. case_decide; [done|]. simpl. rewrite decide_False by done.
    destruct (dir_of (body a) q) as [[]|]; [done..|]. by rewrite decide_True.
  - unfold board. simpl. rewrite (decide_False (P := p = n)) by done. case_decide; [done|].
    destruct (dir_of (body a) p); [done|]. rewrite !decide_False by congruence. done.
Qed.

Lemma board_move a h d b t e n c fd pts sd p :
  body a = (h, d) :: b ++ [(t, e)] → h ≠ t → t ∉ b.*1 → ¬ is_wall n → ¬ is_wall t →
  n ∉ (body a).*1 → fd = food a → fd ≠ Some t → 
  board (SnakeState ((n, c) :: (h, d) :: b) fd pts sd) p
  = upd (upd (board a) n (dcode c)) t empty_ele p.
Proof.
  intros Hb Hht Htb Hn Ht Hnb -> Hft. unfold upd. case_decide as H1; [subst p|].
  { unfold board. rewrite decide_False by done. cbn [body dir_of].
    assert (t ≠ n).
    { intros ->. apply Hnb. rewrite Hb. apply elem_of_fst_app. }
    rewrite !decide_False by congruence. rewrite (proj2 (dir_of_None b t)) by done.
    by rewrite decide_False. }
  case_decide as H2; [subst p|]; unfold board; cbn [body dir_of food].
  { by rewrite decide_False, decide_True by done. }
  rewrite (decide_False (P := p = n)) by done. case_decide; [done|]. rewrite Hb. simpl.
  case_decide; [done|]. by rewrite dir_of_app.
Qed.

(** ** The rules keep what holds of a snake *)

Lemma linked_tail x b : linked (x :: b) → linked b.
Proof. destruct x, b as [|[q e] b]; [done|]. by intros [_ ?]. Qed.

Lemma linked_removelast b : linked b → linked (removelast b).
Proof.
  induction b as [|[p d] b IH]; [done|]. destruct b as [|[q e] b]; [done|]. intros [Hp Hl].
  specialize (IH Hl). destruct b as [|[r f] b]; [done|]. by split.
Qed.

Lemma linked_last b q e t f : linked (b ++ [(q, e); (t, f)]) → q = move t f.
Proof. induction b as [|x b IH]; [by intros [? _]|]. intros ?%linked_tail. auto. Qed.

Lemma removelast_body (x y : pos * dir) b : removelast (x :: b ++ [y]) = x :: b.
Proof. by rewrite app_comm_cons, removelast_last. Qed.

Lemma move_inner p d : in_range p → ¬ is_wall p → in_range (move p d).
Proof. unfold in_range, is_wall, MAX_WIDTH, MAX_HEIGHT. destruct d; simpl; lia. Qed.

Lemma steer_fst k a : (body (steer k a)).*1 = (body a).*1 ∧ food (steer k a) = food a
  ∧ points (steer k a) = points a ∧ seed (steer k a) = seed a.
Proof.
  unfold steer. destruct (key_dir k); [|done]. destruct (body a) as [|[p e] b] eqn:Hb; [by rewrite Hb|].
  case_decide; by rewrite ?Hb.
Qed.

Lemma steer_wf k a : snake_wf a → snake_wf (steer k a).
Proof.
  intros Hwf. destruct (steer_fst k a) as (Hb & Hf & Hp & Hs).
  pose proof (f_equal length Hb) as Hlen. rewrite !length_fmap in Hlen.
  destruct Hwf as [Hl Hnd Hin Hli Hfo Hpt].
  split; rewrite ?Hb, ?Hf, ?Hp, ?Hlen; try done.
  clear -Hli. unfold steer. destruct (key_dir k); [|done]. destruct (body a) as [|[p e] b] eqn:Hb; [by rewrite Hb|].
  case_decide; [by rewrite Hb|]. by destruct b as [|[q f] b].
Qed.

Lemma sstep_wf a a' : snake_wf a → sstep a = (Playing, a') → snake_wf a'.
Proof.
  intros Hwf. destruct (body_ends a Hwf) as (p & d & b & t & e & Hb & Hpt & Hpb & Htb).
  unfold sstep. rewrite Hb. case_decide as Hn; [done|]. apply Decidable.not_or in Hn as [Hw Hnb].
  pose proof (wf_inner _ Hwf) as Hin. pose proof (wf_nodup _ Hwf) as Hnd. pose proof (wf_linked _ Hwf) as Hli.
  pose proof (wf_points _ Hwf) as Hpo.
  assert (Hr : in_range (move p d)).
  { rewrite Forall_forall in Hin. destruct (Hin p); [rewrite Hb; by left|]. by apply move_inner. }
  case_decide as Hfo.
  - case_decide as Hfr; [done|]. intros [= <-].
    destruct (pick_Some (roll (seed a)) _ Hfr) as [q Hq]. pose proof (pick_elem _ _ _ Hq) as [He Hqr]%elem_of_free.
    split; cbn [body food points length]; rewrite <-?Hb, ?Hq; cbn [fmap list_fmap fst].
    + lia.
    + constructor; [by rewrite Hb|done].
    + by constructor.
    + rewrite Hb in *. by split.
    + intros r [= <-]. unfold board in He. case_decide; [done|].
      destruct (dir_of (body a) q) as [[]|] eqn:Hd; [discriminate He..|]. apply dir_of_None in Hd.
      split; [|done]. apply not_elem_of_cons. split; [|done]. intros ->.
      rewrite decide_True in He by done. discriminate He.
    + rewrite Hpo, Hb. cbn [length]. lia.
  - rewrite removelast_body. intros [= <-].
    rewrite Hb, app_comm_cons, fmap_app in Hnd, Hin. rewrite app_comm_cons, fmap_app in Hnb. apply NoDup_app in Hnd as (Hnd & _ & _).
    apply Forall_app in Hin as [Hin _].
    assert (Hnb' : move p d ∉ ((p, d) :: b).*1) by (intros Hx; apply Hnb, elem_of_app; by left).
    split; cbn [body food points].
    + simpl; lia.
    + rewrite fmap_cons. apply NoDup_cons. split; [exact Hnb'|exact Hnd].
    + rewrite fmap_cons. constructor; [by split|exact Hin].
    + rewrite Hb, app_comm_cons in Hli. apply linked_removelast in Hli. rewrite removelast_last in Hli. by split.
    + intros r Hr'. destruct (wf_food _ Hwf r Hr') as (Hrb & Hrr). split; [|done].
      rewrite fmap_cons. apply not_elem_of_cons. split; [by intros ->|].
      intros Hx. apply Hrb. rewrite Hb, app_comm_cons, fmap_app. apply elem_of_app. by left.
    + rewrite Hpo, Hb. cbn [length]. rewrite length_app. simpl. lia.
Qed.

(** ** The program's state represents a snake *)

Definition pnt_of (p : pos) : pnt := Pnt p.2 p.1.

Record game_rel (a : snake) (u : pos → Z) (g : game) : Prop := {
  gr_map : snake_map g = board a <$> cells;
  gr_unchange : unchange g = u <$> cells;
  gr_count : empty_cnt g = count cells (board a);
  gr_head : ghead g = pnt_of (head_pos a);
  gr_tail : gtail g = pnt_of (tail_pos a);
  gr_score : score g = points a;
  gr_seed : rand_next g = seed a;
  gr_pixels : length (pixels g) = 2048;
}.

Definition same_screen (g g' : game) : Prop := drawn g' = drawn g ∧ sw g' = sw g ∧ sh g' = sh g.

(** What the screen should show of a cell. *)
Definition colour (c : Z) : Z := default 0%Z (aget col c).
Definition picture (a : snake) (p : pos) : Z :=
  if decide (p = head_pos a) then colour 7 else colour (board a p).

(** The marks left by a step are right: a cell still marked looks the same. *)
Definition marks_kept (a a' : snake) (u u' : pos → Z) : Prop :=
  ∀ p, in_range p → u' p ≠ 0%Z → u p ≠ 0%Z ∧ picture a' p = picture a p.

Lemma wp_get_head f g p (Q : Z → game → Prop) :
  snake_map g = f <$> cells → ghead g = pnt_of p → in_range p → Q (f p) g → wp get_head Q g.
Proof.
  intros Hm Hh Hr HQ. unfold get_head. wp_step. wp_step. rewrite Hh. destruct p as [i j].
  by apply (wp_get_cell f).
Qed.

Lemma dcode_inj d e : dcode d = dcode e ↔ d = e.
Proof. split; [|by intros ->]. by destruct d, e. Qed.

Lemma one_if_dcode d : one_if (dcode d) = 0%Z.
Proof. by destruct d. Qed.

Lemma head_facts a : snake_wf a → ∃ p d b,
  body a = (p, d) :: b ∧ head_pos a = p ∧ in_range p ∧ ¬ is_wall p ∧ board a p = dcode d.
Proof.
  intros Hwf. destruct (body_ends a Hwf) as (p & d & b & t & e & Hb & _).
  exists p, d, (b ++ [(t, e)]). split; [done|].
  pose proof (wf_inner _ Hwf) as Hin. rewrite Hb in Hin. apply Forall_cons in Hin as [[? ?] _].
  unfold head_pos. rewrite Hb. split; [done|]. split; [done|]. split; [done|].
  apply board_body; [done|]. rewrite Hb. simpl. by rewrite decide_True.
Qed.

(** Turning the head changes what its cell holds and nothing else. *)
Lemma board_turn a p d e b :
  body a = (p, e) :: b → ¬ is_wall p → ∀ q, board (set_body ((p, d) :: b) a) q = upd (board a) p (dcode d) q.
Proof.
  intros Hb Hw q. unfold upd, board. cbn [body set_body dir_of food]. rewrite Hb. simpl.
  destruct (decide (q = p)) as [->|]; [by rewrite decide_False|done].
Qed.

Lemma turn_rel a u g d :
  snake_wf a → game_rel a u g →
  wp (turn (dcode (opposite d)) (dcode d)) (λ _ g',
    game_rel (match body a with (p, e) :: b => if decide (e = opposite d) then a else set_body ((p, d) :: b) a
              | [] => a end) u g' ∧ same_screen g g') g.
Proof.
  intros Hwf Hrel. destruct (head_facts a Hwf) as (p & e & b & Hb & Hp & Hr & Hw & Hc).
  destruct Hrel as [Hm Hu He Hh Ht Hs Hse Hpx]. rewrite Hp in Hh. rewrite Hb.
  unfold turn. wp_step. apply (wp_get_head (board a) _ p); [done..|]. rewrite Hc.
  destruct (decide (e = opposite d)) as [->|Hne].
  - rewrite decide_False by (intros Hn; by apply Hn). wp_step. split; [|done]. split; try done. by rewrite Hp.
  - rewrite decide_True by (by rewrite dcode_inj). unfold put_head. wp_step. wp_step. rewrite Hh.
    destruct p as [i j]. apply (wp_put_cell (board a)); [done|done|]. split; [|done].
    assert (Hbd : board (set_body ((i, j, d) :: b) a) <$> cells = upd (board a) (i, j) (dcode d) <$> cells).
    { apply cells_ext. intros q _. by apply (board_turn _ _ _ e). }
    assert (Htl : tail_pos (set_body ((i, j, d) :: b) a) = tail_pos a).
    { unfold tail_pos. rewrite Hb. cbn [body set_body].
      destruct b as [|x b]; [done|]. by rewrite !last_cons_cons. }
    split; [by symmetry|exact Hu| |exact Hh|by rewrite Htl|exact Hs|exact Hse|exact Hpx].
    change (empty_cnt (set_map _ g)) with (empty_cnt g). rewrite He.
    rewrite (count_same cells (board (set_body _ a)) (upd (board a) (i, j) (dcode d)))
      by (intros q _; by apply (board_turn _ _ _ e)).
    rewrite count_upd; [|apply NoDup_cells|by apply elem_of_cells]. rewrite Hc, !one_if_dcode. lia.
Qed.

(** A key that turns the head: what is left after its branch. *)
Local Ltac turned a u g d :=
  rewrite (decide_False (P := true = true ∧ _)) by (by intros [_ ?]);
  wp_step; eapply wp_mono; [by apply (turn_rel a u g d)|]; intros [] ? [? ?]; wp_step;
  rewrite bool_decide_true by (by intros [_ ?]); done.

Lemma step_key_spec a u g k :
  snake_wf a → game_rel a u g →
  wp (step_key k) (λ r g', r = bool_decide (¬ quits k) ∧
    game_rel (if decide (quits k) then a else steer k a) u g' ∧ same_screen g g') g.
Proof.
  intros Hwf Hrel. destruct k as [[] code]; unfold step_key, steer, key_dir, quits; cbn [keydown keycode].
  2: { rewrite (decide_False (P := _ ∧ false = true)) by (by intros [_ ?]).
    rewrite !(decide_False (P := false = true)), (decide_False (P := false = true ∧ _)) by (by intros [? _] || done).
    wp_step. rewrite bool_decide_true by (by intros [? _]). split; [done|by split]. }
  rewrite (decide_True (P := true = true)) by done.
  destruct (decide (code = KEY_NONE)) as [->|Hne].
  { rewrite (decide_False (P := _ ∧ true = true)) by (by intros [? _]).
    rewrite !(decide_False (P := KEY_NONE = _)), (decide_False (P := true = true ∧ _)) by (by intros [_ ?] || done).
    wp_step. rewrite bool_decide_true by (by intros [_ ?]). split; [done|by split]. }
  rewrite (decide_True (P := _ ∧ true = true)) by done.
  destruct (decide (code = KEY "W")) as [->|]; [turned a u g Up|].
  destruct (decide (code = KEY "D")) as [->|]; [turned a u g Right|].
  destruct (decide (code = KEY "S")) as [->|]; [turned a u g Down|].
  destruct (decide (code = KEY "A")) as [->|]; [turned a u g Left|].
  destruct (decide (code = KEY "Q")) as [->|]; wp_step.
  - rewrite bool_decide_false by naive_solver. by rewrite decide_True.
  - rewrite bool_decide_true by naive_solver. rewrite decide_False by naive_solver. split; [done|by split].
Qed.

(** ** A move of the program is a move of the rules *)

Definition dx_of (d : dir) : Z := match d with Up => 0 | Right => 1 | Down => 0 | Left => -1 end.
Definition dy_of (d : dir) : Z := match d with Up => -1 | Right => 0 | Down => 1 | Left => 0 end.

Lemma move_eq p d : move p d = (p.1 + dy_of d, p.2 + dx_of d)%Z.
Proof. destruct d; simpl; f_equal; lia. Qed.

Lemma dir_at_run d g : dir_at xs (dcode d) g = Ret (dx_of d, g) ∧ dir_at ys (dcode d) g = Ret (dy_of d, g).
Proof. by destruct d. Qed.

Lemma get_head_run f g p :
  snake_map g = f <$> cells → ghead g = pnt_of p → in_range p → get_head g = Ret (f p, g).
Proof.
  intros Hm Hh Hr. unfold get_head. erewrite bind_run by done. rewrite Hh. destruct p as [i j].
  by apply (get_cell_run f).
Qed.

Lemma get_tail_run f g p :
  snake_map g = f <$> cells → gtail g = pnt_of p → in_range p → get_tail g = Ret (f p, g).
Proof.
  intros Hm Hh Hr. unfold get_tail. erewrite bind_run by done. rewrite Hh. destruct p as [i j].
  by apply (get_cell_run f).
Qed.

(** The two branches of [step_game_do] that move. *)
Definition eat (d : dir) : M game Z :=
  gen_apple;; advance_head (dx_of d) (dy_of d);; modify (λ g, set_score (score g + 1) g);; mret 1%Z.
Definition crawl (d e : dir) : M game Z :=
  advance_head (dx_of d) (dy_of d);;
  put_tail empty_ele;;
  q ← gets gtail;
  put_unchange (py q) (px q) 0;;
  modify (set_gtail (Pnt (px q + dx_of e) (py q + dy_of e)));;
  q' ← gets gtail;
  put_unchange (py q') (px q') 0;;
  mret 1%Z.

Lemma step_game_do_run f g h t d e :
  snake_map g = f <$> cells → ghead g = pnt_of h → gtail g = pnt_of t →
  in_range h → in_range t → in_range (move h d) → f h = dcode d → f t = dcode e →
  step_game_do g =
    (if decide (f (move h d) ≠ empty_ele ∧ f (move h d) ≠ apple) then mret 0%Z
     else if decide (f (move h d) = apple) then eat d else crawl d e) g.
Proof.
  intros Hm Hh Ht Hhr Htr Hn Hfh Hft. unfold step_game_do.
  rewrite (bind_run _ _ _ _ _ (get_head_run f g h Hm Hh Hhr)), Hfh.
  rewrite (bind_run _ _ _ _ _ (proj1 (dir_at_run d g))), (bind_run _ _ _ _ _ (proj2 (dir_at_run d g))).
  rewrite (bind_run _ _ _ _ _ (get_tail_run f g t Hm Ht Htr)), Hft.
  rewrite (bind_run _ _ _ _ _ (proj1 (dir_at_run e g))), (bind_run _ _ _ _ _ (proj2 (dir_at_run e g))).
  rewrite (bind_run (gets ghead) _ g _ _ eq_refl), Hh. cbn [pnt_of px py].
  rewrite move_eq in Hn |- *. by rewrite (bind_run _ _ _ _ _ (get_cell_run f _ _ g Hm Hn)).
Qed.

Lemma wp_advance_head f u g h d (Q : unit → game → Prop) :
  snake_map g = f <$> cells → unchange g = u <$> cells → ghead g = pnt_of h →
  in_range h → in_range (move h d) →
  Q tt (set_unchange (upd (upd u h 0) (move h d) 0 <$> cells)
         (set_ghead (pnt_of (move h d))
           (set_unchange (upd u h 0 <$> cells) (set_map (upd f (move h d) (f h) <$> cells) g)))) →
  wp (advance_head (dx_of d) (dy_of d)) Q g.
Proof.
  intros Hm Hu Hh Hr Hn HQ. rewrite move_eq in *. destruct h as [i j]. cbn [fst snd] in *.
  unfold advance_head. wp_step. apply (wp_get_head f _ (i, j)); [done..|].
  wp_step. wp_step. rewrite Hh. cbn [pnt_of px py fst snd].
  wp_step. apply (wp_put_cell f); [done|done|].
  wp_step. apply (wp_put_unchange u); [done|done|]. wp_step. wp_step. wp_step. wp_step. cbn [ghead set_ghead px py].
  by apply (wp_put_unchange (upd u (i, j) 0)).
Qed.

(** The next cell is free, food, or neither, as the rules see it. *)
Lemma board_next a n :
  (board a n ≠ empty_ele ∧ board a n ≠ apple) ↔ (is_wall n ∨ n ∈ (body a).*1).
Proof.
  unfold board. case_decide as Hw; [split; [by left|done]|].
  destruct (dir_of (body a) n) as [d|] eqn:Hd.
  - split; [intros _; right|by destruct d].
    destruct (decide (n ∈ (body a).*1)) as [|Hn]; [done|]. apply dir_of_None in Hn. congruence.
  - apply dir_of_None in Hd. case_decide; split; [by intros [_ []]|naive_solver|by intros [[] _]|naive_solver].
Qed.

Lemma board_food a n :
  ¬ (is_wall n ∨ n ∈ (body a).*1) → board a n = if decide (food a = Some n) then apple else empty_ele.
Proof.
  intros Hn. unfold board. rewrite decide_False by tauto.
  by rewrite (proj2 (dir_of_None (body a) n)) by tauto.
Qed.

Lemma picture_ne a p : p ≠ head_pos a → picture a p = colour (board a p).
Proof. intros. unfold picture. by rewrite decide_False. Qed.

Lemma one_if_empty : one_if empty_ele = 1%Z. Proof. done. Qed.
Lemma one_if_apple : one_if apple = 0%Z. Proof. done. Qed.

Lemma upd_nz u p q : upd u p 0 q ≠ 0%Z → q ≠ p ∧ u q ≠ 0%Z.
Proof. unfold upd. case_decide; [done|]. tauto. Qed.

Lemma wp_eat a u g h d b :
  snake_wf a → game_rel a u g → body a = (h, d) :: b →
  ¬ (is_wall (move h d) ∨ move h d ∈ (body a).*1) → food a = Some (move h d) →
  free_of (board a) ≠ [] →
  wp (eat d) (λ r g', r = 1%Z ∧ ∃ u',
    let a' := SnakeState ((move h d, d) :: body a) (pick (roll (seed a)) (free_of (board a)))
                (points a + 1) (roll (seed a)) in
    game_rel a' u' g' ∧ marks_kept a a' u u' ∧ same_screen g g') g.
Proof.
  intros Hwf Hrel Hb Hn Hfo Hfr. set (n := move h d) in *.
  destruct (head_facts a Hwf) as (h' & d' & b' & Hb' & Hh & Hhr & Hhw & Hhb). rewrite Hb in Hb'. injection Hb' as <- <- <-.
  pose proof (move_inner h d Hhr Hhw) as Hnr. fold n in Hnr.
  destruct (pick_Some (roll (seed a)) _ Hfr) as [q Hq]. rewrite Hq.
  cbv zeta. pose proof (pick_elem _ _ _ Hq) as [Hqe Hqr]%elem_of_free.
  assert (Hqh : h ≠ q) by (intros ->; rewrite Hhb in Hqe; by destruct d).
  assert (Hbn : board a n = apple) by (rewrite board_food by done; by rewrite decide_True).
  assert (Hqn : q ≠ n) by (intros ->; by rewrite Hbn in Hqe).
  set (a' := SnakeState ((n, d) :: body a) (Some q) (points a + 1)%Z (roll (seed a))).
  assert (Hbd : ∀ p, board a' p = upd (upd (board a) q apple) n (dcode d) p).
  { intros p. by apply board_grow; [tauto|done..]. }
  destruct Hrel as [Hm Hu He Hgh Hgt Hs Hse Hpx]. rewrite Hh in Hgh.
  unfold eat. wp_step. apply (wp_gen_apple (board a) u q); [done|done|done|by rewrite Hse|]. rewrite Hse.
  wp_step. apply (wp_advance_head (upd (board a) q apple) (upd u q 0) _ h d); [done..|]. fold n.
  wp_step. wp_step. wp_step. split; [done|]. exists (upd (upd (upd u q 0) h 0) n 0). split_and!; [|..|done].
  - split; try exact Hpx; try (cbn; congruence).
    + cbn [snake_map set_score set_unchange set_ghead set_map]. rewrite upd_ne, Hhb by done. symmetry.
      apply cells_ext. intros p _. apply Hbd.
    + change (count cells (board a) - 1 = count cells (board a'))%Z.
      rewrite (count_same cells (board a') (upd (upd (board a) q apple) n (dcode d))) by (intros; apply Hbd).
      rewrite !count_upd by (apply NoDup_cells || by apply elem_of_cells).
      rewrite upd_ne, Hbn, Hqe, one_if_dcode, one_if_empty, one_if_apple by done. lia.
    + change (gtail g = pnt_of (tail_pos a')).
      rewrite Hgt. unfold a', tail_pos. cbn [body]. rewrite Hb, last_cons_cons. done.
  - intros p _ [Hpn [Hph [Hpq Hp]%upd_nz]%upd_nz]%upd_nz. split; [done|].
    rewrite !picture_ne by (rewrite ?Hh; cbn; congruence). by rewrite Hbd, !upd_ne.
Qed.

Lemma tail_pos_body a x b t e : body a = x :: b ++ [(t, e)] → tail_pos a = t.
Proof. intros Hb. unfold tail_pos. by rewrite Hb, last_body. Qed.

Lemma wp_crawl a u g h d b t e :
  snake_wf a → game_rel a u g → body a = (h, d) :: b ++ [(t, e)] →
  ¬ (is_wall (move h d) ∨ move h d ∈ (body a).*1) → food a ≠ Some (move h d) →
  wp (crawl d e) (λ r g', r = 1%Z ∧ ∃ u',
    let a' := SnakeState ((move h d, d) :: removelast (body a)) (food a) (points a) (seed a) in
    game_rel a' u' g' ∧ marks_kept a a' u u' ∧ same_screen g g') g.
Proof.
  intros Hwf Hrel Hb Hn Hfo. set (n := move h d) in *.
  destruct (head_facts a Hwf) as (h' & d' & b' & Hb' & Hh & Hhr & Hhw & Hhb). rewrite Hb in Hb'. injection Hb' as <- <- <-.
  pose proof (move_inner h d Hhr Hhw) as Hnr. fold n in Hnr.
  destruct (body_ends a Hwf) as (h' & d' & b' & t' & e' & Hb' & Hht & Hhb' & Htb).
  rewrite Hb in Hb'. injection Hb' as <- <- Hb'. apply app_inj_tail in Hb' as [<- [= <- <-]].
  assert (Ht : ¬ is_wall t ∧ in_range t ∧ t ∈ (body a).*1).
  { pose proof (wf_inner _ Hwf) as Hin. rewrite Forall_forall in Hin.
    assert (t ∈ (body a).*1) by (rewrite Hb; apply elem_of_fst_app). destruct (Hin t); done. }
  destruct Ht as (Htw & Htr & Htin).
  assert (Hbn : board a n = empty_ele) by (rewrite board_food by done; by rewrite decide_False).
  assert (Htn : t ≠ n) by (intros Heq; rewrite Heq in Htin; tauto).
  assert (Hbt : board a t = dcode e).
  { apply board_body; [done|]. rewrite Hb, app_comm_cons. apply dir_of_last. simpl. apply not_elem_of_cons. by split. }
  rewrite Hb, removelast_body. cbv zeta.
  set (a' := SnakeState ((n, d) :: (h, d) :: b) (food a) (points a) (seed a)).
  assert (Hbd : ∀ p, board a' p = upd (upd (board a) n (dcode d)) t empty_ele p).
  { intros p. apply (board_move a h d b t e); try done; [tauto|tauto|].
    intros Hft. by destruct (wf_food _ Hwf t Hft). }
  pose proof (wf_linked _ Hwf) as Hli. rewrite Hb in Hli.
  assert (Htail : tail_pos a' = move t e).
  { unfold a', tail_pos. cbn [body]. destruct b as [|[q f] b _] using rev_ind.
    - destruct Hli as [Hh' _]. by rewrite <-Hh'.
    - rewrite app_comm_cons, app_comm_cons, last_snoc. rewrite <-(assoc_L (++)), app_comm_cons in Hli. by apply linked_last in Hli. }
  assert (Htr' : in_range (move t e)) by (by apply move_inner).
  destruct Hrel as [Hm Hu He Hgh Hgt Hs Hse Hpx]. rewrite Hh in Hgh.
  rewrite (tail_pos_body _ _ _ _ _ Hb) in Hgt.
  unfold crawl. wp_step. apply (wp_advance_head (board a) u _ h d); [done..|]. fold n. rewrite Hhb.
  wp_step. unfold put_tail. wp_step. wp_step. cbn [gtail set_unchange set_ghead set_map]. rewrite Hgt. cbn [pnt_of px py].
  apply (wp_put_cell (upd (board a) n (dcode d))); [done|by destruct t|].
  wp_step. wp_step. cbn [gtail set_unchange set_ghead set_map]. rewrite Hgt. cbn [pnt_of px py].
  wp_step. apply (wp_put_unchange (upd (upd u h 0) n 0)); [done|by destruct t|].
  wp_step. wp_step. wp_step. wp_step. cbn [gtail set_gtail px py].
  rewrite move_eq in Htail, Htr'. destruct t as [ti tj]. cbn [fst snd] in *.
  wp_step. apply (wp_put_unchange (upd (upd (upd u h 0) n 0) (ti, tj) 0)); [done|done|].
  wp_step. split; [done|]. eexists. split_and!; [split|..|done].
  - symmetry. apply cells_ext. intros p _. apply Hbd.
  - done.
  - change (empty_cnt g = count cells (board a')). rewrite He.
    rewrite (count_same cells (board a') (upd (upd (board a) n (dcode d)) (ti, tj) empty_ele)) by (intros; apply Hbd).
    rewrite !count_upd by (apply NoDup_cells || by apply elem_of_cells).
    rewrite upd_ne, Hbn, Hbt, !one_if_dcode, one_if_empty by done. lia.
  - done.
  - by rewrite Htail.
  - done.
  - done.
  - done.
  - intros p _ [_ [Hpt [Hpn [Hph Hp]%upd_nz]%upd_nz]%upd_nz]%upd_nz. split; [done|].
    rewrite !picture_ne by (rewrite ?Hh; cbn; congruence). by rewrite Hbd, !upd_ne.
Qed.

Lemma sstep_over a a' : sstep a = (Over, a') → a' = a.
Proof.
  unfold sstep. destruct (body a) as [|[p d] b]; [by intros [= <-]|].
  case_decide; [by intros [= <-]|]. case_decide; [case_decide|]; done.
Qed.

Lemma sstep_cons a p d b : body a = (p, d) :: b →
  sstep a =
    if decide (is_wall (move p d) ∨ move p d ∈ (body a).*1) then (Over, a)
    else if decide (food a = Some (move p d)) then
      if decide (free_of (board a) = []) then (Full, a)
      else (Playing, SnakeState ((move p d, d) :: body a) (pick (roll (seed a)) (free_of (board a)))
                       (points a + 1) (roll (seed a)))
    else (Playing, SnakeState ((move p d, d) :: removelast (body a)) (food a) (points a) (seed a)).
Proof. intros Hb. unfold sstep. by rewrite Hb. Qed.

Lemma step_game_do_spec a u g :
  snake_wf a → game_rel a u g →
  match sstep a with
  | (Full, _) => step_game_do g = Err DivByZero
  | (st, a') =>
      wp step_game_do (λ r g', r = (if decide (st = Playing) then 1 else 0)%Z ∧
        ∃ u', game_rel a' u' g' ∧ marks_kept a a' u u' ∧ same_screen g g') g
  end.
Proof.
  intros Hwf Hrel. destruct (body_ends a Hwf) as (h & d & b & t & e & Hb & _ & _ & Htb).
  destruct (head_facts a Hwf) as (h' & d' & b' & Hb' & Hh & Hhr & Hhw & Hhb).
  rewrite Hb in Hb'. injection Hb' as <- <- _.
  assert (Ht : board a t = dcode e ∧ in_range t).
  { apply board_body; [done|]. rewrite Hb, app_comm_cons. apply dir_of_last.
    pose proof (wf_nodup _ Hwf) as Hnd. rewrite Hb, app_comm_cons, fmap_app in Hnd.
    apply NoDup_app in Hnd as (_ & Hd & _). intros Hin. by apply (Hd t Hin); left. }
  destruct Ht as [Hbt Htr]. pose proof (move_inner h d Hhr Hhw) as Hnr.
  assert (Hrun : step_game_do g = (if decide (board a (move h d) ≠ empty_ele ∧ board a (move h d) ≠ apple) then mret 0%Z
     else if decide (board a (move h d) = apple) then eat d else crawl d e) g).
  { destruct Hrel. apply (step_game_do_run (board a) g h t); try done.
    - by rewrite <-Hh. - by rewrite <-(tail_pos_body _ _ _ _ _ Hb). }
  rewrite (sstep_cons a h d _ Hb). unfold wp. rewrite Hrun. clear Hrun.
  destruct (decide (is_wall (move h d) ∨ move h d ∈ (body a).*1)) as [Ho|Hn].
  { rewrite decide_True by (by apply board_next). split; [done|]. exists u. split_and!; [done| |done].
    intros p _ Hp. done. }
  rewrite (decide_False (P := board a (move h d) ≠ _ ∧ _)) by (by rewrite board_next). rewrite (board_food a _ Hn).
  destruct (decide (food a = Some (move h d))) as [Hfo|Hfo].
  - rewrite (decide_True (P := apple = apple)) by done.
    destruct (decide (free_of (board a) = [])) as [Hfr|Hfr].
    + unfold eat. apply bind_err. destruct Hrel. by apply (gen_apple_full (board a)).
    + rewrite decide_True by done. by apply (wp_eat a u g h d _ Hwf Hrel Hb).
  - rewrite (decide_False (P := empty_ele = apple)) by done. rewrite decide_True by done.
    pose proof (wp_crawl a u g h d b t e Hwf Hrel Hb Hn Hfo) as Hw. exact Hw.
Qed.

(** ** Drawing *)

(** What a pixel shows after the rectangles of a list. *)
Definition paint (f : Z → Z → option Z) (r : rect) : Z → Z → option Z := λ X Y,
  if decide ((rx r ≤ X < rx r + rw r) ∧ (ry r ≤ Y < ry r + rh r))%Z
  then rpixels r !! Z.to_nat ((Y - ry r) * rw r + (X - rx r)) else f X Y.
Definition screen (l : list rect) : Z → Z → option Z := foldl paint (λ _ _, None) l.

Definition cell_shown (l : list rect) (side : Z) (p : pos) (c : Z) : Prop :=
  ∀ X Y, (p.2 * side ≤ X < (p.2 + 1) * side)%Z → (p.1 * side ≤ Y < (p.1 + 1) * side)%Z →
  screen l X Y = Some c.

Lemma screen_snoc l r : screen (l ++ [r]) = paint (screen l) r.
Proof. unfold screen. by rewrite foldl_app. Qed.

(** Rectangles right of the board leave the cells as they are. *)
Lemma cell_shown_right l k side p c :
  in_range p → (0 < side)%Z → Forall (λ r, (MAX_WIDTH * side ≤ rx r)%Z) k →
  cell_shown l side p c → cell_shown (l ++ k) side p c.
Proof.
  intros Hp Hs Hk Hc. induction k as [|r k IH] using rev_ind; [by rewrite app_nil_r|].
  apply Forall_app in Hk as [Hk Hr]. rewrite Forall_singleton in Hr.
  rewrite (assoc_L (++)). intros X Y HX HY. rewrite screen_snoc. unfold paint.
  rewrite decide_False; [by apply IH|]. unfold in_range in Hp.
  assert ((p.2 + 1) * side ≤ MAX_WIDTH * side)%Z by (apply Z.mul_le_mono_nonneg_r; lia). lia.
Qed.

Definition cell_rect (px : list Z) (side : Z) (q : pos) : rect :=
  Rect (take (Z.to_nat (side * side)) px) (q.2 * side) (q.1 * side) side side.

Lemma cell_shown_other l px side p q c :
  (0 < side)%Z → p ≠ q → cell_shown l side p c → cell_shown (l ++ [cell_rect px side q]) side p c.
Proof.
  intros Hs Hne Hc X Y HX HY. rewrite screen_snoc. unfold paint. simpl.
  rewrite decide_False; [by apply Hc|]. intros [H1 H2]. apply Hne. destruct p, q; simpl in *. f_equal; nia.
Qed.

Lemma cell_shown_self l px side q c :
  (0 < side)%Z → take (Z.to_nat (side * side)) px = replicate (Z.to_nat (side * side)) c →
  cell_shown (l ++ [cell_rect px side q]) side q c.
Proof.
  intros Hs Hpx X Y HX HY. rewrite screen_snoc. unfold paint. simpl.
  rewrite decide_True by lia. rewrite Hpx. apply lookup_replicate_2.
  assert (0 ≤ Y - q.1 * side < side)%Z by lia. assert (0 ≤ X - q.2 * side < side)%Z by lia. nia.
Qed.

(** ** What the drawing functions change: pixels, and rectangles sent *)

Definition draw_only (P : rect → Prop) (g g' : game) : Prop :=
  ∃ px l, length px = 2048 ∧ Forall P l ∧ g' = set_drawn (drawn g ++ l) (set_pixels px g).

Lemma draw_only_refl P g : length (pixels g) = 2048 → draw_only P g g.
Proof. intros Hl. exists (pixels g), []. rewrite app_nil_r. split; [done|]. split; [done|]. by destruct g. Qed.

Lemma draw_only_trans P g1 g2 g3 : draw_only P g1 g2 → draw_only P g2 g3 → draw_only P g1 g3.
Proof.
  intros (px & l & Hp & Hl & ->) (px' & l' & Hp' & Hl' & ->). exists px', (l ++ l').
  split; [done|]. split; [by apply Forall_app|]. cbn. by rewrite (assoc_L (++)).
Qed.

Lemma draw_only_pixels P g g' : draw_only P g g' → length (pixels g') = 2048.
Proof. by intros (px & l & ? & ? & ->). Qed.

Lemma draw_only_side P g g' : draw_only P g g' → SIDE g' = SIDE g ∧ sw g' = sw g ∧ sh g' = sh g.
Proof. by intros (px & l & _ & _ & ->). Qed.

Lemma draw_only_mono (P Q : rect → Prop) g g' : (∀ r, P r → Q r) → draw_only P g g' → draw_only Q g g'.
Proof. intros HPQ (px & l & ? & ? & ->). exists px, l. split; [done|]. split; [by eapply Forall_impl|done]. Qed.

Lemma wp_put_pixel i c g (Q : unit → game → Prop) :
  (0 ≤ i < 2048)%Z → length (pixels g) = 2048 →
  Q tt (set_pixels (<[Z.to_nat i := c]> (pixels g)) g) → wp (put_pixel i c) Q g.
Proof.
  intros Hi Hl HQ. unfold put_pixel. wp_step. wp_step. wp_step.
  eapply wp_deref; [|by wp_step]. unfold aset. by rewrite decide_True by (rewrite Hl; lia).
Qed.

(** A loop that puts the colour [c] in the first [n] pixels. *)
Lemma wp_fill n c (body : Z → M game unit) g (Q : unit → game → Prop) :
  (0 ≤ n ≤ 2048)%Z → length (pixels g) = 2048 →
  (∀ i px, (0 ≤ i < n)%Z → length px = 2048 → body i (set_pixels px g) = put_pixel i c (set_pixels px g)) →
  (∀ px, length px = 2048 → take (Z.to_nat n) px = replicate (Z.to_nat n) c → Q tt (set_pixels px g)) →
  wp (for_range 0 n body) Q g.
Proof.
  intros Hn Hl Hbody HQ.
  eapply wp_mono; [apply (wp_for_range (λ i s, ∃ px, s = set_pixels px g ∧ length px = 2048 ∧
     take (Z.to_nat i) px = replicate (Z.to_nat i) c))|].
  - lia.
  - exists (pixels g). split; [by destruct g|]. by split.
  - intros i s Hi (px & -> & Hpx & Ht). unfold wp. rewrite Hbody by done.
    apply wp_put_pixel; [lia|done|]. eexists. split; [done|]. cbn [pixels set_pixels].
    split; [by rewrite length_insert|].
    replace (Z.to_nat (i + 1)) with (S (Z.to_nat i)) by lia.
    rewrite (take_S_r _ _ c) by (apply list_lookup_insert_eq; rewrite Hpx; lia).
    rewrite take_insert_ge, Ht by lia. by rewrite replicate_S_end.
  - intros [] s (px & -> & Hpx & Ht). by apply HQ.
Qed.

Lemma set_pixels_id g : set_pixels (pixels g) g = g.
Proof. by destruct g. Qed.

Lemma wp_print_row todo bits i size tmp g (Q : unit → game → Prop) :
  Forall (λ j, 0 ≤ i * 8 * size + j < 2048)%Z todo → length (pixels g) = 2048 →
  (∀ px, length px = 2048 → Q tt (set_pixels px g)) →
  wp (print_row todo bits i size tmp) Q g.
Proof.
  intros Htodo. revert tmp g. induction Htodo as [|j todo Hj _ IH]; intros tmp g Hl HQ; cbn [print_row].
  - wp_step. rewrite <-(set_pixels_id g). by apply HQ.
  - wp_step. apply wp_put_pixel; [done|done|]. apply IH; [cbn [pixels set_pixels]; by rewrite length_insert|].
    intros px Hpx. by apply HQ.
Qed.

Lemma font_row c i : (0 ≤ c < 128)%Z → (0 ≤ i < 8)%Z →
  ∃ row bits, aget font8x8_basic c = Some row ∧ aget row i = Some bits.
Proof.
  intros Hc Hi. assert (Hf : Forall (λ row, length row = 8) font8x8_basic).
  { apply (bool_decide_unpack _). by vm_compute. }
  destruct (font8x8_basic !! Z.to_nat c) as [row|] eqn:Hrow.
  2: { apply lookup_ge_None_1 in Hrow. change (length font8x8_basic) with 128%nat in Hrow. lia. }
  pose proof (Forall_lookup_1 _ _ _ _ Hf Hrow) as Hlen. cbn beta in Hlen.
  destruct (row !! Z.to_nat i) as [bits|] eqn:Hb; [|apply lookup_ge_None_1 in Hb; lia].
  exists row, bits. unfold aget. by rewrite !decide_True by lia.
Qed.

Lemma wp_draw_rect (P : rect → Prop) x y w h g (Q : unit → game → Prop) :
  length (pixels g) = 2048 → (∀ px, P (Rect px (i32 x) (i32 y) (i32 w) (i32 h))) → (∀ g', draw_only P g g' → Q tt g') →
  wp (draw_rect x y w h) Q g.
Proof.
  intros Hl HP HQ. unfold draw_rect. wp_step. apply HQ. eexists (pixels g), [_].
  split; [done|]. split; [apply Forall_singleton, HP|]. by destruct g.
Qed.

Lemma wp_draw_char (P : rect → Prop) c x y size g (Q : unit → game → Prop) :
  (0 ≤ c < 128)%Z → (0 < size ≤ 5)%Z → length (pixels g) = 2048 →
  (∀ px, P (Rect px (i32 x) (i32 y) (i32 (8 * size)) (i32 (8 * size))))%Z →
  (∀ g', draw_only P g g' → Q tt g') →
  wp (print_char c x y size) Q g.
Proof.
  intros Hc Hs Hl HP HQ. unfold print_char. wp_step.
  eapply wp_mono; [apply (wp_for_range (λ _ s, draw_only P g s))|].
  - lia.
  - by apply draw_only_refl.
  - intros i s Hi Hd. pose proof (draw_only_pixels _ _ _ Hd) as Hsp.
    destruct (font_row c (i / size) Hc) as (row & bits & Hrow & Hbits).
    { split; [apply Z.div_pos; lia|apply Z.div_lt_upper_bound; lia]. }
    wp_step. wp_step. wp_step. wp_step. apply wp_print_row; [|done|].
    + apply Forall_forall. intros j Hj%elem_of_seqZ. nia.
    + intros px Hpx. eapply draw_only_trans; [exact Hd|]. exists px, []. rewrite app_nil_r.
      split; [done|]. split; [done|]. by destruct s.
  - intros [] s Hd. apply (wp_draw_rect P); [by eapply draw_only_pixels|done|].
    intros g' Hg'. apply HQ. by eapply draw_only_trans.
Qed.

Lemma wp_print_string (P : rect → Prop) s x y size g (Q : unit → game → Prop) :
  Forall (λ c, 0 ≤ c < 128)%Z s → (0 < size ≤ 5)%Z → length (pixels g) = 2048 →
  (∀ px i, (0 ≤ i < Z.of_nat (length s))%Z → P (Rect px (i32 (u32 (x + i * 8 * size))) (i32 y) (i32 (8 * size)) (i32 (8 * size))))%Z →
  (∀ g', draw_only P g g' → Q tt g') →
  wp (print_string s x y size) Q g.
Proof.
  intros Hs Hsz Hl HP HQ. unfold print_string.
  eapply wp_mono; [apply (wp_for_range (λ _ g', draw_only P g g'))|].
  - lia.
  - by apply draw_only_refl.
  - intros i g1 Hi Hd. destruct (s !! Z.to_nat i) as [c|] eqn:Hc; [|apply lookup_ge_None_1 in Hc; lia].
    pose proof (Forall_lookup_1 _ _ _ _ Hs Hc) as Hcr. cbn beta in Hcr.
    wp_step. eapply wp_deref; [unfold aget; rewrite decide_True by lia; exact Hc|].
    rewrite u8_small by lia. apply (wp_draw_char P); [lia|done|by eapply draw_only_pixels|by intros; apply HP|].
    intros g' Hg'. by eapply draw_only_trans.
  - intros [] g' Hd. by apply HQ.
Qed.

Lemma wp_clear_screen g (Q : unit → game → Prop) :
  (0 < SIDE g)%Z → (SIDE g * SIDE g ≤ 2048)%Z → (0 ≤ sw g)%Z → (0 ≤ sh g)%Z → length (pixels g) = 2048 →
  (∀ g', draw_only (λ _, True) g g' → Q tt g') → wp CLEAR_SCREEN Q g.
Proof.
  intros Hs Hs2 Hw Hh Hl HQ. unfold CLEAR_SCREEN. wp_step. wp_step. rewrite decide_False by lia.
  eapply wp_mono; [apply (wp_for_range (λ _ g', draw_only (λ _, True) g g'))|].
  - by apply Z.div_pos.
  - by apply draw_only_refl.
  - intros x g1 _ Hd1. apply (wp_for_range (λ _ g', draw_only (λ _, True) g g')); [by apply Z.div_pos|done|].
    intros y g2 _ Hd2. pose proof (draw_only_pixels _ _ _ Hd2) as Hl2. wp_step. unfold fill_pixels.
    rewrite u32_small by nia. apply (wp_fill _ 0); [nia|done|done|]. intros px Hpx _.
    apply (wp_draw_rect (λ _, True)); [done|done|]. intros g' Hd'.
    eapply draw_only_trans; [exact Hd2|]. eapply draw_only_trans; [|exact Hd'].
    exists px, []. rewrite app_nil_r. split; [done|]. split; [done|]. by destruct g2.
  - intros [] g' Hd. by apply HQ.
Qed.

Lemma score_text n : (0 ≤ n ≤ 1600)%Z → ∃ t, sprintf " %05d" [VLong n] = Ret t ∧
  Forall (λ c, 0 ≤ c < 128)%Z (string_bytes t) ∧ length (string_bytes t) ≤ 16.
Proof.
  intros Hn.
  assert (Hb : forallb (λ n, match sprintf " %05d" [VLong n] with
    | Ret t => forallb (λ c, (0 <=? c) && (c <? 128))%Z (string_bytes t) && (length (string_bytes t) <=? 16)%nat
    | Err _ => false end) (seqZ 0 1601) = true) by (by vm_compute).
  rewrite forallb_forall in Hb. specialize (Hb n). cbv beta in Hb.
  destruct (sprintf " %05d" [VLong n]) as [t|].
  2: { discriminate Hb. apply list_elem_of_In, elem_of_seqZ. lia. }
  exists t. split; [done|]. apply andb_true_iff in Hb as [H1 H2%Nat.leb_le].
  2: { apply list_elem_of_In, elem_of_seqZ. lia. }
  split; [|done]. rewrite forallb_forall in H1. apply Forall_forall. intros c Hc%list_elem_of_In.
  apply H1, andb_true_iff in Hc as [?%Z.leb_le ?%Z.ltb_lt]. lia.
Qed.

Lemma wf_points_bound a : snake_wf a → (0 ≤ points a ≤ 1600)%Z.
Proof.
  intros Hwf. rewrite (wf_points _ Hwf). pose proof (wf_len _ Hwf).
  assert (length (body a).*1 ≤ length cells) as Hle.
  { apply submseteq_length, NoDup_submseteq; [apply (wf_nodup _ Hwf)|].
    intros p Hp. apply elem_of_cells. pose proof (wf_inner _ Hwf) as Hin. rewrite Forall_forall in Hin. by apply Hin. }
  rewrite length_fmap, cells_length in Hle. lia.
Qed.

Definition right_of (side : Z) (r : rect) : Prop := (MAX_WIDTH * side ≤ rx r)%Z.

Lemma wp_show_score side g (Q : unit → game → Prop) :
  (0 < side)%Z → (side * side ≤ 2048)%Z → (0 ≤ score g ≤ 1600)%Z → length (pixels g) = 2048 →
  (∀ g', draw_only (right_of side) g g' → Q tt g') → wp (show_score side) Q g.
Proof.
  intros Hs Hs2 Hn Hl HQ. destruct (score_text _ Hn) as (t & Ht & Hchars & Hlen).
  assert (Hx : ∀ i, (0 ≤ i < 16)%Z → (MAX_WIDTH * side ≤ i32 (u32 ((MAX_WIDTH + 2) * side + i * 8 * FONT_SIZE)))%Z).
  { intros i Hi. assert (side ≤ 45)%Z by nia. unfold MAX_WIDTH, FONT_SIZE. rewrite u32_small, i32_small; lia. }
  unfold show_score. wp_step. wp_step. wp_step. apply wp_run. exists t, g. split; [by rewrite Ht|].
  wp_step. apply (wp_print_string (right_of side)); [by repeat constructor|done|done|intros; apply Hx; simpl in *; lia|].
  intros g1 Hd1. apply (wp_print_string (right_of side)); [done|done|by eapply draw_only_pixels|intros; apply Hx; lia|].
  intros g2 Hd2. apply HQ. by eapply draw_only_trans.
Qed.

(** ** [show] draws what is not marked, and the head *)

Lemma board_range a p : (0 ≤ board a p ≤ 6)%Z.
Proof.
  unfold board. case_decide; [done|]. destruct (dir_of (body a) p) as [[]|]; [done..|]. by case_decide.
Qed.

Lemma colour_board a p : aget col (board a p) = Some (colour (board a p)).
Proof.
  unfold colour. pose proof (board_range a p).
  destruct (aget col (board a p)) eqn:Hc; [done|].
  assert (Hs : is_Some (aget col (board a p))) by (apply aget_is_Some; cbn [length col]; lia).
  rewrite Hc in Hs. by destruct Hs.
Qed.

(** In the middle of [show]: the cells satisfying [seen] have been visited. *)
Definition showing (a : snake) (g : game) (side : Z) (seen : pos → Prop) (s : game) : Prop :=
  ∃ px l u, s = set_drawn (drawn g ++ l) (set_pixels px (set_unchange (u <$> cells) g)) ∧
    length px = 2048 ∧
    (∀ p, in_range p → u p ≠ 0%Z → p ≠ head_pos a → cell_shown (drawn g ++ l) side p (colour (board a p))) ∧
    (∀ p, in_range p → seen p → u p ≠ 0%Z).

Lemma wp_show_cell a g side seen s x y :
  snake_map g = board a <$> cells → (0 < side)%Z → (side * side ≤ 2048)%Z → in_range (y, x) →
  showing a g side seen s →
  wp (show_cell side x y) (λ _ s', showing a g side (λ p, seen p ∨ p = (y, x)) s') s.
Proof.
  intros Hm Hs Hs2 Hr (px & l & u & -> & Hpx & Hshown & Hseen). unfold show_cell.
  wp_step. apply (wp_get_unchange u); [done|done|].
  destruct (decide (u (y, x) ≠ 0%Z)) as [Hu|Hu].
  { wp_step. exists px, l, u. split; [done|]. split; [done|]. split; [done|].
    intros p Hp [?| ->]; [by apply Hseen|done]. }
  wp_step. apply (wp_put_unchange u); [done|done|]. wp_step. rewrite u32_small by nia.
  apply (wp_fill _ (colour (board a (y, x)))); [lia|done| |].
  { intros i px' Hi Hpx'. erewrite bind_run by (by apply (get_cell_run (board a))).
    by rewrite colour_board. }
  intros px' Hpx' Ht. unfold draw_rect. wp_step. rewrite !i32_small by (unfold in_range, MAX_WIDTH, MAX_HEIGHT in Hr; simpl in Hr; nia).
  exists px', (l ++ [cell_rect px' side (y, x)]), (upd u (y, x) 1). split; [by rewrite (assoc_L (++))|].
  split; [done|]. rewrite (assoc_L (++)). split.
  - intros p Hp. destruct (decide (p = (y, x))) as [->|Hne].
    + intros _ _. by apply cell_shown_self.
    + rewrite upd_ne by done. intros Hup Hh. apply cell_shown_other; auto.
  - intros p Hp Hsp. destruct (decide (p = (y, x))) as [->|Hne]; [by rewrite upd_eq|].
    rewrite upd_ne by done. destruct Hsp; [auto|done].
Qed.

Lemma showing_impl a g side (P P' : pos → Prop) s :
  (∀ p, in_range p → P' p → P p) → showing a g side P s → showing a g side P' s.
Proof.
  intros HP (px & l & u & ? & ? & ? & Hu). exists px, l, u. split_and!; try done.
  intros p Hp Hp'. apply Hu; auto.
Qed.

(** The marks are right: a marked cell is on the screen as it should be. *)
Definition screen_ok (a : snake) (u : pos → Z) (g : game) : Prop :=
  ∀ p, in_range p → u p ≠ 0%Z → cell_shown (drawn g) (SIDE g) p (picture a p).
Definition board_shown (a : snake) (g : game) : Prop :=
  ∀ p, in_range p → cell_shown (drawn g) (SIDE g) p (picture a p).

Lemma wp_show a u g (Q : unit → game → Prop) :
  snake_wf a → game_rel a u g → screen_ok a u g → (0 < SIDE g)%Z → (SIDE g * SIDE g ≤ 2048)%Z →
  (∀ u' g', game_rel a u' g' → screen_ok a u' g' → board_shown a g' → sw g' = sw g → sh g' = sh g → Q tt g') →
  wp show Q g.
Proof.
  intros Hwf Hrel Hok Hs Hs2 HQ. unfold show. wp_step. wp_step. set (side := SIDE g) in *.
  pose proof (gr_map _ _ _ Hrel) as Hm. wp_step.
  eapply wp_mono; [apply (wp_for_range (λ x s, showing a g side (λ p, p.2 < x)%Z s))|].
  { done. }
  { exists (pixels g), [], u. rewrite app_nil_r. split; [|split; [apply Hrel|split]].
    - rewrite <-(gr_unchange _ _ _ Hrel). by destruct g.
    - intros p Hp Hup Hh. rewrite <-picture_ne by done. by apply Hok.
    - unfold in_range. lia. }
  { intros x s Hx Hsh. eapply wp_mono;
      [apply (wp_for_range (λ y s, showing a g side (λ p, p.2 < x ∨ p.2 = x ∧ p.1 < y)%Z s))|].
    - done.
    - eapply showing_impl; [|exact Hsh]. unfold in_range. intros p Hp. cbn beta. lia.
    - intros y s1 Hy Hsh1. eapply wp_mono; [apply (wp_show_cell a g side _ s1 x y Hm Hs Hs2 (conj Hy Hx) Hsh1)|].
      intros [] s2. apply showing_impl. intros [i j] _. cbn [fst snd].
      destruct (decide ((i, j) = (y, x))) as [|Hne]; [by right|]. left.
      assert (¬ (j = x ∧ i = y)) by (intros [-> ->]; done). lia.
    - intros [] s1. apply showing_impl. unfold in_range. intros p Hp. cbn beta. lia. }
  intros [] s (px & l & u' & -> & Hpx & Hshown & Hmarks).
  assert (Hside2 : Z.to_nat (u32 (side * side)) = Z.to_nat (side * side)) by (rewrite u32_small; nia).
  wp_step. unfold show_head. wp_step. wp_step. wp_step. apply (wp_fill _ (colour 7)); [rewrite u32_small; nia|done|done|].
  intros px' Hpx' Ht. rewrite Hside2 in Ht. wp_step. wp_step. unfold draw_rect. wp_step.
  destruct (head_facts a Hwf) as (h0 & d0 & b0 & Hb0 & Hh0 & Hr0 & _).
  pose proof (wf_points_bound _ Hwf). pose proof (gr_score _ _ _ Hrel) as Hsc. pose proof (gr_head _ _ _ Hrel) as Hgh.
  apply wp_show_score; [done|done|cbn; lia|done|]. intros g' (px2 & k & Hpx2 & Hk & ->).
  cbn [pixels drawn ghead set_drawn set_pixels set_unchange]. rewrite Hgh, Hh0. cbn [Snake.px Snake.py pnt_of].
  rewrite !i32_small by (unfold in_range, MAX_WIDTH, MAX_HEIGHT in Hr0; nia). set (h := h0).
  change (Rect _ _ _ side side) with (cell_rect px' side h).
  assert (Hall : ∀ p, in_range p → cell_shown (((drawn g ++ l) ++ [cell_rect px' side h]) ++ k) side p (picture a p)).
  { intros p Hp. apply cell_shown_right; [done|done|exact Hk|]. unfold picture. rewrite Hh0. case_decide as Hph.
    - subst p. by apply cell_shown_self.
    - apply cell_shown_other; [done|done|]. apply Hshown; [done| |by rewrite Hh0]. apply Hmarks; [done|]. apply Hp. }
  apply (HQ u'); try done.
  - destruct Hrel. by split.
  - intros p Hp _. by apply Hall.
Qed.

(** ** The first position *)

Lemma const_cells (v : Z) l : (λ _ : pos, v) <$> l = replicate (length l) v.
Proof. induction l as [|p l IH]; [done|]. cbn. by f_equal. Qed.

Lemma count_snoc w p f : count (w ++ [p]) f = (count w f + one_if (f p))%Z.
Proof. induction w as [|q w IH]; [simpl; rewrite count_cons; unfold count; simpl; lia|]. simpl. rewrite !count_cons. lia. Qed.

Definition walls (p : pos) : Z := if decide (is_wall p) then wall else empty_ele.

Lemma hatch_board p : board hatch p = upd (upd walls (20, 20)%Z bodyr) (20, 19)%Z bodyr p.
Proof.
  unfold board, upd, walls, hatch. cbn [body food dir_of].
  destruct (decide (p = (20, 19)%Z)) as [->|H1]; [by vm_compute|].
  destruct (decide (p = (20, 20)%Z)) as [->|H2]; [by vm_compute|].
  case_decide; [done|]. by rewrite decide_False.
Qed.

Lemma hatch_free : free_of (board hatch) ≠ [].
Proof.
  intros Hf. assert (H : (1, 1)%Z ∈ free_of (board hatch)); [|by rewrite Hf in H; apply not_elem_of_nil in H].
  apply elem_of_free. split; [by vm_compute|]. unfold in_range. cbn. by vm_compute.
Qed.

Lemma start_food : ∃ q, food start = Some q ∧ board hatch q = empty_ele ∧ in_range q.
Proof.
  destruct (pick_Some (roll 1) _ hatch_free) as [q Hq]. exists q. split; [done|].
  apply pick_elem in Hq. by apply elem_of_free.
Qed.

Lemma start_wf : snake_wf start.
Proof.
  destruct start_food as (q & Hq & He & Hr). split.
  - simpl; lia.
  - apply (bool_decide_unpack _). by vm_compute.
  - apply (bool_decide_unpack _). by vm_compute.
  - split; [reflexivity|exact I].
  - intros p Hp. rewrite Hq in Hp. injection Hp as <-. unfold board in He. case_decide; [done|].
    change (body start) with (body hatch).
    destruct (dir_of (body hatch) q) as [[]|] eqn:Hd; [discriminate He..|]. apply dir_of_None in Hd. split_and!; assumption.
  - reflexivity.
Qed.

Lemma start_board q p : food start = Some q → board hatch q = empty_ele →
  board start p = upd (board hatch) q apple p.
Proof.
  intros Hq He. unfold upd. destruct (decide (p = q)) as [->|Hpq].
  - unfold board in *. change (body start) with (body hatch). rewrite Hq. destruct (decide (is_wall q)); [discriminate He|].
    destruct (dir_of (body hatch) q) as [[]|]; [discriminate He..|]. by rewrite decide_True.
  - unfold board. change (body start) with (body hatch). rewrite Hq.
    case_decide; [reflexivity|]. destruct (dir_of (body hatch) p); [reflexivity|].
    rewrite decide_False by congruence. reflexivity.
Qed.

(** The loops of [init_game]: the walls are built, the empty cells counted. *)
Lemma wp_build_walls f0 g (Q : unit → game → Prop) :
  snake_map g = f0 <$> cells → Q tt (set_map (walls <$> cells) g) →
  wp (for_each cells (λ '(i, j),
    if decide (i = 0 ∨ i = MAX_HEIGHT - 1 ∨ j = 0 ∨ j = MAX_WIDTH - 1)%Z
    then put_cell i j wall else put_cell i j empty_ele)) Q g.
Proof.
  intros Hm HQ.
  eapply wp_mono; [apply (wp_for_each (λ l s, ∃ f, s = set_map (f <$> cells) g ∧ ∀ p, p ∈ l → f p = walls p))|].
  { exists f0. split; [rewrite <-Hm; by destruct g|intros p []%not_elem_of_nil]. }
  { intros l [i j] l' s Hl (f & -> & Hf).
    assert (Hij : in_range (i, j)) by (apply elem_of_cells; rewrite Hl; apply elem_of_app; right; by left).
    assert (Hput : wp (put_cell i j (walls (i, j)))
      (λ _ s', ∃ f, s' = set_map (f <$> cells) g ∧ ∀ p, p ∈ l ++ [(i, j)] → f p = walls p) (set_map (f <$> cells) g)).
    { apply (wp_put_cell f); [done|done|]. exists (upd f (i, j) (walls (i, j))). split; [done|].
      intros p [Hp|Hp%list_elem_of_singleton]%elem_of_app; [|subst p; apply upd_eq].
      destruct (decide (p = (i, j))) as [->|Hne]; [apply upd_eq|]. rewrite upd_ne by exact Hne. apply Hf, Hp. }
    unfold walls in Hput. destruct (decide (is_wall (i, j))) as [Hw|Hw].
    - rewrite decide_True by exact Hw. exact Hput.
    - rewrite decide_False by exact Hw. exact Hput. }
  intros [] s (f & -> & Hf). rewrite (cells_ext f walls); [exact HQ|]. intros p Hp. by apply Hf, elem_of_cells.
Qed.

Lemma wp_count_empty f g (Q : unit → game → Prop) :
  snake_map g = f <$> cells → empty_cnt g = 0%Z → Q tt (set_empty_cnt (count cells f) g) →
  wp (for_each cells (λ '(i, j),
    c ← get_cell i j;
    when (bool_decide (c = empty_ele)) (modify (λ g, set_empty_cnt (u32 (empty_cnt g + 1)) g)))) Q g.
Proof.
  intros Hm He HQ. eapply wp_mono; [apply (wp_for_each (λ l s, s = set_empty_cnt (count l f) g))|].
  { change (count [] f) with 0%Z. rewrite <-He. by destruct g. }
  { intros l [i j] l' s Hl ->. pose proof (count_le l f). pose proof cells_length as Hlen.
    rewrite Hl, length_app in Hlen. cbn [length] in Hlen.
    assert (Hij : in_range (i, j)) by (apply elem_of_cells; rewrite Hl; apply elem_of_app; right; by left).
    cbn beta iota. wp_step. apply (wp_get_cell f); [done|done|].
    rewrite count_snoc. unfold one_if. apply wp_when; intros Hb.
    - apply bool_decide_eq_true in Hb. rewrite decide_True by done. wp_step. cbn [empty_cnt set_empty_cnt].
      by rewrite u32_small by lia.
    - apply bool_decide_eq_false in Hb. by rewrite decide_False, Z.add_0_r by done. }
  by intros [] s ->.
Qed.

Lemma wp_init_game g (Q : unit → game → Prop) f0 :
  snake_map g = f0 <$> cells → unchange g = (λ _, 0%Z) <$> cells → rand_next g = 1%Z → length (pixels g) = 2048 →
  (∀ u g', game_rel start u g' → (∀ p, u p = 0%Z) → sw g' = sw g → sh g' = sh g → Q tt g') →
  wp init_game Q g.
Proof.
  intros Hm Hu Hrn Hpx HQ. unfold init_game. wp_step. apply (wp_build_walls f0); [done|].
  do 4 wp_step. unfold put_head, put_tail. do 3 wp_step.
  apply (wp_put_cell walls); [reflexivity|by vm_compute|]. do 3 wp_step.
  apply (wp_put_cell (upd walls (20, 20)%Z bodyr)); [reflexivity|by vm_compute|].
  cbn [ghead gtail set_ghead set_gtail set_map Snake.px Snake.py].
  change ((MAX_HEIGHT `div` 2, (MAX_WIDTH - 1) `div` 2)%Z) with (20, 19)%Z.
  rewrite <-(cells_ext (board hatch)) by (intros; apply hatch_board).
  do 5 wp_step. apply (wp_count_empty (board hatch)); [reflexivity|reflexivity|].
  destruct start_food as (q & Hq & He & Hr).
  apply (wp_gen_apple (board hatch) (λ _, 0%Z) q); [reflexivity|exact Hu|reflexivity| |].
  { change (pick (roll (rand_next g)) (free_of (board hatch)) = Some q). rewrite Hrn. exact Hq. }
  apply (HQ (upd (λ _, 0%Z) q 0)); [|intros p; unfold upd; by destruct (decide (p = q))|reflexivity|reflexivity].
  split.
  - symmetry. apply cells_ext. intros p _. by apply start_board.
  - reflexivity.
  - rewrite (count_same cells (board start) (upd (board hatch) q apple)) by (intros p _; by apply start_board).
    rewrite count_upd; [|apply NoDup_cells|by apply elem_of_cells]. rewrite He, one_if_empty, one_if_apple.
    cbn [empty_cnt set_empty_cnt]. lia.
  - reflexivity.
  - reflexivity.
  - reflexivity.
  - change (roll (rand_next g) = roll 1). by rewrite Hrn.
  - exact Hpx.
Qed.

Lemma draw_only_rel P a u g g' : game_rel a u g → draw_only P g g' → game_rel a u g'.
Proof. intros [? ? ? ? ? ? ? ?] (px & l & Hpx & _ & ->). by split. Qed.

(** A screen on which a cell has a side, and a cell fits in [pixels]. *)
Definition screen_fits (g : game) : Prop :=
  (0 < SIDE g ∧ SIDE g * SIDE g ≤ 2048 ∧ 0 ≤ sw g ∧ 0 ≤ sh g)%Z.

Lemma screen_fits_size g g' : sw g' = sw g → sh g' = sh g → screen_fits g → screen_fits g'.
Proof. unfold screen_fits, SIDE. by intros -> ->. Qed.

Lemma wp_show_welcome g (Q : unit → game → Prop) :
  screen_fits g → length (pixels g) = 2048 → (∀ g', draw_only (λ _, True) g g' → Q tt g') → wp show_welcome Q g.
Proof.
  intros (Hs & Hs2 & Hw & Hh) Hpx HQ. unfold show_welcome. wp_step. apply wp_clear_screen; [done..|].
  intros g1 H1. wp_step. wp_step. wp_step.
  apply (wp_print_string (λ _, True)); [apply (bool_decide_unpack _); by vm_compute|done|by eapply draw_only_pixels|done|].
  intros g2 H2. pose proof (draw_only_trans _ _ _ _ H1 H2) as H12.
  apply (wp_print_string (λ _, True)); [apply (bool_decide_unpack _); by vm_compute|done|by eapply draw_only_pixels|done|].
  intros g3 H3. apply HQ. by eapply draw_only_trans.
Qed.

Lemma wp_start_game w h (Q : unit → game → Prop) :
  screen_fits (boot_game w h) →
  (∀ u g, game_rel start u g → (∀ p, u p = 0%Z) → sw g = w → sh g = h → Q tt g) →
  wp start_game Q (boot_game w h).
Proof.
  intros Hfit HQ. unfold start_game. wp_step.
  apply (wp_init_game _ _ (λ _, 0%Z)); [by rewrite const_cells, cells_length..|done|apply length_replicate|].
  intros u g Hrel Hu Hw Hh. pose proof (screen_fits_size _ g Hw Hh Hfit) as Hg.
  wp_step. apply wp_show_welcome; [done|apply Hrel|]. intros g1 H1.
  destruct (draw_only_side _ _ _ H1) as (_ & Hw1 & Hh1). pose proof (screen_fits_size _ g1 Hw1 Hh1 Hg) as (Hs & Hs2 & Hw0 & Hh0).
  apply wp_clear_screen; [done..|by eapply draw_only_pixels|]. intros g2 H2.
  pose proof (draw_only_trans _ _ _ _ H1 H2) as H12. destruct (draw_only_side _ _ _ H12) as (_ & Hw2 & Hh2).
  apply (HQ u); [by eapply draw_only_rel|done|by rewrite Hw2, Hw|by rewrite Hh2, Hh].
Qed.

Lemma wp_same_run {A} (m m' : M game A) (Q : A → game → Prop) g g' : m g = m' g' → wp m' Q g' → wp m Q g.
Proof. unfold wp. by intros ->. Qed.

Lemma wp_run_unit (m : M game unit) (Q : game → Prop) g : wp m (λ _, Q) g → ∃ g', m g = Ret (tt, g') ∧ Q g'.
Proof. intros ([] & g' & Hr & HQ)%wp_run. by exists g'. Qed.

(** ** The loop of the game *)

Lemma steer_head k a : head_pos (steer k a) = head_pos a.
Proof.
  unfold steer, head_pos. destruct (key_dir k); [|done]. destruct (body a) as [|[p e] b] eqn:Hb; [by rewrite Hb|].
  case_decide; [by rewrite Hb|done].
Qed.

Lemma steer_picture k a p : snake_wf a → picture (steer k a) p = picture a p.
Proof.
  intros Hwf. unfold picture. rewrite steer_head. case_decide as Hp; [done|]. f_equal.
  unfold steer. destruct (key_dir k) as [d|]; [|done].
  destruct (head_facts a Hwf) as (h & e & b & Hb & Hh & _ & Hw & _). rewrite Hb.
  case_decide; [done|]. rewrite (board_turn a h d e b Hb Hw). apply upd_ne. congruence.
Qed.

(** A step of the game on a screen that is right. *)
Lemma step_game_spec k a u g :
  snake_wf a → game_rel a u g → screen_ok a u g → screen_fits g → ¬ quits k →
  match sstep (steer k a) with
  | (Full, _) => step_game k g = Err DivByZero
  | (st, a') =>
      wp (step_game k) (λ r g', r = (if decide (st = Playing) then 1 else 0)%Z ∧
        ∃ u', snake_wf a' ∧ game_rel a' u' g' ∧ screen_ok a' u' g' ∧ board_shown a' g' ∧ sw g' = sw g ∧ sh g' = sh g) g
  end.
Proof.
  intros Hwf Hrel Hok Hfit Hnq.
  pose proof (step_key_spec a u g k Hwf Hrel) as Hk. rewrite bool_decide_true, decide_False in Hk by done.
  apply wp_run_ret in Hk as (g1 & Hrun & Hrel1 & Hd1 & Hw1 & Hh1).
  pose proof (steer_wf k a Hwf) as Hwf1. pose proof (step_game_do_spec _ _ _ Hwf1 Hrel1) as Hdo.
  assert (Hstep : step_game k g = (ret ← step_game_do; show;; mret ret) g1).
  { unfold step_game. by rewrite (bind_run _ _ _ _ _ Hrun). }
  assert (Hplay : ∀ st a', sstep (steer k a) = (st, a') → snake_wf a' →
    wp step_game_do (λ r g', r = (if decide (st = Playing) then 1 else 0)%Z ∧
        ∃ u', game_rel a' u' g' ∧ marks_kept (steer k a) a' u u' ∧ same_screen g1 g') g1 →
    wp (step_game k) (λ r g', r = (if decide (st = Playing) then 1 else 0)%Z ∧
        ∃ u', snake_wf a' ∧ game_rel a' u' g' ∧ screen_ok a' u' g' ∧ board_shown a' g' ∧ sw g' = sw g ∧ sh g' = sh g) g).
  { intros st a' _ Hwf' Hst. apply (wp_same_run _ _ _ _ _ Hstep).
    wp_step. eapply wp_mono; [exact Hst|]. intros r g2 (-> & u2 & Hrel2 & Hmk & Hd2 & Hw2 & Hh2).
    assert (Hwg : sw g2 = sw g) by congruence. assert (Hhg : sh g2 = sh g) by congruence.
    pose proof (screen_fits_size _ _ Hwg Hhg Hfit) as (? & ? & _ & _).
    wp_step. apply (wp_show a' u2); [done|done| |done|done|].
    - intros p Hp Hu2. destruct (Hmk p Hp Hu2) as [Hu Hpic]. rewrite Hpic, steer_picture, Hd2, Hd1 by done.
      replace (SIDE g2) with (SIDE g) by (unfold SIDE; by rewrite Hwg, Hhg). by apply Hok.
    - intros u3 g3 Hrel3 Hok3 Hb3 Hw3 Hh3. wp_step. split; [done|]. exists u3. split_and!; [assumption..|congruence|congruence]. }
  destruct (sstep (steer k a)) as [[] a'] eqn:Hss.
  - apply (Hplay Playing a' eq_refl); [by eapply sstep_wf|done].
  - apply (Hplay Over a' eq_refl); [|done]. apply sstep_over in Hss. by subst a'.
  - rewrite Hstep. by apply bind_err.
Qed.

Lemma game_loop_plays ks a u g :
  snake_wf a → game_rel a u g → screen_ok a u g → screen_fits g →
  match splay ks a with
  | (Full, _) => game_loop ks g = Err DivByZero
  | (_, a') => wp (game_loop ks) (λ _ g', snake_wf a' ∧ (∃ u', game_rel a' u' g') ∧
      (board_shown a g ∨ (∃ k ks', ks = k :: ks' ∧ ¬ quits k) → board_shown a' g')) g
  end.
Proof.
  revert a u g. induction ks as [|k ks IH]; intros a u g Hwf Hrel Hok Hfit; cbn [splay].
  { apply wp_ret. split; [done|]. split; [by exists u|]. intros [?|(? & ? & ? & _)]; done. }
  destruct (decide (quits k)) as [Hq|Hq].
  { pose proof (step_key_spec a u g k Hwf Hrel) as Hk. rewrite bool_decide_false, decide_True in Hk by naive_solver.
    apply wp_run_ret in Hk as (g1 & Hrun & Hrel1 & Hd1 & Hw1 & Hh1).
    apply wp_run. exists tt, g1. split.
    { cbn [game_loop]. erewrite bind_run; [|unfold step_game; by rewrite (bind_run _ _ _ _ _ Hrun)]. done. }
    split; [done|]. split; [by exists u|]. intros [Hb|(? & ? & [= <- <-] & ?)]; [|done].
    intros p Hp. rewrite Hd1. replace (SIDE g1) with (SIDE g) by (unfold SIDE; by rewrite Hw1, Hh1). by apply Hb. }
  pose proof (step_game_spec k a u g Hwf Hrel Hok Hfit Hq) as Hst.
  destruct (sstep (steer k a)) as [[] a1] eqn:Hss; cbn [game_loop].
  - apply wp_run_ret in Hst as (g1 & Hrun & u1 & Hwf1 & Hrel1 & Hok1 & Hb1 & Hw1 & Hh1).
    specialize (IH a1 u1 g1 Hwf1 Hrel1 Hok1 (screen_fits_size _ _ Hw1 Hh1 Hfit)).
    assert (Heq : game_loop (k :: ks) g = game_loop ks g1) by (cbn [game_loop]; by rewrite (bind_run _ _ _ _ _ Hrun)).
    change (r ← step_game k; if decide (r = 0)%Z then mret tt else game_loop ks) with (game_loop (k :: ks)).
    destruct (splay ks a1) as [[] a']; [| |by rewrite Heq]; apply (wp_same_run _ _ _ _ _ Heq);
      (eapply wp_mono; [exact IH|]); intros [] g' (? & ? & Hb); (split; [assumption|]); (split; [assumption|]);
      intros _; apply Hb; by left.
  - apply wp_run_ret in Hst as (g1 & Hrun & u1 & Hwf1 & Hrel1 & Hok1 & Hb1 & Hw1 & Hh1).
    unfold wp. rewrite (bind_run _ _ _ _ _ Hrun). split; [done|]. split; [by exists u1|done].
  - by apply bind_err.
Qed.

(** C33. The snake is played by its rules, and seen: on a screen where the cells
    have a side of 1 to 45 pixels, for every sequence of keys, the program never
    leaves its arrays and reaches a state that represents the position the rules
    reach (a path of distinct cells inside the walls, the food on a free cell,
    the points its growth); after a first step every cell of the board is on the
    screen in the colour of what it holds.  The one failure is the division by
    zero of [gen_apple] when the apple eaten was on the last cell left. *)
Theorem snake_plays w h ks :
  screen_fits (boot_game w h) →
  match splay ks start with
  | (Full, _) => (start_game;; game_loop ks) (boot_game w h) = Err DivByZero
  | (_, a) => ∃ g, (start_game;; game_loop ks) (boot_game w h) = Ret (tt, g) ∧
      snake_wf a ∧ (∃ u, game_rel a u g) ∧
      (match ks with k :: _ => ¬ quits k | [] => False end → board_shown a g)
  end.
Proof.
  intros Hfit.
  assert (Hs : wp start_game (λ _ g, match splay ks start with
    | (Full, _) => game_loop ks g = Err DivByZero
    | (_, a) => wp (game_loop ks) (λ _ g', snake_wf a ∧ (∃ u, game_rel a u g') ∧
        (match ks with k :: _ => ¬ quits k | [] => False end → board_shown a g')) g end) (boot_game w h)).
  { apply wp_start_game; [done|]. intros u g Hrel Hu Hw Hh.
    assert (Hok : screen_ok start u g) by (intros p _ Hp; by destruct Hp).
    pose proof (game_loop_plays ks start u g start_wf Hrel Hok (screen_fits_size (boot_game w h) g Hw Hh Hfit)) as Hl.
    destruct (splay ks start) as [[] a]; [| |done]; (eapply wp_mono; [exact Hl|]);
      intros [] g' (? & ? & Hb); (split; [done|]); (split; [done|]); intros Hk; apply Hb; right;
      destruct ks as [|k ks']; [done|by exists k, ks'|done|by exists k, ks']. }
  destruct (proj1 (wp_run start_game _ _) Hs) as ([] & g & Hrun & Hl). rewrite (bind_run _ _ _ _ _ Hrun).
  destruct (splay ks start) as [[] a]; [by apply wp_run_unit..|done].
Qed.

(** Keys that turn up and back down: the snake goes up, and ends in its second cell. *)
Definition demo_keys : list kbd := [Kbd true (KEY "W"); Kbd true (KEY "S"); Kbd false 0].

Lemma snake_plays_witness :
  screen_fits (boot_game 640 480) ∧
  ∃ a g, splay demo_keys start = (Playing, a) ∧ head_pos a = (17, 20)%Z ∧
    (start_game;; game_loop demo_keys) (boot_game 640 480) = Ret (tt, g) ∧ board_shown a g.
Proof.
  assert (Hfit : screen_fits (boot_game 640 480)) by (unfold screen_fits; vm_compute; repeat split; discriminate).
  split; [exact Hfit|]. pose proof (snake_plays 640 480 demo_keys Hfit) as H.
  assert (Hp : ∃ a, splay demo_keys start = (Playing, a) ∧ head_pos a = (17, 20)%Z).
  { eexists. split; [vm_compute; reflexivity|reflexivity]. }
  destruct Hp as (a & Ha & Hh). rewrite Ha in H. destruct H as (g & Hrun & _ & _ & Hshown).
  exists a, g. split; [exact Ha|]. split; [exact Hh|]. split; [exact Hrun|]. apply Hshown. by intros [_ ?].
Defined.
