(* ===== verification/Pstree.v ===== *)
(** * The process tree (pstree/pstree.c)

    [Tree] holds, for each process, the list of its children in order; a list
    between its two sentinels is the sequence of its nodes, and [None] is a list
    whose sentinels were never allocated.  The host's /proc is what [opendir] and
    [readdir] find there: directories, each with its tasks and their status
    files.  Text is a list of characters; [out] is the standard output. *)
From S2P Require Import Prelude KStdio.
From stdpp Require Import pretty.
From Stdlib Require Import Ascii.

(** ** Data *)

Definition VERSION : Z := 1.
Definition NUMERIC_SORT : Z := 2.
Definition SHOW_PIDS : Z := 4.

Record list_node := ListNode { child_pid : Z; child_name : list ascii }.

Record pstate := PsState {
  Tree : list (option (list list_node));
  dfs_mem : list Z;
  len_mem : list Z;
  out : list ascii;
}.

Definition set_Tree v s := PsState v (dfs_mem s) (len_mem s) (out s).
Definition set_dfs_mem v s := PsState (Tree s) v (len_mem s) (out s).
Definition set_len_mem v s := PsState (Tree s) (dfs_mem s) v (out s).
Definition set_out v s := PsState (Tree s) (dfs_mem s) (len_mem s) v.

Definition TREE_SIZE : nat := Z.to_nat (2 ^ 15).
Definition NAME_SIZE : nat := 64.
Definition DEPTH : nat := 64.
Definition boot_pstate : pstate :=
  PsState (replicate TREE_SIZE None) (replicate DEPTH 0%Z) (replicate DEPTH 0%Z) [].

(** ** Standard library *)

(** [printf]: the number of characters it writes. *)
Definition print (t : list ascii) : M pstate Z :=
  modify (λ s, set_out (out s ++ t) s);; mret (Z.of_nat (length t)).

(** [strcmp(a, b) > 0]: the first difference decides, as unsigned characters. *)
Fixpoint strcmp_gt (a b : list ascii) : bool :=
  match a, b with
  | [], _ => false
  | _ :: _, [] => true
  | x :: a', y :: b' => if decide (x = y) then strcmp_gt a' b' else (N_of_ascii y <? N_of_ascii x)%N
  end.

(** [fgets(buf, n + 1, fp)]: at most [n] characters, up to the end of a line;
    then the characters left. *)
Fixpoint fgets (n : nat) (l : list ascii) : list ascii * list ascii :=
  match n, l with
  | O, _ => ([], l)
  | _, [] => ([], [])
  | S n', c :: l' =>
      if decide (c = "010"%char) then ([c], l')
      else let (t, r) := fgets n' l' in (c :: t, r)
  end.

Definition is_space (c : ascii) : bool :=
  bool_decide (c ∈ ["032"%char; "009"%char; "010"%char; "011"%char; "012"%char; "013"%char]).
Fixpoint skip_space (l : list ascii) : list ascii :=
  match l with c :: l' => if is_space c then skip_space l' else l | [] => [] end.

(** The literal characters of a [fscanf] format. *)
Fixpoint scan_text (t l : list ascii) : option (list ascii) :=
  match t, l with
  | [], _ => Some l
  | x :: t', y :: l' => if decide (x = y) then scan_text t' l' else None
  | _ :: _, [] => None
  end.

(** The digits of a [%d], from the value read so far. *)
Fixpoint scan_digits (l : list ascii) (v : Z) : Z * list ascii :=
  match l with
  | c :: l' => if is_digit c then scan_digits l' (v * 10 + digit_value c)%Z else (v, l)
  | [] => (v, [])
  end.
Definition scan_int (l : list ascii) : option (Z * list ascii) :=
  let l := skip_space l in
  let '(sign, l) := match l with
    | c :: l' => if decide (c = "-"%char) then ((-1)%Z, l') else if decide (c = "+"%char) then (1%Z, l') else (1%Z, l)
    | [] => (1%Z, [])
    end in
  match l with
  | c :: _ => if is_digit c then let (v, r) := scan_digits l 0 in Some (i32 (sign * v), r) else None
  | [] => None
  end.

(** [fscanf(fp, "Tag: %d\n", &x)]. *)
Definition fscanf_int (tag : list ascii) (l : list ascii) : option (Z * list ascii) :=
  l1 ← scan_text tag l; '(v, l2) ← scan_int l1; Some (v, skip_space l2).

(** ** The tree *)

(** [guard_cmp1] and [guard_cmp2] on two nodes that are not the sentinels. *)
Definition guard_cmp1 (p q : list_node) : bool := (child_pid q <? child_pid p)%Z.
Definition guard_cmp2 (p q : list_node) : bool := strcmp_gt (child_name p) (child_name q).

(** [init_node]: [strcpy] into a name of [NAME_SIZE] characters. *)
Definition init_node (pid : Z) (name : list ascii) : M pstate list_node :=
  if decide (length name < NAME_SIZE) then mret (ListNode pid name) else fail OutOfBounds.

(** The loop of [insert_node] and [insert_node_do], from the nodes not passed. *)
Fixpoint insert_walk (cmp : list_node → list_node → bool) (x : list_node) (l : list list_node) : list list_node :=
  match l with
  | [] => [x]
  | y :: l' => if cmp x y then y :: insert_walk cmp x l' else x :: l
  end.

Definition insert_node (ppid pid : Z) (name : list ascii) (cmp : list_node → list_node → bool) : M pstate unit :=
  s ← get;
  l ← deref OutOfBounds (aget (Tree s) ppid);
  x ← init_node pid name;
  t ← deref OutOfBounds (aset (Tree s) ppid (Some (insert_walk cmp x (default [] l))));
  modify (set_Tree t).

(** ** Printing *)

Definition put_dfs_mem (i v : Z) : M pstate unit :=
  s ← get; a ← deref OutOfBounds (aset (dfs_mem s) i v); modify (set_dfs_mem a).
Definition put_len_mem (i v : Z) : M pstate unit :=
  s ← get; a ← deref OutOfBounds (aset (len_mem s) i v); modify (set_len_mem a).

Definition NL : ascii := "010"%char.

(** What the first [printf] of [dfs_print_tree] writes. *)
Definition label (show_pids : bool) (name : list ascii) (root : Z) : list ascii :=
  if show_pids then "-"%char :: name ++ ["("%char] ++ chars (pretty root) ++ [")"%char]
  else "-"%char :: name.

(** The column of an ancestor on a new line: the loop over [j]. *)
Definition print_column (i max_valid : Z) (next_last : bool) : M pstate unit :=
  s ← get;
  n ← deref OutOfBounds (aget (len_mem s) i);
  for_range 0 n (λ j,
    s ← get;
    d ← deref OutOfBounds (aget (dfs_mem s) i);
    m ← deref OutOfBounds (aget (len_mem s) i);
    print [if decide (d ≠ 0 ∧ j = m - 1)%Z
           then if decide (next_last = true ∧ i = max_valid) then "`"%char else "|"%char
           else " "%char];;
    mret tt).

(** [max_valid] after the branch for the last child: the loop tests [dfs_mem[depth]]. *)
Definition undo_max_valid (depth : Z) : M pstate Z :=
  s ← get;
  d ← deref OutOfBounds (aget (dfs_mem s) depth);
  mret (if decide (d ≠ 0 ∧ 0 < depth)%Z then depth - 1 else 0)%Z.

(** The loop over the children, where [dfs] prints the tree of one. *)
Fixpoint dfs_children (dfs : Z → list ascii → Z → Z → M pstate unit) (xs : list list_node) (depth max_valid : Z)
  : M pstate unit :=
  match xs with
  | [] => mret tt
  | x :: xs' =>
      mv ← (match xs' with
            | _ :: _ => put_dfs_mem depth 1;; mret depth
            | [] => put_dfs_mem depth 0;; undo_max_valid depth
            end);
      dfs (child_pid x) (child_name x) (depth + 1)%Z mv;;
      (match xs' with
       | _ :: rest =>
           print [NL];;
           for_range 0 (mv + 1) (λ i, print_column i mv (bool_decide (rest = [])))
       | [] => mret tt
       end);;
      dfs_children dfs xs' depth mv
  end.

Fixpoint dfs_print_tree (fuel : nat) (root : Z) (name : list ascii) (depth max_valid : Z) (show_pids : bool)
  : M pstate unit :=
  match fuel with
  | O => fail OutOfFuel
  | S fuel' =>
      n ← print (label show_pids name root);
      put_len_mem depth n;;
      s ← get;
      l ← deref OutOfBounds (aget (Tree s) root);
      match l with
      | None => mret tt
      | Some xs => dfs_children (λ r nm d mv, dfs_print_tree fuel' r nm d mv show_pids) xs depth max_valid
      end
  end.

(** A level of the recursion indexes the two arrays with its depth. *)
Definition dfs_fuel : nat := S DEPTH.

(** The pid of the tail sentinel is never set: the assertion is taken to fail. *)
Definition print_tree (show_pids : bool) : M pstate unit :=
  print (chars "Process Tree: " ++ [NL]);;
  s ← get;
  l ← deref OutOfBounds (aget (Tree s) 0);
  xs ← deref NullDeref l;
  x ← deref Halt (k ← first_index (λ x, bool_decide (child_pid x = 1%Z)) xs; xs !! k);
  dfs_print_tree dfs_fuel 1 (child_name x) 0 0 show_pids;;
  print [NL];;
  mret tt.

(** ** Reading /proc *)

(** A variable that [fscanf] did not set is indeterminate: a fault. *)
Definition read_proc_status_do (file : option (list ascii)) (cmp : list_node → list_node → bool) : M pstate unit :=
  match file with
  | None => mret tt
  | Some text =>
      let '(temp, l) := fgets 127 text in
      let '(_, l) := fgets 127 l in
      let '(_, l) := fgets 127 l in
      '(tgid, l) ← deref OutOfBounds (fscanf_int (chars "Tgid:") l);
      let '(_, l) := fgets 127 l in
      '(pid, l) ← deref OutOfBounds (fscanf_int (chars "Pid:") l);
      '(ppid, _) ← deref OutOfBounds (fscanf_int (chars "PPid:") l);
      if decide (length temp ≤ 6) then fail OutOfBounds
      else
        let name := drop 6 temp in
        let name := take (length name - 1) name in
        insert_node (if decide (tgid = pid) then ppid else tgid) pid name cmp
  end.

(** An entry of a directory; [A] is what it leads to. *)
Record dirent (A : Type) := Dirent { d_name : list ascii; d_dir : bool; d_content : A }.
Arguments Dirent {A} _ _ _.
Arguments d_name {A} _.
Arguments d_dir {A} _.
Arguments d_content {A} _.

(** A task has a status file, if it can be opened; an entry of /proc has a
    directory of tasks, if it can be opened. *)
Definition task := dirent (option (list ascii)).
Definition process := dirent (option (list task)).

Definition skips {A} (e : dirent A) : bool :=
  bool_decide (d_name e = chars ".") || bool_decide (d_name e = chars "..") || negb (d_dir e).

Definition read_proc_status (tasks : option (list task)) (cmp : list_node → list_node → bool) : M pstate unit :=
  match tasks with
  | None => mret tt
  | Some ts => for_each ts (λ t, if skips t then mret tt else read_proc_status_do (d_content t) cmp)
  end.

Definition version : M pstate Z :=
  print (chars "pstree version 1.0.0" ++ [NL]);;
  print (chars "author: Lanceloia" ++ [NL]);;
  print (chars "email: 3509175458@qq.com" ++ [NL]);;
  print (chars "testing at: Ubuntu 4.18.0" ++ [NL]);;
  print (chars "last update: 2019/2/28" ++ [NL]);;
  mret 0%Z.

Definition execute (proc : option (list process)) (function_flag : Z) : M pstate Z :=
  if decide (Z.land function_flag VERSION ≠ 0)%Z then version
  else match proc with
  | None => print (chars "Error" ++ [NL]);; mret (-1)%Z
  | Some es =>
      for_each es (λ e,
        if skips e then mret tt
        else read_proc_status (d_content e)
               (if decide (Z.land function_flag NUMERIC_SORT ≠ 0)%Z then guard_cmp1 else guard_cmp2));;
      print_tree (bool_decide (Z.land function_flag SHOW_PIDS ≠ 0)%Z);;
      mret 0%Z
  end.

(** ** The command line *)

(** The letters after a single dash. *)
Fixpoint short_flags (l : list ascii) (flag : Z) : option Z :=
  match l with
  | [] => Some flag
  | c :: l' =>
      if decide (c = "p"%char) then short_flags l' (Z.lor flag SHOW_PIDS)
      else if decide (c = "n"%char) then short_flags l' (Z.lor flag NUMERIC_SORT)
      else if decide (c = "V"%char) then short_flags l' (Z.lor flag VERSION)
      else None
  end.

Definition one_arg (a : string) (flag : Z) : option Z :=
  match chars a with
  | "-"%char :: "-"%char :: _ =>
      if decide (a = "--show-pids") then Some (Z.lor flag SHOW_PIDS)
      else if decide (a = "--numeric-sort") then Some (Z.lor flag NUMERIC_SORT)
      else if decide (a = "--version") then Some (Z.lor flag VERSION)
      else None
  | "-"%char :: l => short_flags l flag
  | _ => None
  end.

(** The arguments after the program's name; [None] is the warning's early return. *)
Fixpoint parse_args (argv : list string) (flag : Z) : option Z :=
  match argv with
  | [] => Some flag
  | a :: argv' => flag' ← one_arg a flag; parse_args argv' flag'
  end.

Definition warning : M pstate unit := print (chars "Unsupported operation! " ++ [NL]);; mret tt.

Definition main (proc : option (list process)) (argv : list string) : M pstate Z :=
  match parse_args (drop 1 argv) 0 with
  | None => warning;; mret (-1)%Z
  | Some function_flag => execute proc function_flag
  end.
