(* ===== verification/PstreeProps.v ===== *)
(** * The process tree is drawn

    [pstree_draws]: from the status files of /proc, the program draws the tree in
    which the children of a process are exactly the tasks whose parent it is, in
    the order asked for, by the rules of the drawing [draw]. *)
From S2P Require Import Prelude Insertion KStdio Pstree.
From stdpp Require Import pretty.
From Stdlib Require Import Ascii.
From Stdlib Require Import Sorting.Sorted.

(** ** The drawing of a tree *)

Inductive rtree := RNode (pid : Z) (name : list ascii) (kids : list rtree).

Definition SP : ascii := " "%char.
Definition BAR : ascii := "|"%char.
Definition TICK : ascii := "`"%char.

(** The tree below a process; [None] when it is deeper than [n] or a pid has no
    place in the table. *)
Fixpoint grow (n : nat) (kids : Z → list list_node) (pid : Z) (name : list ascii) : option rtree :=
  match n with
  | O => None
  | S n' =>
      if decide (0 ≤ pid < 2 ^ 15)%Z
      then RNode pid name <$> mapM (λ x, grow n' kids (child_pid x) (child_name x)) (kids pid)
      else None
  end.

(** A node is drawn on the line of its first child; a later child starts a line
    with the columns [pre] of its ancestors. *)
Fixpoint draw (show_pids : bool) (pre : list ascii) (t : rtree) : list ascii :=
  match t with
  | RNode pid name kids =>
      let lab := label show_pids name pid in
      let pre' := pre ++ replicate (length lab - 1) SP in
      lab ++ (fix draw_kids ts := match ts with
        | [] => []
        | [t] => draw show_pids (pre' ++ [SP]) t
        | t :: (t' :: ts'') as ts' =>
            draw show_pids (pre' ++ [BAR]) t ++ [NL] ++ pre' ++
            [match ts'' with [] => TICK | _ :: _ => BAR end] ++ draw_kids ts'
        end) kids
  end.

Fixpoint draw_kids (show_pids : bool) (pre' : list ascii) (ts : list rtree) : list ascii :=
  match ts with
  | [] => []
  | [t] => draw show_pids (pre' ++ [SP]) t
  | t :: (t' :: ts'') as ts' =>
      draw show_pids (pre' ++ [BAR]) t ++ [NL] ++ pre' ++
      [match ts'' with [] => TICK | _ :: _ => BAR end] ++ draw_kids show_pids pre' ts'
  end.

Lemma draw_eq sp pre pid name kids :
  draw sp pre (RNode pid name kids) =
    label sp name pid ++ draw_kids sp (pre ++ replicate (length (label sp name pid) - 1) SP) kids.
Proof.
  cbn [draw]. f_equal. induction kids as [|t [|t' ts] IH]; [done..|].
  cbn [draw_kids]. do 4 f_equal. exact IH.
Qed.

Lemma label_length sp name pid : 1 ≤ length (label sp name pid).
Proof. destruct sp; simpl; lia. Qed.

(** ** The arrays while a node is printed *)

(** A column: its width and whether its process has more children to come. *)
Definition column (c : nat * bool) : list ascii :=
  replicate (c.1 - 1) SP ++ [if c.2 then BAR else SP].
Definition columns (cols : list (nat * bool)) : list ascii := mjoin (column <$> cols).

Record arrays (cols : list (nat * bool)) (s : pstate) : Prop := {
  ar_dfs : length (dfs_mem s) = DEPTH;
  ar_len : length (len_mem s) = DEPTH;
  ar_col : ∀ i n (b : bool), cols !! i = Some (n, b) →
    len_mem s !! i = Some (Z.of_nat n) ∧ dfs_mem s !! i = Some (if b then 1 else 0)%Z ∧ 1 ≤ n;
}.

(** The table holds the children. *)
Definition table (kids : Z → list list_node) (s : pstate) : Prop :=
  length (Tree s) = TREE_SIZE ∧
  ∀ p l, (0 ≤ p)%Z → Tree s !! Z.to_nat p = Some l → default [] l = kids p.

Lemma table_get kids s p :
  table kids s → (0 ≤ p < 2 ^ 15)%Z → ∃ l, aget (Tree s) p = Some l ∧ default [] l = kids p.
Proof.
  intros [Hlen Hk] Hp. unfold aget. rewrite decide_True by lia.
  destruct (Tree s !! Z.to_nat p) as [l|] eqn:Hl; [exists l; split; [done|]; apply Hk; [lia|done]|].
  apply lookup_ge_None_1 in Hl. unfold TREE_SIZE in Hlen. lia.
Qed.

Lemma table_out kids s p : table kids s → ¬ (0 ≤ p < 2 ^ 15)%Z → aget (Tree s) p = None.
Proof.
  intros [Hlen _] Hp. unfold aget. case_decide; [|done]. apply lookup_ge_None_2. unfold TREE_SIZE in Hlen. lia.
Qed.

(** ** What the helpers do *)

Section helpers.
Implicit Types (s : pstate).

Lemma wp_print t s (Q : Z → pstate → Prop) :
  Q (Z.of_nat (length t)) (set_out (out s ++ t) s) → wp (print t) Q s.
Proof. intros HQ. unfold print. by wp_steps. Qed.

Lemma aget_nat {A} (l : list A) (i : nat) : aget l (Z.of_nat i) = l !! i.
Proof. unfold aget. by rewrite decide_True, Nat2Z.id by lia. Qed.

Lemma aset_nat {A} (l : list A) (i : nat) x : i < length l → aset l (Z.of_nat i) x = Some (<[i := x]> l).
Proof. intros Hi. unfold aset. by rewrite decide_True, Nat2Z.id by lia. Qed.

(** One more column is opened at the depth of the node. *)
Lemma arrays_open cols s n (b : bool) :
  arrays cols s → 1 ≤ n → length cols < DEPTH →
  len_mem s !! length cols = Some (Z.of_nat n) →
  arrays (cols ++ [(n, b)]) (set_dfs_mem (<[length cols := (if b then 1 else 0)%Z]> (dfs_mem s)) s).
Proof.
  intros [Hd Hl Hc] Hn Hlt Hlen. split; cbn [dfs_mem len_mem set_dfs_mem]; [by rewrite length_insert|done|].
  intros i m c Hi. destruct (decide (i = length cols)) as [->|Hne].
  - rewrite list_lookup_middle in Hi by done. injection Hi as <- <-.
    split; [done|]. split; [|done]. apply list_lookup_insert_eq. lia.
  - assert (i < length cols).
    { apply lookup_lt_Some in Hi. rewrite length_app in Hi. simpl in Hi. lia. }
    rewrite lookup_app_l in Hi by done. rewrite list_lookup_insert_ne by done. by apply Hc.
Qed.

Lemma arrays_prefix cols c s : arrays (cols ++ [c]) s → arrays cols s.
Proof. intros [Hd Hl Hc]. split; [done..|]. intros i n b Hi. apply Hc. by apply lookup_app_l_Some. Qed.

Lemma arrays_len cols n b s : arrays (cols ++ [(n, b)]) s → len_mem s !! length cols = Some (Z.of_nat n).
Proof. intros [_ _ Hc]. eapply Hc. by apply list_lookup_middle. Qed.

Lemma arrays_out cols s o : arrays cols s → arrays cols (set_out o s).
Proof. intros [Hd Hl Hc]. by split. Qed.

(** A column is printed as spaces and its mark. *)
Lemma wp_print_column cols s i n (b : bool) mv nl (Q : unit → pstate → Prop) :
  arrays cols s → cols !! i = Some (n, b) →
  Q tt (set_out (out s ++ replicate (n - 1) SP ++
         [if b then if decide (nl = true ∧ Z.of_nat i = mv) then TICK else BAR else SP]) s) →
  wp (print_column (Z.of_nat i) mv nl) Q s.
Proof.
  intros [_ _ Hc] Hi HQ. destruct (Hc i n b Hi) as (Hlen & Hdfs & Hn).
  set (c := if b then if decide (nl = true ∧ Z.of_nat i = mv) then TICK else BAR else SP) in *.
  unfold print_column. wp_step. wp_step. wp_step. rewrite aget_nat.
  eapply wp_deref; [exact Hlen|].
  eapply wp_mono; [apply (wp_for_range (λ j s', s' = set_out (out s ++ take (Z.to_nat j) (replicate (n - 1) SP ++ [c])) s))|].
  - lia.
  - cbn. rewrite app_nil_r. by destruct s.
  - intros j s' Hj ->. wp_step. wp_step. wp_step. rewrite aget_nat. eapply wp_deref; [exact Hdfs|].
    wp_step. rewrite aget_nat. eapply wp_deref; [exact Hlen|]. wp_step. apply wp_print. wp_step.
    cbn [out set_out]. replace (Z.to_nat (j + 1)) with (S (Z.to_nat j)) by lia.
    erewrite take_S_r; [unfold set_out; cbn [Tree dfs_mem len_mem out]; by rewrite (assoc_L (++))|].
    destruct (decide (j = Z.of_nat n - 1)%Z) as [->|Hne].
    + rewrite lookup_app_r by (rewrite length_replicate; lia). rewrite length_replicate.
      replace (Z.to_nat (Z.of_nat n - 1) - (n - 1)) with 0 by lia. simpl. f_equal. unfold c.
      destruct b.
      * by rewrite (decide_True (P := _ ∧ (Z.of_nat n - 1)%Z = _)).
      * by rewrite (decide_False (P := _ ∧ (Z.of_nat n - 1)%Z = _)) by (intros [Hx _]; by apply Hx).
    + rewrite lookup_app_l by (rewrite length_replicate; lia). rewrite decide_False by (intros [_ ?]; done).
      apply lookup_replicate_2. lia.
  - intros [] s' ->. rewrite take_ge; [exact HQ|]. rewrite length_app, length_replicate. simpl. lia.
Qed.
End helpers.

Lemma columns_snoc cols n (b : bool) :
  columns (cols ++ [(n, b)]) = (columns cols ++ replicate (n - 1) SP) ++ [if b then BAR else SP].
Proof. unfold columns. rewrite fmap_app, join_app. cbn. by rewrite app_nil_r, (assoc_L (++)). Qed.

(** The columns before a child that is not the first. *)
Lemma wp_new_line cols s n (nl : bool) (Q : unit → pstate → Prop) :
  arrays (cols ++ [(n, true)]) s →
  Q tt (set_out (out s ++ columns cols ++ replicate (n - 1) SP ++ [if nl then TICK else BAR]) s) →
  wp (for_range 0 (Z.of_nat (length cols) + 1) (λ i, print_column i (Z.of_nat (length cols)) nl)) Q s.
Proof.
  intros Har HQ. set (strs := (column <$> cols) ++ [replicate (n - 1) SP ++ [if nl then TICK else BAR]]).
  eapply wp_mono; [apply (wp_for_range (λ i s', s' = set_out (out s ++ mjoin (take (Z.to_nat i) strs)) s))|].
  - lia.
  - cbn. rewrite app_nil_r. by destruct s.
  - intros i s' Hi ->. rewrite <-(Z2Nat.id i) at 1 by lia. set (k := Z.to_nat i).
    replace (Z.to_nat (i + 1)) with (S k) by lia.
    destruct ((cols ++ [(n, true)]) !! k) as [[m b]|] eqn:Hk.
    2: { apply lookup_ge_None_1 in Hk. rewrite length_app in Hk. simpl in Hk. lia. }
    eapply (wp_print_column (cols ++ [(n, true)])); [by apply arrays_out|exact Hk|].
    cbn [out set_out]. erewrite take_S_r; [rewrite join_app|].
    { cbn [mjoin list_join]. unfold set_out. cbn [Tree dfs_mem len_mem out]. rewrite app_nil_r, <-(assoc_L (++)). reflexivity. }
    unfold strs. destruct (decide (k = length cols)) as [Hkl|Hkl].
    + rewrite Hkl, list_lookup_middle in Hk by done. injection Hk as <- <-.
      rewrite Hkl, list_lookup_middle by by rewrite length_fmap. do 2 f_equal.
      destruct nl; [by rewrite decide_True|by rewrite decide_False by (by intros [? _])].
    + assert (k < length cols) by lia. rewrite lookup_app_l in Hk by done.
      rewrite lookup_app_l, list_lookup_fmap, Hk by by rewrite length_fmap. cbn. unfold column. cbn. do 3 f_equal.
      destruct b; [|done]. by rewrite decide_False by (intros [_ ?]; lia).
  - intros [] s' ->. rewrite take_ge by (unfold strs; rewrite length_app, length_fmap; simpl; lia).
    unfold strs. rewrite join_app. cbn [mjoin list_join]. by rewrite app_nil_r.
Qed.

(** A computation that succeeds with what an option holds, or leaves an array. *)
Definition outcome {R} (o : option R) (m : M pstate unit) (P : R → pstate → Prop) (s : pstate) : Prop :=
  match o with Some r => wp m (λ _, P r) s | None => m s = Err OutOfBounds end.

Lemma outcome_bind {R R'} (o : option R) (m : M pstate unit) (k : unit → M pstate unit)
    (f : R → option R') (P : R → pstate → Prop) (P' : R' → pstate → Prop) s :
  outcome o m P s → (∀ r s', o = Some r → P r s' → outcome (f r) (k tt) P' s') →
  outcome (o ≫= f) (m ≫= k) P' s.
Proof.
  intros Hm Hk. destruct o as [r|]; cbn in *; [|by apply bind_err].
  apply wp_run in Hm as ([] & s' & Hrun & HP). specialize (Hk r s' eq_refl HP).
  destruct (f r); cbn in *; [unfold wp|]; by rewrite (bind_run _ _ _ _ _ Hrun).
Qed.

Lemma outcome_step {A R} (m : M pstate A) (k : A → M pstate unit) (o : option R) (P : R → pstate → Prop) s :
  wp m (λ a s', outcome o (k a) P s') s → outcome o (m ≫= k) P s.
Proof.
  intros (a & s' & Hrun & Hk)%wp_run. destruct o; cbn in *; [unfold wp|]; by rewrite (bind_run _ _ _ _ _ Hrun).
Qed.

Lemma bind_Some_id {A} (o : option A) : o ≫= Some = o.
Proof. by destruct o. Qed.

Section draws.
Context (kids : Z → list list_node) (sp : bool).

(** What printing a node at the depth of [cols] does. *)
Definition prints (n : nat) (dfs : Z → list ascii → Z → Z → M pstate unit) : Prop :=
  ∀ cols s pid name mv, length cols + n = DEPTH → arrays cols s → table kids s →
  outcome (grow n kids pid name) (dfs pid name (Z.of_nat (length cols)) mv)
    (λ t s', Tree s' = Tree s ∧ arrays cols s' ∧ out s' = out s ++ draw sp (columns cols) t) s.

Lemma table_eq s s' : Tree s' = Tree s → table kids s → table kids s'.
Proof. unfold table. by intros ->. Qed.

Lemma wp_put_dfs_mem cols s n (b : bool) (Q : unit → pstate → Prop) :
  arrays cols s → 1 ≤ n → length cols < DEPTH → len_mem s !! length cols = Some (Z.of_nat n) →
  (∀ s', Tree s' = Tree s → out s' = out s → arrays (cols ++ [(n, b)]) s' → Q tt s') →
  wp (put_dfs_mem (Z.of_nat (length cols)) (if b then 1 else 0)%Z) Q s.
Proof.
  intros Har Hn Hlt Hlen HQ. unfold put_dfs_mem. wp_step. wp_step. wp_step.
  rewrite aset_nat by (by rewrite (ar_dfs _ _ Har)). wp_step. wp_step. apply HQ; [done..|]. by apply arrays_open.
Qed.

Lemma wp_undo cols n s (Q : Z → pstate → Prop) :
  arrays (cols ++ [(n, false)]) s → Q 0%Z s → wp (undo_max_valid (Z.of_nat (length cols))) Q s.
Proof.
  intros [_ _ Hc] HQ. unfold undo_max_valid. wp_step. wp_step. wp_step. rewrite aget_nat.
  eapply wp_deref; [by eapply Hc, list_lookup_middle|]. wp_step. by rewrite decide_False by (intros [Hx _]; by apply Hx).
Qed.

Lemma dfs_children_prints n dfs : prints n dfs →
  ∀ xs cols s w mv, length cols + S n = DEPTH → arrays cols s → table kids s →
  len_mem s !! length cols = Some (Z.of_nat w) → 1 ≤ w →
  outcome (mapM (λ x, grow n kids (child_pid x) (child_name x)) xs)
    (dfs_children dfs xs (Z.of_nat (length cols)) mv)
    (λ ts s', Tree s' = Tree s ∧ arrays cols s' ∧
       out s' = out s ++ draw_kids sp (columns cols ++ replicate (w - 1) SP) ts) s.
Proof.
  intros Hdfs xs. induction xs as [|x xs IH]; intros cols s w mv Hd Har Htab Hw Hw1; cbn [dfs_children mapM].
  { cbn. apply wp_ret. split; [done|]. split; [done|]. by rewrite app_nil_r. }
  set (last := match xs with [] => true | _ :: _ => false end).
  apply outcome_step.
  assert (Hmark : wp (match xs with
      | _ :: _ => put_dfs_mem (Z.of_nat (length cols)) 1;; mret (Z.of_nat (length cols))
      | [] => put_dfs_mem (Z.of_nat (length cols)) 0;; undo_max_valid (Z.of_nat (length cols)) end)
    (λ v s', (last = false → v = Z.of_nat (length cols)) ∧ Tree s' = Tree s ∧ out s' = out s ∧
      arrays (cols ++ [(w, negb last)]) s') s).
  { destruct xs as [|x' xs']; cbn [last] in *; wp_step.
    - apply (wp_put_dfs_mem cols _ w false); [done|done|lia|done|]. intros s' HT Ho Ha.
      by apply (wp_undo _ w).
    - apply (wp_put_dfs_mem cols _ w true); [done|done|lia|done|]. intros s' HT Ho Ha. by wp_step. }
  eapply wp_mono; [exact Hmark|]. clear Hmark. intros v s1 (Hv & HT1 & Ho1 & Ha1).
  replace (Z.of_nat (length cols) + 1)%Z with (Z.of_nat (length (cols ++ [(w, negb last)])))
    by (rewrite length_app; simpl; lia).
  apply (outcome_bind (grow n kids (child_pid x) (child_name x)) _ _
    (λ t, ts ← mapM (λ x, grow n kids (child_pid x) (child_name x)) xs; Some (t :: ts)) _ _ _
    (Hdfs (cols ++ [(w, negb last)]) s1 (child_pid x) (child_name x) v ltac:(rewrite length_app; simpl; lia) Ha1 (table_eq _ _ HT1 Htab))).
  intros t s2 _ (HT2 & Ha2 & Ho2). rewrite columns_snoc in Ho2.
  assert (HT : Tree s2 = Tree s) by congruence. pose proof (table_eq _ _ HT Htab) as Htab2.
  destruct xs as [|x' xs']; cbn [negb last] in *.
  { cbn. apply wp_bind, wp_ret, wp_ret. split; [done|]. split; [by eapply arrays_prefix|].
    cbn [draw_kids]. by rewrite Ho2, Ho1. }
  rewrite Hv by done. apply outcome_step. wp_step. apply wp_print. apply (wp_new_line cols _ w); [by apply arrays_out|].
  cbn [out set_out]. match goal with |- outcome _ _ _ ?s => set (s3 := s) end.
  assert (Ha3 : arrays (cols ++ [(w, true)]) s3) by (by do 2 apply arrays_out).
  pose proof (IH cols s3 w (Z.of_nat (length cols)) Hd (arrays_prefix _ _ _ Ha3) Htab2 (arrays_len _ _ _ _ Ha3) Hw1) as Hrest.
  change (dfs_children dfs (x' :: xs') ?d ?m) with (dfs_children dfs (x' :: xs') d m).
  destruct (mapM (λ x, grow n kids (child_pid x) (child_name x)) (x' :: xs')) as [ts|] eqn:Hts; [|exact Hrest].
  cbn. eapply wp_mono; [exact Hrest|]. intros [] s4 (HT4 & Ha4 & Ho4). split; [by rewrite HT4|]. split; [done|].
  rewrite Ho4. unfold s3. cbn [out set_out]. rewrite Ho2, Ho1.
  destruct ts as [|t' ts]; [by apply mapM_Some, Forall2_length in Hts|].
  cbn [draw_kids]. rewrite <-!(assoc_L (++)). do 6 f_equal.
  apply mapM_Some, Forall2_length in Hts. destruct xs', ts; done.
Qed.

Lemma arrays_set_len cols s n :
  arrays cols s → length cols < DEPTH →
  arrays cols (set_len_mem (<[length cols := n]> (len_mem s)) s).
Proof.
  intros [Hd Hl Hc] Hlt. split; cbn [dfs_mem len_mem set_len_mem]; [done|by rewrite length_insert|].
  intros i m b Hi. rewrite list_lookup_insert_ne; [by apply Hc|]. apply lookup_lt_Some in Hi. lia.
Qed.

Lemma dfs_print_tree_S fuel root name depth mv :
  dfs_print_tree (S fuel) root name depth mv sp =
    (n ← print (label sp name root);
     put_len_mem depth n;;
     s ← get;
     l ← deref OutOfBounds (aget (Tree s) root);
     match l with
     | None => mret tt
     | Some xs => dfs_children (λ r nm d mv, dfs_print_tree fuel r nm d mv sp) xs depth mv
     end).
Proof. done. Qed.

(** Every level of the recursion prints its tree, or leaves the arrays at the
    same place as the tree leaves the depth allowed. *)
Lemma dfs_print_tree_prints n : prints n (λ r nm d mv, dfs_print_tree (S n) r nm d mv sp).
Proof.
  induction n as [|n IH]; intros cols s pid name mv Hd Har Htab; cbn beta; rewrite dfs_print_tree_S; cbn [grow].
  { cbn. erewrite bind_run by done. unfold put_len_mem. apply bind_err. erewrite bind_run by done.
    apply bind_err. unfold aset. rewrite decide_False; [done|]. cbn. rewrite (ar_len _ _ Har). lia. }
  set (lab := label sp name pid). set (s1 := set_len_mem (<[length cols := Z.of_nat (length lab)]> (len_mem s)) (set_out (out s ++ lab) s)).
  assert (Hlt : length cols < DEPTH) by lia.
  assert (Har1 : arrays cols s1) by (by apply (arrays_set_len cols (set_out (out s ++ lab) s)), Hlt; apply arrays_out).
  assert (Hput : wp (n0 ← print lab; put_len_mem (Z.of_nat (length cols)) n0) (λ _ s', s' = s1) s).
  { wp_step. apply wp_print. unfold put_len_mem. do 3 wp_step. rewrite aset_nat by (cbn; by rewrite (ar_len _ _ Har)).
    by do 2 wp_step. }
  assert (Hrun : ∀ k : M pstate unit, (n0 ← print lab; put_len_mem (Z.of_nat (length cols)) n0;; k) s = k s1).
  { intros k. apply wp_run in Hput as ([] & s' & Hr & ->). revert Hr. unfold mbind, M_bind.
    destruct (print lab s) as [[v s2]|]; [|done]. by intros ->. }
  assert (Hlen : len_mem s1 !! length cols = Some (Z.of_nat (length lab))).
  { cbn. apply list_lookup_insert_eq. by rewrite (ar_len _ _ Har). }
  assert (Htab1 : table kids s1) by done. fold lab.
  destruct (decide (0 ≤ pid < 2 ^ 15)%Z) as [Hp|Hp].
  2: { cbn [outcome]. rewrite Hrun. rewrite (bind_run get _ _ s1 s1) by done. rewrite (table_out _ _ _ Htab1 Hp). by apply bind_err. }
  destruct (table_get _ _ _ Htab1 Hp) as (l & Hl & Hk).
  assert (Hk' : ∀ k : option (list list_node) → M pstate unit,
    (n0 ← print lab; put_len_mem (Z.of_nat (length cols)) n0;; s ← get; l ← deref OutOfBounds (aget (Tree s) pid); k l) s = k l s1).
  { intros k. rewrite Hrun. rewrite (bind_run get _ _ s1 s1) by done. by rewrite Hl. }
  pose proof (dfs_children_prints n _ IH (kids pid) cols s1 (length lab) mv Hd Har1 Htab1 Hlen (label_length _ _ _)) as Hc.
  assert (Hbody : (match l with None => mret tt | Some xs => dfs_children (λ r nm d mv, dfs_print_tree (S n) r nm d mv sp) xs (Z.of_nat (length cols)) mv end) s1
    = dfs_children (λ r nm d mv, dfs_print_tree (S n) r nm d mv sp) (kids pid) (Z.of_nat (length cols)) mv s1).
  { rewrite <-Hk. by destruct l. }
  destruct (mapM (λ x, grow n kids (child_pid x) (child_name x)) (kids pid)) as [ts|]; cbn -[dfs_print_tree draw draw_kids] in Hc |- *.
  - unfold wp. rewrite Hk'. cbn beta. rewrite Hbody. eapply wp_mono; [exact Hc|]. intros [] s2 (HT & Ha & Ho).
    split; [by rewrite HT|]. split; [done|]. rewrite Ho, draw_eq. cbn. by rewrite <-(assoc_L (++)).
  - rewrite Hk'. cbn beta. by rewrite Hbody.
Qed.
End draws.

(** ** The table is filled *)

(** What the status file of a task says. *)
Record stat := Stat { st_name : list ascii; st_tgid : Z; st_pid : Z; st_ppid : Z }.
Definition parent (st : stat) : Z := if decide (st_tgid st = st_pid st) then st_ppid st else st_tgid st.
Definition node_of (st : stat) : list_node := ListNode (st_pid st) (st_name st).

(** A task that the table has room for. *)
Definition stat_ok (st : stat) : Prop := (0 ≤ parent st < 2 ^ 15)%Z ∧ length (st_name st) < NAME_SIZE.

Section fills.
Context (cmp : list_node → list_node → bool).

Definition kids_add (kids : Z → list list_node) (st : stat) : Z → list list_node := λ p,
  if decide (p = parent st) then insert_walk cmp (node_of st) (kids p) else kids p.

(** The part of the state that reading does not touch. *)
Definition same_print (s s' : pstate) : Prop := dfs_mem s' = dfs_mem s ∧ len_mem s' = len_mem s ∧ out s' = out s.

Lemma insert_node_spec kids s st :
  table kids s → stat_ok st →
  wp (insert_node (parent st) (st_pid st) (st_name st) cmp)
    (λ _ s', table (kids_add kids st) s' ∧ same_print s s') s.
Proof.
  intros Htab [Hp Hn]. destruct (table_get _ _ _ Htab Hp) as (l & Hl & Hk). unfold insert_node.
  wp_step. wp_step. wp_step. eapply wp_deref; [exact Hl|]. wp_step. unfold init_node.
  rewrite decide_True by done. wp_step. wp_step.
  destruct Htab as [Hlen Htab]. eapply wp_deref.
  { unfold aset. rewrite decide_True; [done|]. unfold TREE_SIZE in Hlen. lia. }
  wp_step. split; [|done]. split; cbn [Tree set_Tree]; [by rewrite length_insert|].
  intros p l' Hp0 Hl'. unfold kids_add. destruct (decide (p = parent st)) as [->|Hne].
  - rewrite list_lookup_insert_eq in Hl' by (unfold TREE_SIZE in Hlen; lia). injection Hl' as <-. cbn. by rewrite Hk.
  - rewrite list_lookup_insert_ne in Hl' by lia. by apply Htab.
Qed.
End fills.

(** ** The text of a status file *)

Definition TAB : ascii := "009"%char.
Definition one_line (l : list ascii) : Prop := NL ∉ l ∧ length l < 120.
Definition is_decimal (d : list ascii) (v : Z) : Prop :=
  d ≠ [] ∧ Forall (λ c, is_digit c = true) d ∧ foldl (λ v c, v * 10 + digit_value c)%Z 0%Z d = v ∧ (0 ≤ v < 2 ^ 31)%Z.
Definition starts (l : list ascii) : Prop := match l with c :: _ => is_space c = false | [] => False end.

Inductive status_text (st : stat) : list ascii → Prop :=
  status_intro l2 l3 l5 d1 d2 d3 rest :
    one_line (st_name st) → one_line l2 → one_line l3 → one_line l5 → starts l5 →
    is_decimal d1 (st_tgid st) → is_decimal d2 (st_pid st) → is_decimal d3 (st_ppid st) →
    status_text st
      (chars "Name:" ++ TAB :: st_name st ++ NL :: l2 ++ NL :: l3 ++ NL ::
       chars "Tgid:" ++ TAB :: d1 ++ NL :: l5 ++ NL ::
       chars "Pid:" ++ TAB :: d2 ++ NL :: chars "PPid:" ++ TAB :: d3 ++ NL :: rest).

Lemma fgets_one_line n l r : NL ∉ l → length l < n → fgets n (l ++ NL :: r) = (l ++ [NL], r).
Proof.
  revert n. induction l as [|c l IH]; intros n Hl Hn; (destruct n as [|n]; [simpl in Hn; lia|]); cbn [fgets app].
  - by rewrite decide_True.
  - apply not_elem_of_cons in Hl as [Hc Hl]. rewrite decide_False by (intros ->; done).
    by rewrite IH by (done || (simpl in Hn; lia)).
Qed.

Lemma scan_digits_app d r v :
  Forall (λ c, is_digit c = true) d →
  scan_digits (d ++ NL :: r) v = (foldl (λ v c, v * 10 + digit_value c)%Z v d, NL :: r).
Proof. intros Hd. revert v. induction Hd as [|c d Hc _ IH]; intros v; [done|]. cbn. by rewrite Hc, IH. Qed.

Lemma digit_plain c : is_digit c = true → is_space c = false ∧ c ≠ "-"%char ∧ c ≠ "+"%char.
Proof. destruct c as [[] [] [] [] [] [] [] []]; vm_compute; intros ?; repeat split; congruence. Qed.

Lemma scan_text_app t r : scan_text t (t ++ r) = Some r.
Proof. induction t as [|c t IH]; [done|]. cbn. by rewrite decide_True. Qed.

Lemma fscanf_int_spec tag d v r :
  is_decimal d v → fscanf_int tag (tag ++ TAB :: d ++ NL :: r) = Some (v, skip_space r).
Proof.
  intros (Hne & Hd & Hv & Hb). unfold fscanf_int. rewrite scan_text_app. cbn [mbind option_bind].
  destruct d as [|c d]; [done|]. pose proof (Forall_inv Hd) as Hc. cbn beta in Hc.
  destruct (digit_plain _ Hc) as (Hs & Hm & Hp).
  unfold scan_int. change (skip_space (TAB :: (c :: d) ++ NL :: r)) with (skip_space ((c :: d) ++ NL :: r)).
  cbn [skip_space app]. rewrite Hs. rewrite !decide_False by done. rewrite Hc.
  change (c :: d ++ NL :: r) with ((c :: d) ++ NL :: r). rewrite scan_digits_app by done.
  rewrite Hv, Z.mul_1_l, i32_small by lia. cbn [mbind option_bind].
  change (skip_space (NL :: r)) with (skip_space r). done.
Qed.

Lemma skip_starts l r : starts l → skip_space (l ++ r) = l ++ r.
Proof. destruct l as [|c l]; [done|]. cbn. by intros ->. Qed.

Lemma read_status st text cmp s :
  status_text st text →
  read_proc_status_do (Some text) cmp s = insert_node (parent st) (st_pid st) (st_name st) cmp s.
Proof.
  intros [l2 l3 l5 d1 d2 d3 rest [Hn1 Hn2] [H21 H22] [H31 H32] [H51 H52] Hs5 Hd1 Hd2 Hd3].
  unfold read_proc_status_do.
  replace (chars "Name:" ++ TAB :: st_name st ++ NL :: l2 ++ NL :: l3 ++ NL ::
       chars "Tgid:" ++ TAB :: d1 ++ NL :: l5 ++ NL ::
       chars "Pid:" ++ TAB :: d2 ++ NL :: chars "PPid:" ++ TAB :: d3 ++ NL :: rest)
    with ((chars "Name:" ++ TAB :: st_name st) ++ NL :: l2 ++ NL :: l3 ++ NL ::
       chars "Tgid:" ++ TAB :: d1 ++ NL :: l5 ++ NL ::
       chars "Pid:" ++ TAB :: d2 ++ NL :: chars "PPid:" ++ TAB :: d3 ++ NL :: rest) by done.
  rewrite fgets_one_line; [| |simpl; lia].
  2: { rewrite elem_of_app. intros [H|[H|H]%elem_of_cons]; [|done..]. revert H. apply (bool_decide_unpack _). by vm_compute. }
  rewrite fgets_one_line, fgets_one_line by (done || lia).
  rewrite (fscanf_int_spec (chars "Tgid:") d1 _ _ Hd1).
  rewrite (bind_run (deref _ (Some _)) _ s _ s eq_refl).
  rewrite skip_starts, fgets_one_line by (done || lia).
  rewrite (fscanf_int_spec (chars "Pid:") d2 _ _ Hd2).
  rewrite (bind_run (deref _ (Some _)) _ s _ s eq_refl).
  rewrite (skip_starts (chars "PPid:")) by done.
  rewrite (fscanf_int_spec (chars "PPid:") d3 _ _ Hd3).
  rewrite (bind_run (deref _ (Some _)) _ s _ s eq_refl).
  assert (Hnm : drop 6 ((chars "Name:" ++ TAB :: st_name st) ++ [NL]) = st_name st ++ [NL]) by done.
  rewrite decide_False by (rewrite length_app; simpl; lia).
  rewrite Hnm, length_app. cbn [length]. replace (length (st_name st) + 1 - 1) with (length (st_name st)) by lia.
  by rewrite take_app_length.
Qed.

(** ** All of /proc *)

(** The status files that are read, in the order of the directories. *)
Inductive tasks_read : list task → list stat → Prop :=
  | tasks_nil : tasks_read [] []
  | tasks_skip t ts sts : skips t = true ∨ d_content t = None → tasks_read ts sts → tasks_read (t :: ts) sts
  | tasks_cons t ts st sts text :
      skips t = false → d_content t = Some text → status_text st text →
      tasks_read ts sts → tasks_read (t :: ts) (st :: sts).

Inductive procs_read : list process → list stat → Prop :=
  | procs_nil : procs_read [] []
  | procs_skip e es sts : skips e = true ∨ d_content e = None → procs_read es sts → procs_read (e :: es) sts
  | procs_cons e es ts sts sts' :
      skips e = false → d_content e = Some ts → tasks_read ts sts →
      procs_read es sts' → procs_read (e :: es) (sts ++ sts').

Section reads.
Context (cmp : list_node → list_node → bool).

Lemma same_print_trans s1 s2 s3 : same_print s1 s2 → same_print s2 s3 → same_print s1 s3.
Proof. unfold same_print. intros (-> & -> & ->) (-> & -> & ->). done. Qed.

Lemma tasks_read_table ts sts : tasks_read ts sts → Forall stat_ok sts → ∀ kids s, table kids s →
  wp (for_each ts (λ t, if skips t then mret tt else read_proc_status_do (d_content t) cmp))
    (λ _ s', table (foldl (kids_add cmp) kids sts) s' ∧ same_print s s') s.
Proof.
  induction 1 as [|t ts sts Hsk Hts IH|t ts st sts text Hsk Hc Hst Hts IH]; intros Hok kids s Htab; cbn [for_each].
  - by wp_step.
  - wp_step. destruct (skips t) eqn:Hs; [wp_step; by apply IH|].
    destruct Hsk as [?|Hc]; [done|]. rewrite Hc. cbn [read_proc_status_do]. wp_step. by apply IH.
  - apply Forall_cons in Hok as [Hst' Hok]. wp_step. rewrite Hsk, Hc. unfold wp.
    rewrite (read_status st text cmp s Hst). eapply wp_mono; [by apply insert_node_spec|].
    intros [] s' [Htab' Hsame]. eapply wp_mono; [by apply (IH Hok _ _ Htab')|].
    intros [] s'' [? Hsame']. split; [done|]. by eapply same_print_trans.
Qed.

Lemma procs_read_table es sts : procs_read es sts → Forall stat_ok sts → ∀ kids s, table kids s →
  wp (for_each es (λ e, if skips e then mret tt else read_proc_status (d_content e) cmp))
    (λ _ s', table (foldl (kids_add cmp) kids sts) s' ∧ same_print s s') s.
Proof.
  induction 1 as [|e es sts Hsk Hes IH|e es ts sts sts' Hsk Hc Hts Hes IH]; intros Hok kids s Htab; cbn [for_each].
  - by wp_step.
  - wp_step. destruct (skips e) eqn:Hs; [wp_step; by apply IH|].
    destruct Hsk as [?|Hc]; [done|]. rewrite Hc. cbn [read_proc_status]. wp_step. by apply IH.
  - apply Forall_app in Hok as [Hok Hok']. wp_step. rewrite Hsk, Hc. cbn [read_proc_status].
    eapply wp_mono; [by apply (tasks_read_table _ _ Hts Hok _ _ Htab)|]. intros [] s1 [Htab1 Hs1].
    eapply wp_mono; [by apply (IH Hok' _ _ Htab1)|]. intros [] s2 [Htab2 Hs2].
    rewrite foldl_app. split; [done|]. by eapply same_print_trans.
Qed.

(** Insertion keeps the tasks of each parent, in order. *)
Lemma insert_walk_by x l : insert_walk cmp x l = insert_by cmp x l.
Proof. induction l as [|y l IH]; [done|]. cbn. by rewrite IH. Qed.

Lemma kids_perm sts : ∀ kids p,
  foldl (kids_add cmp) kids sts p ≡ₚ kids p ++ (node_of <$> filter (λ st, parent st = p) sts).
Proof.
  induction sts as [|st sts IH]; intros kids p; cbn [foldl]; [cbn; by rewrite app_nil_r|].
  rewrite IH, filter_cons. unfold kids_add. destruct (decide (p = parent st)) as [->|Hne].
  - rewrite decide_True by done. cbn. by rewrite insert_walk_by, insert_by_perm, <-Permutation_middle.
  - by rewrite decide_False by done.
Qed.

Lemma kids_sorted sts : (∀ a b, cmp a b = true → cmp b a = false) →
  ∀ kids p, (∀ q, ordered cmp (kids q)) → ordered cmp (foldl (kids_add cmp) kids sts p).
Proof.
  intros Hasym. induction sts as [|st sts IH]; intros kids p Hk; cbn [foldl]; [done|].
  apply IH. intros q. unfold kids_add. case_decide; [|done]. rewrite insert_walk_by. apply insert_by_ordered; auto.
Qed.
End reads.

Lemma guard_cmp1_asym a b : guard_cmp1 a b = true → guard_cmp1 b a = false.
Proof. unfold guard_cmp1. rewrite Z.ltb_lt, Z.ltb_ge. lia. Qed.

Lemma guard_cmp2_asym a b : guard_cmp2 a b = true → guard_cmp2 b a = false.
Proof.
  unfold guard_cmp2. generalize (child_name a), (child_name b). clear.
  induction l as [|x l IH]; intros [|y k]; cbn; try done.
  destruct (decide (x = y)) as [->|Hne]; [rewrite decide_True by done; apply IH|].
  rewrite decide_False by done. rewrite N.ltb_lt, N.ltb_ge. lia.
Qed.

Lemma print_tree_draws kids sp s :
  table kids s → arrays [] s → (∃ nm, ListNode 1 nm ∈ kids 0%Z) →
  ∃ nm, ListNode 1 nm ∈ kids 0%Z ∧
  outcome (grow DEPTH kids 1 nm) (print_tree sp)
    (λ t s', out s' = out s ++ (chars "Process Tree: " ++ [NL]) ++ draw sp [] t ++ [NL]) s.
Proof.
  intros Htab Har [nm0 Hin]. set (s1 := set_out (out s ++ chars "Process Tree: " ++ [NL]) s).
  destruct (table_get kids s1 0 Htab) as (l & Hl & Hk); [lia|].
  destruct l as [xs|]; [|rewrite <-Hk in Hin; by apply not_elem_of_nil in Hin]. cbn in Hk. subst xs.
  destruct (first_index (λ x, bool_decide (child_pid x = 1%Z)) (kids 0%Z)) as [k|] eqn:Hf.
  2: { exfalso. apply list_elem_of_lookup in Hin as [i Hi].
       by pose proof (proj1 (first_index_None _ _) Hf i _ Hi). }
  destruct (proj1 (first_index_Some _ _ _) Hf) as [([p nm] & Hx & Hp%bool_decide_eq_true) _].
  cbn in Hp. subst p. exists nm. split; [by eapply list_elem_of_lookup_2|].
  pose proof (dfs_print_tree_prints kids sp DEPTH [] s1 1%Z nm 0%Z eq_refl (arrays_out _ _ _ Har) Htab) as Hd.
  unfold print_tree. apply outcome_step, wp_print. apply outcome_step. wp_step. fold s1. rewrite Hl.
  apply outcome_step. wp_step. apply outcome_step. wp_step. rewrite Hf.
  apply outcome_step. eapply wp_deref; [exact Hx|].
  rewrite <-(bind_Some_id (grow DEPTH kids 1 nm)).
  eapply outcome_bind; [exact Hd|]. intros t s2 _ (_ & _ & Ho). cbn [outcome].
  wp_step. apply wp_print. wp_step. cbn [out set_out]. rewrite Ho. unfold s1. cbn [out set_out columns].
  by rewrite <-!(assoc_L (++)).
Qed.

(** ** The program *)

Definition order_of (flag : Z) : list_node → list_node → bool :=
  if decide (Z.land flag NUMERIC_SORT ≠ 0)%Z then guard_cmp1 else guard_cmp2.

Lemma order_asym flag a b : order_of flag a b = true → order_of flag b a = false.
Proof. unfold order_of. case_decide; [apply guard_cmp1_asym|apply guard_cmp2_asym]. Qed.

Lemma boot_table : table (λ _, []) boot_pstate.
Proof.
  split; [apply length_replicate|]. intros p l _. cbn [Tree boot_pstate].
  by intros [-> _]%lookup_replicate.
Qed.

Lemma boot_arrays : arrays [] boot_pstate.
Proof. by split. Qed.

(** The run of [execute] once /proc has been read. *)
Lemma execute_draws es sts flag :
  Z.land flag VERSION = 0%Z → procs_read es sts → Forall stat_ok sts →
  (∃ st, st ∈ sts ∧ st_pid st = 1%Z ∧ parent st = 0%Z) →
  let kids := foldl (kids_add (order_of flag)) (λ _, []) sts in
  ∃ nm, ListNode 1 nm ∈ kids 0%Z ∧
  match grow DEPTH kids 1 nm with
  | Some t => ∃ s, execute (Some es) flag boot_pstate = Ret (0%Z, s) ∧
      out s = (chars "Process Tree: " ++ [NL]) ++ draw (bool_decide (Z.land flag SHOW_PIDS ≠ 0)%Z) [] t ++ [NL]
  | None => execute (Some es) flag boot_pstate = Err OutOfBounds
  end.
Proof.
  intros Hv Hes Hok (st & Hst & Hpid & Hpar) kids.
  pose proof (procs_read_table (order_of flag) es sts Hes Hok _ _ boot_table) as Hread. fold kids in Hread.
  apply wp_run in Hread as ([] & s1 & Hrun & Htab & Hd & Hl & Ho).
  assert (Har : arrays [] s1) by (split; [by rewrite Hd|by rewrite Hl|done]).
  assert (Hone : ∃ nm, ListNode 1 nm ∈ kids 0%Z).
  { exists (st_name st). unfold kids. rewrite kids_perm. cbn [app]. rewrite <-Hpid.
    change (ListNode (st_pid st) (st_name st)) with (node_of st). apply list_elem_of_fmap_2, list_elem_of_filter. done. }
  destruct (print_tree_draws kids (bool_decide (Z.land flag SHOW_PIDS ≠ 0)%Z) s1 Htab Har Hone) as (nm & Hnm & Hpt).
  exists nm. split; [exact Hnm|]. unfold execute. rewrite decide_False by (rewrite Hv; by intros Hx).
  fold (order_of flag). rewrite (bind_run _ _ _ _ _ Hrun).
  destruct (grow DEPTH kids 1 nm) as [t|]; cbn [outcome] in Hpt; [|by apply bind_err].
  apply wp_run in Hpt as ([] & s2 & Hrun2 & Ho2). exists s2. rewrite (bind_run _ _ _ _ _ Hrun2).
  split; [done|]. by rewrite Ho2, Ho.
Qed.

(** C34. The process tree: when the command line asks for a tree and the tasks of
    /proc can be read, the children the program has for each process are exactly
    the tasks whose parent it is (the thread group of a thread), in the order
    asked for, and what it prints is the drawing of the tree below process 1;
    it stops outside its arrays exactly when that tree is deeper than 64 levels
    or has a process without a place in the table. *)
Theorem pstree_draws argv flag es sts :
  parse_args (drop 1 argv) 0 = Some flag → Z.land flag VERSION = 0%Z →
  procs_read es sts → Forall stat_ok sts →
  (∃ st, st ∈ sts ∧ st_pid st = 1%Z ∧ parent st = 0%Z) →
  ∃ kids nm,
    (∀ p, kids p ≡ₚ node_of <$> filter (λ st, parent st = p) sts) ∧
    (∀ p, ordered (order_of flag) (kids p)) ∧
    ListNode 1 nm ∈ kids 0%Z ∧
    match grow DEPTH kids 1 nm with
    | Some t => ∃ s, main (Some es) argv boot_pstate = Ret (0%Z, s) ∧
        out s = (chars "Process Tree: " ++ [NL]) ++ draw (bool_decide (Z.land flag SHOW_PIDS ≠ 0)%Z) [] t ++ [NL]
    | None => main (Some es) argv boot_pstate = Err OutOfBounds
    end.
Proof.
  intros Hargs Hv Hes Hok Hone.
  destruct (execute_draws es sts flag Hv Hes Hok Hone) as (nm & Hnm & Hrun).
  exists (foldl (kids_add (order_of flag)) (λ _, []) sts), nm. split_and!; [| |exact Hnm|].
  - intros p. by rewrite kids_perm.
  - intros p. apply kids_sorted; [apply order_asym|]. intros q. constructor.
  - unfold main. by rewrite Hargs.
Qed.

(** Four tasks: init, two children, and a thread of the second. *)
Definition demo_text (st : stat) (d1 d2 d3 : list ascii) : list ascii :=
  chars "Name:" ++ TAB :: st_name st ++ NL :: chars "Umask: 0022" ++ NL :: chars "State: S (sleeping)" ++ NL ::
  chars "Tgid:" ++ TAB :: d1 ++ NL :: chars "Ngid: 0" ++ NL ::
  chars "Pid:" ++ TAB :: d2 ++ NL :: chars "PPid:" ++ TAB :: d3 ++ NL :: [].
Definition demo_stats : list stat :=
  [Stat (chars "init") 1 1 0; Stat (chars "sh") 7 7 1; Stat (chars "cat") 4 4 1; Stat (chars "aio") 4 5 1].
Definition demo_task (st : stat) (d1 d2 d3 : string) : task :=
  Dirent (chars d2) true (Some (demo_text st (chars d1) (chars d2) (chars d3))).
Definition demo_proc : list process :=
  [Dirent (chars ".") true None; Dirent (chars "uptime") false None;
   Dirent (chars "1") true (Some [demo_task (Stat (chars "init") 1 1 0) "1" "1" "0"]);
   Dirent (chars "7") true (Some [demo_task (Stat (chars "sh") 7 7 1) "7" "7" "1"]);
   Dirent (chars "4") true (Some [Dirent (chars "..") true None; demo_task (Stat (chars "cat") 4 4 1) "4" "4" "1";
                                  demo_task (Stat (chars "aio") 4 5 1) "4" "5" "1"])].

Lemma demo_task_read st d1 d2 d3 ts sts :
  is_decimal (chars d1) (st_tgid st) → is_decimal (chars d2) (st_pid st) → is_decimal (chars d3) (st_ppid st) →
  one_line (st_name st) → skips (demo_task st d1 d2 d3) = false →
  tasks_read ts sts → tasks_read (demo_task st d1 d2 d3 :: ts) (st :: sts).
Proof.
  intros H1 H2 H3 Hn Hs Hts. eapply tasks_cons; [done|done| |done]. apply (status_intro st); try done.
  all: split; [apply (bool_decide_unpack _); by vm_compute|vm_compute; lia].
Qed.

Lemma demo_proc_read : procs_read demo_proc demo_stats.
Proof.
  assert (Hsplit : demo_stats = [Stat (chars "init") 1 1 0] ++ [Stat (chars "sh") 7 7 1] ++
    [Stat (chars "cat") 4 4 1; Stat (chars "aio") 4 5 1] ++ []) by done.
  rewrite Hsplit. apply procs_skip; [by left|]. apply procs_skip; [by left|].
  eapply procs_cons; [done|done| |eapply procs_cons; [done|done| |eapply procs_cons; [done|done| |constructor]]].
  all: repeat first [apply demo_task_read|apply tasks_nil|apply tasks_skip; [by left|]]; try done.
  all: first [split_and!; try done; apply (bool_decide_unpack _); by vm_compute
             |split; [apply (bool_decide_unpack _); by vm_compute|vm_compute; lia]].
Qed.

Lemma pstree_draws_witness :
  parse_args (drop 1 ["pstree"; "-p"]) 0 = Some SHOW_PIDS ∧
  ∃ kids nm, ListNode 1 nm ∈ kids 0%Z ∧
    match grow DEPTH kids 1 nm with
    | Some t => ∃ s, main (Some demo_proc) ["pstree"; "-p"] boot_pstate = Ret (0%Z, s) ∧
        out s = (chars "Process Tree: " ++ [NL]) ++ draw true [] t ++ [NL]
    | None => main (Some demo_proc) ["pstree"; "-p"] boot_pstate = Err OutOfBounds
    end.
Proof.
  split; [reflexivity|].
  destruct (pstree_draws ["pstree"; "-p"] SHOW_PIDS demo_proc demo_stats) as (kids & nm & _ & _ & Hnm & Hrun).
  - reflexivity.
  - reflexivity.
  - exact demo_proc_read.
  - repeat constructor; vm_compute; congruence || lia.
  - exists (Stat (chars "init") 1 1 0). split; [by left|]. split; reflexivity.
  - exists kids, nm. split; [exact Hnm|exact Hrun].
Defined.

(** What the program prints on them. *)
Lemma demo_tree_drawn :
  match main (Some demo_proc) ["pstree"; "-p"] boot_pstate with
  | Ret (r, s) => r = 0%Z ∧ out s =
      chars "Process Tree: " ++ [NL] ++ chars "-init(1)-cat(4)-aio(5)" ++ [NL] ++ chars "       `-sh(7)" ++ [NL]
  | Err _ => False
  end.
Proof. by vm_compute. Qed.
