(* ===== verification/Sperf.v ===== *)
(** * The profiler of system calls (sperf/sperf.c)

    The lines that strace writes are read one by one; the time of each call is
    added to a doubly linked list, between two sentinels, of nodes taken from
    [pool].  A [double] is a binary64 number of the Standard Library's
    specification of floating point.  What is written on the screen is the list
    of the items printed, each with the number that its format would show. *)
From S2P Require Import Prelude KStdio.
From Stdlib Require Import Ascii.
From Stdlib Require Import SpecFloat.

(** ** Floating point *)

Definition double : Type := spec_float.
Definition dadd : double → double → double := SFadd 53 1024.
Definition dsub : double → double → double := SFsub 53 1024.
Definition dmul : double → double → double := SFmul 53 1024.
Definition ddiv : double → double → double := SFdiv 53 1024.
(** [a >= b] *)
Definition dge (a b : double) : bool := SFleb b a.
(** An integer constant as a [double]. *)
Definition dint (z : Z) : double := binary_normalize 53 1024 z 0 false.

(** [sscanf(s, "%lf", &x)] on the form that strace writes: digits and decimals,
    and nothing after them (other text has no value here); the value is the
    quotient of two integers, rounded once. *)
Fixpoint scan_digits (l : list ascii) (v : Z) (n : nat) : Z * nat * list ascii :=
  match l with
  | c :: l' => if is_digit c then scan_digits l' (v * 10 + digit_value c)%Z (S n) else (v, n, l)
  | [] => (v, n, [])
  end.
Definition strtod (l : list ascii) : option double :=
  let '(v, n, r) := scan_digits l 0 0 in
  let '(v, k, r) := match r with
    | c :: r' => if decide (c = "."%char) then scan_digits r' v 0 else (v, 0, r)
    | [] => (v, 0, [])
    end in
  if decide (n = 0 ∨ r ≠ []) then None
  else match v with
       | Zpos m => Some (ddiv (S754_finite false m 0) (S754_finite false (Z.to_pos (10 ^ Z.of_nat k)) 0))
       | _ => Some (S754_zero false)
       end.

(** ** Data *)

Definition POOL_SIZE : nat := 1024.

(** [&pool[i]] and [&special[i]] *)
Inductive ptr := Pool (i : nat) | Special (i : nat).
#[export] Instance ptr_eq_dec : EqDecision ptr.
Proof. solve_decision. Defined.

Record list_node := LNode {
  id : Z;
  name : list ascii;
  time : double;
  prev : option ptr;
  next : option ptr;
}.

(** What [syscall_print] writes: a name with its share, or the rest. *)
Inductive item := Clear | Home | Row (text : list ascii) (share : double).

Record sperf := Sperf {
  pool : list list_node;
  special : list list_node;
  lhead : option ptr;
  ltail : option ptr;
  list_size : Z;
  total_time : double;
  clear_screen_flag : bool;
  screen : list item;
  buf : list ascii;
}.

Definition set_pool v s := Sperf v (special s) (lhead s) (ltail s) (list_size s) (total_time s) (clear_screen_flag s) (screen s) (buf s).
Definition set_special v s := Sperf (pool s) v (lhead s) (ltail s) (list_size s) (total_time s) (clear_screen_flag s) (screen s) (buf s).
Definition set_ends h t s := Sperf (pool s) (special s) h t (list_size s) (total_time s) (clear_screen_flag s) (screen s) (buf s).
Definition set_size v s := Sperf (pool s) (special s) (lhead s) (ltail s) v (total_time s) (clear_screen_flag s) (screen s) (buf s).
Definition set_total v s := Sperf (pool s) (special s) (lhead s) (ltail s) (list_size s) v (clear_screen_flag s) (screen s) (buf s).
Definition set_clear v s := Sperf (pool s) (special s) (lhead s) (ltail s) (list_size s) (total_time s) v (screen s) (buf s).
Definition set_screen v s := Sperf (pool s) (special s) (lhead s) (ltail s) (list_size s) (total_time s) (clear_screen_flag s) v (buf s).
Definition set_buf v s := Sperf (pool s) (special s) (lhead s) (ltail s) (list_size s) (total_time s) (clear_screen_flag s) (screen s) v.

Definition set_id v n := LNode v (name n) (time n) (prev n) (next n).
Definition set_name v n := LNode (id n) v (time n) (prev n) (next n).
Definition set_time v n := LNode (id n) (name n) v (prev n) (next n).
Definition set_prev v n := LNode (id n) (name n) (time n) v (next n).
Definition set_next v n := LNode (id n) (name n) (time n) (prev n) v.

Definition empty_node : list_node := LNode 0 [] (S754_zero false) None None.
Definition BUF_SIZE : nat := 4096.

(** The static data are zero; [buf], on the stack of [main], holds anything. *)
Definition boot_sperf (b : list ascii) : sperf :=
  Sperf (replicate POOL_SIZE empty_node) (replicate 2 empty_node) None None 0 (S754_zero false) true [] b.

(** ** Access through pointers *)

Definition node_at (s : sperf) (p : ptr) : option list_node :=
  match p with Pool i => pool s !! i | Special i => special s !! i end.

Definition load (p : option ptr) : M sperf list_node :=
  s ← get; q ← deref NullDeref p; deref OutOfBounds (node_at s q).

Definition put_node (p : ptr) (n : list_node) (s : sperf) : sperf :=
  match p with
  | Pool i => set_pool (<[i := n]> (pool s)) s
  | Special i => set_special (<[i := n]> (special s)) s
  end.

(** [p->field = v] *)
Definition update (p : option ptr) (f : list_node → list_node) : M sperf unit :=
  n ← load p; q ← deref NullDeref p; modify (put_node q (f n)).

(** ** The list *)

Definition syscall_init : M sperf unit :=
  modify (set_ends (Some (Special 0)) (Some (Special 1)));;
  s ← get;
  update (lhead s) (set_prev None);;
  update (lhead s) (set_next (ltail s));;
  update (ltail s) (set_prev (lhead s));;
  update (ltail s) (set_next None);;
  modify (set_size 0);;
  modify (set_total (S754_zero false)).

(** A walk visits a node of the pool at most once. *)
Definition walk_fuel : nat := POOL_SIZE + 2.

Fixpoint check_loop (fuel : nat) (node : option ptr) (cnt : Z) : M sperf Z :=
  match fuel with
  | O => fail OutOfFuel
  | S fuel' =>
      s ← get;
      if decide (node = ltail s) then mret cnt
      else
        n ← load node;
        nn ← load (next n);
        assert (bool_decide (prev nn = node));;
        pn ← load (prev n);
        assert (bool_decide (next pn = node));;
        check_loop fuel' (next n) (cnt + 1)%Z
  end.

Definition syscall_check : M sperf unit :=
  s ← get;
  h ← load (lhead s);
  cnt ← check_loop walk_fuel (next h) 0;
  assert (bool_decide (cnt = list_size s)).

Definition syscall_cmp (A B : option ptr) : M sperf bool :=
  s ← get;
  if decide (A = lhead s ∨ B = ltail s) then mret true
  else
    assert (bool_decide (A ≠ ltail s));;
    assert (bool_decide (B ≠ lhead s));;
    a ← load A;
    b ← load B;
    mret (dge (time a) (time b)).

(** The loop of [syscall_insert_do]: from [temp] to the node to insert after. *)
Fixpoint insert_loop (fuel : nat) (temp node : option ptr) : M sperf (option ptr) :=
  match fuel with
  | O => fail OutOfFuel
  | S fuel' =>
      c ← syscall_cmp temp node;
      t ← load temp;
      c' ← (if (c : bool) then syscall_cmp node (next t) else mret false);
      if (c' : bool) then mret temp else insert_loop fuel' (next t) node
  end.

Definition syscall_insert_do (node : option ptr) : M sperf unit :=
  s ← get;
  assert (bool_decide (node ≠ ltail s));;
  temp ← insert_loop walk_fuel (lhead s) node;
  assert (bool_decide (temp ≠ ltail s));;
  update node (set_prev temp);;
  t ← load temp;
  update node (set_next (next t));;
  t ← load temp;
  update (next t) (set_prev node);;
  update temp (set_next node);;
  modify (λ s, set_size (list_size s + 1) s);;
  n ← load node;
  modify (λ s, set_total (dadd (total_time s) (time n)) s);;
  syscall_check.

Definition syscall_delete_do (node : option ptr) : M sperf unit :=
  n ← load node;
  update (prev n) (set_next (next n));;
  n ← load node;
  update (next n) (set_prev (prev n));;
  update node (set_prev None);;
  update node (set_next None);;
  modify (λ s, set_size (list_size s - 1) s);;
  n ← load node;
  modify (λ s, set_total (dsub (total_time s) (time n)) s);;
  syscall_check.

(** The search of [syscall_insert]. *)
Fixpoint find_loop (fuel : nat) (nm : list ascii) (node : option ptr) : M sperf (option ptr) :=
  match fuel with
  | O => fail OutOfFuel
  | S fuel' =>
      s ← get;
      if decide (node = ltail s) then mret node
      else
        n ← load node;
        if decide (name n = nm) then mret node else find_loop fuel' nm (next n)
  end.

Definition NAME_SIZE : nat := 1024.

Definition syscall_insert (nm : list ascii) (t : double) : M sperf unit :=
  s ← get;
  h ← load (lhead s);
  node ← find_loop walk_fuel nm (next h);
  (if decide (node ≠ ltail s) then
     n ← load node;
     assert (bool_decide (nm = name n));;
     syscall_delete_do node;;
     n ← load node;
     update node (set_time (dadd (time n) t));;
     syscall_insert_do node
   else
     let index := list_size s in
     let current := Some (Pool (Z.to_nat index)) in
     update current (set_id index);;
     (if decide (length nm < NAME_SIZE) then update current (set_name nm) else fail OutOfBounds);;
     update current (set_time t);;
     syscall_insert_do current);;
  syscall_check.

(** ** Printing *)

Definition emit (i : item) : M sperf unit := modify (λ s, set_screen (screen s ++ [i]) s).

Fixpoint print_loop (fuel : nat) (node : option ptr) (remaining_time : double) (cnt : Z) : M sperf unit :=
  match fuel with
  | O => fail OutOfFuel
  | S fuel' =>
      s ← get;
      if decide (node = ltail s) then mret tt
      else
        n ← load node;
        emit (Row (name n) (ddiv (dmul (time n) (dint 100)) (total_time s)));;
        let remaining_time := dsub remaining_time (time n) in
        let cnt := (cnt + 1)%Z in
        if decide (16 ≤ cnt)%Z
        then emit (Row (chars "others") (ddiv (dmul remaining_time (dint 100)) (total_time s)))
        else print_loop fuel' (next n) remaining_time cnt
  end.

Definition syscall_print : M sperf unit :=
  s ← get;
  when (clear_screen_flag s) (emit Clear;; modify (set_clear false));;
  h ← load (lhead s);
  emit Home;;
  print_loop walk_fuel (next h) (total_time s) 0.

(** ** The lines of strace *)

(** [while(buf[name_end + 1] != '(') name_end++;] *)
Fixpoint name_loop (fuel : nat) (name_end : Z) : M sperf Z :=
  match fuel with
  | O => fail OutOfFuel
  | S fuel' =>
      s ← get;
      c ← deref OutOfBounds (aget (buf s) (name_end + 1));
      if decide (c ≠ "("%char) then name_loop fuel' (name_end + 1) else mret name_end
  end%Z.

(** [while(buf[time_begin - 1] != '<') time_begin--;] *)
Fixpoint time_loop (fuel : nat) (time_begin : Z) : M sperf Z :=
  match fuel with
  | O => fail OutOfFuel
  | S fuel' =>
      s ← get;
      c ← deref OutOfBounds (aget (buf s) (time_begin - 1));
      if decide (c ≠ "<"%char) then time_loop fuel' (time_begin - 1) else mret time_begin
  end%Z.

(** [strncpy(d, buf + from, n); d[n] = 0]: the string left in [d]. *)
Definition copy_part (b : list ascii) (from n : Z) : M sperf (list ascii) :=
  if decide (0 ≤ n < Z.of_nat NAME_SIZE)%Z
  then mret (until_nul (take (Z.to_nat n) (drop (Z.to_nat from) b)))
  else fail OutOfBounds.

(** A turn of the loop of [main] with the line that [fgets] read, at most 1023
    characters; the rest of [buf] keeps what it held. *)
Definition handle_line (line : list ascii) : M sperf unit :=
  modify (λ s, set_buf (line ++ "000"%char :: drop (length line + 1) (buf s)) s);;
  s ← get;
  let len := Z.of_nat (length (until_nul line)) in
  c ← (if decide (2 < len)%Z then c ← deref OutOfBounds (aget (buf s) (len - 2)); mret (bool_decide (c = ">"%char))
       else mret false);
  (if (c : bool) then
     name_end ← name_loop BUF_SIZE 0;
     time_begin ← time_loop BUF_SIZE (len - 3);
     nm ← copy_part (buf s) 0 (name_end - 0 + 1);
     tm ← copy_part (buf s) time_begin (len - 3 - time_begin + 1);
     t ← deref OutOfBounds (strtod tm);
     syscall_insert nm t;;
     syscall_print
   else mret tt);;
  modify (λ s, set_buf (match buf s with _ :: b => "000"%char :: b | [] => [] end) s).

Definition main (lines : list (list ascii)) : M sperf unit :=
  syscall_init;;
  for_each lines handle_line.
