(* ===== verification/SperfProps.v ===== *)
(** * The profile of system calls is right

    [sperf_profiles]: after any lines of strace the list is well linked, sorted by
    time, has one node for each system call named, whose time is the sum of the
    times of its calls in the order they came. *)
From S2P Require Import Prelude DList Insertion KStdio Sperf.
From Stdlib Require Import Ascii.
From Stdlib Require Import SpecFloat.
From Stdlib Require Import Sorting.Sorted.

(** ** Times: floating-point numbers that are neither negative nor NaN *)

Definition time_ok (d : double) : Prop :=
  match d with S754_zero s | S754_infinity s | S754_finite s _ _ => s = false | S754_nan => False end.

Lemma dge_total a b : time_ok a → time_ok b → dge a b = false → dge b a = true.
Proof.
  unfold dge, SFleb. destruct a as [[]|[]| |[] m e], b as [[]|[]| |[] m' e']; try done. cbn.
  rewrite (Z.compare_antisym e' e). destruct (Z.compare e' e); cbn; try done.
  change (Pos.compare_cont Eq m' m) with (Pos.compare m' m). change (Pos.compare_cont Eq m m') with (Pos.compare m m').
  rewrite (Pos.compare_antisym m' m). by destruct (Pos.compare m' m).
Qed.

Lemma dge_trans a b c : dge a b = true → dge b c = true → dge a c = true.
Proof.
  unfold dge, SFleb. destruct a as [[]|[]| |[] m e], b as [[]|[]| |[] m' e'], c as [[]|[]| |[] m2 e2]; try done; cbn;
  change (Pos.compare_cont Eq) with Pos.compare;
  destruct (Z.compare_spec e' e), (Z.compare_spec e2 e'), (Z.compare_spec e2 e); try done; try lia;
  subst; destruct (Pos.compare_spec m' m), (Pos.compare_spec m2 m'), (Pos.compare_spec m2 m); cbn; try done; lia.
Qed.

(** Shifts and roundings of a non-negative mantissa stay non-negative. *)
Lemma shr_1_nonneg mrs : (0 ≤ shr_m mrs)%Z → (0 ≤ shr_m (shr_1 mrs))%Z.
Proof. destruct mrs as [[|[]|] r s]; cbn; lia. Qed.

Lemma iter_shr_nonneg p : ∀ mrs, (0 ≤ shr_m mrs)%Z → (0 ≤ shr_m (iter_pos shr_1 p mrs))%Z.
Proof. induction p; cbn; auto using shr_1_nonneg. Qed.

Lemma shr_fexp_nonneg m e l : (0 ≤ m)%Z → (0 ≤ shr_m (shr_fexp 53 1024 m e l).1)%Z.
Proof.
  intros Hm. assert (0 ≤ shr_m (shr_record_of_loc m l))%Z by (destruct l as [|[]]; done).
  unfold shr_fexp, shr. destruct (fexp 53 1024 (Zdigits2 m + e) - e)%Z; [done|by apply iter_shr_nonneg|done].
Qed.

Lemma round_even_nonneg m l : (0 ≤ m)%Z → (0 ≤ round_nearest_even m l)%Z.
Proof. intros Hm. destruct l as [|[]]; cbn; try lia. destruct (Z.even m); lia. Qed.

Lemma round_aux_ok m e l : (0 ≤ m)%Z → time_ok (binary_round_aux 53 1024 false m e l).
Proof.
  intros Hm. unfold binary_round_aux. pose proof (shr_fexp_nonneg m e l Hm) as H1.
  destruct (shr_fexp 53 1024 m e l) as [mrs e1]. cbn [fst] in H1.
  pose proof (shr_fexp_nonneg _ e1 loc_Exact (round_even_nonneg _ (loc_of_shr_record mrs) H1)) as H2.
  destruct (shr_fexp 53 1024 (round_nearest_even (shr_m mrs) (loc_of_shr_record mrs)) e1 loc_Exact) as [mrs2 e2].
  cbn [fst] in H2. destruct (shr_m mrs2); [done| |lia]. by case_match.
Qed.

Lemma round_ok m e : time_ok (binary_round 53 1024 false m e).
Proof. unfold binary_round. destruct (shl_align _ _ _) as [mz ez]. by apply round_aux_ok. Qed.

Lemma dadd_ok a b : time_ok a → time_ok b → time_ok (dadd a b).
Proof.
  destruct a as [[]|[]| |[] m e], b as [[]|[]| |[] m' e']; try done. intros _ _. unfold dadd. cbn -[binary_normalize].
  unfold binary_normalize. cbn -[binary_round]. apply round_ok.
Qed.

Lemma ddiv_ok m m' : time_ok (ddiv (S754_finite false m 0) (S754_finite false m' 0)).
Proof.
  unfold ddiv, SFdiv. destruct (SFdiv_core_binary _ _ _ _ _ _) as [[q e] l] eqn:Hd. cbn [xorb].
  apply round_aux_ok. unfold SFdiv_core_binary in Hd.
  set (s := (0 - 0 - _)%Z) in Hd. set (x := match s with Z0 => _ | _ => _ end) in Hd.
  assert (Hx : (0 ≤ x)%Z).
  { unfold x. destruct s; [lia|apply Z.shiftl_nonneg; lia|lia]. }
  clearbody x s. pose proof (Z_div_mod x (Zpos m') ltac:(lia)) as Hdm.
  destruct (Z.div_eucl x (Zpos m')) as [q' r]. injection Hd as <- _ _. nia.
Qed.

Lemma strtod_ok l d : strtod l = Some d → time_ok d.
Proof.
  unfold strtod. destruct (scan_digits l 0 0) as [[v n] r].
  destruct (match r with [] => _ | _ :: _ => _ end) as [[v' k] r']. case_decide; [done|].
  destruct v'; intros [= <-]; [done|apply ddiv_ok|done].
Qed.

(** ** Nodes and the list they form *)

Definition nxt (s : sperf) (p : ptr) : option ptr := node_at s p ≫= next.
Definition prv (s : sperf) (p : ptr) : option ptr := node_at s p ≫= prev.
Notation HEAD := (Special 0).
Notation TAIL := (Special 1).

Record chain (l : list ptr) (s : sperf) : Prop := {
  ch_head : lhead s = Some HEAD;
  ch_tail : ltail s = Some TAIL;
  ch_pool : length (pool s) = POOL_SIZE;
  ch_special : length (special s) = 2;
  ch_link : linked (nxt s) (prv s) (HEAD :: l ++ [TAIL]);
  ch_nodes : Forall (λ p, ∃ i, p = Pool i ∧ i < POOL_SIZE) l;
  ch_nodup : NoDup l;
}.

Section list.
Implicit Types (s : sperf) (p q : ptr) (l : list ptr).

Lemma chain_full l s : chain l s → NoDup (HEAD :: l ++ [TAIL]).
Proof.
  intros [_ _ _ _ _ Hn Hd]. rewrite Forall_forall in Hn.
  assert (∀ i, Special i ∉ l) as Hs by (intros i Hi; by destruct (Hn _ Hi) as (? & ? & _)).
  apply NoDup_cons. split.
  - rewrite not_elem_of_app. split; [apply Hs|]. by intros ?%list_elem_of_singleton.
  - apply NoDup_app. split; [done|]. split; [|apply NoDup_singleton].
    intros p Hp ->%list_elem_of_singleton. by eapply Hs.
Qed.

Lemma chain_node l s p : chain l s → p ∈ HEAD :: l ++ [TAIL] → is_Some (node_at s p).
Proof.
  intros [_ _ Hp Hs _ Hn _]. rewrite Forall_forall in Hn.
  intros [->|[Hin| ->%list_elem_of_singleton]%elem_of_app]%elem_of_cons.
  - apply lookup_lt_is_Some_2. lia.
  - destruct (Hn _ Hin) as (i & -> & Hi). apply lookup_lt_is_Some_2. lia.
  - apply lookup_lt_is_Some_2. lia.
Qed.

Lemma node_at_put s p n q :
  is_Some (node_at s p) → node_at (put_node p n s) q = if decide (q = p) then Some n else node_at s q.
Proof.
  intros [m Hm]. destruct p as [i|i], q as [j|j]; cbn in *.
  - case_decide as Hij; [injection Hij as ->; apply list_lookup_insert_eq; by eapply lookup_lt_Some|].
    apply list_lookup_insert_ne. congruence.
  - by rewrite decide_False.
  - by rewrite decide_False.
  - case_decide as Hij; [injection Hij as ->; apply list_lookup_insert_eq; by eapply lookup_lt_Some|].
    apply list_lookup_insert_ne. congruence.
Qed.

(** What an update of a node leaves as it was. *)
Record same_but_nodes s s' : Prop := {
  sb_head : lhead s' = lhead s;
  sb_tail : ltail s' = ltail s;
  sb_pool : length (pool s') = length (pool s);
  sb_special : length (special s') = length (special s);
  sb_size : list_size s' = list_size s;
  sb_clear : clear_screen_flag s' = clear_screen_flag s;
  sb_screen : screen s' = screen s;
  sb_buf : buf s' = buf s;
}.

Lemma put_node_same p n s : same_but_nodes s (put_node p n s).
Proof. destruct p; split; cbn; rewrite ?length_insert; done. Qed.

Lemma same_trans s1 s2 s3 : same_but_nodes s1 s2 → same_but_nodes s2 s3 → same_but_nodes s1 s3.
Proof. intros [] []. split; congruence. Qed.

Lemma wp_load_node s p n (Q : list_node → sperf → Prop) :
  node_at s p = Some n → Q n s → wp (load (Some p)) Q s.
Proof. intros Hn HQ. unfold load. do 4 wp_step. by eapply wp_deref. Qed.

Lemma wp_update s p n f (Q : unit → sperf → Prop) :
  node_at s p = Some n →
  (∀ s', same_but_nodes s s' → total_time s' = total_time s →
     (∀ q, node_at s' q = if decide (q = p) then Some (f n) else node_at s q) → Q tt s') →
  wp (update (Some p) f) Q s.
Proof.
  intros Hn HQ. unfold update. wp_step. apply (wp_load_node _ _ n); [done|]. do 3 wp_step.
  apply HQ; [apply put_node_same|by destruct p|]. intros q. apply node_at_put. by exists n.
Qed.

(** Two neighbours of the list. *)
Lemma chain_adjacent l s l1 a b l2 :
  chain l s → HEAD :: l ++ [TAIL] = l1 ++ a :: b :: l2 →
  ∃ na nb, node_at s a = Some na ∧ node_at s b = Some nb ∧ next na = Some b ∧ prev nb = Some a.
Proof.
  intros Hc Heq. pose proof (ch_link _ _ Hc) as Hl. rewrite Heq in Hl. apply linked_middle in Hl as [Hn Hp].
  unfold nxt, prv in *. destruct (node_at s a) as [na|]; [|done]. destruct (node_at s b) as [nb|]; [|done].
  by exists na, nb.
Qed.

(** The pointer after the first part of a list, and the node at it. *)
Definition at_or_tail (l : list ptr) : ptr := match l with p :: _ => p | [] => TAIL end.

Lemma app_tail_cons l : l ++ [TAIL] = at_or_tail l :: drop 1 (l ++ [TAIL]).
Proof. by destruct l. Qed.

(** ** [syscall_check] passes on a linked list *)

Lemma wp_check_loop l s (Q : Z → sperf → Prop) :
  chain l s → Q (Z.of_nat (length l)) s →
  ∀ todo done_ fuel, l = done_ ++ todo → length todo < fuel →
  wp (check_loop fuel (Some (at_or_tail todo)) (Z.of_nat (length done_))) Q s.
Proof.
  intros Hc HQ todo. induction todo as [|p todo IH]; intros dn fuel Hl Hf; (destruct fuel as [|fuel]; [simpl in Hf; lia|]);
    cbn [check_loop at_or_tail]; wp_step; wp_step; rewrite (ch_tail _ _ Hc).
  - rewrite decide_True by done. wp_step. rewrite app_nil_r in Hl. by subst.
  - assert (Hin : p ∈ l) by (rewrite Hl; apply elem_of_app; right; by left).
    rewrite decide_False.
    2: { intros [= ->]. pose proof (ch_nodes _ _ Hc) as Hn. rewrite Forall_forall in Hn. by destruct (Hn _ Hin) as (? & ? & _). }
    assert (Hfull : ∃ L1 a, HEAD :: dn = L1 ++ [a]) by (destruct (exists_last (l := HEAD :: dn)) as (L1 & a & ?); [done|by exists L1, a]).
    destruct Hfull as (L1 & a & Ha).
    destruct (chain_adjacent l s L1 a p (todo ++ [TAIL]) Hc) as (na & np & Hna & Hnp & Hnxt & Hprv).
    { rewrite Hl, <-(assoc_L (++)). cbn. rewrite app_comm_cons, Ha, <-(assoc_L (++)). done. }
    destruct (chain_adjacent l s (L1 ++ [a]) p (at_or_tail todo) (drop 1 (todo ++ [TAIL])) Hc) as (np' & nb & Hnp' & Hnb & Hnxt' & Hprv').
    { rewrite <-app_tail_cons, Hl, <-(assoc_L (++)), <-Ha. cbn. done. }
    rewrite Hnp in Hnp'. injection Hnp' as <-.
    wp_step. apply (wp_load_node _ _ np); [done|]. wp_step. rewrite Hnxt'. apply (wp_load_node _ _ nb); [done|].
    wp_step. apply wp_assert; [by apply bool_decide_eq_true|]. wp_step. rewrite Hprv. apply (wp_load_node _ _ na); [done|].
    wp_step. apply wp_assert; [by apply bool_decide_eq_true|].
    replace (Z.of_nat (length dn) + 1)%Z with (Z.of_nat (length (dn ++ [p]))) by (rewrite length_app; simpl; lia).
    apply IH; [by rewrite <-(assoc_L (++))|simpl in Hf; lia].
Qed.

Lemma chain_length l s : chain l s → length l ≤ POOL_SIZE.
Proof.
  intros Hc. assert (Hsub : l ⊆+ (Pool <$> seq 0 POOL_SIZE)).
  { apply NoDup_submseteq; [apply Hc|]. intros p Hp. pose proof (ch_nodes _ _ Hc) as Hn. rewrite Forall_forall in Hn.
    destruct (Hn _ Hp) as (i & -> & Hi). apply list_elem_of_fmap_2, elem_of_seq. lia. }
  apply submseteq_length in Hsub. by rewrite length_fmap, length_seq in Hsub.
Qed.

Lemma chain_head_node l s : chain l s → ∃ nh, node_at s HEAD = Some nh ∧ next nh = Some (at_or_tail l).
Proof.
  intros Hc. destruct (chain_adjacent l s [] HEAD (at_or_tail l) (drop 1 (l ++ [TAIL])) Hc) as (nh & _ & ? & _ & ? & _).
  - by rewrite <-app_tail_cons.
  - by exists nh.
Qed.

Lemma wp_syscall_check l s (Q : unit → sperf → Prop) :
  chain l s → list_size s = Z.of_nat (length l) → Q tt s → wp syscall_check Q s.
Proof.
  intros Hc Hsz HQ. destruct (chain_head_node _ _ Hc) as (nh & Hnh & Hnx). unfold syscall_check.
  wp_step. wp_step. rewrite (ch_head _ _ Hc). wp_step. apply (wp_load_node _ _ nh); [done|]. wp_step. rewrite Hnx.
  apply (wp_check_loop l s _ Hc) with (done_ := []); [|done|].
  - apply wp_assert; [by apply bool_decide_eq_true|done].
  - pose proof (chain_length _ _ Hc). unfold walk_fuel. lia.
Qed.
End list.

(** ** Names and times of the nodes *)

Definition entry (s : sperf) (p : ptr) : option (list ascii * double) :=
  (λ n, (name n, time n)) <$> node_at s p.
Definition entries (s : sperf) (l : list ptr) (prof : list (list ascii * double)) : Prop :=
  Forall2 (λ p e, entry s p = Some e) l prof.
Definition times_ok (prof : list (list ascii * double)) : Prop := Forall (λ e, time_ok e.2) prof.

(** A new entry passes those with a longer time. *)
Definition later (x y : list ascii * double) : bool := negb (dge x.2 y.2).

Section operations.
Implicit Types (s : sperf) (p q : ptr) (l : list ptr) (prof : list (list ascii * double)).

Lemma entry_node s p e : entry s p = Some e → ∃ n, node_at s p = Some n ∧ (name n, time n) = e.
Proof. unfold entry. intros (n & ? & ?)%fmap_Some. by exists n. Qed.

Lemma wp_find_loop l s nm (Q : option ptr → sperf → Prop) :
  chain l s →
  ∀ l2 prof2 l1 fuel, l = l1 ++ l2 → entries s l2 prof2 → length l2 < fuel →
  match first_index (λ e, bool_decide (e.1 = nm)) prof2 with
  | Some i => ∀ p, l2 !! i = Some p → Q (Some p) s
  | None => Q (Some TAIL) s
  end →
  wp (find_loop fuel nm (Some (at_or_tail l2))) Q s.
Proof.
  intros Hc l2. induction l2 as [|p l2 IH]; intros prof2 l1 fuel Hl He Hf HQ; (destruct fuel as [|fuel]; [simpl in Hf; lia|]);
    cbn [find_loop at_or_tail]; wp_step; wp_step; rewrite (ch_tail _ _ Hc).
  - rewrite decide_True by done. apply Forall2_nil_inv_l in He as ->. by wp_step.
  - apply Forall2_cons_inv_l in He as (e & prof' & Hpe & He & ->).
    assert (Hin : p ∈ l) by (rewrite Hl; apply elem_of_app; right; by left).
    rewrite decide_False.
    2: { intros [= ->]. pose proof (ch_nodes _ _ Hc) as Hn. rewrite Forall_forall in Hn. by destruct (Hn _ Hin) as (? & ? & _). }
    destruct (entry_node _ _ _ Hpe) as (n & Hn & <-). wp_step. apply (wp_load_node _ _ n); [done|].
    cbn [first_index fst] in HQ. case_bool_decide as Hnm.
    + rewrite decide_True by done. wp_step. by apply HQ.
    + rewrite decide_False by done.
      assert (Hfull : ∃ L1, HEAD :: l ++ [TAIL] = L1 ++ p :: at_or_tail l2 :: drop 1 (l2 ++ [TAIL])).
      { exists (HEAD :: l1). rewrite <-app_tail_cons, Hl, <-(assoc_L (++)). done. }
      destruct Hfull as (L1 & Hfull). destruct (chain_adjacent l s _ _ _ _ Hc Hfull) as (n' & _ & Hn' & _ & Hnx & _).
      rewrite Hn in Hn'. injection Hn' as <-. rewrite Hnx.
      apply (IH prof' (l1 ++ [p])); [by rewrite <-(assoc_L (++))|done|simpl in Hf; lia|].
      destruct (first_index _ prof') as [i|]; [|done]. intros q Hq. by apply HQ.
Qed.

Lemma wp_cmp_nodes l s A B na nb (Q : bool → sperf → Prop) :
  chain l s → A ≠ HEAD → A ≠ TAIL → B ≠ HEAD → B ≠ TAIL → node_at s A = Some na → node_at s B = Some nb →
  Q (dge (time na) (time nb)) s → wp (syscall_cmp (Some A) (Some B)) Q s.
Proof.
  intros Hc HA1 HA2 HB1 HB2 Ha Hb HQ. unfold syscall_cmp. wp_step. wp_step.
  rewrite (ch_head _ _ Hc), (ch_tail _ _ Hc), decide_False by (intros [[=]|[=]]; done).
  wp_step. apply wp_assert; [apply bool_decide_eq_true; by intros [=]|].
  wp_step. apply wp_assert; [apply bool_decide_eq_true; by intros [=]|].
  wp_step. apply (wp_load_node _ _ na); [done|]. wp_step. apply (wp_load_node _ _ nb); [done|]. by wp_step.
Qed.

Lemma wp_cmp_ends l s A B (Q : bool → sperf → Prop) :
  chain l s → A = HEAD ∨ B = TAIL → Q true s → wp (syscall_cmp (Some A) (Some B)) Q s.
Proof.
  intros Hc HAB HQ. unfold syscall_cmp. wp_step. wp_step.
  rewrite (ch_head _ _ Hc), (ch_tail _ _ Hc), decide_True by (by destruct HAB as [->| ->]; [left|right]).
  by wp_step.
Qed.

Lemma entries_inj s l pf pf' : entries s l pf → entries s l pf' → pf = pf'.
Proof.
  intros H. revert pf'. induction H as [|p e l pf Hp _ IH]; intros pf' H'.
  - by apply Forall2_nil_inv_l in H' as ->.
  - apply Forall2_cons_inv_l in H' as (e' & pf2 & Hp' & H' & ->). f_equal; [congruence|by apply IH].
Qed.

Lemma entries_last s l1 pf1 L1 a :
  entries s l1 pf1 → HEAD :: l1 = L1 ++ [a] → a = HEAD ∨ ∃ e, e ∈ pf1 ∧ a ∈ l1 ∧ entry s a = Some e.
Proof.
  intros H1 Ha. destruct l1 as [|x l1] using rev_ind.
  - left. by apply (app_inj_tail [] L1) in Ha as [_ ->].
  - clear IHl1. right. rewrite app_comm_cons in Ha. apply app_inj_tail in Ha as [_ ->].
    apply Forall2_app_inv_l in H1 as (pf & pf' & _ & H2 & ->).
    apply Forall2_cons_inv_l in H2 as (e & pf2 & He & _ & ->). exists e.
    split; [apply elem_of_app; right; by left|]. split; [apply elem_of_app; right; by left|done].
Qed.

(** The search of the place stops where the rules insert. *)
Lemma wp_insert_loop l s prof p e (Q : option ptr → sperf → Prop) :
  chain l s → entries s l prof → times_ok prof → time_ok e.2 →
  p ∉ HEAD :: l ++ [TAIL] → entry s p = Some e →
  (∀ l1 l2 pf1 pf2 L1 a, l = l1 ++ l2 → HEAD :: l1 = L1 ++ [a] → entries s l1 pf1 → entries s l2 pf2 →
     insert_by later e prof = pf1 ++ e :: pf2 → Q (Some a) s) →
  ∀ l2 l1 pf1 pf2 L1 a fuel, l = l1 ++ l2 → HEAD :: l1 = L1 ++ [a] → entries s l1 pf1 → entries s l2 pf2 →
    (∀ y, y ∈ pf1 → later e y = true) → length l2 < fuel →
    wp (insert_loop fuel (Some a) (Some p)) Q s.
Proof.
  intros Hc He Hok Hoke Hp Hpe HQ l2. destruct (entry_node _ _ _ Hpe) as (n & Hn & Hne).
  assert (HpH : p ≠ HEAD) by (intros ->; apply Hp; by left).
  assert (HpT : p ≠ TAIL) by (intros ->; apply Hp; right; apply elem_of_app; right; by left).
  assert (Hnot : ∀ q, q ∈ l → q ≠ HEAD ∧ q ≠ TAIL).
  { intros q Hq. pose proof (ch_nodes _ _ Hc) as Hns. rewrite Forall_forall in Hns. by destruct (Hns _ Hq) as (? & -> & _). }
  unfold times_ok in Hok. rewrite Forall_forall in Hok.
  induction l2 as [|b l2 IH]; intros l1 pf1 pf2 L1 a fuel Hl Ha H1 H2 Hpass Hf; (destruct fuel as [|fuel]; [simpl in Hf; lia|]);
    cbn [insert_loop];
    assert (Hprof : prof = pf1 ++ pf2) by (apply (entries_inj s l); [done|rewrite Hl; by apply Forall2_app]);
    assert (Hcmp : ∀ Q', Q' true s → wp (syscall_cmp (Some a) (Some p)) Q' s) by
      (intros Q' HQ'; destruct (entries_last _ _ _ _ _ H1 Ha) as [->|(y & Hy & Hal & Hay)];
       [apply (wp_cmp_ends l); [done|by left|done]|];
       destruct (entry_node _ _ _ Hay) as (na & Hna & Hnay);
       destruct (Hnot a) as [Ha1 Ha2]; [rewrite Hl; apply elem_of_app; by left|];
       apply (wp_cmp_nodes l s a p na n); [done..|];
       specialize (Hpass y Hy); unfold later in Hpass; apply negb_true_iff in Hpass;
       apply dge_total in Hpass; [|done|apply Hok; rewrite Hprof; apply elem_of_app; by left];
       subst y e; cbn [snd] in Hpass; by rewrite Hpass).
  - destruct (chain_adjacent l s L1 a TAIL [] Hc) as (na & _ & Hna & _ & Hnx & _).
    { rewrite Hl, app_nil_r, app_comm_cons, Ha, <-(assoc_L (++)). done. }
    wp_step. apply Hcmp. wp_step. apply (wp_load_node _ _ na); [done|]. wp_step. rewrite Hnx.
    apply (wp_cmp_ends l); [done|by right|]. wp_step.
    eapply (HQ l1 [] pf1 pf2 L1 a); [done|done|done|done|]. apply Forall2_nil_inv_l in H2 as ->.
    rewrite Hprof, insert_by_passed by done. done.
  - destruct (chain_adjacent l s L1 a b (l2 ++ [TAIL]) Hc) as (na & nb & Hna & Hnb & Hnx & _).
    { rewrite Hl, <-(assoc_L (++)), app_comm_cons, Ha, <-(assoc_L (++)). done. }
    assert (Hbl : b ∈ l) by (rewrite Hl; apply elem_of_app; right; by left). destruct (Hnot b Hbl) as [Hb1 Hb2].
    wp_step. apply Hcmp. wp_step. apply (wp_load_node _ _ na); [done|]. wp_step. rewrite Hnx.
    apply (wp_cmp_nodes l s p b n nb); [done..|].
    apply Forall2_cons_inv_l in H2 as (eb & pf2' & Heb & H2 & ->).
    destruct (entry_node _ _ _ Heb) as (nb' & Hnb' & <-). rewrite Hnb in Hnb'. injection Hnb' as <-.
    destruct (dge (time n) (time nb)) eqn:Hd.
    + wp_step. eapply (HQ l1 (b :: l2) pf1 _ L1 a); [done|done|done|by constructor|].
      rewrite Hprof, insert_by_passed by done. cbn [insert_by]. unfold later. subst e. cbn [snd]. by rewrite Hd.
    + eapply (IH (l1 ++ [b]) (pf1 ++ [(name nb, time nb)]) pf2' (HEAD :: l1)).
      * by rewrite <-(assoc_L (++)).
      * done.
      * apply Forall2_app; [done|]. by repeat constructor.
      * done.
      * intros y [Hy|Hy%list_elem_of_singleton]%elem_of_app; [auto|]. subst y e. unfold later. cbn [snd]. by rewrite Hd.
      * simpl in Hf. lia.
Qed.
(** What no operation on the list touches. *)
Definition same_io s s' : Prop :=
  clear_screen_flag s' = clear_screen_flag s ∧ screen s' = screen s ∧ buf s' = buf s.

Lemma same_io_nodes s s' : same_but_nodes s s' → same_io s s'.
Proof. by intros []. Qed.

Lemma same_io_trans s1 s2 s3 : same_io s1 s2 → same_io s2 s3 → same_io s1 s3.
Proof. unfold same_io. intros (-> & -> & ->) (-> & -> & ->). done. Qed.

Lemma entries_ext s s' l prof :
  (∀ q, q ∈ l → entry s' q = entry s q) → entries s l prof → entries s' l prof.
Proof.
  intros Hq He. induction He as [|p e l prof Hp _ IH]; [constructor|]. constructor.
  - rewrite Hq by (by left). done.
  - apply IH. intros q Hin. apply Hq. by right.
Qed.

(** A node linked in between two neighbours. *)
Lemma chain_insert l1 l2 s s' p i L1 a :
  chain (l1 ++ l2) s → HEAD :: l1 = L1 ++ [a] → p = Pool i → i < POOL_SIZE → p ∉ l1 ++ l2 →
  lhead s' = lhead s → ltail s' = ltail s → length (pool s') = length (pool s) → length (special s') = length (special s) →
  (∀ x, x ≠ a → x ≠ p → nxt s' x = nxt s x) → nxt s' a = Some p → nxt s' p = Some (at_or_tail l2) →
  (∀ x, x ≠ at_or_tail l2 → x ≠ p → prv s' x = prv s x) → prv s' p = Some a → prv s' (at_or_tail l2) = Some p →
  chain (l1 ++ p :: l2) s'.
Proof.
  intros Hc Ha -> Hi Hp Hh Ht Hpl Hsp Hn Hna Hnp Hpv Hpp Hpb.
  assert (Hfull : HEAD :: (l1 ++ l2) ++ [TAIL] = L1 ++ a :: at_or_tail l2 :: drop 1 (l2 ++ [TAIL])).
  { rewrite <-app_tail_cons, <-(assoc_L (++)), app_comm_cons, Ha, <-(assoc_L (++)). done. }
  pose proof (chain_full _ _ Hc) as Hnd. rewrite Hfull in Hnd.
  destruct Hc as [Hc1 Hc2 Hc3 Hc4 Hc5 Hc6 Hc7]. rewrite Hfull in Hc5. split; try congruence.
  - replace (HEAD :: (l1 ++ Pool i :: l2) ++ [TAIL]) with (L1 ++ a :: Pool i :: at_or_tail l2 :: drop 1 (l2 ++ [TAIL])).
    2: { rewrite <-app_tail_cons, <-(assoc_L (++)), (app_comm_cons l1 _ HEAD), Ha, <-(assoc_L (++)). done. }
    eapply (linked_insert (nxt s) (prv s)); try done. rewrite <-Hfull.
    intros [?|[Hx|Hx%list_elem_of_singleton]%elem_of_app]%elem_of_cons; done.
  - apply Forall_app in Hc6 as [H1 H2]. apply Forall_app. split; [done|]. constructor; [by exists i|done].
  - apply NoDup_app in Hc7 as (H1 & H2 & H3). rewrite not_elem_of_app in Hp. destruct Hp as [Hp1 Hp2].
    apply NoDup_app. split; [done|]. split; [|by constructor].
    intros x Hx [->|Hx2]%elem_of_cons; [done|by eapply H2].
Qed.

Lemma wp_insert_do l s prof p i e :
  chain l s → entries s l prof → times_ok prof → time_ok e.2 →
  p = Pool i → i < POOL_SIZE → p ∉ l → entry s p = Some e → list_size s = Z.of_nat (length l) →
  wp (syscall_insert_do (Some p)) (λ _ s', ∃ l1 l2, l = l1 ++ l2 ∧ chain (l1 ++ p :: l2) s' ∧
    entries s' (l1 ++ p :: l2) (insert_by later e prof) ∧
    list_size s' = Z.of_nat (length (l1 ++ p :: l2)) ∧ same_io s s') s.
Proof.
  intros Hc He Hok Hoke Hpi Hi Hp Hpe Hsz. unfold syscall_insert_do.
  assert (Hpn : p ∉ HEAD :: l ++ [TAIL]).
  { subst p. intros [?|[Hx|Hx%list_elem_of_singleton]%elem_of_app]%elem_of_cons; done. }
  wp_step. wp_step. rewrite (ch_head _ _ Hc), (ch_tail _ _ Hc).
  wp_step. apply wp_assert; [apply bool_decide_eq_true; subst; done|]. wp_step.
  pose proof (chain_length _ _ Hc) as Hlen.
  apply (wp_insert_loop l s prof p e _ Hc He Hok Hoke Hpn Hpe) with (l2 := l) (l1 := []) (pf1 := []) (pf2 := prof) (L1 := []);
    [|done|done|constructor|done|by intros y ?%not_elem_of_nil|unfold walk_fuel; lia].
  intros l1 l2 pf1 pf2 L1 a Hl Ha H1 H2 Hins. set (b := at_or_tail l2).
  assert (Hfull : HEAD :: l ++ [TAIL] = L1 ++ a :: b :: drop 1 (l2 ++ [TAIL])).
  { rewrite Hl. unfold b. rewrite <-app_tail_cons, <-(assoc_L (++)), app_comm_cons, Ha, <-(assoc_L (++)). done. }
  destruct (chain_adjacent l s _ _ _ _ Hc Hfull) as (na & nb & Hna & Hnb & Hnx & Hpv).
  destruct (entry_node _ _ _ Hpe) as (n & Hn & Hne).
  pose proof (chain_full _ _ Hc) as Hnd. rewrite Hfull in Hnd, Hpn.
  assert (Hab : a ≠ b ∧ a ≠ p ∧ b ≠ p ∧ a ≠ TAIL).
  { apply NoDup_app in Hnd as (_ & _ & Hnd2). apply NoDup_cons in Hnd2 as [Hx _].
    split; [intros ->; apply Hx; by left|]. split; [intros ->; apply Hpn, elem_of_app; right; by left|].
    split; [intros ->; apply Hpn, elem_of_app; right; right; by left|]. intros ->.
    assert (HT : TAIL ∈ HEAD :: l1) by (rewrite Ha; apply elem_of_app; right; by left).
    apply elem_of_cons in HT as [?|HT]; [done|]. pose proof (ch_nodes _ _ Hc) as Hns. rewrite Forall_forall in Hns.
    destruct (Hns TAIL) as (? & ? & _); [rewrite Hl; apply elem_of_app; by left|done]. }
  destruct Hab as (Hab & Hap & Hbp & HaT).
  wp_step. apply wp_assert; [apply bool_decide_eq_true; congruence|].
  wp_step. apply (wp_update _ _ n); [done|]. intros s1 Hs1 _ Hq1.
  wp_step. apply (wp_load_node _ _ na); [by rewrite Hq1, decide_False|]. rewrite Hnx.
  wp_step. apply (wp_update _ _ (set_prev (Some a) n)); [by rewrite Hq1, decide_True|]. intros s2 Hs2 _ Hq2.
  wp_step. apply (wp_load_node _ _ na); [by rewrite Hq2, decide_False, Hq1, decide_False|]. rewrite Hnx.
  wp_step. apply (wp_update _ _ nb); [by rewrite Hq2, decide_False, Hq1, decide_False|]. intros s3 Hs3 _ Hq3.
  wp_step. apply (wp_update _ _ na); [by rewrite Hq3, decide_False, Hq2, decide_False, Hq1, decide_False|]. intros s4 Hs4 _ Hq4.
  assert (Hq : ∀ q, node_at s4 q = if decide (q = a) then Some (set_next (Some p) na)
    else if decide (q = b) then Some (set_prev (Some p) nb)
    else if decide (q = p) then Some (set_next (Some b) (set_prev (Some a) n)) else node_at s q).
  { intros q. rewrite Hq4, Hq3, Hq2, Hq1. by repeat case_decide. }
  clear Hq1 Hq2 Hq3 Hq4.
  pose proof (same_trans _ _ _ (same_trans _ _ _ (same_trans _ _ _ Hs1 Hs2) Hs3) Hs4) as Hsame. clear Hs1 Hs2 Hs3 Hs4 s1 s2 s3.
  assert (Hent : ∀ q, entry s4 q = entry s q).
  { intros q. unfold entry. rewrite Hq. destruct (decide (q = a)) as [->|]; [by rewrite Hna|].
    destruct (decide (q = b)) as [->|]; [by rewrite Hnb|]. destruct (decide (q = p)) as [->|]; [by rewrite Hn|done]. }
  assert (Hc4 : chain (l1 ++ p :: l2) s4).
  { rewrite Hl in Hc, Hp. apply (chain_insert l1 l2 s s4 p i L1 a); try done; try apply Hsame; fold b; unfold nxt, prv.
    - intros x Hx1 Hx2. rewrite Hq, decide_False by done. destruct (decide (x = b)) as [->|]; [by rewrite Hnb|]. by rewrite decide_False.
    - by rewrite Hq, decide_True.
    - by rewrite Hq, !decide_False, decide_True by done.
    - intros x Hx1 Hx2. rewrite Hq. destruct (decide (x = a)) as [->|]; [by rewrite Hna|]. by rewrite !decide_False.
    - by rewrite Hq, !decide_False, decide_True by done.
    - by rewrite Hq, decide_False, decide_True by done. }
  do 3 wp_step. destruct (entry_node s4 p e) as (n4 & Hn4 & _); [by rewrite Hent|].
  apply (wp_load_node _ _ n4); [done|]. do 2 wp_step.
  set (s5 := set_total _ _).
  assert (Hc5 : chain (l1 ++ p :: l2) s5) by (destruct Hc4; by split).
  assert (Hsz5 : list_size s5 = Z.of_nat (length (l1 ++ p :: l2))).
  { change (list_size s4 + 1 = Z.of_nat (length (l1 ++ p :: l2)))%Z.
    rewrite (sb_size _ _ Hsame), Hsz, Hl, !length_app. simpl. lia. }
  apply (wp_syscall_check _ _ _ Hc5 Hsz5). exists l1, l2. split; [done|]. split; [done|]. split; [|split; [done|]].
  - rewrite Hins. apply (entries_ext s4); [done|]. apply Forall2_app; [by apply (entries_ext s)|].
    constructor; [by rewrite Hent|by apply (entries_ext s)].
  - by destruct Hsame.
Qed.
Lemma wp_delete_do l1 l2 s p e pf1 pf2 :
  chain (l1 ++ p :: l2) s → entries s l1 pf1 → entry s p = Some e → entries s l2 pf2 →
  list_size s = Z.of_nat (length (l1 ++ p :: l2)) →
  wp (syscall_delete_do (Some p)) (λ _ s', chain (l1 ++ l2) s' ∧ entries s' (l1 ++ l2) (pf1 ++ pf2) ∧
    entry s' p = Some e ∧ list_size s' = Z.of_nat (length (l1 ++ l2)) ∧ same_io s s') s.
Proof.
  intros Hc H1 Hpe H2 Hsz. set (b := at_or_tail l2).
  destruct (exists_last (l := HEAD :: l1)) as (L1 & a & Ha); [done|].
  assert (Hfull : HEAD :: (l1 ++ p :: l2) ++ [TAIL] = L1 ++ a :: p :: b :: drop 1 (l2 ++ [TAIL])).
  { unfold b. rewrite <-app_tail_cons, <-(assoc_L (++)), (app_comm_cons l1 _ HEAD), Ha, <-(assoc_L (++)). done. }
  destruct (chain_adjacent _ s _ _ _ _ Hc Hfull) as (na & n & Hna & Hn & Hnx & Hpv).
  destruct (chain_adjacent _ s (L1 ++ [a]) p b (drop 1 (l2 ++ [TAIL])) Hc) as (n' & nb & Hn' & Hnb & Hnx' & Hpv').
  { by rewrite Hfull, <-(assoc_L (++)). }
  rewrite Hn in Hn'. injection Hn' as <-.
  pose proof (chain_full _ _ Hc) as Hnd. rewrite Hfull in Hnd.
  assert (Hab : a ≠ b ∧ a ≠ p ∧ b ≠ p).
  { pose proof Hnd as Hnd'. apply NoDup_app in Hnd' as (_ & _ & Hnd2). apply NoDup_cons in Hnd2 as [Hx Hnd2]. apply NoDup_cons in Hnd2 as [Hy _].
    split; [intros ->; apply Hx; right; by left|]. split; [intros ->; apply Hx; by left|]. intros <-. apply Hy. by left. }
  destruct Hab as (Hab & Hap & Hbp).
  unfold syscall_delete_do. wp_step. apply (wp_load_node _ _ n); [done|]. rewrite Hpv, Hnx'.
  wp_step. apply (wp_update _ _ na); [done|]. intros s1 Hs1 _ Hq1.
  wp_step. apply (wp_load_node _ _ n); [by rewrite Hq1, decide_False|]. rewrite Hpv, Hnx'.
  wp_step. apply (wp_update _ _ nb); [by rewrite Hq1, decide_False|]. intros s2 Hs2 _ Hq2.
  wp_step. apply (wp_update _ _ n); [by rewrite Hq2, decide_False, Hq1, decide_False|]. intros s3 Hs3 _ Hq3.
  wp_step. apply (wp_update _ _ (set_prev None n)); [by rewrite Hq3, decide_True|]. intros s4 Hs4 _ Hq4.
  assert (Hq : ∀ q, node_at s4 q = if decide (q = p) then Some (set_next None (set_prev None n))
    else if decide (q = b) then Some (set_prev (Some a) nb)
    else if decide (q = a) then Some (set_next (Some b) na) else node_at s q).
  { intros q. rewrite Hq4, Hq3, Hq2, Hq1. by repeat case_decide. }
  clear Hq1 Hq2 Hq3 Hq4.
  pose proof (same_trans _ _ _ (same_trans _ _ _ (same_trans _ _ _ Hs1 Hs2) Hs3) Hs4) as Hsame. clear Hs1 Hs2 Hs3 Hs4 s1 s2 s3.
  assert (Hent : ∀ q, entry s4 q = entry s q).
  { intros q. unfold entry. rewrite Hq. destruct (decide (q = p)) as [->|]; [by rewrite Hn|].
    destruct (decide (q = b)) as [->|]; [by rewrite Hnb|]. destruct (decide (q = a)) as [->|]; [by rewrite Hna|done]. }
  assert (Hc4 : chain (l1 ++ l2) s4).
  { pose proof Hc as [Hc1 Hc2 Hc3 Hc4 Hc5 Hc6 Hc7]. destruct Hsame. rewrite Hfull in Hc5. split; try congruence.
    - replace (HEAD :: (l1 ++ l2) ++ [TAIL]) with (L1 ++ a :: b :: drop 1 (l2 ++ [TAIL])).
      2: { unfold b. rewrite <-app_tail_cons, <-(assoc_L (++)), (app_comm_cons l1 _ HEAD), Ha, <-(assoc_L (++)). done. }
      eapply (linked_remove (nxt s) (prv s) _ _ L1 a p b); try done; unfold nxt, prv.
      + intros x Hx1 Hx2. rewrite Hq, decide_False by done. destruct (decide (x = b)) as [->|]; [by rewrite Hnb|]. by rewrite decide_False.
      + by rewrite Hq, !decide_False, decide_True by done.
      + intros x Hx1 Hx2. rewrite Hq, !decide_False by done. destruct (decide (x = a)) as [->|]; [by rewrite Hna|done].
      + by rewrite Hq, decide_False, decide_True by done.
    - apply Forall_app in Hc6 as [Hx Hy]. apply Forall_cons in Hy as [_ Hy]. by apply Forall_app.
    - apply NoDup_app in Hc7 as (Hx & Hy & Hz). apply NoDup_cons in Hz as [_ Hz]. apply NoDup_app.
      split; [done|]. split; [|done]. intros x Hxl Hxr. apply (Hy x Hxl). by right. }
  do 3 wp_step. destruct (entry_node s4 p e) as (n4 & Hn4 & _); [by rewrite Hent|].
  apply (wp_load_node _ _ n4); [done|]. do 2 wp_step.
  set (s5 := set_total _ _).
  assert (Hc5 : chain (l1 ++ l2) s5) by (destruct Hc4; by split).
  assert (Hsz5 : list_size s5 = Z.of_nat (length (l1 ++ l2))).
  { change (list_size s4 - 1 = Z.of_nat (length (l1 ++ l2)))%Z.
    rewrite (sb_size _ _ Hsame), Hsz, !length_app. simpl. lia. }
  apply (wp_syscall_check _ _ _ Hc5 Hsz5). split; [done|]. split; [|split; [|split; [done|]]].
  - apply (entries_ext s4); [done|]. apply Forall2_app; by apply (entries_ext s).
  - change (entry s5 p) with (entry s4 p). by rewrite Hent.
  - by destruct Hsame.
Qed.
Lemma chain_ext l s s' :
  chain l s → same_but_nodes s s' →
  (∀ q, q ∈ HEAD :: l ++ [TAIL] → nxt s' q = nxt s q ∧ prv s' q = prv s q) → chain l s'.
Proof.
  intros [Hc1 Hc2 Hc3 Hc4 Hc5 Hc6 Hc7] [] Hq. split; try congruence.
  eapply linked_ext; [| |exact Hc5]; intros q Hin; by apply Hq.
Qed.

(** An update of what a node carries leaves the list as it is linked. *)
Lemma chain_carry l s s' p n f :
  chain l s → same_but_nodes s s' → node_at s p = Some n →
  (∀ q, node_at s' q = if decide (q = p) then Some (f n) else node_at s q) →
  next (f n) = next n → prev (f n) = prev n → chain l s'.
Proof.
  intros Hc Hs Hn Hq Hnx Hpv. apply (chain_ext l s); [done|done|]. intros q _. unfold nxt, prv. rewrite Hq.
  destruct (decide (q = p)) as [->|]; [|done]. rewrite Hn. cbn. by rewrite Hnx, Hpv.
Qed.

(** The profile: nodes taken in order from the pool, linked in the order of times. *)
Definition profile prof s : Prop :=
  ∃ l, chain l s ∧ list_size s = Z.of_nat (length l) ∧ l ≡ₚ (Pool <$> seq 0 (length l)) ∧ entries s l prof.

Definition named (nm : list ascii) (e : list ascii * double) : bool := bool_decide (e.1 = nm).

(** What a call adds to the profile. *)
Definition add_time (nm : list ascii) (t : double) prof : list (list ascii * double) :=
  match first_index (named nm) prof with
  | Some i =>
      match prof !! i with
      | Some e => insert_by later (nm, dadd e.2 t) (take i prof ++ drop (S i) prof)
      | None => prof
      end
  | None => insert_by later (nm, t) prof
  end.

(** The found node leaves, takes the time, and comes back at its place. *)
Lemma wp_add_known l1 l2 s p e pf1 pf2 t (nm := e.1) :
  chain (l1 ++ p :: l2) s → entries s l1 pf1 → entry s p = Some e → entries s l2 pf2 →
  list_size s = Z.of_nat (length (l1 ++ p :: l2)) → times_ok (pf1 ++ e :: pf2) → time_ok t →
  wp (n ← load (Some p);
      assert (bool_decide (nm = name n));;
      syscall_delete_do (Some p);;
      n ← load (Some p);
      update (Some p) (set_time (dadd (time n) t));;
      syscall_insert_do (Some p))
    (λ _ s', ∃ l1' l2', l1 ++ l2 = l1' ++ l2' ∧ chain (l1' ++ p :: l2') s' ∧
       entries s' (l1' ++ p :: l2') (insert_by later (nm, dadd e.2 t) (pf1 ++ pf2)) ∧
       list_size s' = Z.of_nat (length (l1' ++ p :: l2')) ∧ same_io s s') s.
Proof.
  intros Hc H1 Hpe H2 Hsz Hok Ht. destruct (entry_node _ _ _ Hpe) as (n & Hn & Hne).
  assert (Hpn : ∃ i, p = Pool i ∧ i < POOL_SIZE).
  { pose proof (ch_nodes _ _ Hc) as Hns. rewrite Forall_forall in Hns. apply Hns, elem_of_app. right; by left. }
  destruct Hpn as (i & Hpi & Hi).
  assert (Hp : p ∉ l1 ++ l2).
  { pose proof (ch_nodup _ _ Hc) as Hnd. apply NoDup_app in Hnd as (_ & Hx & Hy). apply NoDup_cons in Hy as [Hy _].
    rewrite not_elem_of_app. split; [intros Hin; apply (Hx p Hin); by left|done]. }
  apply Forall_app in Hok as [Hok1 [Hoke Hok2]%Forall_cons].
  wp_step. apply (wp_load_node _ _ n); [done|]. wp_step. apply wp_assert; [apply bool_decide_eq_true; unfold nm; by subst e|].
  wp_step. eapply wp_mono; [by apply (wp_delete_do l1 l2 s p e pf1 pf2)|].
  intros [] s1 (Hc1 & He1 & Hpe1 & Hsz1 & Hio1). destruct (entry_node _ _ _ Hpe1) as (n1 & Hn1 & Hne1).
  wp_step. apply (wp_load_node _ _ n1); [done|]. wp_step. apply (wp_update _ _ n1); [done|]. intros s2 Hs2 _ Hq2.
  assert (Hc2 : chain (l1 ++ l2) s2) by (by eapply chain_carry).
  assert (He2 : entries s2 (l1 ++ l2) (pf1 ++ pf2)).
  { apply (entries_ext s1); [|done]. intros q Hin. unfold entry. rewrite Hq2, decide_False; [done|]. by intros ->. }
  eapply wp_mono; [apply (wp_insert_do (l1 ++ l2) s2 (pf1 ++ pf2) p i (nm, dadd e.2 t))|]; try done.
  - by apply Forall_app.
  - by apply dadd_ok.
  - unfold entry. rewrite Hq2, decide_True by done. subst e. cbn in Hne1 |- *. injection Hne1 as H3 H4. unfold nm. cbn. by rewrite H3, H4.
  - by rewrite (sb_size _ _ Hs2).
  - intros [] s3 (l1' & l2' & Hl & Hc3 & He3 & Hsz3 & Hio3). exists l1', l2'. split_and!; try done.
    eapply same_io_trans; [exact Hio1|]. eapply same_io_trans; [by apply same_io_nodes|done].
Qed.

(** A node is taken from the pool for a new name. *)
Lemma wp_add_new l s prof nm t :
  chain l s → entries s l prof → list_size s = Z.of_nat (length l) → l ≡ₚ (Pool <$> seq 0 (length l)) →
  times_ok prof → time_ok t → length l < POOL_SIZE → length nm < NAME_SIZE →
  let current := Some (Pool (length l)) in
  wp (update current (set_id (Z.of_nat (length l)));;
      (if decide (length nm < NAME_SIZE) then update current (set_name nm) else fail OutOfBounds);;
      update current (set_time t);;
      syscall_insert_do current)
    (λ _ s', ∃ l1 l2, l = l1 ++ l2 ∧ chain (l1 ++ Pool (length l) :: l2) s' ∧
       entries s' (l1 ++ Pool (length l) :: l2) (insert_by later (nm, t) prof) ∧
       list_size s' = Z.of_nat (length (l1 ++ Pool (length l) :: l2)) ∧ same_io s s') s.
Proof.
  intros Hc He Hsz Hperm Hok Ht Hlen Hnm current. set (p := Pool (length l)) in *.
  assert (Hp : p ∉ l) by (rewrite Hperm; intros (k & [= Hk] & Hin%elem_of_seq)%list_elem_of_fmap; lia).
  assert (Hn : is_Some (node_at s p)) by (apply lookup_lt_is_Some_2; rewrite (ch_pool _ _ Hc); done).
  destruct Hn as [n Hn]. unfold current. rewrite decide_True by done.
  wp_step. apply (wp_update _ _ n); [done|]. intros s1 Hs1 _ Hq1.
  wp_step. apply (wp_update _ _ (set_id (Z.of_nat (length l)) n)); [by rewrite Hq1, decide_True|]. intros s2 Hs2 _ Hq2.
  wp_step. apply (wp_update _ _ (set_name nm (set_id (Z.of_nat (length l)) n))); [by rewrite Hq2, decide_True|]. intros s3 Hs3 _ Hq3.
  assert (Hc3 : chain l s3).
  { assert (chain l s1) by (by eapply chain_carry). assert (chain l s2) by (eapply chain_carry; [done|done|by rewrite Hq1, decide_True|done..]).
    eapply chain_carry; [done|done|by rewrite Hq2, decide_True|done..]. }
  assert (He3 : entries s3 l prof).
  { apply (entries_ext s); [|done]. intros q Hin. unfold entry.
    assert (q ≠ p) by (by intros ->). by rewrite Hq3, decide_False, Hq2, decide_False, Hq1, decide_False. }
  pose proof (same_trans _ _ _ (same_trans _ _ _ Hs1 Hs2) Hs3) as Hsame.
  eapply wp_mono; [apply (wp_insert_do l s3 prof p (length l) (nm, t))|]; try done.
  - unfold entry. by rewrite Hq3, decide_True.
  - by rewrite (sb_size _ _ Hsame).
  - intros [] s4 (l1 & l2 & Hl & Hc4 & He4 & Hsz4 & Hio4). exists l1, l2. split_and!; try done.
    eapply same_io_trans; [by apply same_io_nodes|done].
Qed.

Lemma pool_perm l l' : l' ≡ₚ l → l ≡ₚ (Pool <$> seq 0 (length l)) → l' ≡ₚ (Pool <$> seq 0 (length l')).
Proof. intros H Hl. rewrite (Permutation_length H). by rewrite H. Qed.

Lemma wp_syscall_insert prof s nm t :
  profile prof s → times_ok prof → time_ok t → length nm < NAME_SIZE →
  (first_index (named nm) prof = None → length prof < POOL_SIZE) →
  wp (syscall_insert nm t) (λ _ s', profile (add_time nm t prof) s' ∧ same_io s s') s.
Proof.
  intros (l & Hc & Hsz & Hperm & He) Hok Ht Hnm Hroom. unfold syscall_insert.
  destruct (chain_head_node _ _ Hc) as (nh & Hnh & Hnx).
  pose proof (chain_length _ _ Hc) as Hlen. pose proof (Forall2_length _ _ _ He) as Hll.
  wp_step. wp_step. rewrite (ch_head _ _ Hc), (ch_tail _ _ Hc). wp_step. apply (wp_load_node _ _ nh); [done|]. rewrite Hnx.
  wp_step. apply (wp_find_loop l s nm _ Hc l prof []); [done|done|unfold walk_fuel; lia|].
  unfold add_time. fold (named nm). change (λ e : list ascii * double, bool_decide (e.1 = nm)) with (named nm).
  destruct (first_index (named nm) prof) as [i|] eqn:Hf.
  - intros p Hp. pose proof (list_elem_of_lookup_2 _ _ _ Hp) as Hin.
    rewrite decide_True.
    2: { intros [= ->]. pose proof (ch_nodes _ _ Hc) as Hns. rewrite Forall_forall in Hns. by destruct (Hns _ Hin) as (? & ? & _). }
    apply first_index_Some in Hf as [(e & Hpe & Henm%bool_decide_eq_true) _]. rewrite Hpe.
    pose proof (Forall2_lookup_lr _ _ _ _ _ _ He Hp Hpe) as Hentry. cbn beta in Hentry.
    set (l1 := take i l). set (l2 := drop (S i) l). set (pf1 := take i prof). set (pf2 := drop (S i) prof).
    assert (Hl : l = l1 ++ p :: l2) by (symmetry; by apply take_drop_middle).
    assert (Hpr : prof = pf1 ++ e :: pf2) by (symmetry; by apply take_drop_middle).
    assert (H1 : entries s l1 pf1) by (by apply Forall2_take). assert (H2 : entries s l2 pf2) by (by apply Forall2_drop).
    wp_step. subst nm. eapply wp_mono; [apply (wp_add_known l1 l2 s p e pf1 pf2 t); try done; by rewrite <-?Hl, <-?Hpr|].
    intros [] s' (l1' & l2' & Hll' & Hc' & He' & Hsz' & Hio').
    apply (wp_syscall_check _ _ _ Hc' Hsz'). split; [|done]. exists (l1' ++ p :: l2'). split_and!; try done.
    apply (pool_perm l); [|done]. by rewrite Hl, <-!Permutation_middle, Hll'.
  - rewrite decide_False by (by intros Hx). wp_step. rewrite Hsz, Nat2Z.id.
    eapply wp_mono; [apply (wp_add_new l s prof nm t); try done; rewrite Hll; by apply Hroom|].
    intros [] s' (l1 & l2 & Hl & Hc' & He' & Hsz' & Hio').
    apply (wp_syscall_check _ _ _ Hc' Hsz'). split; [|done]. eexists. split_and!; try done.
    rewrite <-Permutation_middle, <-Hl. cbn [length].
    rewrite seq_S, fmap_app, <-Hperm. cbn. apply Permutation_cons_append.
Qed.
(** ** Printing changes the screen only *)

Definition share (d total : double) : double := ddiv (dmul d (dint 100)) total.

Fixpoint report (total rest : double) (cnt : Z) prof : list item :=
  match prof with
  | [] => []
  | (nm, d) :: prof' =>
      Row nm (share d total) ::
      (if decide (16 ≤ cnt + 1)%Z then [Row (chars "others") (share (dsub rest d) total)]
       else report total (dsub rest d) (cnt + 1) prof')
  end.

Lemma chain_nodes_eq l s s' :
  chain l s → pool s' = pool s → special s' = special s → lhead s' = lhead s → ltail s' = ltail s → chain l s'.
Proof.
  intros [Hc1 Hc2 Hc3 Hc4 Hc5 Hc6 Hc7] Hp Hs Hh Ht. split; try congruence.
  assert (Hn : ∀ q, node_at s' q = node_at s q) by (intros []; cbn; congruence).
  eapply linked_ext; [| |exact Hc5]; intros q _; unfold nxt, prv; by rewrite Hn.
Qed.

Lemma entries_nodes_eq l s s' prof : pool s' = pool s → special s' = special s → entries s l prof → entries s' l prof.
Proof. intros Hp Hs. apply entries_ext. intros [] _; unfold entry; cbn; congruence. Qed.

Lemma wp_print_loop l (Q : unit → sperf → Prop) :
  ∀ l2 prof2 l1 s fuel rest cnt, chain l s → l = l1 ++ l2 → entries s l2 prof2 → length l2 < fuel →
  Q tt (set_screen (screen s ++ report (total_time s) rest cnt prof2) s) →
  wp (print_loop fuel (Some (at_or_tail l2)) rest cnt) Q s.
Proof.
  intros l2. induction l2 as [|p l2 IH]; intros prof2 l1 s fuel rest cnt Hc Hl He Hf HQ; (destruct fuel as [|fuel]; [simpl in Hf; lia|]);
    cbn [print_loop at_or_tail]; wp_step; wp_step; rewrite (ch_tail _ _ Hc).
  - rewrite decide_True by done. wp_step. apply Forall2_nil_inv_l in He as ->. cbn in HQ. rewrite app_nil_r in HQ. by destruct s.
  - apply Forall2_cons_inv_l in He as (e & prof' & Hpe & He & ->).
    assert (Hin : p ∈ l) by (rewrite Hl; apply elem_of_app; right; by left).
    rewrite decide_False.
    2: { intros [= ->]. pose proof (ch_nodes _ _ Hc) as Hn. rewrite Forall_forall in Hn. by destruct (Hn _ Hin) as (? & ? & _). }
    destruct (entry_node _ _ _ Hpe) as (n & Hn & <-). wp_step. apply (wp_load_node _ _ n); [done|].
    wp_step. unfold emit. wp_step. cbn [report] in HQ. cbv zeta.
    destruct (decide (16 ≤ cnt + 1)%Z); [wp_step; unfold set_screen in *; cbn in *; by rewrite <-(assoc_L (++))|].
    assert (Hfull : HEAD :: l ++ [TAIL] = (HEAD :: l1) ++ p :: at_or_tail l2 :: drop 1 (l2 ++ [TAIL])).
    { rewrite <-app_tail_cons, Hl, <-(assoc_L (++)). done. }
    destruct (chain_adjacent l s _ _ _ _ Hc Hfull) as (n' & _ & Hn' & _ & Hnx & _).
    rewrite Hn in Hn'. injection Hn' as <-. rewrite Hnx.
    eapply (IH prof' (l1 ++ [p])); [by eapply chain_nodes_eq|by rewrite <-(assoc_L (++))|by eapply entries_nodes_eq|simpl in Hf; lia|].
    unfold set_screen in *. cbn in *. by rewrite <-(assoc_L (++)).
Qed.

(** The screen ends with the report of the profile. *)
Definition reported prof s : Prop := ∃ before, screen s = before ++ Home :: report (total_time s) (total_time s) 0 prof.

Lemma wp_syscall_print prof s :
  profile prof s → wp syscall_print (λ _ s', profile prof s' ∧ reported prof s' ∧ buf s' = buf s) s.
Proof.
  intros (l & Hc & Hsz & Hperm & He). unfold syscall_print. wp_step. wp_step. wp_step.
  assert (Hrest : ∀ s1, pool s1 = pool s → special s1 = special s → lhead s1 = lhead s → ltail s1 = ltail s →
      list_size s1 = list_size s → total_time s1 = total_time s → buf s1 = buf s →
      wp (h ← load (lhead s); emit Home;; print_loop walk_fuel (next h) (total_time s) 0)
        (λ _ s', profile prof s' ∧ reported prof s' ∧ buf s' = buf s) s1).
  { intros s1 Hp1 Hs1 Hh1 Ht1 Hz1 Htt1 Hb1. assert (Hc1 : chain l s1) by (by apply (chain_nodes_eq l s)).
    destruct (chain_head_node _ _ Hc1) as (nh & Hnh & Hnx).
    rewrite (ch_head _ _ Hc). wp_step. apply (wp_load_node _ _ nh); [done|]. rewrite Hnx. wp_step. unfold emit. wp_step.
    pose proof (chain_length _ _ Hc).
    eapply (wp_print_loop l _ l prof []); [by eapply chain_nodes_eq|done| |unfold walk_fuel; lia|].
    - eapply entries_nodes_eq; [| |exact He]; done.
    - split; [|split; [|done]].
      + exists l. split; [by eapply chain_nodes_eq|]. split; [cbn; by rewrite Hz1|]. split; [done|].
        by eapply entries_nodes_eq.
      + exists (screen s1). cbn. rewrite Htt1. by rewrite <-(assoc_L (++)). }
  apply wp_when; intros _; [|by apply Hrest]. wp_step. unfold emit. wp_step. wp_step. by apply Hrest.
Qed.
End operations.

(** ** The calls so far *)

Implicit Types (prof : list (list ascii * double)) (calls : list (list ascii * double)).

(** The time of a system call: its calls' times, summed as they came. *)
Definition total_of (nm : list ascii) calls : option double :=
  foldl (λ acc c, if decide (c.1 = nm)
    then Some (match acc with Some d => dadd d c.2 | None => c.2 end) else acc) None calls.

Record accounts prof calls : Prop := {
  ac_names : NoDup prof.*1;
  ac_times : times_ok prof;
  ac_order : ordered later prof;
  ac_total : ∀ nm d, (nm, d) ∈ prof ↔ total_of nm calls = Some d;
}.

Lemma total_of_snoc nm calls c : total_of nm (calls ++ [c]) =
  if decide (c.1 = nm) then Some (match total_of nm calls with Some d => dadd d c.2 | None => c.2 end) else total_of nm calls.
Proof. unfold total_of. by rewrite foldl_app. Qed.

Lemma total_of_named nm calls d : total_of nm calls = Some d → nm ∈ calls.*1.
Proof.
  revert d. induction calls as [|c calls IH] using rev_ind; intros d; [done|]. rewrite total_of_snoc, fmap_app, elem_of_app.
  case_decide as Hc; [intros _; right; subst nm; by left|]. intros Hd. left. by eapply IH.
Qed.

Lemma later_trans : transitive _ (λ x y, later x y = false).
Proof. intros x y z. unfold later. rewrite !negb_false_iff. apply dge_trans. Qed.

Lemma later_asym x y : time_ok x.2 → time_ok y.2 → later x y = true → later y x = false.
Proof. unfold later. rewrite negb_true_iff, negb_false_iff. apply dge_total. Qed.

Lemma insert_accounts prof nm d (rest : list (list ascii * double)) :
  NoDup (nm :: rest.*1) → times_ok rest → time_ok d → ordered later rest → prof = insert_by later (nm, d) rest →
  NoDup prof.*1 ∧ times_ok prof ∧ ordered later prof.
Proof.
  intros Hnd Hok Hd Hord ->. pose proof (insert_by_perm later (nm, d) rest) as Hp. split; [by rewrite Hp|].
  split; [unfold times_ok; rewrite Hp; by constructor|].
  apply insert_by_ordered; [|done]. intros y Hy. apply later_asym; [done|].
  unfold times_ok in Hok. rewrite Forall_forall in Hok. by apply Hok.
Qed.

Lemma add_accounts prof calls nm t :
  accounts prof calls → time_ok t → accounts (add_time nm t prof) (calls ++ [(nm, t)]).
Proof.
  intros [Hnd Hok Hord Htot] Ht. unfold add_time. destruct (first_index (named nm) prof) as [i|] eqn:Hf.
  - apply first_index_Some in Hf as [(e & He & Henm%bool_decide_eq_true) _]. rewrite He. destruct e as [nm' d]. cbn in Henm. subst nm'.
    rewrite <-(take_drop_middle _ _ _ He) in Hnd, Hok, Hord, Htot.
    set (pf1 := take i prof) in *. set (pf2 := drop (S i) prof) in *. cbn [snd].
    assert (Hsub : pf1 ++ pf2 `sublist_of` pf1 ++ (nm, d) :: pf2) by (apply sublist_app; [done|by apply sublist_cons]).
    assert (Hnd' : NoDup (nm :: (pf1 ++ pf2).*1)).
    { rewrite fmap_app. rewrite fmap_app, fmap_cons in Hnd. by rewrite Permutation_middle. }
    unfold times_ok in Hok. apply Forall_app in Hok as [Hok1 [Hokd Hok2]%Forall_cons].
    assert (Hok' : times_ok (pf1 ++ pf2)) by (by apply Forall_app).
    destruct (insert_accounts _ nm (dadd d t) (pf1 ++ pf2) Hnd' Hok' (dadd_ok _ _ Hokd Ht)
      (ordered_sublist _ _ _ later_trans Hsub Hord) eq_refl) as (H1 & H2 & H3).
    split; [done..|]. intros x v. rewrite insert_by_perm, elem_of_cons, total_of_snoc. cbn [fst snd].
    assert (Hd : total_of nm calls = Some d) by (apply Htot, elem_of_app; right; by left).
    apply NoDup_cons in Hnd' as [Hnot _].
    destruct (decide (nm = x)) as [<-|Hx].
    + rewrite Hd. split; [intros [[= ->]|Hin]; [done|]|intros [= <-]; by left].
      exfalso. apply Hnot. by apply (list_elem_of_fmap_2 fst) in Hin.
    + rewrite <-Htot, !elem_of_app, elem_of_cons. split; [intros [[= <- _]|?]; [done|tauto]|].
      intros [?|[[= <- _]|?]]; [tauto|done|tauto].
  - assert (Hnot : nm ∉ prof.*1).
    { intros ((nm' & d) & Hnm & Hin)%list_elem_of_fmap. cbn in Hnm. subst nm'.
      apply list_elem_of_lookup in Hin as [i Hi]. pose proof (proj1 (first_index_None _ _) Hf i _ Hi) as Hx.
      unfold named in Hx. by rewrite bool_decide_true in Hx. }
    assert (Hnd' : NoDup (nm :: prof.*1)) by (by constructor).
    destruct (insert_accounts _ nm t prof Hnd' Hok Ht Hord eq_refl) as (H1 & H2 & H3).
    split; [done..|]. intros x v. rewrite insert_by_perm, elem_of_cons, total_of_snoc. cbn [fst snd].
    destruct (decide (nm = x)) as [<-|Hx].
    + destruct (total_of nm calls) as [d|] eqn:Hd.
      { exfalso. apply Hnot. apply Htot in Hd. by apply (list_elem_of_fmap_2 fst) in Hd. }
      split; [intros [[= ->]|Hin]; [done|]|intros [= <-]; by left].
      exfalso. apply Hnot. by apply (list_elem_of_fmap_2 fst) in Hin.
    + rewrite <-Htot. split; [intros [[= <- _]|?]; done|by right].
Qed.

(** The pool has room while the names are few. *)
Lemma accounts_room prof calls nm names :
  accounts prof calls → nm ∉ prof.*1 → (∀ x, x ∈ nm :: calls.*1 → x ∈ names) → length names ≤ POOL_SIZE →
  length prof < POOL_SIZE.
Proof.
  intros [Hnd _ _ Htot] Hnm Hsub Hlen. assert (Hs : nm :: prof.*1 ⊆+ names).
  { apply NoDup_submseteq; [by constructor|]. intros x [->|Hx]%elem_of_cons; apply Hsub; [by left|].
    apply list_elem_of_fmap in Hx as ([x' d] & -> & Hin). right. eapply total_of_named. by apply Htot. }
  apply submseteq_length in Hs. cbn in Hs. rewrite length_fmap in Hs. lia.
Qed.

(** ** The lines of strace *)

Definition NL : ascii := "010"%char.
Definition NUL : ascii := "000"%char.

(** A line that reports a call, and one that does not. *)
Inductive call_line (nm : list ascii) (t : double) : list ascii → Prop :=
  call_intro args digs :
    nm ≠ [] → "("%char ∉ nm → NUL ∉ nm → NUL ∉ args → "<"%char ∉ digs → NUL ∉ digs → strtod digs = Some t →
    length (nm ++ "("%char :: args ++ "<"%char :: digs ++ [">"%char; NL]) < 1024 →
    call_line nm t (nm ++ "("%char :: args ++ "<"%char :: digs ++ [">"%char; NL]).
Definition quiet_line (line : list ascii) : Prop :=
  length line < 1024 ∧ NUL ∉ line ∧ (length line ≤ 2 ∨ line !! (length line - 2) ≠ Some ">"%char).

Inductive traced : list (list ascii) → list (list ascii * double) → Prop :=
  | traced_nil : traced [] []
  | traced_quiet line lines calls : quiet_line line → traced lines calls → traced (line :: lines) calls
  | traced_call line lines nm t calls : call_line nm t line → traced lines calls → traced (line :: lines) ((nm, t) :: calls).

Section lines.
Implicit Types (s : sperf).

Lemma until_nul_id l : NUL ∉ l → until_nul l = l.
Proof. induction l as [|c l IH]; [done|]. intros [Hc Hl]%not_elem_of_cons. cbn. rewrite decide_False by done. f_equal. auto. Qed.

Lemma aget_cons_app (l : list ascii) (c : ascii) r : aget (l ++ c :: r) (Z.of_nat (length l)) = Some c.
Proof. unfold aget. by rewrite decide_True, Nat2Z.id, list_lookup_middle by lia. Qed.

(** The name ends before the first parenthesis after its first character. *)
Lemma wp_name_loop nm r s (Q : Z → sperf → Prop) :
  "("%char ∉ nm → nm ≠ [] → buf s = nm ++ "("%char :: r → Q (Z.of_nat (length nm) - 1)%Z s →
  ∀ fuel k, k < length nm → length nm - k < fuel → wp (name_loop fuel (Z.of_nat k)) Q s.
Proof.
  intros Hnm Hne Hb HQ fuel. induction fuel as [|fuel IH]; intros k Hk Hf; [lia|]. cbn [name_loop].
  wp_step. wp_step. wp_step. replace (Z.of_nat k + 1)%Z with (Z.of_nat (S k)) by lia.
  destruct (decide (S k = length nm)) as [Hlast|Hlast].
  - eapply wp_deref; [rewrite Hb, Hlast; apply aget_cons_app|]. rewrite decide_False by (intros Hx; by apply Hx).
    wp_step. by replace (Z.of_nat k) with (Z.of_nat (length nm) - 1)%Z by lia.
  - destruct (nm !! S k) as [c|] eqn:Hc; [|apply lookup_ge_None_1 in Hc; lia].
    eapply wp_deref; [unfold aget; rewrite decide_True, Nat2Z.id, Hb, lookup_app_l by lia; exact Hc|].
    rewrite decide_True by (intros ->; by apply list_elem_of_lookup_2 in Hc). apply IH; lia.
Qed.

(** The time begins after the last opening bracket. *)
Lemma wp_time_loop pre digs r s (Q : Z → sperf → Prop) :
  "<"%char ∉ digs → buf s = pre ++ "<"%char :: digs ++ r → Q (Z.of_nat (length pre) + 1)%Z s →
  ∀ fuel k, k < length digs → k < fuel → wp (time_loop fuel (Z.of_nat (length pre) + 1 + Z.of_nat k)) Q s.
Proof.
  intros Hd Hb HQ fuel. induction fuel as [|fuel IH]; intros k Hk Hf; [lia|]. cbn [time_loop].
  wp_step. wp_step. wp_step. replace (Z.of_nat (length pre) + 1 + Z.of_nat k - 1)%Z with (Z.of_nat (length pre + k)) by lia.
  destruct k as [|k].
  - eapply wp_deref; [rewrite Hb, Nat.add_0_r; apply aget_cons_app|]. rewrite decide_False by (intros Hx; by apply Hx).
    wp_step. by rewrite Z.add_0_r.
  - destruct (digs !! k) as [c|] eqn:Hc; [|apply lookup_ge_None_1 in Hc; lia].
    eapply wp_deref.
    { unfold aget. rewrite decide_True, Nat2Z.id, Hb, lookup_app_r by lia.
      replace (length pre + S k - length pre) with (S k) by lia.
      trans ((digs ++ r) !! k); [done|]. rewrite lookup_app_l by lia. exact Hc. }
    rewrite decide_True by (intros ->; by apply list_elem_of_lookup_2 in Hc).
    replace (Z.of_nat (length pre + S k)) with (Z.of_nat (length pre) + 1 + Z.of_nat k)%Z by lia. apply IH; lia.
Qed.

Lemma wp_copy_part b from n l s (Q : list ascii → sperf → Prop) :
  (0 ≤ n < 1024)%Z → take (Z.to_nat n) (drop (Z.to_nat from) b) = l → NUL ∉ l → Q l s → wp (copy_part b from n) Q s.
Proof.
  intros Hn Hl Hnul HQ. unfold copy_part. rewrite decide_True by (unfold NAME_SIZE; lia). wp_step.
  by rewrite Hl, until_nul_id.
Qed.

Lemma profile_buf prof s b : profile prof s → profile prof (set_buf b s).
Proof.
  intros (l & Hc & Hsz & Hp & He). exists l. split; [by apply (chain_nodes_eq l s)|]. split; [done|]. split; [done|].
  by apply (entries_nodes_eq l s).
Qed.

Lemma reported_buf prof s b : reported prof s → reported prof (set_buf b s).
Proof. done. Qed.

(** The buffer after [fgets]. *)
Definition filled (line b : list ascii) : list ascii := line ++ NUL :: drop (length line + 1) b.

Lemma filled_length line b : length b = BUF_SIZE → length line < 1024 → length (filled line b) = BUF_SIZE.
Proof. intros Hb Hl. unfold filled, BUF_SIZE in *. rewrite length_app. cbn. rewrite length_drop, Hb. lia. Qed.

Definition clear_first (b : list ascii) : list ascii := match b with _ :: b => NUL :: b | [] => [] end.
Lemma clear_first_length b : length (clear_first b) = length b.
Proof. by destruct b. Qed.

Lemma wp_quiet_line prof s line :
  quiet_line line → profile prof s → length (buf s) = BUF_SIZE →
  wp (handle_line line) (λ _ s', profile prof s' ∧ length (buf s') = BUF_SIZE ∧ screen s' = screen s ∧ total_time s' = total_time s) s.
Proof.
  intros (Hlen & Hnul & Hq) Hp Hb. unfold handle_line. do 4 wp_step. fold NUL. fold (filled line (buf s)). set (s1 := set_buf _ s).
  assert (Hend : wp (modify (λ s0, set_buf (match buf s0 with [] => [] | _ :: b => "000"%char :: b end) s0))
    (λ _ s', profile prof s' ∧ length (buf s') = BUF_SIZE ∧ screen s' = screen s ∧ total_time s' = total_time s) s1).
  { wp_step. split; [by do 2 apply profile_buf|]. split; [|done]. cbn -[filled]. fold NUL.
    change (length (clear_first (filled line (buf s))) = BUF_SIZE). by rewrite clear_first_length, filled_length. }
  wp_step. cbv zeta. rewrite (until_nul_id line Hnul). case_decide as H2.
  - destruct (line !! (length line - 2)) as [c|] eqn:Hc; [|apply lookup_ge_None_1 in Hc; lia].
    wp_step. eapply wp_deref.
    { unfold aget. rewrite decide_True by lia. change (buf s1) with (filled line (buf s)). unfold filled.
      replace (Z.to_nat (Z.of_nat (length line) - 2)) with (length line - 2) by lia. rewrite lookup_app_l by lia. exact Hc. }
    wp_step. rewrite bool_decide_false; [do 2 wp_step; exact Hend|]. intros ->. destruct Hq as [?|Hq]; [lia|by apply Hq].
  - wp_step. do 2 wp_step. exact Hend.
Qed.

Lemma wp_call_line prof s line nm t :
  call_line nm t line → profile prof s → times_ok prof → length (buf s) = BUF_SIZE →
  (nm ∉ prof.*1 → length prof < POOL_SIZE) →
  wp (handle_line line) (λ _ s', profile (add_time nm t prof) s' ∧ length (buf s') = BUF_SIZE ∧
    reported (add_time nm t prof) s') s.
Proof.
  intros Hline Hp Hok Hb Hroom. destruct Hline as [args digs Hne Hpar Hnul Hna Hlt Hdn Hstr Hlen].
  set (line := nm ++ "("%char :: args ++ "<"%char :: digs ++ [">"%char; NL]) in *.
  set (pre := nm ++ "("%char :: args).
  assert (Hpre : line = pre ++ "<"%char :: digs ++ [">"%char; NL]) by (unfold line, pre; by rewrite <-(assoc_L (++))).
  assert (Hdigs : digs ≠ []) by (intros ->; discriminate).
  assert (Hll : length line = length pre + length digs + 3) by (rewrite Hpre, length_app; cbn; rewrite length_app; cbn; lia).
  assert (Hd0 : 0 < length digs) by (destruct digs; [done|cbn; lia]).
  assert (Hn0 : 0 < length nm < length line) by (unfold line; rewrite length_app; destruct nm; [done|cbn; lia]).
  unfold handle_line. do 4 wp_step. fold NUL. fold (filled line (buf s)). set (s1 := set_buf _ s).
  assert (Hb1 : buf s1 = filled line (buf s)) by done.
  assert (Hbl : length (buf s1) = BUF_SIZE) by (rewrite Hb1; by apply filled_length).
  wp_step. cbv zeta. rewrite (until_nul_id line) by (unfold line; set_solver). rewrite decide_True by lia.
  wp_step. eapply wp_deref.
  { unfold aget. rewrite decide_True by lia. rewrite Hb1. unfold filled.
    replace (Z.to_nat (Z.of_nat (length line) - 2)) with (length (pre ++ "<"%char :: digs)) by (rewrite length_app; cbn; lia).
    rewrite Hpre, lookup_app_l by (rewrite !length_app; cbn; rewrite !length_app; cbn; lia).
    replace (pre ++ "<"%char :: digs ++ [">"%char; NL]) with ((pre ++ "<"%char :: digs) ++ ">"%char :: [NL]) by (by rewrite <-(assoc_L (++))).
    by apply list_lookup_middle. }
  wp_step. rewrite bool_decide_true by done. wp_step. wp_step.
  apply (wp_name_loop nm (args ++ "<"%char :: digs ++ [">"%char; NL] ++ NUL :: drop (length line + 1) (buf s)) s1) with (k := 0); [done|done| | |lia|unfold BUF_SIZE; lia].
  { rewrite Hb1. unfold filled. rewrite Hpre. unfold pre. rewrite <-!(assoc_L (++)). cbn. by rewrite <-!(assoc_L (++)). }
  wp_step. replace (Z.of_nat (length line) - 3)%Z with (Z.of_nat (length pre) + 1 + Z.of_nat (length digs - 1))%Z by lia.
  apply (wp_time_loop pre digs ([">"%char; NL] ++ NUL :: drop (length line + 1) (buf s)) s1); [done| | |lia|unfold BUF_SIZE; lia].
  { rewrite Hb1. unfold filled. rewrite Hpre, <-(assoc_L (++)). cbn. by rewrite <-(assoc_L (++)). }
  wp_step. apply (wp_copy_part _ _ _ nm); [lia| |done|].
  { replace (Z.to_nat (Z.of_nat (length nm) - 1 - 0 + 1)) with (length nm) by lia. rewrite Hb1. unfold filled, line.
    rewrite drop_0, <-(assoc_L (++)). apply take_app_length. }
  wp_step. apply (wp_copy_part _ _ _ digs); [lia| |done|].
  { replace (Z.to_nat (Z.of_nat (length pre) + 1 + Z.of_nat (length digs - 1) - (Z.of_nat (length pre) + 1) + 1)) with (length digs) by lia.
    replace (Z.to_nat (Z.of_nat (length pre) + 1)) with (length (pre ++ ["<"%char])) by (rewrite length_app; cbn; lia).
    rewrite Hb1. unfold filled. rewrite Hpre.
    replace ((pre ++ "<"%char :: digs ++ [">"%char; NL]) ++ NUL :: drop (length (pre ++ "<"%char :: digs ++ [">"%char; NL]) + 1) (buf s))
      with ((pre ++ ["<"%char]) ++ digs ++ [">"%char; NL] ++ NUL :: drop (length (pre ++ "<"%char :: digs ++ [">"%char; NL]) + 1) (buf s))
      by (rewrite <-!(assoc_L (++)); cbn; by rewrite <-!(assoc_L (++))).
    rewrite drop_app_length. apply take_app_length. }
  wp_step. eapply wp_deref; [exact Hstr|].
  wp_step. eapply wp_mono; [apply (wp_syscall_insert prof s1 nm t)|]; try done.
  - by apply profile_buf.
  - by eapply strtod_ok.
  - unfold NAME_SIZE. lia.
  - intros Hf. apply Hroom. intros ((nm' & d) & Hnm & Hin)%list_elem_of_fmap. cbn in Hnm. subst nm'.
    apply list_elem_of_lookup in Hin as [i Hi]. pose proof (proj1 (first_index_None _ _) Hf i _ Hi) as Hx.
    unfold named in Hx. by rewrite bool_decide_true in Hx.
  - intros [] s2 (Hp2 & _ & _ & Hb2). eapply wp_mono; [by apply wp_syscall_print|].
    intros [] s3 (Hp3 & Hr3 & Hb3). wp_step. split; [by apply profile_buf|]. split; [|by apply reported_buf].
    cbn. fold NUL. change (length (clear_first (buf s3)) = BUF_SIZE). by rewrite clear_first_length, Hb3, Hb2.
Qed.
End lines.

(** ** The program *)

Record tracing (prof calls : list (list ascii * double)) (s : sperf) : Prop := {
  tr_profile : profile prof s;
  tr_accounts : accounts prof calls;
  tr_buf : length (buf s) = BUF_SIZE;
  tr_screen : calls ≠ [] → reported prof s;
}.

Lemma wp_syscall_init b (Q : unit → sperf → Prop) :
  length b = BUF_SIZE → (∀ s, tracing [] [] s → Q tt s) → wp syscall_init Q (boot_sperf b).
Proof.
  intros Hb HQ. eapply wp_run. eexists tt, _. split; [reflexivity|]. apply HQ. split.
  - exists []. split; [|split; [done|split; [done|constructor]]].
    split; try done. constructor.
  - split; [constructor|constructor|constructor|]. intros nm d. split; [by intros ?%not_elem_of_nil|done].
  - exact Hb.
  - done.
Qed.

Lemma wp_lines names lines calls : traced lines calls → length names ≤ POOL_SIZE →
  ∀ prof done_ s, tracing prof done_ s → (∀ x, x ∈ (done_ ++ calls).*1 → x ∈ names) →
  wp (for_each lines handle_line) (λ _ s', ∃ prof', tracing prof' (done_ ++ calls) s') s.
Proof.
  intros Ht Hn. induction Ht as [|line lines calls Hq Ht IH|line lines nm t calls Hc Ht IH];
    intros prof dn s [Hp Ha Hb Hr] Hsub; cbn [for_each].
  - wp_step. exists prof. by rewrite app_nil_r.
  - wp_step. eapply wp_mono; [by apply (wp_quiet_line prof)|]. intros [] s1 (Hp1 & Hb1 & Hs1 & Ht1).
    apply (IH prof); [|done]. split; try done. intros Hd. destruct (Hr Hd) as [before Hbe]. exists before. by rewrite Hs1, Ht1.
  - assert (Htok : time_ok t) by (destruct Hc; by eapply strtod_ok).
    wp_step. eapply wp_mono; [apply (wp_call_line prof _ _ nm t Hc Hp (ac_times _ _ Ha) Hb)|].
    { intros Hnm. eapply (accounts_room prof dn nm names); [done|done| |done].
      intros x Hx. apply Hsub. rewrite fmap_app. apply elem_of_app.
      apply elem_of_cons in Hx as [->|Hx]; [right; by left|by left]. }
    intros [] s1 (Hp1 & Hb1 & Hr1). replace (dn ++ (nm, t) :: calls) with ((dn ++ [(nm, t)]) ++ calls) in * by (by rewrite <-(assoc_L (++))).
    apply (IH (add_time nm t prof)); [|done]. split; try done. by apply add_accounts.
Qed.

(** C35. The profile is right: for any lines, of which some report calls, the list
    stays linked both ways and its checks pass; it has one node for each system
    call named, whose time is the floating-point sum of its calls' times in the
    order they came, sorted from the longest to the shortest, and the screen
    ends with its first 16 entries.  The pool must have a node for each name; what the
    buffer held at first does not matter. *)
Theorem sperf_profiles b lines calls :
  length b = BUF_SIZE → traced lines calls → length (remove_dups calls.*1) ≤ POOL_SIZE →
  ∃ s prof, main lines (boot_sperf b) = Ret (tt, s) ∧
    profile prof s ∧
    ordered later prof ∧ NoDup prof.*1 ∧
    (∀ nm d, (nm, d) ∈ prof ↔ total_of nm calls = Some d) ∧
    (calls ≠ [] → reported prof s).
Proof.
  intros Hbuf Ht Hn. assert (Hm : wp (main lines) (λ _ s, ∃ prof, tracing prof calls s) (boot_sperf b)).
  { unfold main. wp_step. apply wp_syscall_init; [done|]. intros s Hs.
    apply (wp_lines _ lines calls Ht Hn [] [] s Hs). intros x Hx. by apply elem_of_remove_dups. }
  apply wp_run in Hm as ([] & s & Hrun & prof & [Hp [Hnd Hok Hord Htot] Hb Hr]).
  by exists s, prof.
Qed.

Definition demo_call (nm args digs : string) : list ascii :=
  chars nm ++ "("%char :: chars args ++ "<"%char :: chars digs ++ [">"%char; NL].
Definition demo_lines : list (list ascii) :=
  [demo_call "read" "3, abc) = 4 " "0.000012"; demo_call "write" "1, x<y>) = 2 " "0.5";
   chars "exit"; demo_call "read" "3, q) = 1 " "1.25"].
Definition demo_time (digs : string) : double := default (S754_zero false) (strtod (chars digs)).
Definition demo_calls : list (list ascii * double) :=
  [(chars "read", demo_time "0.000012"); (chars "write", demo_time "0.5"); (chars "read", demo_time "1.25")].

Lemma demo_call_line nm args digs t :
  chars nm ≠ [] → bool_decide ("("%char ∉ chars nm ∧ NUL ∉ chars nm ∧ NUL ∉ chars args ∧ "<"%char ∉ chars digs ∧ NUL ∉ chars digs) = true →
  strtod (chars digs) = Some t → (length (demo_call nm args digs) <? 1024) = true → call_line (chars nm) t (demo_call nm args digs).
Proof. intros H1 (H2 & H3 & H4 & H5 & H6)%bool_decide_eq_true Ht Hl%Nat.ltb_lt. by constructor. Qed.

Lemma demo_traced : traced demo_lines demo_calls.
Proof.
  apply traced_call; [by apply demo_call_line; vm_compute|].
  apply traced_call; [by apply demo_call_line; vm_compute|].
  apply traced_quiet; [split; [vm_compute; lia|split; [by apply (bool_decide_unpack _); vm_compute|right; by vm_compute]]|].
  apply traced_call; [by apply demo_call_line; vm_compute|]. apply traced_nil.
Qed.

Lemma sperf_profiles_witness :
  traced demo_lines demo_calls ∧ ∃ s prof, main demo_lines (boot_sperf (replicate BUF_SIZE "x"%char)) = Ret (tt, s) ∧ profile prof s ∧
    ∃ d, (chars "read", d) ∈ prof ∧ total_of (chars "read") demo_calls = Some d.
Proof.
  split; [exact demo_traced|].
  destruct (sperf_profiles (replicate BUF_SIZE "x"%char) demo_lines demo_calls (length_replicate _ _) demo_traced) as (s & prof & Hrun & Hp & _ & _ & Htot & _).
  - vm_compute. lia.
  - exists s, prof. split; [exact Hrun|]. split; [exact Hp|].
    eexists. split; [apply Htot; vm_compute; reflexivity|vm_compute; reflexivity].
Defined.
