(* ===== verification/Frecov.v ===== *)
(** * The recovery of files (frecov/frecov.c)

    The image of a formatted FAT32 volume is searched, sector by sector, for
    directory entries with long names; the file that each describes is written
    out.  The image is a list of bytes; an access outside it is the fault that
    the mapping gives.  What reaches the host's file system is the list [output]:
    files written, sums asked for, files deleted. *)
From S2P Require Import Prelude Bytes.

(** ** Data *)

Record FAT32 := Fat32 {
  sector_size : Z;
  cluster_size : Z;
  DOS_sec_amount : Z;
  fat_amount : Z;
  sector_amount : Z;
  hiden_amount : Z;
  fat_size : Z;
  DBR_sec_index : Z;
  volume_label : list Z;
  fat_type : list Z;
}.

Record myFILE := MyFILE { filename : list Z; position : Z; filesize : Z; next_sector : Z; visited : Z }.

Inductive event := Write (name content : list Z) | Sha1sum (name : list Z) | Unlink (name : list Z).

Record frecov := Frecov {
  fat32 : FAT32;
  file : list myFILE;
  tot_file : Z;
  buf : list (list Z);
  top : Z;
  sector_visit : list Z;
  output : list event;
}.

Definition set_fat32 v s := Frecov v (file s) (tot_file s) (buf s) (top s) (sector_visit s) (output s).
Definition set_file v s := Frecov (fat32 s) v (tot_file s) (buf s) (top s) (sector_visit s) (output s).
Definition set_tot_file v s := Frecov (fat32 s) (file s) v (buf s) (top s) (sector_visit s) (output s).
Definition set_buf v s := Frecov (fat32 s) (file s) (tot_file s) v (top s) (sector_visit s) (output s).
Definition set_top v s := Frecov (fat32 s) (file s) (tot_file s) (buf s) v (sector_visit s) (output s).
Definition set_sector_visit v s := Frecov (fat32 s) (file s) (tot_file s) (buf s) (top s) v (output s).
Definition set_output v s := Frecov (fat32 s) (file s) (tot_file s) (buf s) (top s) (sector_visit s) v.

Definition NAME_SIZE : nat := 256.
Definition FILES : nat := 1024.
Definition ROWS : nat := 64.
(** [int sector_visit[(1 << 16) - 1]]: one less than the indices [& 0xffff] gives. *)
Definition SECTORS : nat := Z.to_nat 65535.

Definition empty_file : myFILE := MyFILE (replicate NAME_SIZE 0%Z) 0 0 0 0.
Definition boot_fat32 : FAT32 := Fat32 0 0 0 0 0 0 0 0 (replicate 12 0%Z) (replicate 9 0%Z).
Definition boot_frecov : frecov :=
  Frecov boot_fat32 (replicate FILES empty_file) 0 (replicate ROWS (replicate NAME_SIZE 0%Z)) 0
    (replicate SECTORS 0%Z) [].

(** [file[i].field = v] *)
Definition upd_file (i : Z) (f : myFILE → myFILE) : M frecov unit :=
  s ← get;
  x ← deref OutOfBounds (aget (file s) i);
  l ← deref OutOfBounds (aset (file s) i (f x));
  modify (set_file l).
Definition the_file (i : Z) : M frecov myFILE := s ← get; deref OutOfBounds (aget (file s) i).

Definition set_filename v f := MyFILE v (position f) (filesize f) (next_sector f) (visited f).
Definition set_position v f := MyFILE (filename f) v (filesize f) (next_sector f) (visited f).
Definition set_filesize v f := MyFILE (filename f) (position f) v (next_sector f) (visited f).
Definition set_next_sector v f := MyFILE (filename f) (position f) (filesize f) v (visited f).
Definition set_visited v f := MyFILE (filename f) (position f) (filesize f) (next_sector f) v.

(** [buf[row][j] = c] *)
Definition put_buf (row j c : Z) : M frecov unit :=
  s ← get;
  r ← deref OutOfBounds (aget (buf s) row);
  r' ← deref OutOfBounds (aset r j c);
  b ← deref OutOfBounds (aset (buf s) row r');
  modify (set_buf b).

(** [strcat(d, s)]: [d] after the call. *)
Definition strcat (d s : list Z) : option (list Z) :=
  x ← cstring d; y ← cstring s;
  if decide (length x + length y < length d) then Some (x ++ y ++ 0%Z :: drop (length x + length y + 1) d) else None.

Section image.
(** The bytes of the mapped image. *)
Variable data : list Z.

Definition rd (off : Z) : M frecov Z := deref OutOfBounds (aget data off).

(** ** Numbers and the boot record *)

(** The loop of [read_num] from [i - 1] down. *)
Fixpoint read_num_loop (p : Z) (i : nat) (ret : Z) : M frecov Z :=
  match i with
  | O => mret ret
  | S i' => b ← rd (p + Z.of_nat i'); read_num_loop p i' (i32 (i32 (Z.shiftl ret 8) + b))
  end.
Definition read_num (p : Z) (len : nat) : M frecov Z := read_num_loop p len 0.

(** [strncpy] of [n] characters at [p]. *)
Definition read_str (p : Z) (n : nat) : M frecov (list Z) :=
  if decide (0 ≤ p ∧ p + Z.of_nat n ≤ Z.of_nat (length data))%Z
  then mret (strncpy_bytes (take n (drop (Z.to_nat p) data))) else fail OutOfBounds.

Definition read_fat32_info : M frecov unit :=
  ss ← read_num 0x0b 2;
  cs ← read_num 0x0d 1;
  ds ← read_num 0x0e 2;
  fa ← read_num 0x10 1;
  sa ← read_num 0x13 2;
  sa ← (if decide (sa = 0)%Z then read_num 0x20 4 else mret sa);
  ha ← read_num 0x1c 4;
  fs ← read_num 0x24 4;
  db ← read_num 0x32 2;
  vl ← read_str 0x47 11;
  ft ← read_str 0x52 8;
  modify (λ s, set_fat32 (Fat32 ss cs ds fa sa ha fs db (vl ++ drop 11 (volume_label (fat32 s)))
    (ft ++ drop 8 (fat_type (fat32 s)))) s).

(** ** Directory entries *)

(** [read_unicode(buf[row] + at, data + src, len)] *)
Definition read_unicode (row at_ src : Z) (len : Z) : M frecov unit :=
  for_range 0 len (λ i, c ← rd (src + 2 * i); put_buf row (at_ + i) c).

Definition is_valid (key : Z) : bool :=
  bool_decide (0x01 ≤ key ≤ 0x1f)%Z || bool_decide (0x41 ≤ key ≤ 0x5f)%Z.

(** The test for an entry that carries a part of a long name. *)
Definition is_long (offset : Z) : M frecov bool :=
  a ← rd (offset + 0x0b);
  if decide (a = 0x0f)%Z then
    t ← rd (offset + 0x0c);
    if decide (t = 0)%Z then k ← read_num offset 1; mret (is_valid k) else mret false
  else mret false.

(** [while(top) strcat(file->filename, buf[--top]);] *)
Fixpoint join_parts (fuel : nat) (fi : Z) : M frecov unit :=
  match fuel with
  | O => fail OutOfFuel
  | S fuel' =>
      s ← get;
      if decide (top s ≠ 0)%Z then
        modify (set_top (top s - 1));;
        r ← deref OutOfBounds (aget (buf s) (top s - 1));
        f ← the_file fi;
        n ← deref OutOfBounds (strcat (filename f) r);
        upd_file fi (set_filename n);;
        join_parts fuel' fi
      else mret tt
  end.

Definition read_name_position_do (offset fi : Z) : M frecov unit :=
  l ← is_long offset;
  if (l : bool) then
    s ← get;
    read_unicode (top s) 0 (offset + 0x01) 5;;
    read_unicode (top s) 5 (offset + 0x0e) 6;;
    read_unicode (top s) 11 (offset + 0x1c) 2;;
    modify (set_top (top s + 1))
  else
    s ← get;
    if decide (top s ≠ 0)%Z then
      join_parts (S ROWS) fi;;
      hi ← read_num (offset + 0x14) 2;
      upd_file fi (set_position (i32 (Z.shiftl hi 16)));;
      lo ← read_num (offset + 0x1a) 2;
      upd_file fi (λ f, set_position (i32 (position f + lo)) f);;
      sz ← read_num (offset + 0x1c) 4;
      upd_file fi (set_filesize sz);;
      (if decide (sector_size (fat32 s) = 0)%Z then fail DivByZero
       else upd_file fi (λ f, set_next_sector (i32 (i32 (position f + Z.quot (filesize f) (sector_size (fat32 s))) + 1)) f));;
      f ← the_file fi;
      when (bool_decide (0xffff < u32 (next_sector f))%Z)
        (n ← deref OutOfBounds (aset (filename f) 0 0%Z);
         upd_file fi (set_filename n);;
         modify (λ s, set_tot_file (tot_file s - 1) s))
    else modify (λ s, set_tot_file (tot_file s - 1) s).

Definition read_name_position (offset : Z) : M frecov unit :=
  s ← get;
  when (bool_decide (top s = 0)%Z) (modify (λ s, set_tot_file (tot_file s + 1) s));;
  s ← get;
  read_name_position_do offset (tot_file s - 1).

(** ** Sectors *)

(** [for(i = 0; i < sector_size; i += 0x20)] *)
Definition slots (ss : Z) : list Z := (λ k, 0x20 * Z.of_nat k)%Z <$> seq 0 (Z.to_nat ((ss + 31) `div` 32)).

Definition search_bmp_name_position (offset sector_idx : Z) : M frecov Z :=
  s ← get;
  if decide (512 ≤ tot_file s)%Z then mret 0%Z
  else
    let i := Z.land sector_idx 0xffff in
    v ← deref OutOfBounds (aget (sector_visit s) i);
    if decide (v ≠ 0)%Z then mret 0%Z
    else
      l ← deref OutOfBounds (aset (sector_visit s) i 1%Z);
      modify (set_sector_visit l);;
      for_each (slots (sector_size (fat32 s))) (λ i, read_name_position (i32 (offset + i)));;
      s' ← get;
      mret (tot_file s' - tot_file s)%Z.

(** [top == 0 ? tot_file - 1 : tot_file - 2] *)
Definition actual_tot_file (s : frecov) : Z := if decide (top s = 0)%Z then tot_file s - 1 else tot_file s - 2.

Definition deep_search_bmp_name_position (offset : Z) : M frecov Z :=
  s ← get;
  let a := actual_tot_file s in
  f ← the_file a;
  if decide (visited f = 0)%Z then
    upd_file a (set_visited 1);;
    if decide (u32 (next_sector f) ≤ 0xffff)%Z then
      search_bmp_name_position (i32 (offset + i32 (i32 (next_sector f - 2) * sector_size (fat32 s)))) (next_sector f)
    else mret 0%Z
  else mret 0%Z.

(** [while(deep_search_bmp_name_position(...));] Each turn that goes on has marked
    one more sector. *)
Fixpoint deep_loop (fuel : nat) (offset : Z) : M frecov unit :=
  match fuel with
  | O => fail OutOfFuel
  | S fuel' =>
      c ← deep_search_bmp_name_position offset;
      if decide (c ≠ 0)%Z then deep_loop fuel' offset else mret tt
  end.
Definition deep_fuel : nat := S SECTORS.

(** ** The program *)

Definition log (e : event) : M frecov unit := modify (λ s, set_output (output s ++ [e]) s).

(** The name given to the C library: up to its null character. *)
Definition name_of (f : myFILE) : M frecov (list Z) := deref OutOfBounds (cstring (filename f)).

(** [fopen] succeeds on these names. *)
Variable can_open : list Z → bool.

Definition output_bmp (base : Z) (f : myFILE) : M frecov unit :=
  nm ← name_of f;
  s ← get;
  when (can_open nm)
    (let p := (base + i32 (i32 (position f - 0x2) * sector_size (fat32 s)))%Z in
     if decide (0 ≤ filesize f ∧ (filesize f = 0 ∨ 0 ≤ p ∧ p + filesize f ≤ Z.of_nat (length data)))%Z
     then log (Write nm (take (Z.to_nat (filesize f)) (drop (Z.to_nat p) data)))
     else fail OutOfBounds).

Definition sha1sum_bmp (f : myFILE) : M frecov unit := nm ← name_of f; log (Sha1sum nm).
Definition delete_bmp (f : myFILE) : M frecov unit := nm ← name_of f; log (Unlink nm).

(** [strncmp(imgmap + off, sig, n) == 0] for characters other than null. *)
Fixpoint match_at (off : Z) (sig : list Z) : M frecov bool :=
  match sig with
  | [] => mret true
  | c :: sig' => b ← rd off; if decide (b = c) then match_at (off + 1) sig' else mret false
  end.
Definition FAT_BEGIN : list Z := [0xf8; 0xff; 0xff; 0x0f]%Z.

Fixpoint find_fat (fuel : nat) (fat_begin : Z) : M frecov Z :=
  match fuel with
  | O => fail OutOfFuel
  | S fuel' =>
      m ← match_at fat_begin FAT_BEGIN;
      if (m : bool) then mret fat_begin
      else s ← get; find_fat fuel' (i32 (fat_begin + sector_size (fat32 s)))
  end.

Definition main : M frecov Z :=
  read_fat32_info;;
  fat_begin ← find_fat (S (length data)) 0;
  s ← get;
  let ss := sector_size (fat32 s) in
  let fat_tot_size := i32 (i32 (fat_amount (fat32 s) * fat_size (fat32 s)) * ss) in
  if decide (ss = 0)%Z then fail DivByZero
  else
    let data_start_sector := Z.quot (i32 (fat_begin + fat_tot_size)) ss in
    search_bmp_name_position (i32 ((data_start_sector + (3 - 2)) * ss)) 3;;
    deep_loop deep_fuel (i32 (fat_begin + fat_tot_size));;
    for_range 4 (sector_amount (fat32 s) - data_start_sector + 2)
      (λ i, search_bmp_name_position (i32 ((data_start_sector + (i - 2)) * ss)) i;; mret tt);;
    s ← get;
    for_range 0 (actual_tot_file s + 1) (λ i,
      f ← the_file i;
      output_bmp (fat_begin + fat_tot_size) f;;
      sha1sum_bmp f;;
      delete_bmp f);;
    mret 0%Z.
End image.

(** [main] when [open] or [mmap] fails, and otherwise. *)
Definition run (img : option (list Z)) (can_open : list Z → bool) : M frecov Z :=
  match img with Some data => main data can_open | None => mret 1%Z end.
