(* ===== verification/FrecovProps.v ===== *)
(** * The recovery of files: what a search finds

    [scan] is the reference: what a sequence of directory slots describes.  The
    program follows it slot by slot ([wp_read_name_position]), sector by sector
    ([wp_search_sector]), through the directories that the jumps from file to file lead
    to ([wp_deep_loop]) and over the sectors left ([wp_sweep]). *)
From S2P Require Import Prelude Bytes Frecov.

#[local] Opaque SECTORS deep_fuel.

(** ** The reference *)

Record found := Found { fname : list Z; fpos : Z; fsize : Z; fnext : Z }.

(** Where the 13 characters of a long-name slot are. *)
Definition char_places : list nat := [1; 3; 5; 7; 9; 14; 16; 18; 20; 22; 24; 28; 30].
Definition byte (sl : list Z) (i : nat) : Z := default 0%Z (sl !! i).
Definition part_of (sl : list Z) : list Z := cut0 (byte sl <$> char_places).
Definition long_slot (sl : list Z) : bool :=
  bool_decide (byte sl 11 = 0x0f)%Z && bool_decide (byte sl 12 = 0)%Z && is_valid (byte sl 0).

(** Where a slot says that its file is. *)
Definition slot_pos (sl : list Z) : Z := i32 (i32 (Z.shiftl (unle (field 20 2 sl)) 16) + unle (field 26 2 sl)).
Definition slot_size (sl : list Z) : Z := i32 (unle (field 28 4 sl)).
Definition slot_next (ss : Z) (sl : list Z) : Z := i32 (i32 (slot_pos sl + Z.quot (slot_size sl) ss) + 1).

(** The files found and the parts of the name under way, the last part first. *)
Definition scanned : Type := list found * list (list Z).
Implicit Types st : scanned.
Definition scan_slot (ss : Z) (st : scanned) (sl : list Z) : scanned :=
  let '(fs, parts) := st in
  if long_slot sl then (fs, parts ++ [part_of sl])
  else if decide (parts = []) then st
  else if decide (0xffff < u32 (slot_next ss sl))%Z then (fs, [])
  else (fs ++ [Found (concat (reverse parts)) (slot_pos sl) (slot_size sl) (slot_next ss sl)], []).

(** The tables are large enough for the slot. *)
Definition slot_fits (st : scanned) (sl : list Z) : Prop :=
  (if long_slot sl then length st.2 < ROWS else length (concat st.2) < NAME_SIZE) ∧ length st.1 < FILES.

Definition scan (ss : Z) (sls : list (list Z)) (st : scanned) : scanned :=
  foldl (scan_slot ss) st sls.
Fixpoint scan_fits (ss : Z) (sls : list (list Z)) (st : scanned) : Prop :=
  match sls with
  | [] => True
  | sl :: sls' => slot_fits st sl ∧ scan_fits ss sls' (scan_slot ss st sl)
  end.

Lemma scan_app ss sls1 sls2 st : scan ss (sls1 ++ sls2) st = scan ss sls2 (scan ss sls1 st).
Proof. apply foldl_app. Qed.

Lemma scan_fits_app ss sls1 sls2 : ∀ st,
  scan_fits ss (sls1 ++ sls2) st ↔ scan_fits ss sls1 st ∧ scan_fits ss sls2 (scan ss sls1 st).
Proof. induction sls1 as [|sl sls1 IH]; intros st; cbn; [tauto|]. rewrite IH. tauto. Qed.

(** ** The state that holds what was found *)

Record shows (f : found) (x : myFILE) : Prop := {
  sh_name : cstring (filename x) = Some (fname f);
  sh_len : length (filename x) = NAME_SIZE;
  sh_pos : position x = fpos f;
  sh_size : filesize x = fsize f;
  sh_next : next_sector x = fnext f;
}.

Definition blank (x : myFILE) : Prop :=
  cstring (filename x) = Some [] ∧ length (filename x) = NAME_SIZE ∧ visited x = 0%Z.

Definition row_ok (r : list Z) : Prop := length r = NAME_SIZE ∧ ∀ i, 13 ≤ i → i < NAME_SIZE → r !! i = Some 0%Z.

Definition pending (parts : list (list Z)) : Z := if decide (parts = []) then 0 else 1.
Definition total (st : scanned) : Z := Z.of_nat (length st.1) + pending st.2.

Record holds_parts (parts : list (list Z)) (s : frecov) : Prop := {
  hp_rows : length (buf s) = ROWS;
  hp_row : Forall row_ok (buf s);
  hp_parts : ∀ i p, parts !! i = Some p → ∃ r, buf s !! i = Some r ∧ cstring r = Some p;
  hp_top : top s = Z.of_nat (length parts);
}.

Record holds (st : scanned) (s : frecov) : Prop := {
  h_files : length (file s) = FILES;
  h_found : ∀ i f, st.1 !! i = Some f → ∃ x, file s !! i = Some x ∧ shows f x;
  h_blank : ∀ i x, length st.1 ≤ i → file s !! i = Some x → blank x;
  h_parts : holds_parts st.2 s;
  h_tot : tot_file s = total st;
}.

(** What reading a directory leaves alone. *)
Record quiet (s s' : frecov) : Prop := {
  q_fat32 : fat32 s' = fat32 s;
  q_visit : sector_visit s' = sector_visit s;
  q_output : output s' = output s;
  q_marks : ∀ i x x', file s !! i = Some x → file s' !! i = Some x' → visited x' = visited x;
}.

Lemma quiet_refl s : quiet s s.
Proof. split; try done. intros. by simplify_eq. Qed.

Lemma quiet_reads_trans s1 s2 s3 : length (file s2) = length (file s1) → quiet s1 s2 → quiet s2 s3 → quiet s1 s3.
Proof.
  intros Hlen [F1 V1 O1 M1] [F2 V2 O2 M2]. split; try congruence. intros i x x' Hx Hx'.
  destruct (lookup_lt_is_Some_2 (file s2) i) as [y Hy]; [apply lookup_lt_Some in Hx; lia|].
  rewrite (M2 i y x' Hy Hx'). by eapply M1.
Qed.

(** ** Reading numbers *)

Section image.
Context (data : list Z).
Implicit Types (s : frecov) (sl : list Z).

(** The bytes of a slot at an offset. *)
Record slot_at (off : Z) sl : Prop := {
  sa_len : length sl = 32;
  sa_bytes : ∀ i, i < 32 → aget data (off + Z.of_nat i) = sl !! i;
  sa_range : Forall (λ b, 0 ≤ b < 256)%Z sl;
}.

Lemma wp_read_byte off b s (Q : Z → frecov → Prop) : aget data off = Some b → Q b s → wp (rd data off) Q s.
Proof. intros Hb HQ. unfold rd. by wp_steps. Qed.

Lemma wp_read_num_loop p l s (Q : Z → frecov → Prop) :
  (∀ i, i < length l → aget data (p + Z.of_nat i) = l !! i) → Q (i32 (unle l)) s →
  ∀ i, i ≤ length l → wp (read_num_loop data p i (i32 (unle (drop i l)))) Q s.
Proof.
  intros Hl HQ i. induction i as [|i IH]; intros Hi; cbn [read_num_loop].
  - by rewrite drop_0.
  - destruct (lookup_lt_is_Some_2 l i Hi) as [b Hb]. wp_step. apply (wp_read_byte _ b); [rewrite Hl by lia; done|].
    replace (i32 (i32 (Z.shiftl (i32 (unle (drop (S i) l))) 8) + b)) with (i32 (unle (drop i l))); [apply IH; lia|].
    rewrite (drop_S l b i Hb). cbn [unle]. rewrite i32_add_l, Z.shiftl_mul_pow2 by lia. apply i32_ext.
    rewrite <-(Zplus_mod_idemp_l (_ * _)), <-Zmult_mod_idemp_l, i32_mod, Zmult_mod_idemp_l, Zplus_mod_idemp_l. f_equal. lia.
Qed.

Lemma wp_read_num p l s (Q : Z → frecov → Prop) len :
  len = length l → (∀ i, i < length l → aget data (p + Z.of_nat i) = l !! i) → Q (i32 (unle l)) s →
  wp (read_num data p len) Q s.
Proof.
  intros -> Hl HQ. unfold read_num. change 0%Z with (i32 (unle [])). rewrite <-(drop_all l). by apply wp_read_num_loop.
Qed.

(** A field of a slot. *)
Lemma wp_read_field off sl s (Q : Z → frecov → Prop) k n :
  slot_at off sl → k + n ≤ 32 → Q (i32 (unle (field k n sl))) s → wp (read_num data (off + Z.of_nat k) n) Q s.
Proof.
  intros [Hlen Hb _] Hk HQ. assert (Hf : length (field k n sl) = n) by (unfold field; rewrite length_take, length_drop; lia).
  apply (wp_read_num _ (field k n sl)); [done| |done]. intros i Hi. unfold field.
  rewrite lookup_take_lt, lookup_drop by lia. replace (off + Z.of_nat k + Z.of_nat i)%Z with (off + Z.of_nat (k + i))%Z by lia.
  apply Hb. lia.
Qed.

Lemma slot_byte off sl i : slot_at off sl → i < 32 → aget data (off + Z.of_nat i) = Some (byte sl i).
Proof.
  intros [Hlen Hb _] Hi. rewrite Hb by done. unfold byte.
  destruct (lookup_lt_is_Some_2 sl i) as [x ->]; [lia|done].
Qed.

Lemma byte_range off sl i : slot_at off sl → (0 ≤ byte sl i < 256)%Z.
Proof.
  intros [Hlen _ Hr]. unfold byte. destruct (sl !! i) as [b|] eqn:Hb; cbn; [|lia].
  by apply (proj1 (Forall_lookup _ _) Hr i b).
Qed.

Lemma wp_is_long off sl s (Q : bool → frecov → Prop) : slot_at off sl → Q (long_slot sl) s → wp (is_long data off) Q s.
Proof.
  intros Hsl HQ. unfold is_long, long_slot in *. wp_step. apply (wp_read_byte _ (byte sl 11)); [apply (slot_byte off sl 11); [done|lia]|].
  apply wp_decide; intros H1; [rewrite bool_decide_true in HQ by done|rewrite bool_decide_false, ?andb_false_r in HQ by done; by wp_step].
  wp_step. apply (wp_read_byte _ (byte sl 12)); [apply (slot_byte off sl 12); [done|lia]|].
  apply wp_decide; intros H2; [rewrite bool_decide_true in HQ by done|rewrite bool_decide_false, ?andb_false_r in HQ by done; by wp_step].
  wp_step. apply (wp_read_num _ [byte sl 0]); [done| |].
  { intros [|i] Hi; cbn in Hi; [|lia]. apply (slot_byte off sl 0); [done|lia]. }
  wp_step. cbn [unle]. pose proof (byte_range off sl 0 Hsl). rewrite i32_small by lia.
  by replace (byte sl 0 + 256 * 0)%Z with (byte sl 0) by lia.
Qed.

(** ** The parts of a name *)

Lemma wp_put_buf row (r : list Z) j c s (Q : unit → frecov → Prop) :
  buf s !! row = Some r → j < length r →
  Q tt (set_buf (<[row := <[j := c]> r]> (buf s)) s) → wp (put_buf (Z.of_nat row) (Z.of_nat j) c) Q s.
Proof.
  intros Hr Hj HQ. pose proof (lookup_lt_Some _ _ _ Hr). unfold put_buf. wp_step. wp_step.
  wp_step. eapply wp_deref; [apply aget_Some; split; [lia|by rewrite Nat2Z.id]|].
  wp_step. eapply wp_deref; [apply aset_Some; lia|]. wp_step. eapply wp_deref; [apply aset_Some; lia|].
  wp_step. by rewrite !Nat2Z.id.
Qed.

(** A row after some characters were written at a place of it. *)
Definition patched (at_ : nat) (cs r : list Z) : list Z := take at_ r ++ cs ++ drop (at_ + length cs) r.

Lemma patched_snoc at_ cs c r :
  at_ + length cs < length r → <[at_ + length cs := c]> (patched at_ cs r) = patched at_ (cs ++ [c]) r.
Proof.
  intros Hl. unfold patched. destruct (lookup_lt_is_Some_2 r (at_ + length cs) Hl) as [x Hx].
  assert (Ht : length (take at_ r ++ cs) = at_ + length cs) by (rewrite length_app, length_take; lia).
  rewrite (assoc_L (++)), (drop_S r x (at_ + length cs)) by done. rewrite <-Ht at 1.
  rewrite <-(Nat.add_0_r (length (take at_ r ++ cs))), insert_app_r. cbn [insert list_insert].
  rewrite length_app, <-!(assoc_L (++)). cbn. by rewrite Nat.add_1_r, Nat.add_succ_r.
Qed.

Lemma wp_read_unicode row at_ src len cs r s (Q : unit → frecov → Prop) :
  buf s !! row = Some r → length cs = len → at_ + len ≤ length r →
  (∀ i, i < len → aget data (src + 2 * Z.of_nat i) = cs !! i) →
  Q tt (set_buf (<[row := patched at_ cs r]> (buf s)) s) →
  wp (read_unicode data (Z.of_nat row) (Z.of_nat at_) src (Z.of_nat len)) Q s.
Proof.
  intros Hr Hlen Hat Hcs HQ. pose proof (lookup_lt_Some _ _ _ Hr) as Hrow. unfold read_unicode.
  eapply wp_mono; [apply (wp_for_range
    (λ i s', (0 ≤ i)%Z ∧ s' = set_buf (<[row := patched at_ (take (Z.to_nat i) cs) r]> (buf s)) s)); [lia| |]|].
  - split; [lia|]. change (Z.to_nat 0) with 0. rewrite take_0. unfold patched. cbn [length app].
    rewrite Nat.add_0_r, (take_drop at_ r), list_insert_id by done. by destruct s.
  - intros i s' Hi [_ ->]. destruct (lookup_lt_is_Some_2 cs (Z.to_nat i)) as [c Hc]; [lia|].
    wp_step. apply (wp_read_byte _ c); [rewrite <-Hc, <-Hcs by lia; f_equal; lia|].
    assert (Hti : length (take (Z.to_nat i) cs) = Z.to_nat i) by (rewrite length_take; lia).
    replace (Z.of_nat at_ + i)%Z with (Z.of_nat (at_ + length (take (Z.to_nat i) cs))) by lia.
    eapply (wp_put_buf _ (patched at_ (take (Z.to_nat i) cs) r)).
    + cbn. by apply list_lookup_insert_eq.
    + unfold patched. rewrite !length_app, length_drop, !length_take. lia.
    + split; [lia|]. rewrite patched_snoc by lia. cbn. rewrite list_insert_insert_eq, <-take_S_r by done.
      by replace (Z.to_nat (i + 1)) with (S (Z.to_nat i)) by lia.
  - intros [] s' [_ ->]. by rewrite Nat2Z.id, take_ge by lia.
Qed.

(** The thirteen characters of a slot overwrite the start of a row. *)
Lemma row_patched cs r : row_ok r → length cs = 13 → row_ok (cs ++ drop 13 r) ∧ cstring (cs ++ drop 13 r) = Some (cut0 cs).
Proof.
  intros [Hlen Hz] Hcs. unfold NAME_SIZE in *. split.
  - split; [rewrite length_app, length_drop; unfold NAME_SIZE; lia|]. intros i Hi Hi'. rewrite lookup_app_r, lookup_drop by lia.
    unfold NAME_SIZE in *. rewrite <-(Hz i) by lia. f_equal. lia.
  - assert (H13 : r !! 13 = Some 0%Z) by (apply Hz; lia).
    rewrite (drop_S r 0%Z 13) by done. rewrite cut0_cstring by set_solver. by rewrite cut0_app_zero.
Qed.

(** The characters of a run of [n] in a slot, from byte [k]. *)
Definition run_of sl (k n : nat) : list Z := byte sl <$> ((λ i, k + 2 * i) <$> seq 0 n).

Lemma wp_read_run off sl row at_ k n r s (Q : unit → frecov → Prop) :
  slot_at off sl → k + 2 * n ≤ 33 → buf s !! row = Some r → at_ + n ≤ length r →
  Q tt (set_buf (<[row := patched at_ (run_of sl k n) r]> (buf s)) s) →
  wp (read_unicode data (Z.of_nat row) (Z.of_nat at_) (off + Z.of_nat k) (Z.of_nat n)) Q s.
Proof.
  intros Hsl Hk Hr Hat HQ. assert (Hl : length (run_of sl k n) = n) by (unfold run_of; by rewrite !length_fmap, length_seq).
  apply (wp_read_unicode row at_ _ n (run_of sl k n) r); [done|done|done| |done].
  intros i Hi. unfold run_of. rewrite !list_lookup_fmap, lookup_seq_lt by done. cbn.
  replace (off + Z.of_nat k + 2 * Z.of_nat i)%Z with (off + Z.of_nat (k + 2 * i))%Z by lia.
  by rewrite (slot_byte off sl) by (done || lia).
Qed.

Lemma wp_read_long off sl parts r s k (Q : unit → frecov → Prop) :
  slot_at off sl → buf s !! parts = Some r → row_ok r →
  wp k Q (set_buf (<[parts := (byte sl <$> char_places) ++ drop 13 r]> (buf s)) s) →
  wp (read_unicode data (Z.of_nat parts) 0 (off + 0x01) 5;;
      read_unicode data (Z.of_nat parts) 5 (off + 0x0e) 6;;
      read_unicode data (Z.of_nat parts) 11 (off + 0x1c) 2;; k) Q s.
Proof.
  intros Hsl Hr [Hlen Hz] HQ. pose proof (lookup_lt_Some _ _ _ Hr). unfold NAME_SIZE in Hlen.
  wp_step. apply (wp_read_run off sl parts 0 1 5 r); [done|lia|done|lia|].
  wp_step. apply (wp_read_run off sl parts 5 14 6 (patched 0 (run_of sl 1 5) r));
    [done|lia|cbn; by apply list_lookup_insert_eq|unfold patched; rewrite !length_app, length_take, length_drop; cbn; lia|].
  wp_step. apply (wp_read_run off sl parts 11 28 2 (patched 5 (run_of sl 14 6) (patched 0 (run_of sl 1 5) r)));
    [done|lia|cbn; apply list_lookup_insert_eq; by rewrite length_insert
    |unfold patched; rewrite !length_app, !length_take, !length_drop, !length_app, length_take, length_drop; cbn; lia|].
  cbn [buf set_buf]. rewrite !list_insert_insert_eq.
  assert (Hp : patched 11 (run_of sl 28 2) (patched 5 (run_of sl 14 6) (patched 0 (run_of sl 1 5) r))
    = (byte sl <$> char_places) ++ drop 13 r); [|by rewrite Hp].
  clear HQ Hr Hz. do 13 (destruct r as [|? r]; [cbn in Hlen; lia|]). reflexivity.
Qed.

(** ** The parts under way *)

Lemma holds_long parts off sl s r :
  holds_parts parts s → slot_at off sl → buf s !! length parts = Some r →
  holds_parts (parts ++ [part_of sl]) (set_top (top s + 1)%Z (set_buf (<[length parts := (byte sl <$> char_places) ++ drop 13 r]> (buf s)) s)).
Proof.
  intros [Hrows Hrow Hparts Htop] Hsl Hr.
  assert (Hrok : row_ok r) by (by apply (proj1 (Forall_lookup _ _) Hrow (length parts))).
  destruct (row_patched (byte sl <$> char_places) r Hrok) as [Hok Hc]; [done|].
  split; cbn [buf top set_buf set_top].
  - by rewrite length_insert.
  - by apply Forall_insert.
  - intros i p Hp. apply lookup_app_Some in Hp as [Hp|[Hi Hp]].
    + rewrite list_lookup_insert_ne by (apply lookup_lt_Some in Hp; lia). by apply Hparts.
    + apply list_lookup_singleton_Some in Hp as [Hi0 <-]. replace i with (length parts) by lia.
      rewrite list_lookup_insert_eq by (by apply lookup_lt_Some in Hr). by eexists.
  - rewrite length_app, Htop. cbn. lia.
Qed.

Lemma parts_fit parts s : holds_parts parts s → length parts ≤ ROWS.
Proof.
  intros [Hrows _ Hparts _]. destruct (decide (length parts ≤ ROWS)) as [|Hgt]; [done|].
  destruct (lookup_lt_is_Some_2 parts ROWS) as [p Hp]; [lia|].
  destruct (Hparts _ _ Hp) as (r & Hr%lookup_lt_Some & _). lia.
Qed.

(** Appending a string keeps the array's length. *)
Lemma strcat_some d r x y :
  cstring d = Some x → cstring r = Some y → length x + length y < length d →
  ∃ d', strcat d r = Some d' ∧ cstring d' = Some (x ++ y) ∧ length d' = length d.
Proof.
  intros Hx Hy Hl. unfold strcat. rewrite Hx, Hy. cbn. rewrite decide_True by done. eexists. split; [done|].
  apply cstring_Some in Hx as [[rx ->] Hx]. apply cstring_Some in Hy as [_ Hy]. split.
  - apply cstring_Some. split; [|set_solver]. eexists. by rewrite <-(assoc_L (++)).
  - rewrite !length_app in *. cbn [length] in *. rewrite length_drop, length_app. cbn. lia.
Qed.

(** What changes only the file at [fi] and the number of parts. *)
Record joins (fi : nat) (s s' : frecov) : Prop := {
  j_fat32 : fat32 s' = fat32 s;
  j_visit : sector_visit s' = sector_visit s;
  j_output : output s' = output s;
  j_tot : tot_file s' = tot_file s;
  j_buf : buf s' = buf s;
  j_others : ∀ i, i ≠ fi → file s' !! i = file s !! i;
  j_len : length (file s') = length (file s);
  j_mark : ∀ x x', file s !! fi = Some x → file s' !! fi = Some x' → visited x' = visited x;
}.

Lemma joins_refl fi s : joins fi s s.
Proof. split; try done. intros. by simplify_eq. Qed.
Lemma joins_trans fi s1 s2 s3 : joins fi s1 s2 → joins fi s2 s3 → joins fi s1 s3.
Proof.
  intros [F1 V1 O1 T1 B1 H1 L1 M1] [F2 V2 O2 T2 B2 H2 L2 M2]. split; try congruence.
  - intros i Hi. transitivity (file s2 !! i); auto.
  - intros x x' Hx Hx'. destruct (lookup_lt_is_Some_2 (file s2) fi) as [y Hy]; [apply lookup_lt_Some in Hx; lia|].
    rewrite (M2 y x'), (M1 x y); done.
Qed.

Lemma wp_upd_file (fi : nat) f x s (Q : unit → frecov → Prop) :
  file s !! fi = Some x → visited (f x) = visited x →
  (∀ s', joins fi s s' → top s' = top s → file s' !! fi = Some (f x) → Q tt s') →
  wp (upd_file (Z.of_nat fi) f) Q s.
Proof.
  intros Hx Hv HQ. pose proof (lookup_lt_Some _ _ _ Hx). unfold upd_file. wp_step. wp_step.
  wp_step. eapply wp_deref; [apply aget_Some; split; [lia|by rewrite Nat2Z.id]|].
  wp_step. eapply wp_deref; [apply aset_Some; lia|]. wp_step. rewrite Nat2Z.id. apply HQ.
  - split; try done; cbn; [intros i Hi; by rewrite list_lookup_insert_ne|by rewrite length_insert|].
    intros y y' Hy. rewrite list_lookup_insert_eq by done. naive_solver.
  - done.
  - cbn. by apply list_lookup_insert_eq.
Qed.

Lemma wp_the_file (fi : nat) x s (Q : myFILE → frecov → Prop) :
  file s !! fi = Some x → Q x s → wp (the_file (Z.of_nat fi)) Q s.
Proof.
  intros Hx HQ. unfold the_file. wp_step. wp_step. eapply wp_deref; [apply aget_Some; split; [lia|by rewrite Nat2Z.id]|done].
Qed.

Lemma wp_join_parts fi : ∀ parts s x nm fuel, length parts < fuel →
  holds_parts parts s → file s !! fi = Some x → cstring (filename x) = Some nm → length (filename x) = NAME_SIZE →
  length nm + length (concat parts) < NAME_SIZE →
  wp (join_parts fuel (Z.of_nat fi)) (λ _ s', joins fi s s' ∧ holds_parts [] s' ∧
    ∃ d, file s' !! fi = Some (set_filename d x) ∧ cstring d = Some (nm ++ concat (reverse parts)) ∧ length d = NAME_SIZE) s.
Proof.
  induction parts as [|p parts IH] using rev_ind; intros s x nm fuel Hfuel Hp Hx Hnm Hlen Hfit;
    (destruct fuel as [|fuel]; [lia|]); cbn [join_parts]; wp_step; wp_step.
  - rewrite decide_False by (pose proof (hp_top _ _ Hp) as Ht; cbn in Ht; lia). wp_step.
    split; [apply joins_refl|]. split; [done|]. exists (filename x). split_and!; [by destruct x| |done].
    by rewrite reverse_nil, app_nil_r.
  - pose proof (hp_top _ _ Hp) as Ht. rewrite length_app in Ht. cbn in Ht. rewrite decide_True by lia.
    wp_step. wp_step. destruct (hp_parts _ _ Hp (length parts) p) as (r & Hr & Hcr); [by apply list_lookup_middle|].
    wp_step. eapply wp_deref; [apply aget_Some; split; [lia|]; cbn; rewrite <-Hr; f_equal; lia|].
    wp_step. eapply wp_the_file; [done|].
    rewrite concat_app, length_app in Hfit. cbn in Hfit. rewrite app_nil_r in Hfit.
    destruct (strcat_some (filename x) r nm p Hnm Hcr) as (d & Hd & Hcd & Hld); [lia|].
    wp_step. eapply wp_deref; [exact Hd|]. wp_step. eapply wp_upd_file; [done|done|]. intros s1 Hj1 Ht1 Hf1.
    eapply wp_mono; [apply (IH s1 (set_filename d x) (nm ++ p))|].
    + rewrite length_app in Hfuel. cbn in Hfuel. lia.
    + destruct Hp as [H1 H2 H3 _]. destruct Hj1 as [_ _ _ _ Hb _ _ _]. cbn in Hb.
      split; rewrite ?Hb; [done|done| |rewrite Ht1; cbn; lia].
      intros i q Hq. apply H3. by rewrite lookup_app_l by (by apply lookup_lt_Some in Hq).
    + exact Hf1.
    + exact Hcd.
    + cbn. lia.
    + rewrite length_app. lia.
    + intros [] s2 (Hj2 & Hp2 & d2 & Hf2 & Hc2 & Hl2). split; [|split; [done|]].
      * eapply joins_trans; [|exact Hj2]. destruct Hj1. by split.
      * exists d2. split; [exact Hf2|]. split; [|done]. rewrite Hc2, reverse_app. cbn. by rewrite <-(assoc_L (++)).
Qed.

(** The numbers of the short entry go to the file. *)
Definition located (sl : list Z) (ss : Z) (x : myFILE) : myFILE :=
  set_next_sector (slot_next ss sl) (set_filesize (slot_size sl) (set_position (slot_pos sl) x)).

Lemma slot_pos_steps sl :
  i32 (i32 (Z.shiftl (i32 (unle (field 20 2 sl))) 16) + i32 (unle (field 26 2 sl))) = slot_pos sl.
Proof.
  unfold slot_pos. rewrite !i32_add_l. apply i32_ext. rewrite Zplus_mod, i32_mod, <-Zplus_mod.
  rewrite !Z.shiftl_mul_pow2 by lia. rewrite <-Zplus_mod_idemp_l, <-Zmult_mod_idemp_l, i32_mod.
  by rewrite Zmult_mod_idemp_l, Zplus_mod_idemp_l.
Qed.

Lemma wp_short off sl ss (fi : nat) x s k (Q : unit → frecov → Prop) :
  slot_at off sl → ss ≠ 0%Z → file s !! fi = Some x →
  (∀ s', joins fi s s' → top s' = top s → file s' !! fi = Some (located sl ss x) → wp k Q s') →
  wp (hi ← read_num data (off + 0x14) 2;
      upd_file (Z.of_nat fi) (set_position (i32 (Z.shiftl hi 16)));;
      lo ← read_num data (off + 0x1a) 2;
      upd_file (Z.of_nat fi) (λ f, set_position (i32 (position f + lo)) f);;
      sz ← read_num data (off + 0x1c) 4;
      upd_file (Z.of_nat fi) (set_filesize sz);;
      (if decide (ss = 0)%Z then fail DivByZero
       else upd_file (Z.of_nat fi) (λ f, set_next_sector (i32 (i32 (position f + Z.quot (filesize f) ss) + 1)) f));; k) Q s.
Proof.
  intros Hsl Hss Hx HQ.
  wp_step. apply (wp_read_field off sl _ _ 20 2); [done|lia|]. wp_step. eapply wp_upd_file; [exact Hx|done|]. intros s1 J1 T1 F1.
  wp_step. apply (wp_read_field off sl _ _ 26 2); [done|lia|]. wp_step. eapply wp_upd_file; [exact F1|done|]. intros s2 J2 T2 F2.
  wp_step. apply (wp_read_field off sl _ _ 28 4); [done|lia|]. wp_step. eapply wp_upd_file; [exact F2|done|]. intros s3 J3 T3 F3.
  wp_step. rewrite decide_False by done. eapply wp_upd_file; [exact F3|done|]. intros s4 J4 T4 F4. apply HQ.
  - eapply joins_trans; [exact J1|]. eapply joins_trans; [exact J2|]. by eapply joins_trans.
  - congruence.
  - rewrite F4. unfold located, slot_next, slot_size. cbn [set_next_sector set_filesize set_position position filesize filename next_sector visited].
    by rewrite slot_pos_steps.
Qed.

#[local] Opaque slot_pos slot_size slot_next.

Lemma cstring_head_zero l : 0 < length l → cstring (<[0 := 0%Z]> l) = Some [].
Proof. destruct l; cbn; [lia|done]. Qed.

(** The state of the files after the entry at [fi] is complete. *)
Lemma holds_after fs fs' s0 s (fi : nat) :
  fi = length fs → holds_parts [] s → length (file s) = FILES →
  (∀ i f, fs !! i = Some f → ∃ x, file s0 !! i = Some x ∧ shows f x) →
  (∀ i x, S fi ≤ i → file s0 !! i = Some x → blank x) →
  (∀ i, i ≠ fi → file s !! i = file s0 !! i) →
  (∃ x, file s !! fi = Some x ∧
    (fs' = fs ∧ blank x ∨ ∃ f, fs' = fs ++ [f] ∧ shows f x)) →
  tot_file s = Z.of_nat (length fs') → holds (fs', []) s.
Proof.
  intros Hfi Hp Hlen Hfs Hbl Heq (x & Hx & Hc) Htot. split; cbn [fst snd]; [done| | |done|unfold total, pending; cbn [fst snd]; rewrite decide_True by done; lia].
  - intros i f Hi. destruct Hc as [[-> Hb]|(f' & -> & Hs)].
    + rewrite Heq by (apply lookup_lt_Some in Hi; lia). by apply Hfs.
    + apply lookup_app_Some in Hi as [Hi|[Hi Hf]].
      * rewrite Heq by (apply lookup_lt_Some in Hi; lia). by apply Hfs.
      * apply list_lookup_singleton_Some in Hf as [Hi0 <-]. replace i with fi by lia. by exists x.
  - intros i y Hi Hy. destruct (decide (i = fi)) as [->|Hne].
    + destruct Hc as [[-> Hb]|(f' & -> & Hs)]; [congruence|]. rewrite length_app in Hi. cbn in Hi. lia.
    + rewrite Heq in Hy by done. apply (Hbl i); [|done].
      destruct Hc as [[-> Hb]|(f' & -> & Hs)]; [|rewrite length_app in Hi; cbn in Hi]; lia.
Qed.

Lemma files_room s i : length (file s) = FILES → i < FILES → ∃ x, file s !! i = Some x.
Proof. intros Hl Hi. apply lookup_lt_is_Some_2. lia. Qed.

(** The count of files includes the one whose name is under way. *)
Lemma wp_begin_file off st s (Q : unit → frecov → Prop) :
  holds st s →
  wp (read_name_position_do data off (Z.of_nat (length st.1))) Q (set_tot_file (Z.of_nat (length st.1) + 1)%Z s) →
  wp (read_name_position data off) Q s.
Proof.
  destruct st as [fs parts]. intros [_ _ _ Hparts Htot] HQ. cbn [fst snd] in *. unfold total, pending in Htot. cbn [fst snd] in Htot.
  pose proof (hp_top _ _ Hparts) as Ht. unfold read_name_position. wp_step. wp_step.
  assert (Hrest : ∀ s1, s1 = set_tot_file (Z.of_nat (length fs) + 1)%Z s →
    wp (s ← get; read_name_position_do data off (tot_file s - 1)) Q s1).
  { intros s1 ->. wp_step. wp_step. cbn [tot_file set_tot_file]. by rewrite Z.add_simpl_r. }
  wp_step. apply wp_when; intros Hb.
  - apply bool_decide_eq_true in Hb. wp_step. apply Hrest. rewrite decide_True in Htot by (destruct parts; [done|cbn in Ht; lia]).
    f_equal. lia.
  - apply bool_decide_eq_false in Hb. apply Hrest. rewrite decide_False in Htot by (intros ->; cbn in Ht; lia).
    rewrite <-Htot. by destruct s.
Qed.

Lemma joins_quiet fi s s' : joins fi s s' → quiet s s'.
Proof.
  intros []. split; try done. intros i x x' Hx Hx'. destruct (decide (i = fi)) as [->|Hne]; [eauto|].
  rewrite j_others0 in Hx' by done. by simplify_eq.
Qed.

Lemma joins_parts fi parts s s' : joins fi s s' → top s' = top s → holds_parts parts s → holds_parts parts s'.
Proof. intros [] Ht []. split; rewrite ?j_buf0, ?Ht; done. Qed.

(** The last steps of an entry: a file that begins past the volume is dropped. *)
Lemma wp_finish fs nm sl ss x d s s2 :
  length fs < FILES → length (file s) = FILES →
  (∀ i f, fs !! i = Some f → ∃ x, file s !! i = Some x ∧ shows f x) →
  (∀ i x, length fs ≤ i → file s !! i = Some x → blank x) →
  tot_file s = (Z.of_nat (length fs) + 1)%Z → file s !! length fs = Some x →
  joins (length fs) s s2 → holds_parts [] s2 → cstring d = Some nm → length d = NAME_SIZE →
  file s2 !! length fs = Some (located sl ss (set_filename d x)) →
  wp (f ← the_file (Z.of_nat (length fs));
      when (bool_decide (0xffff < u32 (next_sector f))%Z)
        (n ← deref OutOfBounds (aset (filename f) 0 0%Z);
         upd_file (Z.of_nat (length fs)) (set_filename n);;
         modify (λ s, set_tot_file (tot_file s - 1)%Z s)))
    (λ _ s', holds (if decide (0xffff < u32 (slot_next ss sl))%Z then (fs, [])
      else (fs ++ [Found nm (slot_pos sl) (slot_size sl) (slot_next ss sl)], [])) s' ∧ quiet s s') s2.
Proof.
  intros Hroom Hlen Hfound Hblank Htot Hx J P Hd Hld F2.
  destruct (Hblank _ x (le_n _) Hx) as (_ & _ & Hb3).
  wp_step. eapply wp_the_file; [exact F2|]. cbn [next_sector located set_next_sector].
  apply wp_when; intros Hnx.
  - apply bool_decide_eq_true in Hnx. rewrite decide_True by done. change (filename (located _ _ _)) with d.
    wp_step. eapply wp_deref; [apply aset_Some; rewrite Hld; unfold NAME_SIZE; lia|].
    wp_step. eapply wp_upd_file; [exact F2|cbn [visited set_filename located set_next_sector set_filesize set_position]; reflexivity|]. intros s3 J3 T3 F3. wp_step.
    assert (J4 : joins (length fs) s s3) by (by eapply joins_trans). split.
    + apply (holds_after fs fs s _ (length fs)); [done| |cbn; rewrite (j_len _ _ _ J4); done|done| | | |].
      * apply (joins_parts (length fs) [] s2 s3) in P; [|done|done]. destruct P; by split.
      * intros i y Hi. apply Hblank. lia.
      * intros i Hi. by apply (j_others _ _ _ J4).
      * eexists. split; [exact F3|]. left. split; [done|]. split; [|split; [|done]].
        { cbn. apply cstring_head_zero. rewrite Hld. unfold NAME_SIZE. lia. }
        { cbn. by rewrite length_insert. }
      * cbn. rewrite (j_tot _ _ _ J4), Htot. lia.
    + apply joins_quiet in J4. by destruct J4.
  - apply bool_decide_eq_false in Hnx. rewrite decide_False by done. split; [|by apply (joins_quiet (length fs))].
    apply (holds_after fs _ s _ (length fs)); [done|done|by rewrite (j_len _ _ _ J)|done| | | |].
    + intros i y Hi. apply Hblank. lia.
    + intros i Hi. by apply (j_others _ _ _ J).
    + eexists. split; [exact F2|]. right. eexists. split; [done|]. by split.
    + rewrite (j_tot _ _ _ J), Htot, length_app. cbn. lia.
Qed.

Lemma wp_read_name_position off sl ss st s :
  slot_at off sl → sector_size (fat32 s) = ss → ss ≠ 0%Z → holds st s → slot_fits st sl →
  wp (read_name_position data off) (λ _ s', holds (scan_slot ss st sl) s' ∧ quiet s s') s.
Proof.
  intros Hsl Hss Hne Hst [Hfit Hroom]. apply (wp_begin_file _ st); [done|].
  destruct st as [fs parts]. destruct Hst as [Hlen Hfound Hblank Hparts Htot]. cbn [fst snd] in *.
  set (s0 := set_tot_file _ s). assert (Hp0 : holds_parts parts s0) by (destruct Hparts; by split).
  unfold read_name_position_do, scan_slot. wp_step. apply (wp_is_long off sl); [done|].
  destruct (long_slot sl) eqn:Hlong.
  - (* a part of a long name *)
    wp_step. wp_step. rewrite (hp_top _ _ Hp0).
    destruct (lookup_lt_is_Some_2 (buf s0) (length parts)) as [r Hr]; [rewrite (hp_rows _ _ Hp0); lia|].
    assert (Hr0 : row_ok r) by (by apply (proj1 (Forall_lookup _ _) (hp_row _ _ Hp0) (length parts))).
    apply (wp_read_long off sl _ r); [done|done|done|]. wp_step.
    pose proof (holds_long parts off sl s0 r Hp0 Hsl Hr) as Hnew. rewrite (hp_top _ _ Hp0) in Hnew. split.
    + split; [done|done|done|exact Hnew|]. unfold total, pending. cbn [fst snd].
      rewrite decide_False by (by destruct parts). done.
    + split; try done. intros. by simplify_eq/=.
  - wp_step. wp_step. rewrite (hp_top _ _ Hp0). apply wp_decide; intros Hpe.
    + (* the short entry of the name under way *)
      assert (Hne' : parts ≠ []) by (by intros ->). rewrite (decide_False (P := parts = [])) by done.
      destruct (files_room s (length fs) Hlen Hroom) as [x Hx].
      destruct (Hblank _ x (le_n _) Hx) as (Hb1 & Hb2 & Hb3).
      wp_step. eapply wp_mono; [apply (wp_join_parts (length fs) parts s0 x []); [|done|done|done|done|done]|].
      { pose proof (parts_fit _ _ Hp0). lia. }
      intros [] s1 (J1 & P1 & d & F1 & Hd & Hld). cbn [app] in Hd.
      replace (sector_size (fat32 s0)) with ss by done.
      apply (wp_short off sl ss (length fs) (set_filename d x)); [done|done|done|]. intros s2 J2 T2 F2.
      eapply wp_mono; [apply (wp_finish fs (concat (reverse parts)) sl ss x d s0 s2); try done|].
      * by eapply joins_trans.
      * by eapply joins_parts.
      * intros [] s3 [H3 Q3]. split; [exact H3|]. by destruct Q3.
    + (* no name is under way *)
      assert (parts = []) as -> by (pose proof (hp_top _ _ Hp0); destruct parts; [done|cbn in *; lia]).
      wp_step. rewrite decide_True by done. split; [|by destruct (quiet_refl s); split].
      split; [done|done|done|by destruct Hp0|]. unfold total, pending. cbn [fst snd]. rewrite decide_True by done. cbn. lia.
Qed.

(** ** A sector *)

Definition sector_at (off : Z) (sls : list (list Z)) : Prop :=
  ∀ k sl, sls !! k = Some sl → slot_at (off + 32 * Z.of_nat k) sl.

Lemma wp_read_slots off ss : ∀ sls k st s,
  (∀ j sl, sls !! j = Some sl → slot_at (off + 32 * Z.of_nat (k + j)) sl) →
  sector_size (fat32 s) = ss → ss ≠ 0%Z → (0 ≤ off ∧ off + 32 * Z.of_nat (k + length sls) < 2 ^ 31)%Z →
  holds st s → scan_fits ss sls st →
  wp (for_each ((λ k, 0x20 * Z.of_nat k)%Z <$> seq k (length sls)) (λ i, read_name_position data (i32 (off + i))))
    (λ _ s', holds (scan ss sls st) s' ∧ quiet s s') s.
Proof.
  induction sls as [|sl sls IH]; intros k st s Hat Hss Hne Hoff Hst Hfit; cbn [length seq fmap list_fmap for_each].
  - wp_step. split; [done|apply quiet_refl].
  - destruct Hfit as [Hfit Hfits]. cbn [length] in Hoff. rewrite i32_small by lia. wp_step.
    eapply wp_mono; [apply (wp_read_name_position _ sl ss st); [|done|done|done|done]|].
    { pose proof (Hat 0 sl eq_refl) as Hsl. by rewrite Nat.add_0_r in Hsl. }
    intros [] s1 [Hst1 Hq1]. eapply wp_mono; [apply (IH (S k) (scan_slot ss st sl) s1); [|by rewrite (q_fat32 _ _ Hq1)|done|lia|done|done]|].
    + intros j sl' Hj. replace (S k + j) with (k + S j) by lia. by apply Hat.
    + intros [] s2 [Hst2 Hq2]. split; [exact Hst2|]. eapply quiet_reads_trans; [|exact Hq1|exact Hq2].
      by rewrite (h_files _ _ Hst1), (h_files _ _ Hst).
Qed.

(** How far the search has come: the sectors in [vis] are marked. *)
Record progress (F : FAT32) (vis : list Z) (st : scanned) (s : frecov) : Prop := {
  pg_holds : holds st s;
  pg_fat : fat32 s = F;
  pg_visit : ∀ i, (0 ≤ i < 65535)%Z → aget (sector_visit s) i = Some (if decide (i ∈ vis) then 1 else 0)%Z;
  pg_out : output s = [];
}.

(** Marks of files survive a search. *)
Definition same_marks (s s' : frecov) : Prop :=
  ∀ i x x', file s !! i = Some x → file s' !! i = Some x' → visited x' = visited x.

Lemma idx_mask i : (0 ≤ i < 65535)%Z → Z.land i 0xffff = i.
Proof. intros Hi. change 0xffff%Z with (Z.ones 16). rewrite Z.land_ones by lia. apply Z.mod_small. lia. Qed.

Lemma wp_visit_sector F vis st off idx sls s :
  progress F vis st s → (total st < 512)%Z → (0 ≤ idx < 65535)%Z → idx ∉ vis →
  sector_at off sls → sector_size F = (32 * Z.of_nat (length sls))%Z → sls ≠ [] →
  (0 ≤ off ∧ off + sector_size F < 2 ^ 31)%Z → scan_fits (sector_size F) sls st →
  wp (search_bmp_name_position data off idx) (λ c s', c = (total (scan (sector_size F) sls st) - total st)%Z ∧
    progress F (idx :: vis) (scan (sector_size F) sls st) s' ∧ same_marks s s') s.
Proof.
  intros [Hst HF Hvis Hout] Htot Hidx Hnew Hsec Hss Hne Hoff Hfit. unfold search_bmp_name_position. wp_step. wp_step.
  rewrite decide_False by (rewrite (h_tot _ _ Hst); lia). rewrite idx_mask by done.
  pose proof (Hvis idx Hidx) as Hv. rewrite decide_False in Hv by done.
  wp_step. eapply wp_deref; [exact Hv|]. rewrite (decide_False (P := 0%Z ≠ 0%Z)) by lia.
  wp_step. eapply wp_deref; [apply aset_Some; by eapply aget_lt|]. wp_step. wp_step.
  assert (Hn : Z.to_nat ((sector_size (fat32 s) + 31) `div` 32) = length sls).
  { rewrite HF, Hss. replace (32 * Z.of_nat (length sls) + 31)%Z with (31 + Z.of_nat (length sls) * 32)%Z by lia.
    rewrite Z.div_add by lia. rewrite Z.div_small by lia. lia. }
  unfold slots. rewrite Hn. wp_step. assert (0 < length sls) by (destruct sls; [done|cbn; lia]).
  eapply wp_mono; [apply (wp_read_slots off (sector_size F) sls 0 st); [exact Hsec|cbn; by rewrite HF|lia|cbn; lia| |done]|].
  { destruct Hst. split; try done. by destruct h_parts0; split. }
  intros [] s' [Hst' [Q1 Q2 Q3 Q4]]. wp_step. wp_step. split; [by rewrite (h_tot _ _ Hst'), (h_tot _ _ Hst)|].
  split; [|exact Q4]. split; [done|by rewrite Q1| |by rewrite Q3].
  intros i Hi. rewrite Q2. cbn [sector_visit set_sector_visit]. unfold aget. rewrite decide_True by lia.
  apply aget_lt in Hv. destruct (decide (i = idx)) as [->|Hne'].
  - rewrite list_lookup_insert_eq by lia. by rewrite decide_True by left.
  - rewrite list_lookup_insert_ne by lia. pose proof (Hvis i Hi) as Hvi. unfold aget in Hvi. rewrite decide_True in Hvi by lia.
    rewrite Hvi. destruct (decide (i ∈ vis)); [rewrite decide_True by set_solver|rewrite decide_False by set_solver]; done.
Qed.

Lemma wp_search_seen F vis st off idx s (Q : Z → frecov → Prop) :
  progress F vis st s → (0 ≤ idx < 65535)%Z → idx ∈ vis → Q 0%Z s → wp (search_bmp_name_position data off idx) Q s.
Proof.
  intros [Hst HF Hvis Hout] Hidx Hin HQ. unfold search_bmp_name_position. wp_step. wp_step. apply wp_decide; intros _; [done|].
  rewrite idx_mask by done. wp_step. eapply wp_deref; [by apply Hvis|]. rewrite (decide_True (P := idx ∈ vis)) by done.
  rewrite decide_True by lia. by wp_step.
Qed.

(** A sector without parts of long names. *)
Definition dull (sls : list (list Z)) : Prop := Forall (λ sl, long_slot sl = false) sls.

Lemma scan_dull ss sls fs : dull sls → scan ss sls (fs, []) = (fs, []).
Proof. induction 1 as [|sl sls Hsl _ IH]; [done|]. cbn. by rewrite Hsl. Qed.

Lemma scan_fits_dull ss sls fs : dull sls → length fs < FILES → scan_fits ss sls (fs, []).
Proof.
  intros Hd Hl. induction Hd as [|sl sls Hsl _ IH]; [done|]. split.
  - unfold slot_fits. rewrite Hsl. split; [cbn; unfold NAME_SIZE; lia|done].
  - cbn. by rewrite Hsl.
Qed.

(** ** The directories, followed from file to file *)

Section volume.
(** The data region starts at [base]; its first sector has the number 2. *)
Context (F : FAT32) (base : Z) (secs : list (list (list Z))).
Notation ss := (sector_size F).
Definition sector (c : Z) : option (list (list Z)) := if decide (2 ≤ c)%Z then secs !! Z.to_nat (c - 2) else None.

Record region : Prop := {
  rg_at : ∀ k sls, secs !! k = Some sls → sector_at (base + ss * Z.of_nat k) sls;
  rg_len : ∀ k sls, secs !! k = Some sls → ss = (32 * Z.of_nat (length sls))%Z;
  rg_size : (0 ≤ base ∧ base + ss * Z.of_nat (length secs) < 2 ^ 31)%Z;
  rg_pos : (0 < ss)%Z;
  rg_count : (Z.of_nat (length secs) < 65533)%Z;
}.
Context (Hrg : region).

(** [chain vis st dirs st']: with the sectors [vis] seen and [st] found, the jumps
    from the last file found lead through the directory sectors [dirs] to [st']. *)
Inductive chain : list Z → scanned → list Z → scanned → Prop :=
  | chain_end vis fs f : last fs = Some f →
      (∃ sls, sector (fnext f) = Some sls ∧ (fnext f ∈ vis ∨ dull sls)) → length fs < 512 →
      chain vis (fs, []) [] (fs, [])
  | chain_last vis st f sls fs' : last st.1 = Some f → fnext f ∉ vis → sector (fnext f) = Some sls →
      (total st < 512)%Z → scan ss sls st = (fs', []) → total st = total (fs', []) →
      chain vis st [fnext f] (fs', [])
  | chain_step vis st f sls dirs st' : last st.1 = Some f → fnext f ∉ vis → sector (fnext f) = Some sls →
      (total st < 512)%Z → length st.1 < length (scan ss sls st).1 →
      total (scan ss sls st) ≠ total st → chain (fnext f :: vis) (scan ss sls st) dirs st' →
      chain vis st (fnext f :: dirs) st'.

Lemma sector_range c sls : sector c = Some sls → (2 ≤ c < 65535)%Z ∧ secs !! Z.to_nat (c - 2) = Some sls ∧
  (0 < ss ∧ 0 ≤ base + ss * (c - 2) ∧ base + ss * (c - 2) + ss < 2 ^ 31)%Z.
Proof.
  destruct Hrg as [_ _ Hsz Hpos Hcnt]. unfold sector. case_decide; [|done]. intros Hs. pose proof (lookup_lt_Some _ _ _ Hs).
  split; [lia|]. split; [done|]. nia.
Qed.

(** The slots of some sectors, in order. *)
Definition dir_slots (dirs : list Z) : list (list Z) := concat ((λ c, default [] (sector c)) <$> dirs).

Lemma dir_slots_cons c dirs sls : sector c = Some sls → dir_slots (c :: dirs) = sls ++ dir_slots dirs.
Proof. intros Hs. unfold dir_slots. cbn [fmap list_fmap concat]. by rewrite Hs. Qed.

Lemma chain_scan vis st dirs st' : chain vis st dirs st' → st' = scan ss (dir_slots dirs) st.
Proof.
  induction 1 as [|vis st f sls fs' _ _ Hs _ Hscan|vis st f sls dirs st' _ _ Hs _ _ _ _ IH]; [done|..].
  - rewrite (dir_slots_cons _ _ sls) by done. by rewrite app_nil_r.
  - by rewrite (dir_slots_cons _ _ sls), scan_app by done.
Qed.

(** A jump to a sector not seen before. *)
Lemma wp_search_sector vis st c sls s :
  progress F vis st s → (total st < 512)%Z → c ∉ vis → sector c = Some sls → scan_fits ss sls st →
  wp (search_bmp_name_position data (base + ss * (c - 2)) c) (λ n s', n = (total (scan ss sls st) - total st)%Z ∧
    progress F (c :: vis) (scan ss sls st) s' ∧ same_marks s s') s.
Proof.
  intros Hp Ht Hc Hs Hfit. destruct (sector_range c sls Hs) as (Hc2 & Hs' & Hb). destruct Hrg as [Hat Hlen _ Hpos _].
  apply wp_visit_sector; [done|done|lia|done| |by eapply Hlen| |lia|done].
  - replace (c - 2)%Z with (Z.of_nat (Z.to_nat (c - 2))) by lia. by apply Hat.
  - intros ->. pose proof (Hlen _ _ Hs') as H. cbn in H. lia.
Qed.

Lemma holds_mark st s s' (a : nat) x :
  holds st s → a < length st.1 → file s !! a = Some x → s' = set_file (<[a := set_visited 1 x]> (file s)) s → holds st s'.
Proof.
  intros [Hl Hf Hb Hp Ht] Ha Hx ->. split; cbn [file set_file]; [by rewrite length_insert| | |by destruct Hp; split|done].
  - intros i f Hi. destruct (decide (a = i)) as [->|Hne].
    + rewrite list_lookup_insert_eq by (by apply lookup_lt_Some in Hx). destruct (Hf i f Hi) as (y & Hy & Hs).
      simplify_eq. eexists. split; [done|]. by destruct Hs.
    + rewrite list_lookup_insert_ne by done. by apply Hf.
  - intros i y Hi. rewrite list_lookup_insert_ne by lia. by apply Hb.
Qed.

Lemma actual_last st s : holds st s → actual_tot_file s = (Z.of_nat (length st.1) - 1)%Z.
Proof.
  intros [_ _ _ Hp Ht]. unfold actual_tot_file. pose proof (hp_top _ _ Hp) as Htop. rewrite Ht. unfold total, pending.
  destruct (decide (top s = 0)%Z), (decide (st.2 = [])) as [He|He]; rewrite ?He in Htop; cbn in *; try lia.
  destruct st.2; [done|cbn in *; lia].
Qed.

(** No file from the last one on was followed yet. *)
Definition unfollowed st s : Prop := ∀ i x, length st.1 ≤ S i → file s !! i = Some x → visited x = 0%Z.

(** A turn of the deep search: the last file found is followed. *)
Lemma wp_follow vis st f s (Q : Z → frecov → Prop) :
  progress F vis st s → unfollowed st s → last st.1 = Some f → (2 ≤ fnext f < 65535)%Z →
  (0 ≤ base + ss * (fnext f - 2) ∧ base + ss * (fnext f - 2) < 2 ^ 31)%Z →
  (∀ s1, progress F vis st s1 → (∀ i x, length st.1 ≤ i → file s1 !! i = Some x → visited x = 0%Z) →
    wp (search_bmp_name_position data (base + ss * (fnext f - 2)) (fnext f)) Q s1) →
  wp (deep_search_bmp_name_position data base) Q s.
Proof.
  intros Hp Hun Hlast Hf Hoff HQ. pose proof (pg_holds _ _ _ _ Hp) as Hst. rewrite last_lookup in Hlast.
  pose proof (lookup_lt_Some _ _ _ Hlast) as Ha. set (a := Nat.pred (length st.1)) in *.
  destruct (h_found _ _ Hst a f Hlast) as (x & Hx & Hsh).
  unfold deep_search_bmp_name_position. wp_step. wp_step. cbv zeta. rewrite (actual_last st s Hst).
  replace (Z.of_nat (length st.1) - 1)%Z with (Z.of_nat a) by lia.
  wp_step. eapply wp_the_file; [exact Hx|]. rewrite decide_True by (apply (Hun a); [lia|done]).
  unfold upd_file. wp_step. wp_step. wp_step.
  wp_step. eapply wp_deref; [apply aget_Some; split; [lia|by rewrite Nat2Z.id]|].
  pose proof (lookup_lt_Some _ _ _ Hx).
  wp_step. eapply wp_deref; [apply aset_Some; lia|]. wp_step. rewrite Nat2Z.id.
  rewrite (sh_next _ _ Hsh), u32_small by lia. rewrite decide_True by lia.
  destruct Hrg as [_ _ Hsz Hpos _]. rewrite (pg_fat _ _ _ _ Hp), (i32_small (fnext f - 2)) by lia.
  rewrite (i32_small ((fnext f - 2) * _)) by nia. replace (base + (fnext f - 2) * ss)%Z with (base + ss * (fnext f - 2))%Z by lia.
  rewrite i32_small by lia. apply HQ.
  - destruct Hp as [_ H2 H3 H4]. split; try done. by eapply holds_mark.
  - intros i y Hi. cbn. rewrite list_lookup_insert_ne by lia. apply Hun. lia.
Qed.

Lemma fresh_marks st st' s s' :
  holds st s → holds st' s' → (∀ i x, length st.1 ≤ i → file s !! i = Some x → visited x = 0%Z) → same_marks s s' →
  length st.1 < length st'.1 → unfollowed st' s'.
Proof.
  intros H H' Hm Hs Hl i x' Hi Hx'.
  destruct (lookup_lt_is_Some_2 (file s) i) as [x Hx].
  { apply lookup_lt_Some in Hx'. by rewrite (h_files _ _ H), <-(h_files _ _ H'). }
  rewrite (Hs i x x' Hx Hx'). apply (Hm i); [lia|done].
Qed.

Lemma total_dull fs sls : dull sls → (total (scan ss sls (fs, [])) - total (fs, []))%Z = 0%Z.
Proof. intros Hd. rewrite scan_dull by done. lia. Qed.

Lemma total_closed fs : total (fs, []) = Z.of_nat (length fs).
Proof. unfold total, pending. cbn [fst snd]. rewrite decide_True by done. lia. Qed.

Lemma wp_deep_loop vis st dirs st' : chain vis st dirs st' →
  ∀ fuel s, length dirs < fuel → scan_fits ss (dir_slots dirs) st → progress F vis st s → unfollowed st s →
  wp (deep_loop data fuel base) (λ _ s', ∃ vis', progress F vis' st' s' ∧ vis ⊆ vis' ∧ dirs ⊆ vis') s.
Proof.
  induction 1 as [vis fs f Hlast (sls & Hs & Hd) Hfs|vis st f sls fs' Hlast Hnew Hs Ht Hscan Heq
    |vis st f sls dirs st' Hlast Hnew Hs Ht Hgrow Hne Hch IH]; intros fuel s Hfuel Hfit Hp Hun;
    (destruct fuel as [|fuel]; [cbn in Hfuel; lia|]); cbn [deep_loop]; wp_step;
    destruct (sector_range _ sls Hs) as (Hr & _ & Hb);
    (eapply wp_follow; [done|done|done|done|lia|]); intros s1 Hp1 Hm1.
  - destruct (decide (fnext f ∈ vis)) as [Hin|Hnew].
    + eapply wp_search_seen; [done|lia|done|]. rewrite decide_False by lia. wp_step. exists vis. split_and!; [done|done|set_solver].
    + destruct Hd as [?|Hd]; [done|].
      eapply wp_mono; [apply (wp_search_sector vis (fs, []) _ sls); [done|rewrite total_closed; lia|done|done|]|].
      { apply scan_fits_dull; [done|unfold FILES; lia]. }
      intros n s2 (-> & Hp2 & _). rewrite total_dull by done. rewrite decide_False by lia. wp_step.
      rewrite scan_dull in Hp2 by done. exists (fnext f :: vis). split_and!; [done|set_solver|set_solver].
  - rewrite (dir_slots_cons _ _ sls), app_nil_r in Hfit by done.
    eapply wp_mono; [apply (wp_search_sector vis st _ sls); done|]. intros n s2 (-> & Hp2 & _). rewrite Hscan in Hp2 |- *.
    rewrite decide_False by lia. wp_step. exists (fnext f :: vis). split_and!; [done|set_solver|set_solver].
  - rewrite (dir_slots_cons _ _ sls) in Hfit by done. apply scan_fits_app in Hfit as [Hfit Hfits].
    eapply wp_mono; [apply (wp_search_sector vis st _ sls); done|]. intros n s2 (-> & Hp2 & Hm2).
    rewrite decide_True by lia. eapply wp_mono; [apply (IH fuel s2); [cbn in Hfuel; lia|done|done|]|].
    + eapply (fresh_marks st _ s1 s2); [by destruct Hp1|by destruct Hp2|done|done|done].
    + intros [] s3 (vis' & Hp3 & H1 & H2). exists vis'. split_and!; [done|set_solver|set_solver].
Qed.

(** No sector is followed twice, so the fuel is enough. *)
Lemma chain_dirs vis st dirs st' : chain vis st dirs st' → NoDup dirs ∧ ∀ c, c ∈ dirs → c ∉ vis ∧ (2 ≤ c < 65535)%Z.
Proof.
  induction 1 as [|vis st f sls fs' _ Hnew Hs _ _ _|vis st f sls dirs st' _ Hnew Hs _ _ _ _ [Hnd IH]].
  - split; [constructor|]. by intros c ?%not_elem_of_nil.
  - split; [apply NoDup_singleton|]. intros c ->%list_elem_of_singleton. by destruct (sector_range _ _ Hs).
  - split; [constructor; [|done]; intros Hin; apply IH in Hin as [Hin _]; set_solver|].
    intros c [->|Hc]%elem_of_cons; [by destruct (sector_range _ _ Hs)|]. apply IH in Hc. set_solver.
Qed.

Lemma chain_fuel vis st dirs st' : chain vis st dirs st' → length dirs < deep_fuel.
Proof.
  intros [Hnd Hdirs]%chain_dirs. assert (Hsub : dirs ⊆+ seqZ 0 65535).
  { apply NoDup_submseteq; [done|]. intros c Hc. apply elem_of_seqZ. apply Hdirs in Hc. lia. }
  apply submseteq_length in Hsub. rewrite length_seqZ in Hsub.
  change deep_fuel with (S (Z.to_nat 65535)). lia.
Qed.

(** The pass over the sectors that no jump led to. *)
Lemma wp_sweep dirs vis fs s dss :
  (∀ k sls, secs !! k = Some sls → (Z.of_nat k + 2)%Z ∈ dirs ∨ dull sls) → dirs ⊆ vis → length fs < 512 →
  base = (dss * ss)%Z → (0 ≤ dss)%Z → progress F vis (fs, []) s →
  wp (for_range 4 (Z.of_nat (length secs) + 2)
    (λ i, search_bmp_name_position data (i32 ((dss + (i - 2)) * ss)) i;; mret tt))
    (λ _ s', ∃ vis', progress F vis' (fs, []) s') s.
Proof.
  intros Hdull Hdirs Hfs Hbase Hdss Hp.
  destruct (decide (4 ≤ Z.of_nat (length secs) + 2)%Z) as [Hle|Hgt].
  2: { unfold for_range. rewrite seqZ_nil by lia. by exists vis. }
  eapply wp_mono; [apply (wp_for_range (λ i s', ∃ vis', dirs ⊆ vis' ∧ progress F vis' (fs, []) s')); [done| |]|].
  - by exists vis.
  - intros i s1 Hi (vis1 & Hd1 & Hp1).
    destruct (lookup_lt_is_Some_2 secs (Z.to_nat (i - 2))) as [sls Hsls]; [lia|].
    assert (Hs : sector i = Some sls) by (unfold sector; by rewrite decide_True by lia).
    destruct (sector_range i sls Hs) as (Hr & _ & Hb).
    replace ((dss + (i - 2)) * ss)%Z with (base + ss * (i - 2))%Z by (rewrite Hbase; lia).
    destruct Hrg as [_ _ _ Hpos _]. rewrite i32_small by lia.
    wp_step. destruct (decide (i ∈ vis1)) as [Hin|Hnew].
    + eapply wp_search_seen; [done|lia|done|]. wp_step. by exists vis1.
    + destruct (Hdull _ _ Hsls) as [Hin|Hdl].
      { rewrite Z2Nat.id in Hin by lia. replace (i - 2 + 2)%Z with i in Hin by lia. set_solver. }
      eapply wp_mono; [apply (wp_search_sector vis1 (fs, []) _ sls); [done|rewrite total_closed; lia|done|done|]|].
      { apply scan_fits_dull; [done|unfold FILES; lia]. }
      intros n s2 (_ & Hp2 & _). wp_step. rewrite scan_dull in Hp2 by done. exists (i :: vis1). split; [set_solver|done].
  - intros [] s1 (vis1 & _ & Hp1). by exists vis1.
Qed.
End volume.
End image.
