(* ===== verification/FrecovDisk.v ===== *)
(** * The recovery of files: a volume and what is written out

    Entries written by the rules of long names scan to their files, and on a
    formatted volume whose directories chain from file to file the program
    writes out exactly the files listed ([frecov_recovers]). *)
From S2P Require Import Prelude Bytes Frecov FrecovProps.

#[local] Opaque SECTORS deep_fuel.

(** ** Directories *)

(** Slots that list some files, among slots that carry no long name. *)
Inductive listing (ss : Z) : list (list Z) → list found → Prop :=
  | listing_nil : listing ss [] []
  | listing_dull sl sls fs : long_slot sl = false → listing ss sls fs → listing ss (sl :: sls) fs
  | listing_file longs sl sls f fs :
      longs ≠ [] → length longs ≤ ROWS → Forall (λ l, long_slot l = true) longs → long_slot sl = false →
      fname f = concat (reverse (part_of <$> longs)) → length (fname f) < NAME_SIZE →
      fpos f = (unle (field 20 2 sl) * 2 ^ 16 + unle (field 26 2 sl))%Z → fsize f = unle (field 28 4 sl) →
      fnext f = (fpos f + fsize f `div` ss + 1)%Z → (0 ≤ fpos f)%Z → (0 ≤ fsize f < 2 ^ 31)%Z → (fnext f ≤ 0xffff)%Z →
      listing ss sls fs → listing ss (longs ++ sl :: sls) (f :: fs).

Section listing.
Context (ss : Z) (Hss : (0 < ss)%Z).

Lemma scan_longs longs : ∀ fs parts, Forall (λ l, long_slot l = true) longs →
  scan ss longs (fs, parts) = (fs, parts ++ (part_of <$> longs)).
Proof.
  induction longs as [|l longs IH]; intros fs parts Hl; [by rewrite app_nil_r|]. apply Forall_cons in Hl as [H1 Hl].
  unfold scan. cbn [foldl scan_slot]. rewrite H1. fold (scan ss longs (fs, parts ++ [part_of l])). rewrite IH by done. cbn.
  by rewrite <-(assoc_L (++)).
Qed.

Lemma fits_longs longs : ∀ fs parts, Forall (λ l, long_slot l = true) longs → length parts + length longs ≤ ROWS →
  length fs < FILES → scan_fits ss longs (fs, parts).
Proof.
  induction longs as [|l longs IH]; intros fs parts Hl Hn Hf; [done|]. apply Forall_cons in Hl as [H1 Hl].
  cbn [scan_fits scan_slot length] in *. rewrite H1. split; [unfold slot_fits; rewrite H1; cbn; lia|].
  apply IH; [done|rewrite length_app; cbn; lia|done].
Qed.

(** The numbers of a short entry, when they do not wrap. *)
Lemma slot_numbers sl f :
  fpos f = (unle (field 20 2 sl) * 2 ^ 16 + unle (field 26 2 sl))%Z → fsize f = unle (field 28 4 sl) →
  fnext f = (fpos f + fsize f `div` ss + 1)%Z → (0 ≤ fpos f)%Z → (0 ≤ fsize f < 2 ^ 31)%Z → (fnext f ≤ 0xffff)%Z →
  slot_pos sl = fpos f ∧ slot_size sl = fsize f ∧ slot_next ss sl = fnext f ∧ (0 ≤ fnext f)%Z.
Proof.
  intros Hp Hs Hn Hp0 Hs0 Hn0. assert (Hq : (0 ≤ fsize f `div` ss)%Z) by (apply Z.div_pos; lia).
  assert (H1 : slot_pos sl = fpos f).
  { unfold slot_pos. rewrite i32_add_l, Z.shiftl_mul_pow2, <-Hp by lia. apply i32_small. lia. }
  assert (H2 : slot_size sl = fsize f) by (unfold slot_size; rewrite <-Hs; apply i32_small; lia).
  split_and!; [done|done| |lia]. unfold slot_next. rewrite H1, H2, Z.quot_div_nonneg, i32_add_l, <-Hn by lia. apply i32_small. lia.
Qed.

Lemma length_concat_reverse (l : list (list Z)) : length (concat (reverse l)) = length (concat l).
Proof. by rewrite reverse_Permutation. Qed.

(** A listing scans to its files. *)
Lemma scan_listing sls fs : listing ss sls fs → ∀ fs0, length fs0 + length fs < FILES →
  scan ss sls (fs0, []) = (fs0 ++ fs, []) ∧ scan_fits ss sls (fs0, []).
Proof.
  induction 1 as [|sl sls fs Hd Hl IH|longs sl sls f fs Hne Hrows Hlongs Hd Hnm Hlen Hp Hs Hn Hp0 Hs0 Hn0 Hl IH]; intros fs0 Hfs.
  - by rewrite app_nil_r.
  - unfold scan. cbn [foldl scan_fits scan_slot]. rewrite Hd. fold (scan ss sls (fs0, [])). destruct (IH fs0 Hfs) as [H1 H2].
    split; [exact H1|]. split; [|exact H2]. unfold slot_fits. rewrite Hd. cbn in *. unfold NAME_SIZE. lia.
  - cbn [length] in Hfs. destruct (slot_numbers sl f) as (N1 & N2 & N3 & N4); try done.
    assert (Hslot : scan_slot ss (fs0, part_of <$> longs) sl = (fs0 ++ [f], [])).
    { unfold scan_slot. rewrite Hd. rewrite decide_False by (by intros Hx%fmap_nil_inv). rewrite N3, u32_small by lia.
      rewrite decide_False by lia. rewrite N1, N2, <-Hnm. by destruct f. }
    destruct (IH (fs0 ++ [f])) as [H1 H2]; [rewrite length_app; cbn; lia|].
    rewrite scan_app, scan_longs by done. cbn [app]. unfold scan at 1. cbn [foldl]. rewrite Hslot. fold (scan ss sls (fs0 ++ [f], [])).
    split; [by rewrite H1, <-(assoc_L (++))|]. apply scan_fits_app. split; [apply fits_longs; [done|done|lia]|].
    rewrite scan_longs by done. cbn [app scan_fits]. rewrite Hslot. split; [|exact H2]. unfold slot_fits. rewrite Hd. cbn [fst snd].
    rewrite Hnm, length_concat_reverse in Hlen. split; [done|lia].
Qed.
End listing.

(** ** The entries that a file system writes *)

(** The 13 characters of a part: its name, a null and padding; as pairs of bytes. *)
Definition cell (part : list Z) (i : nat) : list Z :=
  [byte (part ++ 0%Z :: replicate 12 0xff%Z) i; if decide (i ≤ length part) then 0%Z else 0xff%Z].
Definition long_entry (ord ck : Z) (part : list Z) : list Z :=
  ord :: (seq 0 5 ≫= cell part) ++ [0x0f; 0; ck]%Z ++ (seq 5 6 ≫= cell part) ++ [0; 0]%Z ++ (seq 11 2 ≫= cell part).

(** Parts are numbered from 1, the last one marked with 0x40; the last comes first. *)
Definition ordinal (n i : nat) : Z := (Z.of_nat (S i) + if decide (S i = n) then 0x40 else 0)%Z.
Definition long_entries (ck : Z) (parts : list (list Z)) : list (list Z) :=
  reverse (imap (λ i part, long_entry (ordinal (length parts) i) ck part) parts).
Definition short_entry (alias : list Z) (attr pos size : Z) : list Z :=
  alias ++ [attr; 0; 0; 0; 0; 0; 0; 0; 0]%Z ++ le 2 (pos `div` 2 ^ 16) ++ [0; 0; 0; 0]%Z ++ le 2 (pos `mod` 2 ^ 16) ++ le 4 size.

Lemma long_entry_part ord ck part : 0%Z ∉ part → length part ≤ 13 → part_of (long_entry ord ck part) = part.
Proof.
  intros Hz Hl. unfold part_of. change (byte (long_entry ord ck part) <$> char_places) with
    (byte (part ++ 0%Z :: replicate 12 0xff%Z) <$> seq 0 13).
  assert (Ht : byte (part ++ 0%Z :: replicate 12 0xff%Z) <$> seq 0 13 = take 13 (part ++ 0%Z :: replicate 12 0xff%Z)).
  { apply list_eq. intros i. destruct (decide (i < 13)) as [Hi|Hi].
    - rewrite list_lookup_fmap, lookup_seq_lt, lookup_take_lt by done. cbn [fmap option_fmap option_map]. unfold byte.
      destruct (lookup_lt_is_Some_2 (part ++ 0%Z :: replicate 12 0xff%Z) i) as [b Hb];
        [rewrite length_app; cbn; lia|]. cbn [Nat.add]. by rewrite Hb.
    - rewrite !lookup_ge_None_2; [done|rewrite length_take; lia|rewrite length_fmap, length_seq; lia]. }
  rewrite Ht. destruct (decide (length part = 13)) as [H13|H13].
  - rewrite take_app_le, take_ge by lia. clear Ht. induction part as [|b part IH] in Hz |- *; [done|]. cbn.
    rewrite decide_False by set_solver. f_equal. apply IH. set_solver.
  - rewrite take_app_ge by lia. replace (13 - length part) with (S (12 - length part)) by lia. cbn [take].
    rewrite cut0_app_zero. clear Ht. induction part as [|b part IH] in Hz |- *; [done|]. cbn.
    rewrite decide_False by set_solver. f_equal. apply IH. set_solver.
Qed.

Lemma long_entry_long n i ck part : i < n → n ≤ 31 → long_slot (long_entry (ordinal n i) ck part) = true.
Proof.
  intros Hi Hn. unfold long_slot. change (byte (long_entry _ ck part) 11) with 0x0f%Z. change (byte (long_entry _ ck part) 12) with 0%Z.
  rewrite !bool_decide_true by done. cbn [andb]. change (is_valid (ordinal n i) = true). unfold is_valid, ordinal. apply orb_true_iff. case_decide; [right|left]; apply bool_decide_eq_true; lia.
Qed.

Lemma imap_parts (f : nat → list Z → list Z) parts :
  (∀ i p, p ∈ parts → part_of (f i p) = p) → part_of <$> imap f parts = parts.
Proof.
  revert f. induction parts as [|p parts IH]; intros f Hf; [done|]. rewrite imap_cons. cbn [fmap list_fmap].
  rewrite Hf by left. f_equal. apply IH. intros i q Hq. apply Hf. by right.
Qed.

(** What is written for a file lists it. *)
Lemma encoded_listed ss ck parts alias attr pos size sls fs :
  parts ≠ [] → length parts ≤ 31 → Forall (λ p, 0%Z ∉ p ∧ length p ≤ 13) parts → length (concat parts) < NAME_SIZE →
  length alias = 11 → attr ≠ 0x0f%Z → (0 < ss)%Z → (0 ≤ pos < 2 ^ 32)%Z → (0 ≤ size < 2 ^ 31)%Z → (pos + size `div` ss + 1 ≤ 0xffff)%Z →
  listing ss sls fs →
  listing ss (long_entries ck parts ++ short_entry alias attr pos size :: sls) (Found (concat parts) pos size (pos + size `div` ss + 1) :: fs).
Proof.
  intros Hne Hn Hparts Hlen Hal Hattr Hss Hpos Hsize Hnext Hl.
  assert (Hfields : field 20 2 (short_entry alias attr pos size) = le 2 (pos `div` 2 ^ 16) ∧
    field 26 2 (short_entry alias attr pos size) = le 2 (pos `mod` 2 ^ 16) ∧ field 28 4 (short_entry alias attr pos size) = le 4 size).
  { clear -Hal. do 11 (destruct alias as [|? alias]; [done|]). destruct alias; [|done]. split_and!; reflexivity. }
  destruct Hfields as (F1 & F2 & F3).
  assert (Hparts' : part_of <$> long_entries ck parts = reverse parts).
  { unfold long_entries. rewrite fmap_reverse. f_equal. apply imap_parts. intros i p Hp.
    destruct (proj1 (Forall_forall _ _) Hparts p Hp). by apply long_entry_part. }
  apply listing_file; cbn [fname fpos fsize fnext]; try done; try lia.
  - intros Hx. apply (f_equal (fmap part_of)) in Hx. rewrite Hparts' in Hx. apply (f_equal reverse) in Hx. by rewrite reverse_involutive in Hx.
  - unfold long_entries. rewrite length_reverse, length_imap. unfold ROWS. lia.
  - unfold long_entries. apply Forall_reverse, Forall_lookup. intros i l Hi. rewrite list_lookup_imap in Hi.
    destruct (parts !! i) as [p|] eqn:Hp; [|done]. injection Hi as <-. apply long_entry_long; [by apply lookup_lt_Some in Hp|done].
  - unfold long_slot, byte, short_entry. rewrite lookup_app_r by lia. rewrite Hal. cbn. by rewrite bool_decide_false.
  - by rewrite Hparts', reverse_involutive.
  - rewrite F1, F2, !unle_le; [|split; [apply Z.mod_pos_bound|apply Z.mod_pos_bound]; lia
      |split; [apply Z.div_pos; lia|apply Z.div_lt_upper_bound; lia]]. pose proof (Z.div_mod pos (2 ^ 16)). lia.
  - by rewrite F3, unle_le by (cbn; lia).
Qed.

(** ** A volume *)

(** Reserved sectors, tables, and the data sectors as lists of slots. *)
Record volume := Volume { v_boot : list (list Z); v_fats : list (list Z); v_secs : list (list (list Z)) }.
Definition region_bytes (v : volume) : list Z := concat (@concat Z <$> v_secs v).
Definition image (v : volume) : list Z := concat (v_boot v) ++ concat (v_fats v) ++ region_bytes v.

(** The boot record, as the format lays it out. *)
Definition boot_info (img : list Z) : FAT32 :=
  let num k n := unle (field k n img) in
  Fat32 (num 11 2) (num 13 1) (num 14 2) (num 16 1) (if decide (num 19 2 = 0%Z) then i32 (num 32 4) else num 19 2)
    (i32 (num 28 4)) (i32 (num 36 4)) (num 50 2)
    (strncpy_bytes (field 71 11 img) ++ [0%Z]) (strncpy_bytes (field 82 8 img) ++ [0%Z]).

Record formatted (v : volume) : Prop := {
  fm_bytes : Forall (λ b, 0 ≤ b < 256)%Z (image v);
  fm_size : (Z.of_nat (length (image v)) < 2 ^ 31)%Z;
  fm_long : 90 ≤ length (image v);
  fm_sector : (32 ≤ sector_size (boot_info (image v)))%Z;
  fm_boot : Forall (λ b, Z.of_nat (length b) = sector_size (boot_info (image v))) (v_boot v);
  fm_fats : Forall (λ b, Z.of_nat (length b) = sector_size (boot_info (image v))) (v_fats v);
  fm_secs : Forall (λ sls, (32 * Z.of_nat (length sls))%Z = sector_size (boot_info (image v)) ∧ Forall (λ sl, length sl = 32) sls) (v_secs v);
  fm_tables : (fat_amount (boot_info (image v)) * fat_size (boot_info (image v)) = Z.of_nat (length (v_fats v)))%Z;
  fm_sign : take 4 (concat (v_fats v)) = FAT_BEGIN;
  fm_unsigned : Forall (λ b, take 4 b ≠ FAT_BEGIN) (v_boot v);
  fm_amount : sector_amount (boot_info (image v)) = Z.of_nat (length (v_boot v) + length (v_fats v) + length (v_secs v));
  fm_count : (Z.of_nat (length (v_secs v)) < 65533)%Z;
}.

(** Pieces of one length, end to end. *)
Lemma concat_length_eq {A} (ls : list (list A)) n : Forall (λ l, length l = n) ls → length (concat ls) = n * length ls.
Proof. induction 1 as [|l ls Hl _ IH]; cbn; [lia|]. rewrite length_app, IH, Hl. lia. Qed.

Lemma concat_lookup {A} (ls : list (list A)) n k l i :
  Forall (λ l, length l = n) ls → ls !! k = Some l → i < n → concat ls !! (n * k + i) = l !! i.
Proof.
  intros Hls Hk Hi. apply list_elem_of_split_length in Hk as (l1 & l2 & -> & ->).
  apply Forall_app in Hls as [H1 H2]. apply Forall_cons in H2 as [Hl _].
  rewrite concat_app, lookup_app_r; rewrite (concat_length_eq l1 n) by done; [|lia].
  cbn. rewrite lookup_app_l by lia. f_equal. lia.
Qed.

Lemma Forall_field k n l P : Forall P l → Forall P (field k n l).
Proof. intros H. unfold field. by apply Forall_take, Forall_drop. Qed.

Section image.
Context (img : list Z) (Hbytes : Forall (λ b, 0 ≤ b < 256)%Z img).

Lemma aget_field k n i : k + n ≤ length img → i < n → aget img (Z.of_nat k + Z.of_nat i) = field k n img !! i.
Proof.
  intros Hk Hi. unfold aget, field. rewrite decide_True, lookup_take_lt, lookup_drop by lia. f_equal. lia.
Qed.

Lemma wp_read_at k n s (Q : Z → frecov → Prop) :
  k + n ≤ length img → Q (i32 (unle (field k n img))) s → wp (read_num img (Z.of_nat k) n) Q s.
Proof.
  intros Hk HQ. assert (Hl : length (field k n img) = n) by (unfold field; rewrite length_take, length_drop; lia).
  apply (wp_read_num img _ (field k n img)); [done| |done]. intros i Hi. apply aget_field; lia.
Qed.

Lemma wp_read_small k n s (Q : Z → frecov → Prop) :
  k + n ≤ length img → n ≤ 2 → Q (unle (field k n img)) s → wp (read_num img (Z.of_nat k) n) Q s.
Proof.
  intros Hk Hn HQ. apply wp_read_at; [done|]. assert (Hl : length (field k n img) = n) by (unfold field; rewrite length_take, length_drop; lia).
  pose proof (unle_bound _ (Forall_field k n img _ Hbytes)) as Hb. rewrite Hl in Hb.
  rewrite i32_small; [done|]. assert (256 ^ Z.of_nat n ≤ 256 ^ 2)%Z by (apply Z.pow_le_mono_r; lia). lia.
Qed.

Lemma wp_read_str k n s (Q : list Z → frecov → Prop) :
  k + n ≤ length img → Q (strncpy_bytes (field k n img)) s → wp (read_str img (Z.of_nat k) n) Q s.
Proof. intros Hk HQ. unfold read_str. rewrite decide_True, Nat2Z.id by lia. by wp_step. Qed.

Lemma wp_read_info (Q : unit → frecov → Prop) :
  90 ≤ length img → Q tt (set_fat32 (boot_info img) boot_frecov) → wp (read_fat32_info img) Q boot_frecov.
Proof.
  intros Hl HQ. unfold read_fat32_info.
  wp_step. apply (wp_read_small 11); [lia|lia|]. wp_step. apply (wp_read_small 13); [lia|lia|].
  wp_step. apply (wp_read_small 14); [lia|lia|]. wp_step. apply (wp_read_small 16); [lia|lia|].
  wp_step. apply (wp_read_small 19); [lia|lia|]. wp_step.
  apply wp_mono with (P := λ z s, z = (if decide (unle (field 19 2 img) = 0%Z) then i32 (unle (field 32 4 img)) else unle (field 19 2 img)) ∧ s = boot_frecov).
  { case_decide; [apply (wp_read_at 32); [lia|done]|by wp_step]. }
  intros sa s (-> & ->).
  wp_step. apply (wp_read_at 28); [lia|]. wp_step. apply (wp_read_at 36); [lia|]. wp_step. apply (wp_read_small 50); [lia|lia|].
  wp_step. apply (wp_read_str 71); [lia|]. wp_step. apply (wp_read_str 82); [lia|]. wp_step. exact HQ.
Qed.

(** The search for the first table. *)
Lemma wp_match_at sig : ∀ off s (Q : bool → frecov → Prop),
  off + length sig ≤ length img → Q (bool_decide (take (length sig) (drop off img) = sig)) s →
  wp (match_at img (Z.of_nat off) sig) Q s.
Proof.
  induction sig as [|c sig IH]; intros off s Q Hoff HQ; cbn [match_at length] in *; [wp_step; by rewrite bool_decide_true in HQ|].
  destruct (lookup_lt_is_Some_2 img off) as [b Hb]; [lia|]. rewrite (drop_S img b off Hb) in HQ. cbn [take] in HQ.
  wp_step. apply (wp_read_byte img _ b); [unfold aget; by rewrite decide_True, Nat2Z.id by lia|].
  apply wp_decide; intros Hc.
  - subst. replace (Z.of_nat off + 1)%Z with (Z.of_nat (S off)) by lia. apply IH; [lia|].
    destruct (decide (take (length sig) (drop (S off) img) = sig)) as [He|He].
    + rewrite bool_decide_true in HQ by (by rewrite He). by rewrite bool_decide_true.
    + rewrite bool_decide_false in HQ by congruence. by rewrite bool_decide_false.
  - wp_step. rewrite bool_decide_false in HQ; [done|congruence].
Qed.
End image.

#[local] Opaque boot_info.
Section volume.
Context (v : volume) (Hv : formatted v).
Notation img := (image v).
Notation F := (boot_info img).
Notation ss := (sector_size F).

(** The first byte of the data region. *)
Definition reserved : nat := length (v_boot v) + length (v_fats v).
Notation base := (Z.of_nat reserved * ss)%Z.

Lemma sectors_length ls : Forall (λ b : list Z, Z.of_nat (length b) = ss) ls → Z.of_nat (length (concat ls)) = (Z.of_nat (length ls) * ss)%Z.
Proof.
  intros Hls. rewrite (concat_length_eq ls (Z.to_nat ss)).
  - pose proof (fm_sector _ Hv). lia.
  - eapply Forall_impl; [exact Hls|]. intros b Hb. cbv beta in Hb. lia.
Qed.

Lemma tables_length : Z.of_nat (length (concat (v_boot v) ++ concat (v_fats v))) = base.
Proof.
  rewrite length_app, Nat2Z.inj_add, (sectors_length _ (fm_boot _ Hv)), (sectors_length _ (fm_fats _ Hv)). unfold reserved. lia.
Qed.

Lemma sector_bytes sls : sls ∈ v_secs v → length (concat sls) = Z.to_nat ss ∧ Forall (λ sl, length sl = 32) sls.
Proof.
  intros Hs. destruct (proj1 (Forall_forall _ _) (fm_secs _ Hv) sls Hs) as [Hl Hsl].
  split; [|done]. rewrite (concat_length_eq _ 32) by done. lia.
Qed.

Lemma sectors_eq : Forall (λ b, length b = Z.to_nat ss) (@concat Z <$> v_secs v).
Proof. apply Forall_fmap, Forall_forall. intros sls Hs. cbn. by apply sector_bytes. Qed.

Lemma region_length : Z.of_nat (length (region_bytes v)) = (Z.of_nat (length (v_secs v)) * ss)%Z.
Proof.
  unfold region_bytes. rewrite (concat_length_eq _ (Z.to_nat ss)) by apply sectors_eq. rewrite length_fmap.
  pose proof (fm_sector _ Hv). lia.
Qed.

Lemma image_split : img = (concat (v_boot v) ++ concat (v_fats v)) ++ region_bytes v.
Proof. unfold image. by rewrite (assoc_L (++)). Qed.

Lemma image_length : Z.of_nat (length img) = (Z.of_nat (reserved + length (v_secs v)) * ss)%Z.
Proof.
  pose proof (f_equal length image_split) as H. rewrite length_app in H.
  pose proof tables_length. pose proof region_length. lia.
Qed.

Lemma image_drop n l1 l2 : v_boot v = l1 ++ l2 → n = length (concat l1) →
  drop n img = concat l2 ++ concat (v_fats v) ++ region_bytes v.
Proof. intros H ->. unfold image. by rewrite H, concat_app, <-(assoc_L (++)), drop_app_length. Qed.

(** A byte of the data region in the image. *)
Lemma aget_region j : aget img (base + Z.of_nat j) = region_bytes v !! j.
Proof.
  pose proof tables_length as Ht. pose proof (fm_sector _ Hv). unfold aget. rewrite decide_True by lia.
  assert (Hr : ∀ i, length (concat (v_boot v) ++ concat (v_fats v)) ≤ i →
    img !! i = region_bytes v !! (i - length (concat (v_boot v) ++ concat (v_fats v)))).
  { intros i Hi. rewrite image_split at 1. by apply lookup_app_r. }
  rewrite Hr by lia. f_equal. lia.
Qed.

Lemma image_region : region img F base (v_secs v).
Proof.
  pose proof (fm_sector _ Hv) as Hss. pose proof (fm_size _ Hv) as Hsize. rewrite image_length in Hsize. split.
  - intros k sls Hk j sl Hj. assert (Hin : sls ∈ v_secs v) by by eapply list_elem_of_lookup_2.
    destruct (sector_bytes _ Hin) as [Hb Hsls]. pose proof (lookup_lt_Some _ _ _ Hj) as Hjl.
    assert (Hsl : length sl = 32) by by apply (proj1 (Forall_lookup _ _) Hsls j).
    rewrite (concat_length_eq _ 32) in Hb by done.
    assert (Hby : ∀ i, i < 32 → region_bytes v !! (Z.to_nat ss * k + (32 * j + i)) = sl !! i).
    { intros i Hi. unfold region_bytes. rewrite (concat_lookup _ _ _ (concat sls)); [|apply sectors_eq|by rewrite list_lookup_fmap, Hk|lia].
      by apply (concat_lookup sls 32). }
    split; [done| |].
    + intros i Hi. rewrite <-Hby by done. rewrite <-aget_region. f_equal. lia.
    + apply Forall_lookup. intros i b Hbi. pose proof (lookup_lt_Some _ _ _ Hbi) as Hi. rewrite Hsl in Hi. rewrite <-(Hby i Hi), <-aget_region in Hbi.
      apply aget_Some in Hbi as [_ Hbi]. by apply (proj1 (Forall_lookup _ _) (fm_bytes _ Hv) _ _ Hbi).
  - intros k sls Hk. pose proof (proj1 (Forall_lookup _ _) (fm_secs _ Hv) k sls Hk) as [Hl _]. lia.
  - lia.
  - lia.
  - apply (fm_count _ Hv).
Qed.

(** The first table is found after the reserved sectors. *)
Lemma wp_find_fat s k fuel (Q : Z → frecov → Prop) :
  fat32 s = F → k ≤ length (v_boot v) → length (v_boot v) - k < fuel →
  Q (Z.of_nat (length (v_boot v)) * ss)%Z s → wp (find_fat img fuel (Z.of_nat k * ss)) Q s.
Proof.
  intros HF. pose proof (fm_sector _ Hv) as Hss. pose proof (fm_size _ Hv) as Hsize. rewrite image_length in Hsize.
  pose proof (sectors_length _ (fm_boot _ Hv)) as Hbl.
  assert (Hfat : 4 ≤ length (concat (v_fats v))) by (pose proof (fm_sign _ Hv) as H; apply (f_equal length) in H; rewrite length_take in H; change (length FAT_BEGIN) with 4 in H; lia).
  revert k. induction fuel as [|fuel IH]; intros k Hk Hfuel HQ; [lia|]. cbn [find_fat]. wp_step.
  replace (Z.of_nat k * ss)%Z with (Z.of_nat (k * Z.to_nat ss)) by lia.
  destruct (decide (k = length (v_boot v))) as [->|Hne].
  - assert (Hat : drop (length (v_boot v) * Z.to_nat ss) img = concat (v_fats v) ++ region_bytes v).
    { rewrite (image_drop _ (v_boot v) []); [done|by rewrite app_nil_r|lia]. }
    apply wp_match_at.
    + pose proof (f_equal length Hat) as Hl. rewrite length_drop, length_app in Hl. change (length FAT_BEGIN) with 4. lia.
    + rewrite Hat, take_app_le, bool_decide_true by (apply (fm_sign _ Hv) || (change (length FAT_BEGIN) with 4; lia)). wp_step.
      by replace (Z.of_nat (length (v_boot v) * Z.to_nat ss)) with (Z.of_nat (length (v_boot v)) * ss)%Z by lia.
  - destruct (lookup_lt_is_Some_2 (v_boot v) k) as [b Hb]; [lia|].
    pose proof (proj1 (Forall_lookup _ _) (fm_boot _ Hv) k b Hb) as Hlb. cbv beta in Hlb.
    assert (Hat : ∃ r, drop (k * Z.to_nat ss) img = b ++ r).
    { apply list_elem_of_split_length in Hb as (l1 & l2 & Heq & ->). rewrite (image_drop _ l1 (b :: l2)); [|done|].
      { cbn [concat]. rewrite <-(assoc_L (++)). by eexists. }
      pose proof (fm_boot _ Hv) as Hall. rewrite Heq in Hall. apply Forall_app in Hall as [Hall _].
      pose proof (sectors_length _ Hall). lia. }
    destruct Hat as [r Hat]. apply wp_match_at.
    + pose proof (f_equal length Hat) as Hl. rewrite length_drop, length_app in Hl. change (length FAT_BEGIN) with 4. lia.
    + rewrite Hat, take_app_le by (cbn; lia). rewrite bool_decide_false by apply (proj1 (Forall_lookup _ _) (fm_unsigned _ Hv) k b Hb).
      wp_step. wp_step. rewrite HF.
      replace (i32 _) with (Z.of_nat (S k) * ss)%Z; [apply IH; [lia|lia|done]|]. rewrite i32_small; [lia|].
      assert (Z.of_nat (k * Z.to_nat ss) = Z.of_nat k * ss)%Z as -> by lia. unfold reserved in Hsize. nia.
Qed.

(** ** What is written out *)

Context (can_open : list Z → bool).

Definition contents (f : found) : list Z := take (Z.to_nat (fsize f)) (drop (Z.to_nat ((fpos f - 2) * ss)) (region_bytes v)).
Definition events (f : found) : list event :=
  (if can_open (fname f) then [Write (fname f) (contents f)] else []) ++ [Sha1sum (fname f); Unlink (fname f)].

(** A file that lies in the data region. *)
Definition inside (f : found) : Prop :=
  (2 ≤ fpos f ∧ 0 ≤ fsize f ∧ (fpos f - 2) * ss + fsize f ≤ Z.of_nat (length (v_secs v)) * ss)%Z.

Lemma region_drop j : drop (Z.to_nat (base + Z.of_nat j)) img = drop j (region_bytes v).
Proof.
  pose proof tables_length as Ht. pose proof (fm_sector _ Hv).
  replace (Z.to_nat (base + Z.of_nat j)) with (length (concat (v_boot v) ++ concat (v_fats v)) + j) by lia.
  rewrite image_split at 1. rewrite <-drop_drop, drop_app_length. done.
Qed.

Lemma wp_output_file f x s (Q : unit → frecov → Prop) :
  shows f x → inside f → fat32 s = F → Q tt (set_output (output s ++ events f) s) →
  wp (output_bmp img can_open base x;; sha1sum_bmp x;; delete_bmp x) Q s.
Proof.
  intros [Hnm _ Hpos Hsize _] (Hp2 & Hs0 & Hin) HF HQ. pose proof (fm_sector _ Hv) as Hss. pose proof (fm_size _ Hv) as Hlt.
  pose proof image_length as Hil. unfold output_bmp, sha1sum_bmp, delete_bmp, name_of, log. rewrite Hnm, Hpos, Hsize.
  assert (Hpre : (Z.of_nat (length (v_secs v)) * ss + base = Z.of_nat (reserved + length (v_secs v)) * ss)%Z) by lia.
  assert (Hin2 : (0 ≤ base ∧ 0 ≤ (fpos f - 2) * ss)%Z) by nia.
  assert (Hpb : (fpos f - 2 ≤ (fpos f - 2) * ss)%Z) by nia.
  rewrite (i32_small (fpos f - 2)) by lia.
  wp_step. wp_step. wp_step. wp_step. wp_step. rewrite HF, i32_small by lia.
  assert (Hrest : ∀ s1, s1 = set_output (output s ++ (if can_open (fname f) then [Write (fname f) (contents f)] else [])) s →
    wp ((n ← deref OutOfBounds (Some (fname f)); modify (λ s, set_output (output s ++ [Sha1sum n]) s));;
        n ← deref OutOfBounds (Some (fname f)); modify (λ s, set_output (output s ++ [Unlink n]) s)) Q s1).
  { intros s1 ->. wp_steps. cbn. unfold events in HQ. rewrite <-!(assoc_L (++)) in *. exact HQ. }
  apply wp_when; intros Hc; rewrite Hc in Hrest.
  - cbv zeta. rewrite decide_True by lia. wp_step.
    replace (base + (fpos f - 2) * ss)%Z with (base + Z.of_nat (Z.to_nat ((fpos f - 2) * ss)))%Z by lia.
    rewrite region_drop. by apply Hrest.
  - apply Hrest. rewrite app_nil_r. by destruct s.
Qed.
Lemma wp_output fs s (Q : unit → frecov → Prop) :
  holds (fs, []) s → fat32 s = F → Forall inside fs →
  Q tt (set_output (output s ++ (fs ≫= events)) s) →
  wp (for_range 0 (Z.of_nat (length fs)) (λ i, f ← the_file i; output_bmp img can_open base f;; sha1sum_bmp f;; delete_bmp f)) Q s.
Proof.
  intros Hs HF Hin HQ.
  eapply wp_mono; [apply (wp_for_range (λ i s', (0 ≤ i)%Z ∧ s' = set_output (output s ++ (take (Z.to_nat i) fs ≫= events)) s)); [lia| |]|].
  - split; [lia|]. change (Z.to_nat 0) with 0. rewrite take_0. cbn. rewrite app_nil_r. by destruct s.
  - intros i s1 Hi [_ ->]. destruct (lookup_lt_is_Some_2 fs (Z.to_nat i)) as [f Hf]; [lia|].
    destruct (h_found _ _ Hs _ f Hf) as (x & Hx & Hsh).
    replace i with (Z.of_nat (Z.to_nat i)) at 1 by lia. wp_step. eapply wp_the_file; [exact Hx|].
    apply (wp_output_file f x); [done|by apply (proj1 (Forall_lookup _ _) Hin (Z.to_nat i))|done|]. split; [lia|].
    cbn [output set_output]. replace (Z.to_nat (i + 1)) with (S (Z.to_nat i)) by lia.
    rewrite (take_S_r _ _ f), bind_app by done. cbn [mbind list_bind]. by rewrite app_nil_r, (assoc_L (++)).
  - intros [] s1 [_ ->]. by rewrite Nat2Z.id, take_ge in * by lia.
Qed.

(** ** The program *)

(** Nothing found, nothing seen. *)
Lemma boot_progress : progress F [] ([], []) (set_fat32 F boot_frecov).
Proof.
  assert (Hz : cstring (replicate NAME_SIZE 0%Z) = Some []) by done. split; [|done| |done].
  - split; cbn [fst snd].
    + apply length_replicate.
    + intros i f Hi. by rewrite lookup_nil in Hi.
    + intros i x _ [-> _]%lookup_replicate. split_and!; [exact Hz|apply length_replicate|done].
    + split; [apply length_replicate| | |done].
      * apply Forall_replicate. split; [apply length_replicate|]. intros i _ Hi. by apply lookup_replicate_2.
      * intros i p Hp. by rewrite lookup_nil in Hp.
    + unfold total, pending. by rewrite decide_True by done.
  - intros i Hi. rewrite decide_False by apply not_elem_of_nil. unfold aget. rewrite decide_True by lia.
    apply lookup_replicate_2. change SECTORS with (Z.to_nat 65535). lia.
Qed.

Lemma boot_unmarked i x : file (set_fat32 F boot_frecov) !! i = Some x → visited x = 0%Z.
Proof. by intros [-> _]%lookup_replicate. Qed.

Notation secs := (v_secs v).
Notation first_state sls := (scan ss sls ([], [])).

(** The searches find what the directories list. *)
Lemma wp_searches dirs fs sls k :
  sector secs 3 = Some sls → chain F secs [3%Z] (first_state sls) dirs (fs, []) → listing ss (dir_slots secs (3%Z :: dirs)) fs →
  (∀ k sls, secs !! k = Some sls → (Z.of_nat k + 2)%Z ∈ 3%Z :: dirs ∨ dull sls) → length fs < 512 →
  (∀ s, holds (fs, []) s → fat32 s = F → output s = [] → wp k (λ r s', r = 0%Z ∧ output s' = fs ≫= events) s) →
  wp (search_bmp_name_position img (base + ss) 3;;
      deep_loop img deep_fuel base;;
      for_range 4 (Z.of_nat (length secs) + 2)
        (λ i, search_bmp_name_position img (i32 ((Z.of_nat reserved + (i - 2)) * ss)) i;; mret tt);;
      k) (λ r s', r = 0%Z ∧ output s' = fs ≫= events) (set_fat32 F boot_frecov).
Proof.
  intros H3 Hch Hli Hdull Hlen Hk. pose proof image_region as Hrg.
  destruct (scan_listing ss ltac:(pose proof (fm_sector _ Hv); lia) _ _ Hli [] ltac:(unfold FILES; cbn; lia)) as [_ Hfits].
  rewrite (dir_slots_cons secs 3 dirs sls H3) in Hfits. apply scan_fits_app in Hfits as [Hfit Hfits].
  wp_step. replace (base + ss)%Z with (base + ss * (3 - 2))%Z by lia.
  eapply wp_mono; [apply (wp_search_sector _ F base secs Hrg [] ([], []) 3 sls); [apply boot_progress|done|apply not_elem_of_nil|done|done]|].
  intros n s1 (_ & Hp1 & Hm1). wp_step.
  eapply wp_mono; [apply (wp_deep_loop _ F base secs Hrg _ _ _ _ Hch); [by eapply chain_fuel|done|exact Hp1|]|].
  { eapply (fresh_marks ([], []) _ (set_fat32 F boot_frecov)); [by destruct boot_progress|by destruct Hp1| |done|].
    - intros i x _. apply boot_unmarked.
    - destruct Hch as [? ? ? Hl|? ? ? ? ? Hl|? ? ? ? ? ? Hl]; rewrite last_lookup in Hl; cbn in *; apply lookup_lt_Some in Hl; lia. }
  intros [] s2 (vis & Hp2 & H31 & Hdirs). wp_step.
  eapply wp_mono; [apply (wp_sweep _ F base secs Hrg (3%Z :: dirs) vis fs s2 (Z.of_nat reserved)); [done|set_solver|done|done|lia|done]|].
  intros [] s3 (vis3 & Hp3). destruct Hp3. by apply Hk.
Qed.
End volume.

(** C36. Recovery: on a formatted volume whose directory sectors follow each other
    from sector 3 through the end of the last file listed, every other sector
    being free of long names, the program ends and writes out exactly the files
    that the directories list, in order, with their long names and the bytes they
    occupy; each is summed and deleted again. *)
Theorem frecov_recovers v can_open sls dirs fs (F := boot_info (image v)) :
  formatted v → sector (v_secs v) 3 = Some sls →
  chain F (v_secs v) [3%Z] (scan (sector_size F) sls ([], [])) dirs (fs, []) →
  listing (sector_size F) (dir_slots (v_secs v) (3%Z :: dirs)) fs →
  (∀ k sls, v_secs v !! k = Some sls → (Z.of_nat k + 2)%Z ∈ 3%Z :: dirs ∨ dull sls) →
  Forall (inside v) fs → length fs < 512 →
  ∃ s, main (image v) can_open boot_frecov = Ret (0%Z, s) ∧ output s = fs ≫= events v can_open.
Proof.
  intros Hv H3 Hch Hli Hdull Hin Hlen.
  pose proof (fm_sector _ Hv) as Hss. pose proof (fm_size _ Hv) as Hsize. rewrite (image_length _ Hv) in Hsize. fold F in Hss, Hsize.
  apply (wp_run_ret _ (λ s, output s = fs ≫= events v can_open)). unfold main.
  wp_step. apply (wp_read_info _ (fm_bytes _ Hv) _ (fm_long _ Hv)). fold F. wp_step.
  change 0%Z with (Z.of_nat 0 * sector_size F)%Z at 1.
  pose proof (sectors_length _ Hv _ (fm_boot _ Hv)) as Hbl. fold F in Hbl.
  apply (wp_find_fat v Hv _ 0); [done|lia| |].
  { pose proof (f_equal length (image_split v)) as Hl. rewrite !length_app in Hl. nia. }
  fold F. wp_step. wp_step. cbv zeta. cbn [fat32 set_fat32].
  assert (Hres : (Z.of_nat (length (v_boot v)) * sector_size F + Z.of_nat (length (v_fats v)) * sector_size F = Z.of_nat (reserved v) * sector_size F)%Z)
    by (unfold reserved; lia).
  assert (Hpos : (Z.of_nat (reserved v) * sector_size F ≤ Z.of_nat (reserved v + length (v_secs v)) * sector_size F)%Z) by nia.
  assert (Hfat : (0 ≤ Z.of_nat (length (v_fats v)) ≤ Z.of_nat (length (v_fats v)) * sector_size F)%Z) by nia.
  pose proof (fm_tables _ Hv) as Htab. pose proof (fm_amount _ Hv) as Ham. fold F in Htab, Ham. rewrite Htab, (i32_small (Z.of_nat (length (v_fats v)))) by lia.
  rewrite (i32_small (Z.of_nat (length (v_fats v)) * sector_size F)), Hres by lia.
  rewrite (i32_small (Z.of_nat (reserved v) * sector_size F)), Z.quot_mul by lia. rewrite decide_False by lia.
  replace ((Z.of_nat (reserved v) + (3 - 2)) * sector_size F)%Z with (Z.of_nat (reserved v) * sector_size F + sector_size F)%Z by lia.
  assert (H3len : (2 ≤ length (v_secs v))) by (unfold sector in H3; rewrite decide_True in H3 by lia; apply lookup_lt_Some in H3; lia).
  rewrite (i32_small (_ + sector_size F)) by nia.
  rewrite Ham. replace (Z.of_nat (_ + _ + length (v_secs v)) - _ + 2)%Z with (Z.of_nat (length (v_secs v)) + 2)%Z by (unfold reserved; lia).
  apply (wp_searches v Hv can_open dirs fs sls); [done..|]. intros s Hs HF Hout.
  wp_step. wp_step. rewrite (actual_last _ _ Hs). cbn [fst]. replace (Z.of_nat (length fs) - 1 + 1)%Z with (Z.of_nat (length fs)) by lia.
  wp_step. apply (wp_output v Hv can_open fs); [done|done|done|]. wp_step. split; [done|]. cbn. by rewrite Hout.
Qed.

(** ** An example *)

Definition pad_to (n : nat) (l : list Z) : list Z := l ++ replicate (n - length l) 0%Z.
Definition demo_boot : list Z := pad_to 128 (replicate 11 0%Z ++ le 2 128 ++ [1%Z] ++ le 2 1 ++ [1; 0; 0]%Z ++ le 2 10 ++ replicate 15 0%Z ++ le 4 1).
Definition demo_alias : list Z := string_bytes "DEMO    TXT".
Definition filled (b : Z) : list (list Z) := replicate 4 (replicate 32 b).
(** The second name is cut over two directory sectors. *)
Definition demo_dir1 : list (list Z) :=
  long_entries 7 [string_bytes "hello.txt"] ++ [short_entry demo_alias 0x20 4 5] ++
  long_entries 9 [string_bytes "a_rather_long"; string_bytes "_name.md"].
Definition demo_dir2 : list (list Z) :=
  [short_entry demo_alias 0x20 6 200] ++ long_entries 7 [string_bytes "c"] ++ [short_entry demo_alias 0x20 8 3] ++ [replicate 32 0%Z].
Definition demo_volume : volume :=
  Volume [demo_boot] [pad_to 128 FAT_BEGIN]
    [filled 0; demo_dir1; filled 104; demo_dir2; filled 65; filled 66; filled 67; filled 0].
Definition demo_files : list found :=
  [Found (string_bytes "hello.txt") 4 5 5; Found (string_bytes "a_rather_long_name.md") 6 200 8; Found (string_bytes "c") 8 3 9].

Lemma demo_formatted : formatted demo_volume.
Proof.
  split; try (vm_compute; done).
  - apply (bool_decide_unpack _). vm_compute. done.
  - apply (bool_decide_unpack _). vm_compute. done.
  - apply (bool_decide_unpack _). vm_compute. done.
  - apply (bool_decide_unpack _). vm_compute. done.
  - apply (bool_decide_unpack _). vm_compute. done.
  - apply (bool_decide_unpack _). vm_compute. done.
Qed.

Lemma demo_listed : listing 128 (demo_dir1 ++ demo_dir2) demo_files.
Proof.
  unfold demo_dir1, demo_dir2, demo_files. rewrite <-!(assoc_L (++)). cbn [app].
  assert (Hall : ∀ parts, bool_decide (Forall (λ p, 0%Z ∉ p ∧ length p ≤ 13) parts) = true → Forall (λ p, 0%Z ∉ p ∧ length p ≤ 13) parts)
    by (intros parts; apply bool_decide_eq_true).
  apply (encoded_listed 128 7 [string_bytes "hello.txt"] demo_alias 0x20 4 5);
    [done|cbn; lia|by apply Hall|vm_compute; lia|done|done|lia|lia|lia|done|].
  apply (encoded_listed 128 9 [string_bytes "a_rather_long"; string_bytes "_name.md"] demo_alias 0x20 6 200);
    [done|cbn; lia|by apply Hall|vm_compute; lia|done|done|lia|lia|lia|done|].
  apply (encoded_listed 128 7 [string_bytes "c"] demo_alias 0x20 8 3);
    [done|cbn; lia|by apply Hall|vm_compute; lia|done|done|lia|lia|lia|done|].
  apply listing_dull; [done|]. apply listing_nil.
Qed.

Lemma demo_chain (F := boot_info (image demo_volume)) :
  chain F (v_secs demo_volume) [3%Z] (scan (sector_size F) demo_dir1 ([], [])) [5%Z] (demo_files, []).
Proof.
  apply (chain_step F (v_secs demo_volume) [3%Z] _ (Found (string_bytes "hello.txt") 4 5 5) demo_dir2 [] _);
    [vm_compute; done|by apply (bool_decide_unpack _); vm_compute|vm_compute; done|vm_compute; done|vm_compute; lia|vm_compute; done|].
  replace (scan (sector_size F) demo_dir2 _) with (demo_files, [] : list (list Z)) by (vm_compute; done).
  apply (chain_end F _ _ _ (Found (string_bytes "c") 8 3 9)); [vm_compute; done| |cbn; lia].
  exists (filled 0). split; [vm_compute; done|]. right. apply (bool_decide_unpack _). vm_compute. done.
Qed.

Lemma demo_dull k sls : v_secs demo_volume !! k = Some sls → (Z.of_nat k + 2)%Z ∈ [3; 5]%Z ∨ dull sls.
Proof.
  intros Hk. pose proof (lookup_lt_Some _ _ _ Hk) as Hlt. change (k < 8) in Hlt.
  do 8 (destruct k as [|k]; [first [left; cbn; set_solver|right; injection Hk as <-; apply (bool_decide_unpack _); by vm_compute]|]).
  lia.
Qed.

(** The three files come back, one of them with its name cut over two sectors. *)
Lemma frecov_recovers_witness : ∃ s, main (image demo_volume) (λ _, true) boot_frecov = Ret (0%Z, s) ∧
  output s = [Write (string_bytes "hello.txt") (replicate 5 104%Z); Sha1sum (string_bytes "hello.txt"); Unlink (string_bytes "hello.txt");
    Write (string_bytes "a_rather_long_name.md") (replicate 128 65%Z ++ replicate 72 66%Z);
    Sha1sum (string_bytes "a_rather_long_name.md"); Unlink (string_bytes "a_rather_long_name.md");
    Write (string_bytes "c") (replicate 3 67%Z); Sha1sum (string_bytes "c"); Unlink (string_bytes "c")].
Proof.
  destruct (frecov_recovers demo_volume (λ _, true) demo_dir1 [5%Z] demo_files demo_formatted) as (s & Hrun & Hout).
  - vm_compute. reflexivity.
  - exact demo_chain.
  - exact demo_listed.
  - exact demo_dull.
  - apply (bool_decide_unpack _). vm_compute. exact I.
  - vm_compute. lia.
  - exists s. split; [exact Hrun|]. rewrite Hout. vm_compute. reflexivity.
Defined.
