(* ===== verification/FrecovEnds.v ===== *)
(** * The recovery of files ends on every image

    [frecov_ends]: whatever the image holds, no loop of the program runs for ever:
    a search that found something has marked one more sector. *)
From S2P Require Import Prelude Bytes Faults Frecov FrecovProps FrecovDisk.

#[local] Opaque SECTORS deep_fuel.

(** The run ends, in a state that satisfies [Q] or with another fault than the end
    of its fuel. *)
Notation ends := (wpe (S := frecov) (λ f, f ≠ OutOfFuel)).

Section image.
Context (data : list Z) (can_open : list Z → bool) (F : FAT32).
Implicit Types (s : frecov).

(** What every step keeps, with the marks [V]. *)
Record kept (V : list Z) s : Prop := {
  k_fat : fat32 s = F;
  k_visit : sector_visit s = V;
  k_buf : length (buf s) = ROWS;
  k_top : (0 ≤ top s ≤ Z.of_nat ROWS)%Z;
}.

Lemma kept_with V s s' : kept V s → fat32 s' = fat32 s → sector_visit s' = sector_visit s →
  length (buf s') = length (buf s) → (0 ≤ top s' ≤ Z.of_nat ROWS)%Z → kept V s'.
Proof. intros []. split; congruence. Qed.

(** A step that keeps the state's frame, whatever else it does. *)
Definition keeps {A} (m : M frecov A) : Prop := ∀ V s, kept V s → ends m (λ _ s', kept V s') s.

Lemma keeps_bind {A B} (m : M frecov A) (k : A → M frecov B) : keeps m → (∀ a, keeps (k a)) → keeps (m ≫= k).
Proof. intros Hm Hk V s Hs. apply wpe_bind. eapply wpe_mono; [by apply Hm|]. intros a s' Hs'. by apply Hk. Qed.
Lemma keeps_ret {A} (a : A) : keeps (mret a).
Proof. by intros V s Hs. Qed.
Lemma keeps_get : keeps get.
Proof. by intros V s Hs. Qed.
Lemma keeps_deref {A} (o : option A) : keeps (deref OutOfBounds o).
Proof. intros V s Hs. by wpe_step. Qed.
Lemma keeps_for_each {A} (l : list A) body : (∀ x, keeps (body x)) → keeps (for_each l body).
Proof. intros Hb V. apply wpe_for_each. intros x s. apply Hb. Qed.
Lemma keeps_when b m : keeps m → keeps (when b m).
Proof. intros Hm V s Hs. wpe_step; [by apply Hm|done]. Qed.
Lemma keeps_decide {A} P `{Decision P} (m1 m2 : M frecov A) : keeps m1 → keeps m2 → keeps (if decide P then m1 else m2).
Proof. intros H1 H2. by case_decide. Qed.
Lemma keeps_fail {A} f : f ≠ OutOfFuel → keeps (A := A) (fail f).
Proof. by intros Hf V s _. Qed.
Lemma keeps_frame f : (∀ s, fat32 (f s) = fat32 s ∧ sector_visit (f s) = sector_visit s ∧ buf (f s) = buf s ∧ top (f s) = top s) → keeps (modify f).
Proof. intros Hf V s Hs. wpe_step. destruct (Hf s) as (H1 & H2 & H3 & H4). destruct Hs. split; congruence. Qed.

#[local] Hint Resolve keeps_bind keeps_ret keeps_get keeps_deref keeps_for_each keeps_when keeps_decide : keeps.
#[local] Hint Extern 1 (keeps (modify _)) => (apply keeps_frame; intros; split_and!; reflexivity) : keeps.
#[local] Hint Extern 1 (keeps (fail _)) => apply keeps_fail; done : keeps.

Lemma keeps_rd off : keeps (rd data off).
Proof. unfold rd. auto with keeps. Qed.
Lemma keeps_read_num p len : keeps (read_num data p len).
Proof.
  unfold read_num. generalize 0%Z. induction len as [|len IH]; intros r; cbn [read_num_loop]; [apply keeps_ret|].
  apply keeps_bind; [apply keeps_rd|]. intros b. apply IH.
Qed.
Lemma keeps_upd_file i f : keeps (upd_file i f).
Proof. unfold upd_file. eauto 10 with keeps. Qed.
Lemma keeps_the_file i : keeps (the_file i).
Proof. unfold the_file. auto with keeps. Qed.

(** A row that is written lies in the buffer. *)
Lemma ends_put_buf row j c V s : kept V s → ends (put_buf row j c) (λ _ s', kept V s' ∧ (0 ≤ row < Z.of_nat ROWS)%Z) s.
Proof.
  intros Hs. unfold put_buf. do 2 wpe_step. do 2 wpe_step. do 2 wpe_step. do 2 wpe_step. wpe_step.
  match goal with H : aget (buf s) _ = Some _ |- _ => apply aget_lt in H end. rewrite (k_buf _ _ Hs) in *. split; [|done].
  eapply kept_with; [exact Hs|done|done| |apply Hs]. cbn.
  match goal with H : aset (buf s) _ _ = Some _ |- _ => apply aset_inv in H as [_ ->] end. by rewrite length_insert.
Qed.
Lemma keeps_put_buf row j c : keeps (put_buf row j c).
Proof. intros V s Hs. eapply wpe_mono; [by apply ends_put_buf|]. by intros [] s' [Hs' _]. Qed.
#[local] Hint Resolve keeps_rd keeps_read_num keeps_upd_file keeps_the_file keeps_put_buf : keeps.

Lemma keeps_read_unicode row at_ src len : keeps (read_unicode data row at_ src len).
Proof. unfold read_unicode, for_range. apply keeps_for_each. auto with keeps. Qed.

Lemma ends_read_unicode row at_ src len V s : (0 < len)%Z → kept V s →
  ends (read_unicode data row at_ src len) (λ _ s', kept V s' ∧ (0 ≤ row < Z.of_nat ROWS)%Z) s.
Proof.
  intros Hl Hs. unfold read_unicode, for_range. rewrite seqZ_cons by lia. cbn [for_each]. wpe_step. wpe_step.
  eapply wpe_mono; [by apply keeps_rd|]. intros c s1 Hs1. eapply wpe_mono; [eapply ends_put_buf; exact Hs1|]. intros [] s2 [Hs2 Hrow].
  eapply wpe_mono; [eapply (keeps_for_each _ _ _ V s2 Hs2)|]. by intros [] s3 Hs3.
  Unshelve. intros x. cbn beta. auto with keeps.
Qed.

Lemma keeps_is_long off : keeps (is_long data off).
Proof. unfold is_long. auto 10 with keeps. Qed.

Lemma join_ends fi : ∀ fuel V s, (top s < Z.of_nat fuel)%Z → kept V s → ends (join_parts fuel fi) (λ _ s', kept V s') s.
Proof.
  induction fuel as [|fuel IH]; intros V s Hf Hs; [destruct Hs; lia|]. cbn [join_parts]. do 2 wpe_step. wpe_step; [|done].
  do 2 wpe_step. do 2 wpe_step. wpe_step.
  assert (H1 : kept V (set_top (top s - 1) s)) by (destruct Hs; split; cbn; lia || done).
  unfold the_file. do 2 wpe_step. wpe_step. do 2 wpe_step. wpe_step. unfold upd_file.
  do 2 wpe_step. wpe_step. do 2 wpe_step. wpe_step. wpe_step. apply IH; [cbn; lia|]. by destruct H1.
Qed.

Lemma keeps_short off fi ss : keeps (A := unit)
  (hi ← read_num data (off + 0x14) 2; upd_file fi (set_position (i32 (Z.shiftl hi 16)));;
   lo ← read_num data (off + 0x1a) 2; upd_file fi (λ f, set_position (i32 (position f + lo)) f);;
   sz ← read_num data (off + 0x1c) 4; upd_file fi (set_filesize sz);;
   (if decide (ss = 0)%Z then fail DivByZero
    else upd_file fi (λ f, set_next_sector (i32 (i32 (position f + Z.quot (filesize f) ss) + 1)) f));;
   f ← the_file fi;
   when (bool_decide (0xffff < u32 (next_sector f))%Z)
     (n ← deref OutOfBounds (aset (filename f) 0 0%Z); upd_file fi (set_filename n);;
      modify (λ s, set_tot_file (tot_file s - 1) s))).
Proof. auto 30 with keeps. Qed.

Lemma keeps_read_name_position_do off fi : keeps (read_name_position_do data off fi).
Proof.
  unfold read_name_position_do. apply keeps_bind; [apply keeps_is_long|]. intros [].
  - intros V s Hs. do 2 wpe_step. wpe_step. eapply wpe_mono; [by apply ends_read_unicode|]. intros [] s1 [Hs1 Hrow].
    wpe_step. eapply wpe_mono; [by apply keeps_read_unicode|]. intros [] s2 Hs2.
    wpe_step. eapply wpe_mono; [by apply keeps_read_unicode|]. intros [] s3 Hs3. wpe_step.
    eapply kept_with; [exact Hs3|done|done|done|]. cbn. lia.
  - intros V s Hs. do 2 wpe_step. wpe_step.
    + wpe_step. eapply wpe_mono; [apply (join_ends fi _ V s); [destruct Hs; lia|done]|]. intros [] s1 Hs1.
      by apply keeps_short.
    + wpe_step. by destruct Hs.
Qed.

Lemma keeps_read_name_position off : keeps (read_name_position data off).
Proof.
  unfold read_name_position. apply keeps_bind; [auto with keeps|]. intros s. apply keeps_bind; [auto with keeps|].
  intros _. apply keeps_bind; [auto with keeps|]. intros s1. apply keeps_read_name_position_do.
Qed.

(** ** Sectors *)

(** Sectors not marked yet. *)
Definition unseen (V : list Z) : nat := length (filter (λ x, x = 0%Z) V).

Lemma unseen_mark V i x : V !! i = Some 0%Z → x ≠ 0%Z → unseen V = S (unseen (<[i := x]> V)).
Proof.
  unfold unseen. revert i. induction V as [|y V IH]; intros [|i] Hi Hx; [done|done| |]; cbn in Hi.
  - injection Hi as ->. cbn [insert list_insert]. rewrite !filter_cons, decide_True, decide_False by done. done.
  - cbn [insert list_insert]. rewrite !filter_cons. destruct (decide (y = 0%Z)); cbn; rewrite (IH i) by done; done.
Qed.

Lemma ends_search offset idx V s : kept V s →
  ends (search_bmp_name_position data offset idx) (λ c s', kept V s' ∧ c = 0%Z ∨ ∃ V', kept V' s' ∧ unseen V' < unseen V) s.
Proof.
  intros Hs. unfold search_bmp_name_position. do 2 wpe_step. wpe_step; [wpe_step; by left|].
  wpe_step. wpe_step. wpe_step; [wpe_step; by left|]. wpe_step. wpe_step. do 2 wpe_step. wpe_step.
  rewrite (k_visit _ _ Hs) in *.
  match goal with H : aget V _ = Some ?a, H2 : aset V _ _ = Some ?l |- _ =>
    apply aget_Some in H as [_ H]; apply aset_inv in H2 as [_ ->]; rename H into Hget end.
  eapply wpe_mono; [apply (keeps_for_each (slots (sector_size (fat32 s))) _ (λ i, keeps_read_name_position (i32 (offset + i))) (<[Z.to_nat (Z.land idx 65535) := 1%Z]> V)); by destruct Hs|].
  intros [] s' Hs'. do 2 wpe_step. wpe_step. right. eexists. split; [exact Hs'|].
  rewrite (unseen_mark V (Z.to_nat (Z.land idx 65535)) 1); [lia| |done]. rewrite Hget. f_equal. lia.
Qed.

Lemma ends_deep offset V s : kept V s →
  ends (deep_search_bmp_name_position data offset) (λ c s', kept V s' ∧ c = 0%Z ∨ ∃ V', kept V' s' ∧ unseen V' < unseen V) s.
Proof.
  intros Hs. unfold deep_search_bmp_name_position. do 2 wpe_step. cbv zeta. wpe_step.
  eapply wpe_mono; [by apply keeps_the_file|]. intros f s1 Hs1. wpe_step; [|wpe_step; by left].
  wpe_step. eapply wpe_mono; [eapply keeps_upd_file; exact Hs1|]. intros [] s2 Hs2.
  wpe_step; [|wpe_step; by left]. by apply ends_search.
Qed.

Lemma ends_deep_loop offset : ∀ fuel V s, unseen V < fuel → kept V s →
  ends (deep_loop data fuel offset) (λ _ s', ∃ V', kept V' s') s.
Proof.
  induction fuel as [|fuel IH]; intros V s Hf Hs; [lia|]. cbn [deep_loop]. wpe_step.
  eapply wpe_mono; [by apply ends_deep|]. intros c s1 [[Hs1 ->]|(V1 & Hs1 & Hlt)].
  - rewrite decide_False by lia. wpe_step. by exists V.
  - wpe_step; [|wpe_step; by exists V1]. apply (IH V1); [lia|done].
Qed.

(** ** The program *)

Lemma keeps_log e : keeps (log e).
Proof. unfold log. auto with keeps. Qed.
Lemma keeps_name_of f : keeps (name_of f).
Proof. unfold name_of. auto with keeps. Qed.
#[local] Hint Resolve keeps_log keeps_name_of : keeps.

Lemma keeps_output_bmp base f : keeps (output_bmp data can_open base f).
Proof.
  unfold output_bmp. apply keeps_bind; [auto with keeps|]. intros nm. apply keeps_bind; [auto with keeps|]. intros s.
  apply keeps_when. cbv zeta. apply keeps_decide; auto with keeps.
Qed.

Lemma keeps_match_at sig : ∀ off, keeps (match_at data off sig).
Proof. induction sig as [|c sig IH]; intros off; cbn [match_at]; auto 10 with keeps. Qed.

Lemma ends_match_at c sig off V s : kept V s →
  ends (match_at data off (c :: sig)) (λ _ s', kept V s' ∧ (0 ≤ off < Z.of_nat (length data))%Z) s.
Proof.
  intros Hs. cbn [match_at]. unfold rd. do 2 wpe_step.
  match goal with H : aget data _ = Some _ |- _ => apply aget_lt in H end.
  wpe_step; [|by wpe_step]. eapply wpe_mono; [by apply keeps_match_at|]. by intros b s' Hs'.
Qed.

(** A sector that is tried lies in the image, and the next one lies further. *)
Lemma find_fat_ends V : (0 < sector_size F < 65536)%Z → ∀ fuel fb s, 0 < fuel → (0 ≤ fb → Z.of_nat (length data) - fb < Z.of_nat fuel)%Z →
  (fb < 2 ^ 31)%Z → kept V s → ends (find_fat data fuel fb) (λ _ s', kept V s') s.
Proof.
  intros Hss. induction fuel as [|fuel IH]; intros fb s Hf Hfb Hmax Hs; [lia|]. cbn [find_fat]. wpe_step.
  eapply wpe_mono; [by apply ends_match_at|]. intros [] s1 [Hs1 Hin]; [done|]. do 2 wpe_step.
  rewrite (k_fat _ _ Hs1). destruct (decide (fb + sector_size F < 2 ^ 31)%Z).
  - rewrite i32_small by lia. apply IH; [lia|lia|lia|done].
  - assert (i32 (fb + sector_size F) = fb + sector_size F - 2 ^ 32)%Z as ->.
    { transitivity (i32 (fb + sector_size F - 2 ^ 32)); [|apply i32_small; lia].
      apply i32_ext. replace (fb + sector_size F - 2 ^ 32)%Z with (fb + sector_size F + (-1) * 2 ^ 32)%Z by lia. by rewrite Z_mod_plus_full. }
    apply IH; [lia|lia|lia|done].
Qed.

(** After the boot record is read. *)
Lemma ends_after_info s : (0 < sector_size F < 65536)%Z → kept (replicate SECTORS 0%Z) s →
  ends (fat_begin ← find_fat data (S (length data)) 0;
    s ← get;
    let ss := sector_size (fat32 s) in
    let fat_tot_size := i32 (i32 (fat_amount (fat32 s) * fat_size (fat32 s)) * ss) in
    if decide (ss = 0)%Z then fail DivByZero
    else
      let data_start_sector := Z.quot (i32 (fat_begin + fat_tot_size)) ss in
      search_bmp_name_position data (i32 ((data_start_sector + (3 - 2)) * ss)) 3;;
      deep_loop data deep_fuel (i32 (fat_begin + fat_tot_size));;
      for_range 4 (sector_amount (fat32 s) - data_start_sector + 2)
        (λ i, search_bmp_name_position data (i32 ((data_start_sector + (i - 2)) * ss)) i;; mret tt);;
      s ← get;
      for_range 0 (actual_tot_file s + 1) (λ i,
        f ← the_file i;
        output_bmp data can_open (fat_begin + fat_tot_size) f;;
        sha1sum_bmp f;;
        delete_bmp f);;
      mret 0%Z) (λ _ _, True) s.
Proof.
  intros Hss Hs. wpe_step. eapply wpe_mono; [apply (find_fat_ends (replicate SECTORS 0%Z)); [done|lia|lia|lia|done]|].
  intros fb s1 Hs1. do 2 wpe_step. cbv zeta. wpe_step; [done|]. wpe_step. eapply wpe_mono; [eapply ends_search; exact Hs1|].
  intros c s2 Hs2. assert (∃ V, kept V s2 ∧ unseen V ≤ unseen (replicate SECTORS 0%Z)) as (V & Hk & Hle).
  { destruct Hs2 as [[Hk _]|(V & Hk & Hlt)]; eexists; (split; [exact Hk|lia]). }
  assert (Hun : unseen (replicate SECTORS 0%Z) ≤ SECTORS).
  { unfold unseen. etransitivity; [apply length_filter|]. by rewrite length_replicate. }
  wpe_step. eapply wpe_mono; [apply (ends_deep_loop _ _ V); [|done]|].
  { change deep_fuel with (S SECTORS). lia. }
  intros [] s3 Hs3. wpe_step. unfold for_range.
  eapply wpe_mono; [apply (wpe_for_each _ (λ s, ∃ V, kept V s)); [|exact Hs3]|].
  { intros i s4 [V4 Hs4]. wpe_step. eapply wpe_mono; [eapply ends_search; exact Hs4|]. intros c' s5 Hs5. wpe_step.
    destruct Hs5 as [[Hk5 _]|(V5 & Hk5 & _)]; by eexists. }
  intros [] s4 [V4 Hs4]. do 2 wpe_step. wpe_step. eapply wpe_mono; [apply (keeps_for_each _ _) with (V := V4); [|exact Hs4]|].
  - intros i. apply keeps_bind; [auto with keeps|]. intros f. apply keeps_bind; [apply keeps_output_bmp|]. intros _.
    unfold sha1sum_bmp, delete_bmp. auto 10 with keeps.
  - by intros [] s5 _.
Qed.
End image.

(** C37. Termination: on every image whose boot record gives a sector size, damaged
    as it may be, the program returns or stops at an access outside the image or
    its tables: the search for the table, the jumps from file to file, of which
    each that goes on marks a sector not marked before, and the joining of names
    all end. *)
Theorem frecov_ends data can_open :
  Forall (λ b, 0 ≤ b < 256)%Z data → 90 ≤ length data → unle (field 11 2 data) ≠ 0%Z →
  main data can_open boot_frecov ≠ Err OutOfFuel.
Proof.
  intros Hb Hl Hss.
  assert (Hsec : (0 < sector_size (boot_info data) < 65536)%Z).
  { change (sector_size (boot_info data)) with (unle (field 11 2 data)).
    pose proof (unle_bound _ (Forall_field 11 2 data _ Hb)) as Hu.
    replace (length (field 11 2 data)) with 2 in Hu by (unfold field; rewrite length_take, length_drop; lia). lia. }
  assert (Hinfo : read_fat32_info data boot_frecov = Ret (tt, set_fat32 (boot_info data) boot_frecov)).
  { pose proof (wp_read_info data Hb (λ u s, s = set_fat32 (boot_info data) boot_frecov) Hl eq_refl) as Hw.
    by apply wp_run in Hw as ([] & s & Hrun & ->). }
  unfold main. rewrite (bind_run _ _ _ _ _ Hinfo).
  assert (Hk : kept (boot_info data) (replicate SECTORS 0%Z) (set_fat32 (boot_info data) boot_frecov)).
  { split; [done|done|apply length_replicate|cbn; lia]. }
  pose proof (ends_after_info data can_open (boot_info data) _ Hsec Hk) as He. unfold wpe in He.
  intros Hf. rewrite Hf in He. by apply He.
Qed.

(** The search for a table that is not there runs out of the image. *)
Lemma frecov_ends_witness :
  90 ≤ length demo_boot ∧ main demo_boot (λ _, true) boot_frecov ≠ Err OutOfFuel.
Proof.
  split; [vm_compute; lia|]. apply frecov_ends.
  - apply (bool_decide_unpack _). vm_compute. exact I.
  - vm_compute. lia.
  - vm_compute. discriminate.
Defined.
