(* ===== verification/Libco.v ===== *)
(** * Coroutines (libco/co.c)

    Each coroutine runs on a stack of its own; [setjmp] saves where a stack is and
    [longjmp] resumes it there.  A saved place is the stack and the serial number
    of the library call that saved it: jumping to a call that has returned is
    undefined, here a fault.  What user code does between library calls leaves
    this state alone, so a run is the sequence of the calls that whichever stack
    runs makes.  The numbers that [rand] gives are part of the state. *)
From S2P Require Import Prelude.

Definition MAX_CO : nat := 128.
Definition END : Z := 0.
Definition RUNNING : Z := 1.

(** The library call that a stack is in. *)
Inductive call := InStart | InYield | InWait (thd : nat).

(** A place saved by [setjmp]: a stack and the number of its call. *)
Record place := Place { stack : nat; serial : nat }.

Record co := Co { id : Z; state : Z; buf : option place }.

(** A stack: how many library calls it made, and the one it is in. *)
Record frame := Frame { calls : nat; inside : option call }.

Record libco := Libco {
  co_rtns : list co;
  current : Z;
  co_cnt : Z;
  act_cnt : Z;
  rands : list Z;
  executor : nat;
  frames : list frame;
  handle : Z;
}.

Definition set_co_rtns v s := Libco v (current s) (co_cnt s) (act_cnt s) (rands s) (executor s) (frames s) (handle s).
Definition set_current v s := Libco (co_rtns s) v (co_cnt s) (act_cnt s) (rands s) (executor s) (frames s) (handle s).
Definition set_co_cnt v s := Libco (co_rtns s) (current s) v (act_cnt s) (rands s) (executor s) (frames s) (handle s).
Definition set_act_cnt v s := Libco (co_rtns s) (current s) (co_cnt s) v (rands s) (executor s) (frames s) (handle s).
Definition set_rands v s := Libco (co_rtns s) (current s) (co_cnt s) (act_cnt s) v (executor s) (frames s) (handle s).
Definition set_executor v s := Libco (co_rtns s) (current s) (co_cnt s) (act_cnt s) (rands s) v (frames s) (handle s).
Definition set_frames v s := Libco (co_rtns s) (current s) (co_cnt s) (act_cnt s) (rands s) (executor s) v (handle s).
Definition set_handle v s := Libco (co_rtns s) (current s) (co_cnt s) (act_cnt s) (rands s) (executor s) (frames s) v.

Definition boot_libco (rs : list Z) : libco :=
  Libco (replicate MAX_CO (Co 0 END None)) 0 0 0 rs 0 (replicate MAX_CO (Frame 0 None)) 0.

(** [co_rtns[i].field = v] *)
Definition the_co (i : Z) : M libco co := s ← get; deref OutOfBounds (aget (co_rtns s) i).
Definition upd_co (i : Z) (f : co → co) : M libco unit :=
  s ← get; c ← deref OutOfBounds (aget (co_rtns s) i); l ← deref OutOfBounds (aset (co_rtns s) i (f c)); modify (set_co_rtns l).
Definition set_id v c := Co v (state c) (buf c).
Definition set_state v c := Co (id c) v (buf c).
Definition set_buf v c := Co (id c) (state c) v.

(** ** Stacks *)

Definition the_frame (i : nat) : M libco frame := s ← get; deref OutOfBounds (frames s !! i).
Definition put_frame (i : nat) (f : frame) : M libco unit := modify (λ s, set_frames (<[i := f]> (frames s)) s).

(** The stack that runs calls the library, and returns from it. *)
Definition enter (c : call) : M libco unit :=
  s ← get; f ← the_frame (executor s); put_frame (executor s) (Frame (S (calls f)) (Some c)).
Definition leave : M libco unit :=
  s ← get; f ← the_frame (executor s); put_frame (executor s) (Frame (calls f) None).

(** [setjmp(co_rtns[i].buf)] *)
Definition setjmp (i : Z) : M libco unit :=
  s ← get; f ← the_frame (executor s); upd_co i (set_buf (Some (Place (executor s) (calls f)))).

(** [longjmp(co_rtns[i].buf, _)]: the call that goes on; [NullDeref] when nothing
    was saved or the call that saved it has returned. *)
Definition longjmp (i : Z) : M libco call :=
  c ← the_co i;
  p ← deref NullDeref (buf c);
  f ← the_frame (stack p);
  k ← deref NullDeref (if decide (calls f = serial p) then inside f else None);
  modify (set_executor (stack p));;
  mret k.

(** ** The scheduler *)

Definition co_init : M libco unit :=
  modify (set_co_cnt 1);;
  modify (set_act_cnt 1);;
  s ← get;
  modify (set_current (co_cnt s - 1));;
  upd_co (co_cnt s - 1) (set_id (co_cnt s - 1));;
  upd_co (co_cnt s - 1) (set_state RUNNING).

Definition rand : M libco Z :=
  s ← get; match rands s with [] => fail OutOfFuel | r :: rs => modify (set_rands rs);; mret r end.

(** The loop of [select_co]. *)
Fixpoint select_loop (l : list co) (i num : Z) : Z :=
  match l with
  | [] => -1
  | c :: l' =>
      if decide (state c = RUNNING) then
        if decide (num = 0) then i else select_loop l' (i + 1) (num - 1)
      else select_loop l' (i + 1) num
  end%Z.

Definition select_co : M libco Z :=
  r ← rand;
  s ← get;
  if decide (act_cnt s = 0)%Z then fail DivByZero
  else
    assert (bool_decide (0 ≤ co_cnt s ≤ Z.of_nat (length (co_rtns s)))%Z);;
    mret (select_loop (take (Z.to_nat (co_cnt s)) (co_rtns s)) 0 (Z.rem r (act_cnt s))).

(** [m = select_co(); while(m == current->id) m = select_co();] *)
Fixpoint pick (fuel : nat) : M libco Z :=
  match fuel with
  | O => fail OutOfFuel
  | S fuel' =>
      m ← select_co;
      s ← get;
      c ← the_co (current s);
      if decide (m = id c) then pick fuel' else mret m
  end.

(** A stack that goes on returns from its call, or tests again what it waits for. *)
Definition go_on (switch : M libco unit) (k : call) : M libco unit :=
  match k with
  | InWait thd => t ← the_co (Z.of_nat thd); if decide (state t ≠ END) then switch else leave
  | InStart => modify (λ s, set_handle (co_cnt s - 1) s);; leave
  | InYield => leave
  end.

(** [SWICTH_AND_JMUP]; each switch uses up a number of [rand]. *)
Fixpoint switch (fuel : nat) : M libco unit :=
  match fuel with
  | O => fail OutOfFuel
  | S fuel' =>
      s ← get;
      m ← pick (S (length (rands s)));
      modify (set_current m);;
      k ← longjmp m;
      go_on (switch fuel') k
  end.
Definition do_switch : M libco unit := s ← get; switch (S (length (rands s))).

(** ** The operations *)

(** [co_start] up to the call of the function, which runs on the new stack. *)
Definition co_start : M libco unit :=
  modify (λ s, set_co_cnt (co_cnt s + 1) s);;
  modify (λ s, set_act_cnt (act_cnt s + 1) s);;
  enter InStart;;
  setjmp 0;;
  s ← get;
  let i := (co_cnt s - 1)%Z in
  modify (set_current i);;
  upd_co i (set_id i);;
  upd_co i (set_state RUNNING);;
  modify (set_executor (Z.to_nat i)).

(** The rest of [co_start], when the function has returned. *)
Definition co_finish : M libco unit :=
  s ← get;
  upd_co (current s) (set_state END);;
  modify (λ s, set_act_cnt (act_cnt s - 1) s);;
  k ← longjmp 0;
  go_on do_switch k.

Definition co_yield : M libco unit :=
  enter InYield;;
  s ← get;
  setjmp (current s);;
  do_switch.

Definition co_wait (thd : nat) : M libco unit :=
  enter (InWait thd);;
  s ← get;
  setjmp (current s);;
  go_on do_switch (InWait thd).

(** ** Runs *)

Inductive op := Start | Yield | Wait (thd : nat) | Finish.
Definition do_op (o : op) : M libco unit :=
  match o with Start => co_start | Yield => co_yield | Wait thd => co_wait thd | Finish => co_finish end.

(** The main program initialises the library; then the stacks run. *)
Definition run (ops : list op) : M libco unit := co_init;; for_each ops do_op.
