(* ===== verification/LibcoProps.v ===== *)
(** * Coroutines: who runs next, and when main never runs again

    [sound] is what every library call keeps: the count of active coroutines is
    right and each suspended coroutine's buffer holds the call it is in.  A switch
    chooses a running coroutine other than the current one ([pick_chooses]).  The
    end of a coroutine leaves [current] at it, so the next [co_wait] of main saves
    its place in the wrong buffer: if it has to wait, main never runs again
    ([second_wait_lost]). *)
From S2P Require Import Prelude Faults Libco.

(** ** The choice *)

Definition active (l : list co) : nat := length (filter (λ c, state c = RUNNING) l).

Lemma active_cons c l : active (c :: l) = (if decide (state c = RUNNING) then 1 else 0) + active l.
Proof. unfold active. rewrite filter_cons. by case_decide. Qed.

Lemma active_app l1 l2 : active (l1 ++ l2) = active l1 + active l2.
Proof. unfold active. by rewrite filter_app, length_app. Qed.

(** The coroutine of a rank among the running ones. *)
Lemma select_loop_spec l : ∀ i num, (0 ≤ num < Z.of_nat (active l))%Z →
  ∃ j c, select_loop l i num = (i + Z.of_nat j)%Z ∧ l !! j = Some c ∧ state c = RUNNING ∧ Z.of_nat (active (take j l)) = num.
Proof.
  induction l as [|c l IH]; intros i num Hn; [cbn in Hn; lia|]. rewrite active_cons in Hn. cbn [select_loop].
  destruct (decide (state c = RUNNING)) as [Hc|Hc]; [destruct (decide (num = 0)%Z) as [->|Hnz]|].
  - exists 0, c. split_and!; [lia|done|done|done].
  - destruct (IH (i + 1)%Z (num - 1)%Z) as (j & d & Hs & Hd & Hr & Ha); [lia|].
    exists (S j), d. split_and!; [lia|done|done|]. cbn [take]. rewrite active_cons, decide_True by done. lia.
  - destruct (IH (i + 1)%Z num) as (j & d & Hs & Hd & Hr & Ha); [lia|].
    exists (S j), d. split_and!; [lia|done|done|]. cbn [take]. rewrite active_cons, decide_False by done. lia.
Qed.

(** What holds between any two steps of a library call. *)
Record base (s : libco) : Prop := {
  b_len : length (co_rtns s) = MAX_CO;
  b_frames : length (frames s) = MAX_CO;
  b_cnt : (1 ≤ co_cnt s ≤ Z.of_nat MAX_CO)%Z;
  b_id : ∀ i c, co_rtns s !! i = Some c → (Z.of_nat i < co_cnt s)%Z → id c = Z.of_nat i;
  b_dead : ∀ i c, co_rtns s !! i = Some c → (co_cnt s ≤ Z.of_nat i)%Z → state c = END;
  b_act : act_cnt s = Z.of_nat (active (co_rtns s));
  b_main : ∃ c, co_rtns s !! 0 = Some c ∧ state c = RUNNING;
  b_cur : (0 ≤ current s < co_cnt s)%Z;
  b_rands : Forall (λ r, 0 ≤ r)%Z (rands s);
}.

Lemma active_dead (l : list co) : ∀ n, (∀ i c, l !! i = Some c → n ≤ i → state c = END) → active (take n l) = active l.
Proof.
  induction l as [|c l IH]; intros [|n] Hd; [done|done| |].
  - cbn [take]. rewrite active_cons, decide_False by (by rewrite (Hd 0 c eq_refl) by lia).
    rewrite <-(IH 0); [done|]. intros i d Hi _. apply (Hd (S i)); [done|lia].
  - cbn [take]. rewrite !active_cons. f_equal. apply IH. intros i d Hi Hn. apply (Hd (S i)); [done|lia].
Qed.

Lemma active_pos (l : list co) i c : l !! i = Some c → state c = RUNNING → 0 < active l.
Proof.
  intros Hi Hc. apply list_elem_of_split_length in Hi as (l1 & l2 & -> & _). rewrite active_app, active_cons, decide_True by done. lia.
Qed.

(** The choice for one number of [rand]: the running coroutine of that rank. *)
Lemma wpe_select E s (Q : Z → libco → Prop) : base s → E OutOfFuel →
  (∀ r rs j c, rands s = r :: rs → co_rtns s !! j = Some c → state c = RUNNING → (Z.of_nat j < co_cnt s)%Z →
    Z.of_nat (active (take j (co_rtns s))) = Z.rem r (act_cnt s) → Q (Z.of_nat j) (set_rands rs s)) →
  wpe E select_co Q s.
Proof.
  intros Hb HE HQ. unfold select_co, rand. wpe_step. wpe_step. wpe_step.
  destruct (rands s) as [|r rs] eqn:Hr; [by wpe_step|]. wpe_step. wpe_step. wpe_step. wpe_step. wpe_step.
  cbn [act_cnt set_rands co_cnt co_rtns].
  pose proof (b_act _ Hb) as Ha. destruct (b_main _ Hb) as (c0 & Hc0 & Hr0). pose proof (active_pos _ _ _ Hc0 Hr0) as Hpos.
  pose proof (b_cnt _ Hb) as Hcnt. pose proof (b_len _ Hb) as Hlen.
  assert (Hdead : active (take (Z.to_nat (co_cnt s)) (co_rtns s)) = active (co_rtns s)).
  { apply active_dead. intros i c Hi Hn. apply (b_dead _ Hb i c Hi). lia. }
  rewrite decide_False by lia. rewrite bool_decide_true by (rewrite Hlen; unfold MAX_CO in *; lia). wpe_step. apply wpe_ret. wpe_step.
  pose proof (b_rands _ Hb) as Hrs. rewrite Hr in Hrs. apply Forall_cons in Hrs as [Hr1 _].
  destruct (select_loop_spec (take (Z.to_nat (co_cnt s)) (co_rtns s)) 0 (Z.rem r (act_cnt s))) as (j & c & -> & Hj & Hc & Hrank).
  { rewrite Hdead, <-Ha. apply Z.rem_bound_pos; lia. }
  apply lookup_take_Some in Hj as [Hj Hjn]. eapply (HQ r rs j c); [done|done|done|lia|].
  rewrite <-Hrank, take_take. do 3 f_equal. lia.
Qed.

(** The choice never falls on the current coroutine. *)
Lemma wpe_pick E s0 : E OutOfFuel → ∀ fuel s rs, base s → s = set_rands rs s0 →
  wpe E (pick fuel) (λ m s', ∃ j c rs', m = Z.of_nat j ∧ s' = set_rands rs' s0 ∧ base s' ∧ co_rtns s0 !! j = Some c ∧
    state c = RUNNING ∧ (Z.of_nat j < co_cnt s0)%Z ∧ m ≠ current s0) s.
Proof.
  intros HE. induction fuel as [|fuel IH]; intros s rs Hb ->; [by apply wpe_fail|]. cbn [pick]. wpe_step.
  apply wpe_select; [done|done|]. intros r rs1 j c Hr Hj Hc Hlt Hrank. cbn in Hr, Hj, Hlt, Hrank.
  assert (Hb1 : base (set_rands rs1 (set_rands rs s0))).
  { destruct Hb. split; try done. cbn in *. subst. by apply Forall_cons in b_rands0 as [_ ?]. }
  wpe_step. wpe_step. wpe_step. unfold the_co. wpe_step. wpe_step. cbn [co_rtns current set_rands].
  destruct (b_cur _ Hb) as [Hc1 Hc2]. cbn in Hc1, Hc2.
  destruct (lookup_lt_is_Some_2 (co_rtns s0) (Z.to_nat (current s0))) as [d Hd].
  { pose proof (b_len _ Hb) as Hl. pose proof (b_cnt _ Hb) as Hcn. cbn in Hl, Hcn. rewrite Hl. unfold MAX_CO in *. lia. }
  apply wp_wpe. eapply wp_deref; [apply aget_Some; split; [lia|exact Hd]|].
  pose proof (b_id _ Hb _ _ Hd) as Hid. cbn in Hid. rewrite Hid, Z2Nat.id by lia.
  case_decide as Heq.
  - by apply (IH _ rs1).
  - wpe_step. exists j, c, rs1. by split_and!.
Qed.

(** ** Suspended stacks *)

(** A coroutine other than main that is suspended in a call: its buffer holds it. *)
Definition suspended (s : libco) (i : nat) (c : co) : Prop :=
  ∃ f k, frames s !! i = Some (Frame f (Some k)) ∧ buf c = Some (Place i f).

(** Main is in a call; its buffer holds call [n] of main, this one or an earlier one. *)
Definition main_in (s : libco) (n f : nat) : Prop :=
  ∃ c k, co_rtns s !! 0 = Some c ∧ buf c = Some (Place 0 n) ∧ frames s !! 0 = Some (Frame f (Some k)) ∧ n ≤ f.

(** In the middle of a switch: every running coroutine is in a call. *)
Record parked (s : libco) (n f : nat) : Prop := {
  p_base : base s;
  p_susp : ∀ i c, co_rtns s !! i = Some c → state c = RUNNING → i ≠ 0 → suspended s i c;
  p_main : main_in s n f;
  p_wait : ∀ i g thd, frames s !! i = Some (Frame g (Some (InWait thd))) → (Z.of_nat thd < co_cnt s)%Z;
}.

(** [current] is the stack that runs, or main runs after a coroutine ended. *)
Definition settled (s : libco) : Prop :=
  current s = Z.of_nat (executor s) ∨
  executor s = 0 ∧ ∃ c, co_rtns s !! Z.to_nat (current s) = Some c ∧ state c = END.

(** User code runs on stack [executor]. *)
Record sound (s : libco) : Prop := {
  s_base : base s;
  s_exec : ∃ c, co_rtns s !! executor s = Some c ∧ state c = RUNNING ∧ (Z.of_nat (executor s) < co_cnt s)%Z;
  s_cur : settled s;
  s_susp : ∀ i c, co_rtns s !! i = Some c → state c = RUNNING → i ≠ 0 → i ≠ executor s → suspended s i c;
  s_main : executor s ≠ 0 → ∃ n f, main_in s n f;
  s_wait : ∀ i g thd, frames s !! i = Some (Frame g (Some (InWait thd))) → (Z.of_nat thd < co_cnt s)%Z;
  s_buf : ∃ c g, co_rtns s !! 0 = Some c ∧ frames s !! 0 = Some g ∧
    (buf c = None ∧ current s = 0%Z ∨ ∃ n, buf c = Some (Place 0 n) ∧ n ≤ calls g);
}.

(** The faults of a switch: no number left, or a jump to a call of main that has
    returned. *)
Definition switch_fault (n f : nat) (e : fault) : Prop := e = OutOfFuel ∨ e = NullDeref ∧ n ≠ f.

(** Where a stack goes on: only its own frame changed. *)
Definition resumed (s s' : libco) : Prop :=
  sound s' ∧ co_rtns s' = co_rtns s ∧ co_cnt s' = co_cnt s ∧ (executor s' ≠ 0 → frames s' !! 0 = frames s !! 0).

Lemma parked_rands rs s n f : parked s n f → Forall (λ r, 0 ≤ r)%Z rs → ∀ cur, (0 ≤ cur < co_cnt s)%Z → ∀ e h,
  parked (Libco (co_rtns s) cur (co_cnt s) (act_cnt s) rs e (frames s) h) n f.
Proof. intros [Hb Hs Hm Hw] Hrs cur Hcur e h. split; [|done..]. destruct Hb. by split. Qed.

Lemma running_below s i c : base s → co_rtns s !! i = Some c → state c = RUNNING → (Z.of_nat i < co_cnt s)%Z.
Proof.
  intros Hb Hi Hc. destruct (decide (Z.of_nat i < co_cnt s)%Z) as [|Hge]; [done|].
  rewrite (b_dead _ Hb i c Hi) in Hc by lia. done.
Qed.

(** The stack that goes on leaves its call. *)
Lemma wpe_leave E s n f g k : parked s n f → frames s !! executor s = Some (Frame g (Some k)) →
  settled s → (∃ c, co_rtns s !! executor s = Some c ∧ state c = RUNNING) →
  wpe E leave (λ _ s', resumed s s' ∧ executor s' = executor s) s.
Proof.
  intros [Hb Hs (c0 & k0 & Hc0 & Hb0 & Hf0 & Hnf) Hw] Hf Hcur (c & Hc & Hr). unfold leave, the_frame, put_frame.
  wpe_step. wpe_step. wpe_step. wpe_step. wpe_step. apply wp_wpe. eapply wp_deref; [exact Hf|]. wpe_step. cbn [calls].
  split; [|done]. split; [|split_and!; [done|done|intros He; cbn; by rewrite list_lookup_insert_ne]].
  split; cbn [co_rtns executor current co_cnt frames set_frames].
  - destruct Hb. split; try done. cbn. by rewrite length_insert.
  - exists c. split_and!; [done|done|]. by eapply running_below.
  - exact Hcur.
  - intros i d Hi Hd Hi0 Hie. destruct (Hs i d Hi Hd Hi0) as (g' & k' & Hg & Hbuf). exists g', k'. cbn.
    by rewrite list_lookup_insert_ne.
  - intros He. exists n, f, c0, k0. cbn. by rewrite list_lookup_insert_ne.
  - intros i g' thd Hi. destruct (lookup_insert_cases _ _ _ _ _ Hi) as [[_ [=]]|[_ Hi']]. by eapply Hw.
  - destruct (decide (executor s = 0)) as [He|He].
    + exists c0, (Frame g None). rewrite He in *. rewrite list_lookup_insert_eq by (by apply lookup_lt_Some in Hf0). split_and!; [done|done|].
      right. exists n. simplify_eq. by split.
    + exists c0, (Frame f (Some k0)). rewrite list_lookup_insert_ne by done. split_and!; [done|done|]. right. by exists n.
Qed.

(** A jump to a running coroutine's buffer. *)
Lemma wpe_longjmp s n f j c : parked s n f → co_rtns s !! j = Some c → state c = RUNNING →
  wpe (switch_fault n f) (longjmp (Z.of_nat j)) (λ k s', s' = set_executor j s ∧ (∃ g, frames s !! j = Some (Frame g (Some k))) ∧
    (j = 0 → n = f)) s.
Proof.
  intros Hp Hj Hc. pose proof (lookup_lt_Some _ _ _ Hj). unfold longjmp, the_co, the_frame. wpe_step. wpe_step. wpe_step.
  apply wp_wpe. eapply wp_deref; [apply aget_Some; split; [lia|by rewrite Nat2Z.id]|].
  assert (Hplace : ∃ q g k, buf c = Some (Place j q) ∧ frames s !! j = Some (Frame g (Some k)) ∧ (j ≠ 0 → q = g) ∧ (j = 0 → q = n ∧ g = f)).
  { destruct (decide (j = 0)) as [->|Hj0].
    - destruct (p_main _ _ _ Hp) as (c0 & k & Hc0 & Hbuf & Hf & _). simplify_eq. by exists n, f, k.
    - destruct (p_susp _ _ _ Hp j c Hj Hc Hj0) as (g & k & Hf & Hbuf). exists g, g, k. split_and!; done. }
  destruct Hplace as (q & g & k & Hbuf & Hf & Hq & Hq0). rewrite Hbuf.
  wpe_step. apply wp_wpe. wp_step. wpe_step. wpe_step. wpe_step. apply wp_wpe. eapply wp_deref; [exact Hf|]. cbn [serial stack calls inside].
  wpe_step. destruct (decide (g = q)) as [->|Hne].
  - apply wp_wpe. wp_step. wpe_step. wpe_step. wpe_step. split; [done|]. split; [by eexists|]. naive_solver.
  - apply wpe_fail. right. split; [done|]. destruct (decide (j = 0)) as [->|Hj0]; [naive_solver|]. by rewrite Hq in Hne.
Qed.

Lemma resumed_from s s1 s' :
  co_rtns s1 = co_rtns s → co_cnt s1 = co_cnt s → frames s1 = frames s → resumed s1 s' → resumed s s'.
Proof. intros H1 H2 H3 (R1 & R2 & R3 & R4). split_and!; [done|congruence|congruence|]. intros H. rewrite <-H3. by apply R4. Qed.

Lemma co_in_range s n f i : parked s n f → (Z.of_nat i < co_cnt s)%Z → ∃ c, co_rtns s !! i = Some c.
Proof.
  intros Hp Hi. pose proof (p_base _ _ _ Hp) as Hb. apply lookup_lt_is_Some_2. rewrite (b_len _ Hb). pose proof (b_cnt _ Hb). lia.
Qed.

(** The call of the stack that runs goes on: [sw] is what it does when it waits. *)
Lemma wpe_go_on s n f g k sw : parked s n f → frames s !! executor s = Some (Frame g (Some k)) →
  settled s → (∃ c, co_rtns s !! executor s = Some c ∧ state c = RUNNING) →
  wpe (switch_fault n f) sw (λ _ s', resumed s s' ∧ (executor s' = 0 → n = f)) s →
  wpe (switch_fault n f) (go_on sw k) (λ _ s', resumed s s' ∧ (executor s' = 0 → executor s = 0 ∨ n = f)) s.
Proof.
  intros Hp Hf Hcur Hex Hsw. destruct k as [| |thd]; cbn [go_on].
  - wpe_step. wpe_step. eapply wpe_mono; [eapply (wpe_leave _ (set_handle (co_cnt s - 1) s)); [|exact Hf|exact Hcur|done]|].
    + destruct Hp as [Hb H2 H3 H4]. split; [by destruct Hb|done..].
    + intros [] s' [Hr He]. split; [by revert Hr; apply resumed_from|]. cbn in He. rewrite He. by left.
  - eapply wpe_mono; [by eapply wpe_leave|]. intros [] s' [Hr He]. split; [done|]. rewrite He. by left.
  - destruct (co_in_range s n f thd Hp) as [c Hc]; [by eapply (p_wait _ _ _ Hp)|]. pose proof (lookup_lt_Some _ _ _ Hc).
    unfold the_co. wpe_step. wpe_step. wpe_step. apply wp_wpe. eapply wp_deref; [apply aget_Some; split; [lia|by rewrite Nat2Z.id]|].
    wpe_step.
    + eapply wpe_mono; [exact Hsw|]. intros [] s' [Hr He]. split; [done|]. intros Hz. right. by apply He.
    + eapply wpe_mono; [by eapply wpe_leave|]. intros [] s' [Hr He]. split; [done|]. rewrite He. by left.
Qed.

Lemma wpe_switch n f : ∀ fuel s, parked s n f →
  wpe (switch_fault n f) (switch fuel) (λ _ s', resumed s s' ∧ (executor s' = 0 → n = f)) s.
Proof.
  induction fuel as [|fuel IH]; intros s Hp; [apply wpe_fail; by left|]. cbn [switch]. wpe_step. wpe_step. wpe_step.
  eapply wpe_mono; [apply (wpe_pick _ s) with (rs := rands s); [by left|apply (p_base _ _ _ Hp)|by destruct s]|].
  intros m s1 (j & c & rs & -> & -> & Hb & Hj & Hc & Hlt & Hne). wpe_step. wpe_step. wpe_step.
  assert (Hp1 : ∀ e, parked (set_executor e (set_current (Z.of_nat j) (set_rands rs s))) n f).
  { intros e. apply (parked_rands rs s n f Hp); [apply (b_rands _ Hb)|cbn; lia]. }
  eapply wpe_mono; [apply (wpe_longjmp _ n f j c (Hp1 (executor s)) Hj Hc)|].
  intros k s2 (-> & (g & Hg) & Hmain). eapply wpe_mono; [eapply (wpe_go_on _ n f g k); [exact (Hp1 j)|exact Hg|by left|by exists c|apply IH; exact (Hp1 j)]|].
  intros [] s3 [Hr He]. split; [revert Hr; by apply resumed_from|]. intros H0. destruct (He H0) as [Hj0|?]; [by apply Hmain|done].
Qed.

(** ** Library calls *)

Lemma active_insert (l : list co) i c c' : l !! i = Some c → state c' = state c → active (<[i := c']> l) = active l.
Proof.
  intros Hi Hs. pose proof (lookup_lt_Some _ _ _ Hi). rewrite insert_take_drop by done. rewrite <-(take_drop_middle l i c Hi) at 3.
  rewrite !active_app, !active_cons, Hs. done.
Qed.

(** A change to one coroutine's buffer. *)
Lemma base_buf s i c p e fr h : base s → co_rtns s !! i = Some c → length fr = MAX_CO →
  base (Libco (<[i := set_buf p c]> (co_rtns s)) (current s) (co_cnt s) (act_cnt s) (rands s) e fr h).
Proof.
  intros [] Hi Hfr. split; cbn [co_rtns frames current co_cnt act_cnt rands]; try done.
  - by rewrite length_insert.
  - intros j d Hj. destruct (lookup_insert_cases _ _ _ _ _ Hj) as [[<- ->]|[_ Hj']]; [exact (b_id0 i c Hi)|by apply b_id0].
  - intros j d Hj. destruct (lookup_insert_cases _ _ _ _ _ Hj) as [[<- ->]|[_ Hj']]; [exact (b_dead0 i c Hi)|by apply b_dead0].
  - rewrite b_act0. f_equal. symmetry. by apply (active_insert _ _ c).
  - destruct b_main0 as (c0 & H0 & Hr). destruct (decide (i = 0)) as [->|Hne].
    + rewrite list_lookup_insert_eq by (by apply lookup_lt_Some in Hi). eexists. split; [done|]. by simplify_eq.
    + rewrite list_lookup_insert_ne by done. by exists c0.
Qed.

(** The state after the stack that runs entered [c] and saved itself in buffer [i]. *)
Definition entered (s : libco) (c : call) (i : nat) (d : co) (g : frame) : libco :=
  Libco (<[i := set_buf (Some (Place (executor s) (S (calls g)))) d]> (co_rtns s)) (current s) (co_cnt s) (act_cnt s) (rands s)
    (executor s) (<[executor s := Frame (S (calls g)) (Some c)]> (frames s)) (handle s).

Lemma wpe_enter E s c i d g k (Q : unit → libco → Prop) :
  frames s !! executor s = Some g → co_rtns s !! i = Some d → wpe E k Q (entered s c i d g) →
  wpe E (enter c;; setjmp (Z.of_nat i);; k) Q s.
Proof.
  intros Hg Hd HQ. pose proof (lookup_lt_Some _ _ _ Hg). pose proof (lookup_lt_Some _ _ _ Hd).
  unfold enter, setjmp, upd_co, the_frame, put_frame. wpe_step. wpe_step. wpe_step. wpe_step. wpe_step. wpe_step.
  apply wp_wpe. eapply wp_deref; [exact Hg|]. wpe_step. wpe_step. wpe_step. wpe_step. wpe_step. wpe_step. wpe_step. cbn [frames set_frames executor].
  apply wp_wpe. eapply wp_deref; [by apply list_lookup_insert_eq|]. wpe_step. wpe_step. wpe_step. cbn [co_rtns set_frames].
  apply wp_wpe. eapply wp_deref; [apply aget_Some; split; [lia|by rewrite Nat2Z.id]|].
  wpe_step. apply wp_wpe. eapply wp_deref; [apply aset_Some; lia|]. wpe_step. rewrite Nat2Z.id. exact HQ.
Qed.

(** A call that saves itself in the buffer of [current]. *)
Lemma wpe_enter_current E s c d g k (Q : unit → libco → Prop) :
  base s → frames s !! executor s = Some g → co_rtns s !! Z.to_nat (current s) = Some d →
  wpe E k Q (entered s c (Z.to_nat (current s)) d g) →
  wpe E (enter c;; s ← get; setjmp (current s);; k) Q s.
Proof.
  intros Hb Hg Hd HQ. pose proof (wpe_enter E s c _ d g k Q Hg Hd HQ) as H. rewrite Z2Nat.id in H by (pose proof (b_cur _ Hb); lia).
  revert H. unfold wpe, enter, the_frame, put_frame, mbind, M_bind, get. by destruct (frames s !! executor s).
Qed.

(** Which saved call of main a switch out of [s] would go back to. *)
Definition main_place (s : libco) (n f : nat) : Prop :=
  (executor s ≠ 0 → main_in s n f) ∧
  (executor s = 0 → ∃ c g, co_rtns s !! 0 = Some c ∧ frames s !! 0 = Some g ∧ f = S (calls g) ∧
    if decide (current s = 0%Z) then n = f else buf c = Some (Place 0 n) ∧ n ≤ calls g).

Lemma main_place_ex s : sound s → ∃ n f, main_place s n f.
Proof.
  intros Hs. destruct (decide (executor s = 0)) as [He|He].
  - destruct (s_buf _ Hs) as (c & g & Hc & Hg & Hb). destruct (decide (current s = 0%Z)) as [Hc0|Hc0].
    + exists (S (calls g)), (S (calls g)). split; [done|]. intros _. exists c, g. rewrite decide_True by done. by split_and!.
    + destruct Hb as [[_ ?]|(n & Hn & Hle)]; [done|]. exists n, (S (calls g)). split; [done|]. intros _. exists c, g.
      rewrite decide_False by done. by split_and!.
  - destruct (s_main _ Hs He) as (n & f & Hm). exists n, f. by split.
Qed.

(** Entering a call in the buffer of [current] suspends the stack. *)
Lemma entered_parked s c d g n f : sound s → frames s !! executor s = Some g → co_rtns s !! Z.to_nat (current s) = Some d →
  (∀ thd, c = InWait thd → (Z.of_nat thd < co_cnt s)%Z) → main_place s n f → parked (entered s c (Z.to_nat (current s)) d g) n f.
Proof.
  intros [Hb (x & Hx & Hxr & Hxl) Hcur Hsusp Hmain Hw Hbuf] Hg Hd Hthd [Hm1 Hm0]. pose proof (lookup_lt_Some _ _ _ Hg). pose proof (lookup_lt_Some _ _ _ Hd).
  assert (Hcases : ∀ i y, co_rtns s !! i = Some y → state y = RUNNING → i ≠ executor s → i = Z.to_nat (current s) → False).
  { intros i y Hy Hr Hi ->. destruct Hcur as [Hc|(_ & z & Hz & Hend)]; [by rewrite Hc, Nat2Z.id in Hi|]. simplify_eq. by rewrite Hend in Hr. }
  split.
  - apply base_buf; [done|done|]. rewrite length_insert. apply Hb.
  - intros i y Hy Hr Hi0. cbn in Hy. destruct (lookup_insert_cases _ _ _ _ _ Hy) as [[Hi ->]|[Hi Hy']].
    + destruct (decide (i = executor s)) as [->|Hie]; [|exfalso; eapply (Hcases i d); by rewrite <-?Hi in *].
      exists (S (calls g)), c. cbn. by rewrite list_lookup_insert_eq.
    + assert (Hie : i ≠ executor s).
      { intros ->. destruct Hcur as [Hc|(He & _)]; [by rewrite Hc, Nat2Z.id in Hi|done]. }
      destruct (Hsusp i y Hy' Hr Hi0 Hie) as (f' & k & Hf & Hbf). exists f', k. cbn. by rewrite list_lookup_insert_ne.
  - unfold main_in. cbn [co_rtns frames entered]. destruct (decide (executor s = 0)) as [He|He].
    + destruct (Hm0 He) as (c0 & g0 & Hc0 & Hg0 & -> & Hn). rewrite He in *. simplify_eq.
      rewrite (list_lookup_insert_eq (frames s)) by done. destruct (decide (current s = 0%Z)) as [Hz|Hz].
      * subst n. rewrite Hz in *. cbn in Hd. simplify_eq. rewrite list_lookup_insert_eq by done. eexists _, c. by split_and!.
      * destruct Hn as [Hn Hle]. rewrite list_lookup_insert_ne by (pose proof (b_cur _ Hb); lia). eexists _, c. split_and!; [eassumption|done|done|lia].
    + destruct (Hm1 He) as (c0 & k & Hc0 & Hb0 & Hf0 & Hle). exists c0, k.
      rewrite (list_lookup_insert_ne (frames s)) by done. rewrite list_lookup_insert_ne; [done|].
      destruct Hcur as [Hc|[? _]]; [by rewrite Hc, Nat2Z.id|done].
  - intros i f' thd Hi. cbn in Hi. destruct (lookup_insert_cases _ _ _ _ _ Hi) as [[_ [= _ <-]]|[_ Hi']]; [by apply Hthd|by eapply Hw].
Qed.

(** When user code may make a call: only main starts coroutines, and main does not
    return from a coroutine's function. *)
Definition usable (s : libco) (o : op) : Prop :=
  match o with
  | Start => executor s = 0
  | Yield => True
  | Wait thd => (Z.of_nat thd < co_cnt s)%Z
  | Finish => executor s ≠ 0
  end.

Lemma sound_lookups s : sound s → ∃ d g c, co_rtns s !! Z.to_nat (current s) = Some d ∧ frames s !! executor s = Some g ∧
  co_rtns s !! executor s = Some c ∧ state c = RUNNING.
Proof.
  intros Hs. pose proof (s_base _ Hs) as Hb. destruct (s_exec _ Hs) as (c & Hc & Hr & Hlt).
  pose proof (b_cur _ Hb). pose proof (b_cnt _ Hb).
  destruct (lookup_lt_is_Some_2 (co_rtns s) (Z.to_nat (current s))) as [d Hd]; [rewrite (b_len _ Hb); lia|].
  destruct (lookup_lt_is_Some_2 (frames s) (executor s)) as [g Hg]; [rewrite (b_frames _ Hb); lia|].
  by exists d, g, c.
Qed.

(** The stack is still itself after it entered a call. *)
Lemma entered_home s c d g x : sound s → co_rtns s !! Z.to_nat (current s) = Some d → frames s !! executor s = Some g →
  co_rtns s !! executor s = Some x → state x = RUNNING →
  settled (entered s c (Z.to_nat (current s)) d g) ∧
  ∃ y, co_rtns (entered s c (Z.to_nat (current s)) d g) !! executor s = Some y ∧ state y = RUNNING.
Proof.
  intros Hs Hd Hg Hx Hr. pose proof (lookup_lt_Some _ _ _ Hd). split.
  - destruct (s_cur _ Hs) as [Hc|(He & z & Hz & Hend)]; [by left|]. right. split; [done|]. cbn.
    rewrite list_lookup_insert_eq by done. eexists. split; [done|]. cbn. by simplify_eq.
  - cbn. destruct (decide (Z.to_nat (current s) = executor s)) as [He|He].
    + rewrite He in *. rewrite list_lookup_insert_eq by done. eexists. split; [done|]. cbn. by simplify_eq.
    + rewrite list_lookup_insert_ne by done. by exists x.
Qed.

Lemma wpe_yield s n f : sound s → main_place s n f →
  wpe (switch_fault n f) co_yield (λ _ s', ∃ s1, parked s1 n f ∧ resumed s1 s' ∧ (executor s' = 0 → n = f)) s.
Proof.
  intros Hs Hm. destruct (sound_lookups s Hs) as (d & g & c & Hd & Hg & _).
  eapply wpe_enter_current; [apply Hs|done|done|].
  assert (Hp : parked (entered s InYield (Z.to_nat (current s)) d g) n f) by (by apply entered_parked).
  unfold do_switch. wpe_step. wpe_step. eapply wpe_mono; [by apply wpe_switch|]. intros [] s' [Hr He]. by eexists.
Qed.

Lemma wpe_wait s n f thd : sound s → (Z.of_nat thd < co_cnt s)%Z → main_place s n f →
  wpe (switch_fault n f) (co_wait thd) (λ _ s', ∃ s1, parked s1 n f ∧ resumed s1 s' ∧
    (executor s' = 0 → executor s = 0 ∧ (∃ t, co_rtns s !! thd = Some t ∧ state t = END) ∨ n = f)) s.
Proof.
  intros Hs Ht Hm. destruct (sound_lookups s Hs) as (d & g & x & Hd & Hg & Hx & Hr).
  eapply wpe_enter_current; [apply Hs|done|done|].
  assert (Hp : parked (entered s (InWait thd) (Z.to_nat (current s)) d g) n f) by (apply entered_parked; try done; by intros ? [= <-]).
  destruct (entered_home s (InWait thd) d g x Hs Hd Hg Hx Hr) as [Hset Hex]. set (s1 := entered s _ _ d g) in *.
  assert (Hf1 : frames s1 !! executor s1 = Some (Frame (S (calls g)) (Some (InWait thd)))).
  { cbn. apply list_lookup_insert_eq. by apply lookup_lt_Some in Hg. }
  cbn [go_on]. destruct (co_in_range s1 n f thd Hp) as [t Htd]; [done|]. pose proof (lookup_lt_Some _ _ _ Htd).
  unfold the_co. wpe_step. wpe_step. wpe_step. apply wp_wpe. eapply wp_deref; [apply aget_Some; split; [lia|by rewrite Nat2Z.id]|].
  apply wpe_decide; intros Hend.
  - unfold do_switch. wpe_step. wpe_step. eapply wpe_mono; [by apply wpe_switch|]. intros [] s' [Hr' He]. exists s1. split_and!; [done|done|].
    intros Hz. right. by apply He.
  - eapply wpe_mono; [by eapply wpe_leave|]. intros [] s' [Hr' He]. exists s1. split_and!; [done|done|]. intros Hz. left.
    split; [by rewrite He in Hz|].
    assert (Hte : state t = END) by (destruct (decide (state t = END)); [done|tauto]).
    cbn in Htd. destruct (lookup_insert_cases _ _ _ _ _ Htd) as [[<- ->]|[_ Htd']]; by eexists.
Qed.

Lemma active_end (l : list co) i c c' : l !! i = Some c → state c = RUNNING → state c' = END → S (active (<[i := c']> l)) = active l.
Proof.
  intros Hi Hc Hc'. pose proof (lookup_lt_Some _ _ _ Hi). rewrite insert_take_drop by done. rewrite <-(take_drop_middle l i c Hi) at 3.
  rewrite !active_app, !active_cons, (decide_False (P := state c' = RUNNING)), (decide_True (P := state c = RUNNING)) by (done || by rewrite Hc'). lia.
Qed.

Lemma wpe_upd_co E s i f c (Q : unit → libco → Prop) :
  co_rtns s !! i = Some c → Q tt (set_co_rtns (<[i := f c]> (co_rtns s)) s) → wpe E (upd_co (Z.of_nat i) f) Q s.
Proof.
  intros Hc HQ. pose proof (lookup_lt_Some _ _ _ Hc). unfold upd_co. wpe_step. wpe_step.
  wpe_step. apply wp_wpe. eapply wp_deref; [apply aget_Some; split; [lia|by rewrite Nat2Z.id]|].
  wpe_step. apply wp_wpe. eapply wp_deref; [apply aset_Some; lia|]. wpe_step. by rewrite Nat2Z.id.
Qed.

Lemma wpe_upd_co_at E s i f c (Q : unit → libco → Prop) :
  (0 ≤ i)%Z → co_rtns s !! Z.to_nat i = Some c → Q tt (set_co_rtns (<[Z.to_nat i := f c]> (co_rtns s)) s) → wpe E (upd_co i f) Q s.
Proof. intros Hi Hc HQ. pose proof (wpe_upd_co E s _ f c Q Hc HQ) as H. by rewrite Z2Nat.id in H. Qed.

(** A coroutine that has ended. *)
Definition ended (s : libco) (c : co) : libco :=
  set_act_cnt (act_cnt s - 1) (set_co_rtns (<[executor s := set_state END c]> (co_rtns s)) s).

Lemma ended_parked s c n f : sound s → executor s ≠ 0 → co_rtns s !! executor s = Some c → state c = RUNNING → main_in s n f →
  parked (ended s c) n f.
Proof.
  intros [Hb _ _ Hsusp _ Hw _] He Hc Hr (c0 & k & Hc0 & Hb0 & Hf0 & Hle). pose proof (running_below s _ c Hb Hc Hr) as Hlt. split.
  - destruct Hb. split; cbn [ended co_rtns frames current co_cnt act_cnt rands set_act_cnt set_co_rtns]; try done.
    + by rewrite length_insert.
    + intros j d Hj. destruct (lookup_insert_cases _ _ _ _ _ Hj) as [[<- ->]|[_ Hj']]; [exact (b_id0 _ c Hc)|by apply b_id0].
    + intros j d Hj. destruct (lookup_insert_cases _ _ _ _ _ Hj) as [[<- ->]|[_ Hj']]; [done|by apply b_dead0].
    + rewrite b_act0. pose proof (active_end _ _ c (set_state END c) Hc Hr eq_refl). lia.
    + destruct b_main0 as (x & Hx & Hxr). exists x. by rewrite list_lookup_insert_ne.
  - intros i d Hi Hd Hi0. cbn in Hi. destruct (lookup_insert_cases _ _ _ _ _ Hi) as [[_ ->]|[Hne Hi']]; [done|].
    by apply (Hsusp i d Hi' Hd Hi0).
  - exists c0, k. cbn. by rewrite list_lookup_insert_ne.
  - exact Hw.
Qed.

Lemma wpe_finish s n f : sound s → executor s ≠ 0 → main_place s n f →
  wpe (switch_fault n f) co_finish (λ _ s', sound s' ∧ n = f) s.
Proof.
  intros Hs He [Hm _]. specialize (Hm He). destruct (sound_lookups s Hs) as (d & g & c & _ & _ & Hc & Hr).
  assert (Hcur : current s = Z.of_nat (executor s)) by (destruct (s_cur _ Hs) as [?|[? _]]; done).
  pose proof (ended_parked s c n f Hs He Hc Hr Hm) as Hp.
  unfold co_finish. wpe_step. wpe_step. wpe_step. rewrite Hcur. eapply wpe_upd_co; [exact Hc|]. wpe_step. wpe_step.
  change (set_act_cnt _ _) with (ended s c). destruct (b_main _ (p_base _ _ _ Hp)) as (x & Hx & Hxr).
  wpe_step. eapply wpe_mono; [apply (wpe_longjmp _ n f 0 x Hp Hx Hxr)|].
  intros k s2 (-> & (g2 & Hg2) & Hnf). specialize (Hnf eq_refl).
  assert (Hp2 : parked (set_executor 0 (ended s c)) n f) by (destruct Hp as [Hb ? ? ?]; split; [by destruct Hb|done..]).
  eapply wpe_mono; [eapply (wpe_go_on _ n f g2 k _ Hp2 Hg2)|].
  - right. split; [done|]. exists (set_state END c). split; [|done]. cbn. rewrite Hcur, Nat2Z.id. apply list_lookup_insert_eq.
    by apply lookup_lt_Some in Hc.
  - by exists x.
  - unfold do_switch. wpe_step. wpe_step. by apply wpe_switch.
  - intros [] s' [[Hs' _] _]. by split.
Qed.

(** A coroutine that starts: main's buffer holds its call, which is fresh. *)
Definition started (s : libco) (c : co) (g : frame) (x : co) : libco :=
  let i := Z.to_nat (co_cnt s) in
  Libco (<[i := Co (co_cnt s) RUNNING (buf x)]> (<[0 := set_buf (Some (Place 0 (S (calls g)))) c]> (co_rtns s)))
    (co_cnt s) (co_cnt s + 1) (act_cnt s + 1) (rands s) i (<[0 := Frame (S (calls g)) (Some InStart)]> (frames s)) (handle s).

Lemma started_sound s c g x : sound s → executor s = 0 → co_rtns s !! 0 = Some c → frames s !! 0 = Some g →
  co_rtns s !! Z.to_nat (co_cnt s) = Some x → sound (started s c g x).
Proof.
  intros [Hb _ _ Hsusp _ Hw _] He Hc Hg Hx. rewrite He in *. pose proof (b_cnt _ Hb) as Hcnt. pose proof (lookup_lt_Some _ _ _ Hx) as Hi.
  rewrite (b_len _ Hb) in Hi. set (i := Z.to_nat (co_cnt s)) in *. assert (Hi0 : i ≠ 0) by lia. pose proof (b_dead _ Hb i x Hx ltac:(lia)) as Hxe.
  pose proof (lookup_lt_Some _ _ _ Hc). pose proof (lookup_lt_Some _ _ _ Hg).
  assert (Hb0 : base (Libco (<[0 := set_buf (Some (Place 0 (S (calls g)))) c]> (co_rtns s)) (current s) (co_cnt s) (act_cnt s) (rands s)
    i (<[0 := Frame (S (calls g)) (Some InStart)]> (frames s)) (handle s))).
  { apply base_buf; [done|done|]. rewrite length_insert. apply Hb. }
  set (l0 := <[0 := set_buf (Some (Place 0 (S (calls g)))) c]> (co_rtns s)) in *.
  assert (Hx0 : l0 !! i = Some x) by (unfold l0; by rewrite list_lookup_insert_ne).
  assert (Hmain : l0 !! 0 = Some (set_buf (Some (Place 0 (S (calls g)))) c)) by (unfold l0; by rewrite list_lookup_insert_eq).
  assert (Hlen0 : i < length l0) by (by apply lookup_lt_Some in Hx0).
  split; cbn [started co_rtns frames current co_cnt act_cnt rands executor handle]; fold i; fold l0.
  - destruct Hb0 as [B1 B2 B3 B4 B5 B6 B7 B8 B9]. cbn in B1, B2, B3, B4, B5, B6, B7, B8, B9.
    split; cbn [started co_rtns frames current co_cnt act_cnt rands]; fold i; fold l0; [by rewrite length_insert|done|lia| | | | |lia|done].
    + intros j d Hj Hlt. destruct (lookup_insert_cases _ _ _ _ _ Hj) as [[<- ->]|[Hne Hj']]; [cbn; lia|]. apply (B4 j d Hj'). lia.
    + intros j d Hj Hge. destruct (lookup_insert_cases _ _ _ _ _ Hj) as [[<- ->]|[Hne Hj']]; [lia|]. apply (B5 j d Hj'). lia.
    + assert (Hact : active (<[i := Co (co_cnt s) RUNNING (buf x)]> l0) = S (active l0)).
      { rewrite <-(active_end (<[i := Co (co_cnt s) RUNNING (buf x)]> l0) i (Co (co_cnt s) RUNNING (buf x)) x); [|by apply list_lookup_insert_eq|done|done].
        by rewrite list_insert_insert_eq, list_insert_id. }
      rewrite Hact. change (length (filter (λ c, state c = RUNNING) l0)) with (active l0) in B6. lia.
    + destruct B7 as (y & Hy & Hr). exists y. by rewrite list_lookup_insert_ne.
  - eexists. rewrite list_lookup_insert_eq by done. split_and!; [done|done|lia].
  - left. cbn. lia.
  - intros j d Hj Hr Hj0 Hji. destruct (lookup_insert_cases _ _ _ _ _ Hj) as [[? _]|[_ Hj']]; [done|].
    unfold l0 in Hj'. rewrite list_lookup_insert_ne in Hj' by done.
    destruct (Hsusp j d Hj' Hr Hj0 Hj0) as (f & k & Hf & Hbf). exists f, k. cbn. by rewrite list_lookup_insert_ne.
  - intros _. exists (S (calls g)), (S (calls g)). eexists _, InStart. cbn [started co_rtns frames]. fold i; fold l0.
    rewrite list_lookup_insert_ne, Hmain by done. rewrite list_lookup_insert_eq by done. by split_and!.
  - intros j f thd Hj. destruct (lookup_insert_cases _ _ _ _ _ Hj) as [[_ [=]]|[_ Hj']]. apply Hw in Hj'. lia.
  - eexists _, (Frame (S (calls g)) (Some InStart)). rewrite list_lookup_insert_ne, Hmain by done. rewrite list_lookup_insert_eq by done.
    split_and!; [done|done|]. right. by eexists.
Qed.

Lemma wpe_start s : sound s → executor s = 0 →
  wpe (λ e, e = OutOfBounds ∧ co_cnt s = Z.of_nat MAX_CO) co_start (λ _ s', sound s') s.
Proof.
  intros Hs He. destruct (sound_lookups s Hs) as (_ & g & c & _ & Hg & Hc & Hr). rewrite He in Hg, Hc. pose proof (s_base _ Hs) as Hb. pose proof (b_cnt _ Hb) as Hcnt.
  unfold co_start. wpe_step. wpe_step. wpe_step. wpe_step.
  apply (wpe_enter _ (set_act_cnt _ (set_co_cnt _ s)) InStart 0 c g); [cbn; by rewrite He|done|].
  wpe_step. wpe_step. cbv zeta. wpe_step. wpe_step. cbn [co_cnt entered set_act_cnt set_co_cnt]. rewrite Z.add_simpl_r.
  destruct (decide (co_cnt s = Z.of_nat MAX_CO)) as [Hmax|Hmax].
  - wpe_step. unfold upd_co. wpe_step. wpe_step. wpe_step. apply wpe_deref; [done|]. intros d Hd. apply aget_lt in Hd. cbn in Hd.
    rewrite length_insert, (b_len _ Hb) in Hd. lia.
  - destruct (lookup_lt_is_Some_2 (co_rtns s) (Z.to_nat (co_cnt s))) as [x Hx]; [rewrite (b_len _ Hb); lia|].
    pose proof (lookup_lt_Some _ _ _ Hx).
    assert (Hi0 : Z.to_nat (co_cnt s) ≠ 0) by lia.
    wpe_step. eapply (wpe_upd_co_at _ _ _ _ x); [lia|cbn; by rewrite list_lookup_insert_ne|].
    wpe_step. eapply (wpe_upd_co_at _ _ _ _ (set_id _ x)); [lia|cbn; apply list_lookup_insert_eq; by rewrite length_insert|]. wpe_step.
    pose proof (started_sound s c g x Hs He Hc Hg Hx) as Hst. unfold started, entered in *. cbn in *.
    rewrite He in *. rewrite list_insert_insert_eq. exact Hst.
Qed.

(** ** Runs *)

Lemma parked_sound s n f s' : parked s n f → resumed s s' → sound s'.
Proof. by intros _ [? _]. Qed.

(** The state after [co_init]. *)
Lemma boot_sound rs : Forall (λ r, 0 ≤ r)%Z rs → ∃ s, co_init (boot_libco rs) = Ret (tt, s) ∧ sound s.
Proof.
  intros Hrs. eexists. split; [reflexivity|].
  assert (Hco : ∀ i c, <[0 := set_state RUNNING (set_id 0 (Co 0 END None))]> (replicate MAX_CO (Co 0 END None)) !! i = Some c →
    i = 0 ∧ c = Co 0 RUNNING None ∨ i ≠ 0 ∧ c = Co 0 END None).
  { intros i c Hi. destruct (lookup_insert_cases _ _ _ _ _ Hi) as [[<- ->]|[Hne Hi']]; [by left|right].
    by apply lookup_replicate in Hi' as [-> _]. }
  split.
  - split; cbn [co_rtns frames current co_cnt act_cnt rands]; try done.
    + intros i c Hi Hlt. change (<[0 := set_state RUNNING (set_id 0 (Co 0 END None))]> (replicate MAX_CO (Co 0 END None)) !! i = Some c) in Hi.
      destruct (Hco i c Hi) as [[-> ->]|[? _]]; [done|cbn in Hlt; lia].
    + intros i c Hi Hge. change (<[0 := set_state RUNNING (set_id 0 (Co 0 END None))]> (replicate MAX_CO (Co 0 END None)) !! i = Some c) in Hi.
      destruct (Hco i c Hi) as [[-> ->]|[_ ->]]; [cbn in Hge; lia|done].
    + by eexists.
  - by eexists.
  - by left.
  - intros i c Hi Hr Hi0. change (<[0 := set_state RUNNING (set_id 0 (Co 0 END None))]> (replicate MAX_CO (Co 0 END None)) !! i = Some c) in Hi.
    destruct (Hco i c Hi) as [[? _]|[_ ->]]; done.
  - done.
  - intros i g thd Hi. change (replicate MAX_CO (Frame 0 None) !! i = Some (Frame g (Some (InWait thd)))) in Hi.
    by apply lookup_replicate in Hi as [[=] _].
  - eexists _, _. split_and!; [reflexivity|reflexivity|]. by left.
Qed.

(** Calls made one after the other, each when it is usable. *)
Inductive steps : libco → list op → libco → Prop :=
  | steps_nil s : steps s [] s
  | steps_cons s o ops s1 s' : usable s o → do_op o s = Ret (tt, s1) → steps s1 ops s' → steps s (o :: ops) s'.

Definition call_fault (s : libco) (o : op) (e : fault) : Prop :=
  match o with
  | Start => e = OutOfBounds ∧ co_cnt s = Z.of_nat MAX_CO
  | _ => ∃ n f, main_place s n f ∧ switch_fault n f e
  end.

Lemma wpe_do_op s o : sound s → usable s o → wpe (call_fault s o) (do_op o) (λ _ s', sound s') s.
Proof.
  intros Hs Ho. destruct (main_place_ex s Hs) as (n & f & Hm).
  assert (Hweak : ∀ m : M libco unit, wpe (switch_fault n f) m (λ _ s', sound s') s →
    wpe (λ e, ∃ n f, main_place s n f ∧ switch_fault n f e) m (λ _ s', sound s') s).
  { intros m. unfold wpe. destruct (m s) as [[a s']|e]; [done|]. intros He. by exists n, f. }
  destruct o as [| |thd|]; cbn [do_op].
  - by apply wpe_start.
  - apply Hweak. eapply wpe_mono; [by apply wpe_yield|]. intros [] s' (s1 & Hp & Hr & _). by eapply parked_sound.
  - apply Hweak. eapply wpe_mono; [by apply wpe_wait|]. intros [] s' (s1 & Hp & Hr & _). by eapply parked_sound.
  - apply Hweak. eapply wpe_mono; [by apply wpe_finish|]. by intros [] s' [Hs' _].
Qed.

Lemma steps_sound s ops s' : steps s ops s' → sound s → sound s'.
Proof.
  induction 1 as [|s o ops s1 s' Ho Hrun _ IH]; [done|]. intros Hs. apply IH.
  exact (wpe_run _ _ _ _ _ _ (wpe_do_op s o Hs Ho) Hrun).
Qed.

(** Main is in a call and its buffer holds an earlier one. *)
Definition lost (s : libco) : Prop := sound s ∧ executor s ≠ 0 ∧ ∃ n f, main_in s n f ∧ n ≠ f.

Lemma main_in_kept s s' n f : main_in s n f → co_rtns s' = co_rtns s → frames s' !! 0 = frames s !! 0 → main_in s' n f.
Proof. intros (c & k & H1 & H2 & H3 & H4) E1 E2. exists c, k. by rewrite E1, E2. Qed.

Lemma resumed_lost s1 s' n f : parked s1 n f → resumed s1 s' → n ≠ f → executor s' ≠ 0 → lost s'.
Proof.
  intros Hp (Hs' & R1 & R2 & R3) Hne He. split; [done|]. split; [done|]. exists n, f. split; [|done].
  eapply main_in_kept; [apply (p_main _ _ _ Hp)|done|by apply R3].
Qed.

Lemma lost_step s o s' : lost s → usable s o → do_op o s = Ret (tt, s') → lost s'.
Proof.
  intros (Hs & He & n & f & Hm & Hne) Ho Hrun. assert (Hmp : main_place s n f) by (by split).
  destruct o as [| |thd|]; cbn [do_op] in Hrun; [done| | |].
  - destruct (wpe_run _ _ _ _ _ _ (wpe_yield s n f Hs Hmp) Hrun) as (s1 & Hp & Hr & Hz).
    eapply resumed_lost; [done|done|done|]. intros H0. by apply Hne, Hz.
  - destruct (wpe_run _ _ _ _ _ _ (wpe_wait s n f thd Hs Ho Hmp) Hrun) as (s1 & Hp & Hr & Hz).
    eapply resumed_lost; [done|done|done|]. intros H0. destruct (Hz H0) as [[? _]|?]; done.
  - destruct (wpe_run _ _ _ _ _ _ (wpe_finish s n f Hs He Hmp) Hrun) as [_ ?]. done.
Qed.

Lemma lost_steps s ops s' : steps s ops s' → lost s → lost s'.
Proof. induction 1 as [|s o ops s1 s' Ho Hrun _ IH]; [done|]. intros Hl. apply IH. by eapply lost_step. Qed.

(** The wait that has to switch while [current] is an ended coroutine. *)
Lemma wait_lost s thd s' t : sound s → executor s = 0 → current s ≠ 0%Z → co_rtns s !! thd = Some t → state t = RUNNING →
  (Z.of_nat thd < co_cnt s)%Z → co_wait thd s = Ret (tt, s') → lost s'.
Proof.
  intros Hs He Hcur Ht Htr Hlt Hrun. destruct (main_place_ex s Hs) as (n & f & Hm).
  assert (Hnf : n ≠ f).
  { destruct (proj2 Hm He) as (c & g & _ & _ & -> & Hn). rewrite decide_False in Hn by done. destruct Hn. lia. }
  destruct (wpe_run _ _ _ _ _ _ (wpe_wait s n f thd Hs Hlt Hm) Hrun) as (s1 & Hp & Hr & Hz).
  eapply resumed_lost; [done|done|done|]. intros H0. destruct (Hz H0) as [(_ & u & Hu & Hue)|?]; [|done].
  simplify_eq. by rewrite Hue in Htr.
Qed.

(** ** The choice ends *)

(** A number of [rand] designates the running coroutine of its rank. *)
Definition designates (s : libco) (r : Z) (j : nat) : Prop :=
  (Z.of_nat j < co_cnt s)%Z ∧ (∃ c, co_rtns s !! j = Some c ∧ state c = RUNNING) ∧
  Z.of_nat (active (take j (co_rtns s))) = Z.rem r (act_cnt s).

Lemma designated_inj s r i j : designates s r i → designates s r j → i = j.
Proof.
  intros (_ & (c & Hc & Hcr) & Hi) (_ & (d & Hd & Hdr) & Hj).
  assert (Hlt : ∀ a b x, co_rtns s !! a = Some x → state x = RUNNING → a < b → active (take a (co_rtns s)) < active (take b (co_rtns s))).
  { intros a b x Hx Hr Hab. pose proof (lookup_lt_Some _ _ _ Hx) as Hl. 
    rewrite <-(take_drop_middle (take b (co_rtns s)) a x) by (by rewrite lookup_take_lt).
    rewrite take_take, Nat.min_l, active_app, active_cons, decide_True by (done || lia). lia. }
  destruct (lt_eq_lt_dec i j) as [[H|H]|H]; [|done|].
  - pose proof (Hlt i j c Hc Hcr H). lia.
  - pose proof (Hlt j i d Hd Hdr H). lia.
Qed.

Lemma select_run s r rs j : base s → rands s = r :: rs → designates s r j → select_co s = Ret (Z.of_nat j, set_rands rs s).
Proof.
  intros Hb Hr Hj.
  assert (Hw : wpe (λ e, e = OutOfFuel ∧ rands s = []) select_co (λ m s', m = Z.of_nat j ∧ s' = set_rands rs s) s).
  { unfold wpe. pose proof (wpe_select (λ e, e = OutOfFuel) s (λ m s', m = Z.of_nat j ∧ s' = set_rands rs s) Hb eq_refl) as Hs. unfold wpe in Hs.
    destruct (select_co s) as [[m s']|e] eqn:Hrun.
    - apply Hs. intros r' rs' j' c Hr' Hj' Hc Hlt Hrank. rewrite Hr in Hr'. injection Hr' as <- <-. split; [|done]. f_equal.
      eapply designated_inj; [|exact Hj]. split_and!; [done|by exists c|done].
    - exfalso. revert Hrun. unfold select_co, rand, mbind, M_bind, get. rewrite Hr. cbn. rewrite decide_False.
      + rewrite bool_decide_true; [done|]. pose proof (b_cnt _ Hb). rewrite (b_len _ Hb). lia.
      + destruct (b_main _ Hb) as (c0 & Hc0 & Hc0r). pose proof (active_pos _ _ _ Hc0 Hc0r). rewrite (b_act _ Hb). lia. }
  unfold wpe in Hw. destruct (select_co s) as [[m s']|e]; [by destruct Hw as [-> ->]|]. destruct Hw as [_ Hw]. congruence.
Qed.

Lemma designates_ex s r rs : base s → rands s = r :: rs → ∃ j, designates s r j.
Proof.
  intros Hb Hr. pose proof (b_rands _ Hb) as Hrs. rewrite Hr in Hrs. apply Forall_cons in Hrs as [Hr0 _].
  destruct (b_main _ Hb) as (c0 & Hc0 & Hc0r). pose proof (active_pos _ _ _ Hc0 Hc0r). pose proof (b_act _ Hb) as Ha.
  destruct (select_loop_spec (co_rtns s) 0 (Z.rem r (act_cnt s))) as (j & c & _ & Hj & Hc & Hrank); [rewrite <-Ha; apply Z.rem_bound_pos; lia|].
  exists j. split; [by eapply running_below|]. split; [by exists c|done].
Qed.

Lemma pick_step s r rs j fuel : base s → rands s = r :: rs → designates s r j →
  pick (S fuel) s = if decide (Z.of_nat j = current s) then pick fuel (set_rands rs s) else Ret (Z.of_nat j, set_rands rs s).
Proof.
  intros Hb Hr Hj. cbn [pick]. rewrite (bind_run _ _ _ _ _ (select_run s r rs j Hb Hr Hj)).
  pose proof (b_cur _ Hb) as Hc. pose proof (b_cnt _ Hb) as Hcn.
  destruct (lookup_lt_is_Some_2 (co_rtns s) (Z.to_nat (current s))) as [d Hd]; [rewrite (b_len _ Hb); lia|].
  pose proof (b_id _ Hb _ _ Hd ltac:(lia)) as Hid.
  assert (Hco : the_co (current s) (set_rands rs s) = Ret (d, set_rands rs s)).
  { unfold the_co, mbind, M_bind, get. cbn [co_rtns set_rands]. unfold aget. rewrite decide_True by lia. by rewrite Hd. }
  rewrite (bind_run get _ _ (set_rands rs s) (set_rands rs s) eq_refl). cbn [current set_rands].
  rewrite (bind_run _ _ _ _ _ Hco). rewrite Hid, Z2Nat.id by lia. by case_decide.
Qed.

Lemma base_rands s r rs : base s → rands s = r :: rs → base (set_rands rs s).
Proof. intros [] Hr. split; try done. cbn. rewrite Hr in b_rands0. by apply Forall_cons in b_rands0 as [_ ?]. Qed.

(** C39. The choice of a switch ends as soon as [rand] gives a number that designates
    another running coroutine than the current one: the numbers before it designate
    the current one, and the choice is the running coroutine whose rank among the
    running ones is that number modulo their count. *)
Theorem pick_chooses s r j : base s → r ∈ rands s → designates s r j → Z.of_nat j ≠ current s →
  ∃ used r' rest j', rands s = used ++ r' :: rest ∧
    Forall (λ x, ∃ k, designates s x k ∧ Z.of_nat k = current s) used ∧
    designates s r' j' ∧ Z.of_nat j' ≠ current s ∧
    pick (S (length (rands s))) s = Ret (Z.of_nat j', set_rands rest s).
Proof.
  intros Hb Hin Hj Hne. remember (rands s) as l eqn:Hl. generalize (S (length l)) as fuel, (Nat.lt_succ_diag_r (length l)). intros fuel.
  revert s fuel Hb Hj Hne Hl. induction l as [|x l IH]; intros s fuel Hb Hj Hne Hl Hfuel; [by apply not_elem_of_nil in Hin|].
  destruct fuel as [|fuel]; [cbn in Hfuel; lia|]. symmetry in Hl.
  destruct (designates_ex s x l Hb Hl) as [k Hk]. rewrite (pick_step s x l k) by done.
  destruct (decide (Z.of_nat k = current s)) as [Hkc|Hkc].
  - apply elem_of_cons in Hin as [->|Hin]; [exfalso; by rewrite (designated_inj s x j k Hj Hk) in Hne|].
    destruct (IH Hin (set_rands l s) fuel) as (used & r' & rest & j' & Heq & Hu & Hd & Hn & Hrun);
      [by eapply base_rands|exact Hj|exact Hne|done|cbn in Hfuel; lia|].
    exists (x :: used), r', rest, j'. split_and!; [by rewrite Heq| |exact Hd|exact Hn|exact Hrun].
    constructor; [by exists k|exact Hu].
  - exists [], x, l, k. by split_and!.
Qed.

(** C38. Every library call keeps the coroutines sound: from [co_init] on, whatever
    calls the stacks make (only main starting coroutines), the count of active
    coroutines is the number of running ones, each suspended one's buffer holds the
    call it is in, and the one that runs is the current one unless it is main after
    an end.  A call stops only when there is no 129th place, when the numbers of
    [rand] end, or at a jump into a call of main that has returned. *)
Theorem coroutines_sound rs s0 ops s o :
  Forall (λ r, 0 ≤ r)%Z rs → co_init (boot_libco rs) = Ret (tt, s0) → steps s0 ops s → usable s o →
  sound s ∧ match do_op o s with Ret (_, s') => sound s' | Err e => call_fault s o e end.
Proof.
  intros Hrs Hinit Hsteps Ho. destruct (boot_sound rs Hrs) as (s1 & Hrun & Hs1). rewrite Hrun in Hinit. injection Hinit as <-.
  pose proof (steps_sound _ _ _ Hsteps Hs1) as Hs. split; [done|].
  pose proof (wpe_do_op s o Hs Ho) as Hw. unfold wpe in Hw. by destruct (do_op o s) as [[[] s']|e].
Qed.

(** A second wait loses main: when main runs after a coroutine ended, so that
    [current] is still that coroutine, and waits for one that still runs, then
    whatever calls follow, main never runs again. *)
Theorem second_wait_lost s thd t ops s' :
  sound s → executor s = 0 → current s ≠ 0%Z → co_rtns s !! thd = Some t → state t = RUNNING →
  steps s (Wait thd :: ops) s' → executor s' ≠ 0.
Proof.
  intros Hs He Hcur Ht Htr Hsteps. inversion Hsteps as [|? ? ? s1 ? Ho Hrun Hrest]; subst.
  assert (Hl : lost s1) by (eapply (wait_lost s thd s1 t); [done|done|done|done|done|exact Ho|exact Hrun]).
  by destruct (lost_steps _ _ _ Hrest Hl) as (_ & ? & _).
Qed.

(** ** An example: two coroutines that yield, and main waits for both *)

Definition demo_rands : list Z := [0; 0; 1; 1; 1; 4; 5]%Z.
Definition demo_ops : list op := [Start; Yield; Start; Yield; Wait 1; Finish].
Definition demo_init : libco := state_of (boot_libco []) (co_init (boot_libco demo_rands)).
Definition demo_state : libco := state_of (boot_libco []) (for_each demo_ops do_op demo_init).

Lemma demo_steps : steps demo_init demo_ops demo_state.
Proof.
  unfold demo_ops. repeat (eapply steps_cons; [vm_compute; done|vm_compute; reflexivity|]).
  match goal with |- steps ?a [] ?b => replace b with a by (vm_compute; reflexivity) end. apply steps_nil.
Qed.

Lemma demo_rands_ok : Forall (λ r, 0 ≤ r)%Z demo_rands.
Proof. apply (bool_decide_unpack _). by vm_compute. Qed.

Lemma demo_sound : sound demo_state.
Proof.
  destruct (boot_sound demo_rands demo_rands_ok) as (s & Hrun & Hs). eapply steps_sound; [exact demo_steps|].
  unfold demo_init. by rewrite Hrun.
Qed.

Lemma coroutines_sound_witness : sound demo_state ∧ executor demo_state = 0 ∧ current demo_state = 1%Z.
Proof.
  split; [|split; vm_compute; reflexivity].
  destruct (coroutines_sound demo_rands demo_init demo_ops demo_state Yield demo_rands_ok) as [H _];
    [vm_compute; reflexivity|exact demo_steps|exact I|exact H].
Defined.

Lemma second_wait_lost_witness :
  steps demo_state [Wait 2] (state_of demo_state (co_wait 2 demo_state)) ∧
  executor (state_of demo_state (co_wait 2 demo_state)) ≠ 0.
Proof.
  assert (Hst : steps demo_state [Wait 2] (state_of demo_state (co_wait 2 demo_state))).
  { eapply steps_cons; [vm_compute; reflexivity|vm_compute; reflexivity|].
    match goal with |- steps ?a [] ?b => replace b with a by (vm_compute; reflexivity) end. apply steps_nil. }
  split; [exact Hst|].
  eapply (second_wait_lost demo_state 2); [exact demo_sound|vm_compute; reflexivity|vm_compute; discriminate|vm_compute; reflexivity|reflexivity|exact Hst].
Defined.

Lemma pick_chooses_witness : ∃ used r rest j, rands demo_state = used ++ r :: rest ∧
  Z.of_nat j ≠ current demo_state ∧ pick (S (length (rands demo_state))) demo_state = Ret (Z.of_nat j, set_rands rest demo_state).
Proof.
  destruct (pick_chooses demo_state 1 2) as (used & r & rest & j & H1 & _ & _ & H4 & H5).
  - exact (s_base _ demo_sound).
  - vm_compute. left.
  - split; [vm_compute; reflexivity|split; [eexists; split; vm_compute; reflexivity|vm_compute; reflexivity]].
  - vm_compute. discriminate.
  - exists used, r, rest, j. split; [exact H1|]. split; [exact H4|exact H5].
Defined.
