(* ===== verification/Crepl.v ===== *)
(** * The C read-eval-print loop (crepl/crepl.c)

    A line that begins with [int] is a definition: it is compiled alone and, when
    the compiler has nothing to say, kept in a file; any other line is an expression,
    compiled after the definitions kept so far and evaluated.  The files are their
    contents; descriptors are counted, since the reading end of a pipe is never
    closed.  Parameters: the limit on descriptors, the calls that the system
    refuses for other reasons, what the compiler, run as another process, says, and
    what comes of loading and running the code it makes. *)
From S2P Require Import Prelude KStdio.
From Stdlib Require Import Ascii.

(** What appears on the screen. *)
Inductive message :=
  Banner | Prompt | DefinitionError | CompileError | LoadError | Added (text : list ascii)
  | Output (text : list ascii) | Answer (text : list ascii) (v : Z) | Exit.
#[export] Instance message_eq_dec : EqDecision message.
Proof. solve_decision. Defined.

(** How the process ends; [Hung]: it does not. *)
Inductive ending := Exited (code : Z) | Killed (signal : Z) | Hung.

(** The code of an expression prints, then returns, calls [exit], is killed or runs
    for ever; a library may fail to load, or lack the function. *)
Inductive finish := Returns (v : Z) | Ends (e : ending).
Inductive library := NotLoaded | NoSymbol | Loaded (prints : list ascii) (f : finish).

(** The calls of the system that the program checks. *)
Inductive call := OpenExev | OpenFunc | OpenTest | Pipe.

Record crepl := CreplState {
  exev_file : list ascii; func_file : list ascii; test_file : list ascii;
  fds : nat; (* descriptors in use *)
  turn : nat; (* lines read *)
  out : list message
}.
Definition set_exev v s := CreplState v (func_file s) (test_file s) (fds s) (turn s) (out s).
Definition set_func v s := CreplState (exev_file s) v (test_file s) (fds s) (turn s) (out s).
Definition set_test v s := CreplState (exev_file s) (func_file s) v (fds s) (turn s) (out s).
Definition set_fds v s := CreplState (exev_file s) (func_file s) (test_file s) v (turn s) (out s).
Definition set_turn v s := CreplState (exev_file s) (func_file s) (test_file s) (fds s) v (out s).
Definition say (m : message) : M crepl unit :=
  modify (λ s, CreplState (exev_file s) (func_file s) (test_file s) (fds s) (turn s) (out s ++ [m])).

(** [CLOSE], run at the end, removes the files. *)
Definition CLOSE : M crepl unit := say Exit;; modify (λ s, CreplState [] [] [] (fds s) (turn s) (out s)).

Definition NEWLINE : ascii := "010"%char.
Definition NUL : ascii := "000"%char.

Definition EXEVFUNCNAME : list ascii := chars "exevLanceloiaTempFunction".
Definition Template1 : list ascii := chars "int " ++ EXEVFUNCNAME ++ chars "() {" ++ [NEWLINE] ++ chars "  return ".
Definition Template2 : list ascii := chars ";" ++ [NEWLINE] ++ chars "}".

(** [fgets(buf, n, fp)] on what is left of a file: the piece read and the rest. *)
Fixpoint fgets (n : nat) (l : list ascii) : list ascii * list ascii :=
  match n, l with
  | S n', c :: l' => if decide (c = NEWLINE) then ([c], l') else let '(p, r) := fgets n' l' in (c :: p, r)
  | _, _ => ([], l)
  end.

(** [while (fgets(buf2, 1024, funcfp)) fprintf(exevfp, "%s", buf2);] *)
Fixpoint copy_loop (fuel : nat) (l acc : list ascii) : M crepl (list ascii) :=
  match fuel with
  | O => fail OutOfFuel
  | S fuel' =>
      match l with
      | [] => mret acc
      | _ => let '(p, r) := fgets 1023 l in copy_loop fuel' r (acc ++ until_nul p)
      end
  end.

Section system.
(** The limit on open descriptors, and whether a call is refused while a line is
    handled, the start being turn 0. *)
Variable NOFILE : nat.
Variable refused : nat → call → bool.
(** [gcc] has nothing to say about a text when its process has that many descriptors
    in use already. *)
Variable gcc : nat → list ascii → bool.
(** What loading the compiled text and calling its function gives. *)
Variable load : list ascii → library.

Definition fopen (c : call) : M crepl bool :=
  s ← get;
  if decide (NOFILE < fds s + 1 ∨ refused (turn s) c = true) then mret false
  else modify (set_fds (fds s + 1));; mret true.
Definition pipe : M crepl bool :=
  s ← get;
  if decide (NOFILE < fds s + 2 ∨ refused (turn s) Pipe = true) then mret false
  else modify (set_fds (fds s + 2));; mret true.
(** [fclose] and [close]. *)
Definition close : M crepl unit := modify (λ s, set_fds (fds s - 1) s).

Definition is_definition (buf : list ascii) : bool :=
  bool_decide (take 3 buf = chars "int").

(** [pipe], [fork] and the compiler's run on a file: [None] when there is no pipe.
    The compiler's process has closed the reading end; the parent closes the
    writing one. *)
Definition compile (file : crepl → list ascii) : M crepl (option bool) :=
  p ← pipe;
  if negb p then mret None
  else
    s ← get;
    let silent := gcc (fds s - 1) (file s) in
    close;;
    mret (Some silent).

(** A turn of the loop of [main] on what [fgets] read; [None]: the loop goes on. *)
Definition do_line (line : list ascii) : M crepl (option ending) :=
  buf ← (match until_nul line with [] => fail OutOfBounds | l => mret (take (length l - 1) l) end);
  if (is_definition buf : bool) then
    testfp ← fopen OpenTest;
    if negb testfp then mret (Some (Exited 1))
    else
      modify (set_test (buf ++ [NEWLINE]));;
      close;;
      r ← compile test_file;
      match r with
      | None => mret (Some (Exited 1))
      | Some false => say DefinitionError;; mret None
      | Some true =>
          funcfp ← fopen OpenFunc;
          if negb funcfp then mret (Some (Exited 1))
          else
            modify (λ s, set_func (func_file s ++ buf ++ [NEWLINE]) s);;
            close;;
            say (Added buf);;
            mret None
      end
  else
    exevfp ← fopen OpenExev;
    when exevfp (modify (set_exev []));;
    funcfp ← fopen OpenFunc;
    if negb (exevfp && funcfp) then mret (Some (Exited 1))
    else
      s ← get;
      text ← copy_loop (S (length (func_file s))) (func_file s) [];
      close;;
      modify (set_exev (text ++ Template1 ++ buf ++ Template2 ++ [NEWLINE]));;
      close;;
      r ← compile exev_file;
      match r with
      | None => mret (Some (Exited 1))
      | Some false => say CompileError;; mret None
      | Some true =>
          s ← get;
          match load (exev_file s) with
          | NotLoaded | NoSymbol => say LoadError;; mret (Some (Exited 1))
          | Loaded prints f =>
              when (bool_decide (prints ≠ [])) (say (Output prints));;
              match f with
              | Returns v => say (Answer buf v);; mret None
              | Ends e => mret (Some e)
              end
          end
      end.

(** [while (printf(">>> ") && fgets(buf, 1024, stdin))] on the rest of the input. *)
Fixpoint read_loop (fuel : nat) (stdin : list ascii) : M crepl ending :=
  match fuel with
  | O => fail OutOfFuel
  | S fuel' =>
      say Prompt;;
      match stdin with
      | [] => mret (Exited 0)
      | _ =>
          let '(line, rest) := fgets 1023 stdin in
          modify (λ s, set_turn (S (turn s)) s);;
          r ← do_line line;
          match r with Some e => mret e | None => read_loop fuel' rest end
      end
  end.

(** [main] on an input; when the process exits [CLOSE] runs. *)
Definition main (stdin : list ascii) : M crepl ending :=
  say Banner;;
  exevfp ← fopen OpenExev;
  when exevfp (modify (set_exev []));;
  funcfp ← fopen OpenFunc;
  when funcfp (modify (set_func []));;
  testfp ← fopen OpenTest;
  when testfp (modify (set_test []));;
  e ← (if negb (exevfp && funcfp && testfp) then mret (Exited 1)
       else close;; close;; close;; read_loop (S (length stdin)) stdin);
  match e with Exited _ => CLOSE;; mret e | _ => mret e end.
End system.

(** ** What a session means *)

Section session.
Context (NOFILE : nat) (refused : nat → call → bool) (gcc : nat → list ascii → bool) (load : list ascii → library).

(** The text compiled for an expression after some definitions. *)
Definition program (defs : list (list ascii)) (e : list ascii) : list ascii :=
  (defs ≫= λ d, d ++ [NEWLINE]) ++ Template1 ++ e ++ Template2 ++ [NEWLINE].

(** The messages of an expression that compiles. *)
Definition evaluation (defs : list (list ascii)) (l : list ascii) : list message * option ending :=
  match load (program defs l) with
  | NotLoaded | NoSymbol => ([LoadError], Some (Exited 1))
  | Loaded prints f =>
      let shown := if decide (prints = []) then [] else [Output prints] in
      match f with Returns v => (shown ++ [Answer l v], None) | Ends e => (shown, Some e) end
  end.

(** The line after [k] others: the definitions kept, the messages, and the end of the
    session if it ends there.  Every line before has left a descriptor open. *)
Definition meaning (k : nat) (defs : list (list ascii)) (l : list ascii) : list (list ascii) * list message * option ending :=
  let no c := refused (S k) c in
  if bool_decide (NOFILE < k + 5) || no Pipe || (if is_definition l then no OpenTest else no OpenExev || no OpenFunc)
  then (defs, [], Some (Exited 1))
  else if negb (gcc (k + 4) (if is_definition l then l ++ [NEWLINE] else program defs l))
  then (defs, [if is_definition l then DefinitionError else CompileError], None)
  else if negb (is_definition l) then (defs, (evaluation defs l).1, (evaluation defs l).2)
  else if no OpenFunc then (defs, [], Some (Exited 1))
  else (defs ++ [l], [Added l], None).

(** The messages of a session and its end. *)
Fixpoint session (k : nat) (defs : list (list ascii)) (lines : list (list ascii)) : list message * ending :=
  match lines with
  | [] => ([Prompt], Exited 0)
  | l :: lines' =>
      let '(defs', ms, e) := meaning k defs l in
      match e with
      | Some e => (Prompt :: ms, e)
      | None => let '(ms', e') := session (S k) defs' lines' in (Prompt :: ms ++ ms', e')
      end
  end.

(** The whole program: the three files are open at the same time at the start. *)
Definition whole (lines : list (list ascii)) : list message * ending :=
  if bool_decide (NOFILE < 6) || refused 0 OpenExev || refused 0 OpenFunc || refused 0 OpenTest then ([], Exited 1)
  else session 0 [] lines.
Definition bye (e : ending) : list message := match e with Exited _ => [Exit] | _ => [] end.

Lemma fgets_app n l : (fgets n l).1 ++ (fgets n l).2 = l.
Proof.
  revert l. induction n as [|n IH]; intros [|c l]; [done..|]. cbn. case_decide; [done|].
  specialize (IH l). destruct (fgets n l) as [p r]. cbn in *. by rewrite IH.
Qed.

Lemma fgets_pos n l : 0 < n → l ≠ [] → 0 < length (fgets n l).1.
Proof. destruct n, l; [lia|lia|done|]. intros _ _. cbn. case_decide; [cbn; lia|]. destruct (fgets n l). cbn. lia. Qed.

Lemma until_nul_text l : NUL ∉ l → until_nul l = l.
Proof. induction l as [|c l IH]; [done|]. intros [Hc Hl]%not_elem_of_cons. cbn. rewrite decide_False by done. f_equal. auto. Qed.

(** Copying in pieces copies the file. *)
Lemma wp_copy_loop s (Q : list ascii → crepl → Prop) : ∀ fuel l acc, length l < fuel → NUL ∉ l → Q (acc ++ l) s → wp (copy_loop fuel l acc) Q s.
Proof.
  induction fuel as [|fuel IH]; intros l acc Hf Hn HQ; [lia|]. cbn [copy_loop]. destruct l as [|c l]; [apply wp_ret; by rewrite app_nil_r in HQ|].
  pose proof (fgets_app 1023 (c :: l)) as Heq. pose proof (fgets_pos 1023 (c :: l) ltac:(lia) ltac:(done)) as Hpos.
  destruct (fgets 1023 (c :: l)) as [p r]. cbn [fst snd] in *. rewrite <-Heq in Hn, HQ, Hf. rewrite length_app in Hf.
  rewrite until_nul_text by set_solver. apply IH; [lia|set_solver|by rewrite <-(assoc_L (++))].
Qed.

(** A line as it is typed, without its newline: text that fits the buffer. *)
Definition typed (l : list ascii) : Prop := NUL ∉ l ∧ NEWLINE ∉ l ∧ length l < 1023.

Lemma fgets_whole_line l rest : NEWLINE ∉ l → ∀ n, length l < n → fgets n (l ++ NEWLINE :: rest) = (l ++ [NEWLINE], rest).
Proof.
  induction l as [|c l IH]; intros Hl [|n] Hn; cbn in *; [lia|done|lia|].
  apply not_elem_of_cons in Hl as [Hc Hl]. rewrite decide_False by done. by rewrite IH by (done || lia).
Qed.

Lemma defs_text defs : Forall typed defs → NUL ∉ (defs ≫= λ d, d ++ [NEWLINE]).
Proof. induction 1 as [|d defs [Hd _] _ IH]; [apply not_elem_of_nil|]. cbn. set_solver. Qed.

Lemma wp_fopen c s (Q : bool → crepl → Prop) :
  (NOFILE < fds s + 1 ∨ refused (turn s) c = true → Q false s) →
  (fds s + 1 ≤ NOFILE → refused (turn s) c = false → Q true (set_fds (fds s + 1) s)) → wp (fopen NOFILE refused c) Q s.
Proof.
  intros Hf Ht. unfold fopen. wp_steps. case_decide as Hd; wp_steps; [by apply Hf|].
  apply Ht; [lia|]. destruct (refused (turn s) c); tauto.
Qed.

(** The compiler's run, with the descriptors of this turn. *)
Lemma wp_compile file s (Q : option bool → crepl → Prop) :
  (NOFILE < fds s + 2 ∨ refused (turn s) Pipe = true → Q None s) →
  (fds s + 2 ≤ NOFILE → refused (turn s) Pipe = false →
     Q (Some (gcc (fds s + 1) (file (set_fds (fds s + 2) s)))) (set_fds (fds s + 1) s)) →
  wp (compile NOFILE refused gcc file) Q s.
Proof.
  intros Hf Ht. unfold compile, pipe, close. wp_steps. case_decide as Hd; wp_steps; [by apply Hf|].
  cbn [negb]. wp_steps. cbn [fds set_fds].
  replace (fds s + 2 - 1) with (fds s + 1) by lia. apply Ht; [lia|]. destruct (refused (turn s) Pipe); tauto.
Qed.

(** Before the turn [S k]: the definitions kept, a descriptor open for every line. *)
Record between (k : nat) (defs : list (list ascii)) (s : crepl) : Prop := {
  bt_func : func_file s = defs ≫= λ d, d ++ [NEWLINE];
  bt_typed : Forall typed defs;
  bt_fds : fds s = k + 3;
  bt_turn : turn s = k
}.

Definition after_line k defs l (s : crepl) (r : option ending) (s' : crepl) : Prop :=
  r = (meaning k defs l).2 ∧ out s' = out s ++ (meaning k defs l).1.2 ∧
  (r = None → between (S k) (meaning k defs l).1.1 s').

(** The line's text, once [fgets] and the cut of its newline are done. *)
Lemma wp_cut_line l (Q : list ascii → crepl → Prop) s : typed l → Q l s →
  wp (match until_nul (l ++ [NEWLINE]) with [] => fail OutOfBounds | l => mret (take (length l - 1) l) end) Q s.
Proof.
  intros Hl HQ. rewrite until_nul_text by (destruct Hl; set_solver).
  replace (match l ++ [NEWLINE] with [] => _ | _ => _ end) with
    (mret (M := M crepl) (take (length (l ++ [NEWLINE]) - 1) (l ++ [NEWLINE]))) by (by destruct l).
  apply wp_ret. by rewrite length_app, Nat.add_sub, take_app_length.
Qed.

(** The system refuses a call of this turn. *)
Definition turned_away k l : bool :=
  bool_decide (NOFILE < k + 5) || refused (S k) Pipe ||
  (if is_definition l then refused (S k) OpenTest else refused (S k) OpenExev || refused (S k) OpenFunc).

Lemma turned_away_ends k defs l s s' : turned_away k l = true → out s' = out s → after_line k defs l s (Some (Exited 1)) s'.
Proof.
  intros Hno Ho. unfold turned_away in Hno. unfold after_line, meaning. rewrite Hno. cbn. by rewrite app_nil_r.
Qed.

Lemma turned_away_cases k l c : NOFILE < k + 5 ∨ refused (S k) c = true →
  c = Pipe ∨ (if is_definition l then c = OpenTest else c = OpenExev ∨ c = OpenFunc) → turned_away k l = true.
Proof.
  unfold turned_away. intros [Hn|Hr] Hc; [by rewrite bool_decide_true|].
  destruct Hc as [->|Hc]; [by rewrite Hr, orb_true_r|]. destruct (is_definition l); [subst c; by rewrite Hr, !orb_true_r|].
  destruct Hc as [->| ->]; rewrite Hr, ?orb_true_r; done.
Qed.

(** A definition. *)
Lemma wp_definition k defs l s : is_definition l = true → typed l → between k defs s →
  wp (do_line NOFILE refused gcc load (l ++ [NEWLINE])) (after_line k defs l s) (set_turn (S k) s).
Proof.
  intros Hdef Hl [Hf Ht Hn Hk]. unfold do_line. wp_step. apply wp_cut_line; [done|]. rewrite Hdef. unfold close, say.
  wp_step. apply wp_fopen; cbn [fds turn set_turn]; rewrite Hn.
  { intros Hno. cbn [negb]. wp_step. apply turned_away_ends; [|done]. apply (turned_away_cases _ _ OpenTest); [|rewrite Hdef; tauto].
    destruct Hno; [left; lia|by right]. }
  intros _ Hot. cbn [negb]. do 4 wp_step. cbn [set_test set_fds fds]. wp_step. apply wp_compile; cbn [set_test set_fds fds turn set_turn].
  { intros Hno. wp_steps. apply turned_away_ends; [|done]. apply (turned_away_cases _ _ Pipe); [|tauto].
    destruct Hno; [left; lia|by right]. }
  intros Hroom Hp. unfold after_line, meaning. rewrite Hdef. rewrite bool_decide_false, Hp, Hot by lia. cbn [orb].
  replace (k + 3 + 1 - 1) with (k + 3) in * by lia. cbn [set_test set_fds test_file]. replace (k + 3 + 1) with (k + 4) by lia.
  destruct (gcc (k + 4) (l ++ [NEWLINE])) eqn:Hg; cbn [negb].
  2:{ wp_steps. cbn. split; [done|]. split; [done|]. intros _. split; cbn; [done|done|lia|done]. }
  wp_step. apply wp_fopen; cbn [fds turn set_fds set_test set_turn].
  { intros [Hno|Hno]; [lia|]. wp_steps. cbn [negb]. wp_steps. rewrite Hno. cbn. by rewrite app_nil_r. }
  intros _ Hof. rewrite Hof. cbn [negb]. wp_steps. cbn. split; [done|]. split; [done|]. intros _.
  split; cbn; [|by apply Forall_app_2; [|constructor]|lia|done]. by rewrite Hf, bind_app; cbn; rewrite app_nil_r.
Qed.

(** An expression. *)
Lemma wp_expression k defs l s : is_definition l = false → typed l → between k defs s →
  wp (do_line NOFILE refused gcc load (l ++ [NEWLINE])) (after_line k defs l s) (set_turn (S k) s).
Proof.
  intros Hdef Hl [Hf Ht Hn Hk]. unfold do_line. wp_step. apply wp_cut_line; [done|]. rewrite Hdef. unfold close, say.
  wp_step. apply wp_fopen; cbn [fds turn set_turn]; rewrite Hn.
  { intros Hno. cbn [when]. wp_steps. apply wp_fopen; intros; cbn [andb negb]; wp_steps;
      (apply turned_away_ends; [|done]; apply (turned_away_cases _ _ OpenExev); [|rewrite Hdef; tauto];
       destruct Hno; [left; lia|by right]). }
  intros _ Hoe. cbn [when]. do 2 wp_step. wp_step. apply wp_fopen; cbn [fds turn set_exev set_fds set_turn].
  { intros Hno. cbn [andb negb]. wp_step. apply turned_away_ends; [|done]. apply (turned_away_cases _ _ OpenFunc); [|rewrite Hdef; tauto].
    destruct Hno; [left; lia|by right]. }
  intros _ Hof. cbn [andb negb]. do 3 wp_step. cbn [func_file set_exev set_fds set_turn].
  apply wp_copy_loop; [lia|rewrite Hf; by apply defs_text|]. cbn [app]. do 7 wp_step. cbn [set_exev set_fds fds].
  apply wp_compile; cbn [set_exev set_fds fds turn set_turn].
  { intros Hno. wp_steps. apply turned_away_ends; [|done]. apply (turned_away_cases _ _ Pipe); [|tauto].
    destruct Hno; [left; lia|by right]. }
  intros Hroom Hp. unfold after_line, meaning. rewrite Hdef. rewrite bool_decide_false, Hp, Hoe, Hof by lia. cbn [orb].
  cbn [set_exev set_fds exev_file]. rewrite Hf. fold (program defs l). replace (k + 3 + 1 + 1 - 1 - 1 + 1) with (k + 4) by lia.
  destruct (gcc (k + 4) (program defs l)) eqn:Hg; cbn [negb].
  2:{ wp_steps. cbn. split; [done|]. split; [done|]. intros _. split; cbn; [done|done|lia|done]. }
  do 2 wp_step. cbn [exev_file set_fds set_exev]. unfold evaluation.
  destruct (load (program defs l)) as [| |prints f]; [by wp_steps|by wp_steps|].
  wp_step. destruct (decide (prints = [])) as [Hpr|Hpr]; [rewrite bool_decide_false by tauto|rewrite bool_decide_true by done]; cbn [when];
    destruct f as [v|e]; wp_steps; cbn; rewrite <-?(assoc_L (++)), ?app_nil_r; (split; [done|]); (split; [done|]); intros Hr; try discriminate Hr;
    split; cbn; done || lia.
Qed.

Lemma wp_turn k defs l s : typed l → between k defs s →
  wp (do_line NOFILE refused gcc load (l ++ [NEWLINE])) (after_line k defs l s) (set_turn (S k) s).
Proof. destruct (is_definition l) eqn:Hdef; [by apply wp_definition|by apply wp_expression]. Qed.

(** The input of a user who types these lines. *)
Definition typing (lines : list (list ascii)) : list ascii := lines ≫= λ l, l ++ [NEWLINE].

Lemma wp_session : ∀ lines k defs s fuel, Forall typed lines → between k defs s → length (typing lines) < fuel →
  wp (read_loop NOFILE refused gcc load fuel (typing lines))
    (λ e s', e = (session k defs lines).2 ∧ out s' = out s ++ (session k defs lines).1) s.
Proof.
  induction lines as [|l lines IH]; intros k defs s [|fuel] Hl Hb Hfuel; [lia|..|lia|]; cbn [read_loop session].
  { unfold say. by wp_steps. }
  apply Forall_cons in Hl as [Hl Hls]. unfold say at 1. do 2 wp_step.
  change (typing (l :: lines)) with ((l ++ [NEWLINE]) ++ typing lines) in *. rewrite length_app in Hfuel.
  destruct ((l ++ [NEWLINE]) ++ typing lines) as [|c rest] eqn:E; [by destruct l|]. rewrite <-E.
  rewrite <-(assoc_L (++)). cbn [app]. rewrite fgets_whole_line by (apply Hl). cbn beta iota.
  do 3 wp_step. cbn [turn]. set (s1 := CreplState _ _ _ _ _ _).
  assert (Hb1 : between k defs s1) by (by destruct Hb).
  change (S (turn s1)) with (S (turn s)). rewrite (bt_turn _ _ _ Hb). eapply wp_mono; [by apply (wp_turn k defs l s1)|].
  intros r s2 (-> & Ho & Hnext). unfold s1 in Ho. cbn [out] in Ho.
  destruct (meaning k defs l) as [[defs1 ms] [e|]]; cbn [fst snd] in *.
  - wp_steps. split; [done|]. by rewrite Ho, <-(assoc_L (++)).
  - eapply wp_mono; [apply (IH (S k) defs1); [done|by apply Hnext|rewrite length_app in Hfuel; cbn in Hfuel; lia]|].
    intros e s3 [-> Ho3]. destruct (session (S k) defs1 lines) as [ms' e']. cbn [fst snd] in *.
    split; [done|]. by rewrite Ho3, Ho, <-!(assoc_L (++)).
Qed.

(** Every line leaves a descriptor open, so only so many are read. *)
Definition prompts (ms : list message) : nat := length (filter (λ m, m = Prompt) ms).

Lemma prompts_app l1 l2 : prompts (l1 ++ l2) = prompts l1 + prompts l2.
Proof. unfold prompts. by rewrite filter_app, length_app. Qed.

Lemma meaning_prompts k defs l : prompts (meaning k defs l).1.2 = 0.
Proof.
  unfold meaning, evaluation. repeat case_match; subst; try done. all: cbn; by repeat case_decide.
Qed.

Lemma session_prompts lines k defs : k + 4 ≤ NOFILE → prompts (session k defs lines).1 ≤ NOFILE - k - 3.
Proof.
  revert k defs. induction lines as [|l lines IH]; intros k defs Hk; cbn [session]; [change (1 ≤ NOFILE - k - 3); lia|].
  pose proof (meaning_prompts k defs l) as Hm. destruct (meaning k defs l) as [[defs1 ms] e] eqn:Hme. cbn [fst snd] in Hm.
  assert (Hc : ∀ ms, prompts (Prompt :: ms) = S (prompts ms)) by done.
  destruct e as [e|]; cbn [fst]; [rewrite Hc, Hm; lia|].
  destruct (decide (k + 5 ≤ NOFILE)) as [Hr|Hr].
  - specialize (IH (S k) defs1). destruct (session (S k) defs1 lines) as [ms' e']. cbn [fst] in *.
    rewrite Hc, prompts_app, Hm. lia.
  - unfold meaning in Hme. rewrite bool_decide_true in Hme by lia. discriminate Hme.
Qed.

Ltac try_opens :=
  cbn [when]; repeat (lazymatch goal with |- wp (_ ← mret (Exited 1); _) _ _ => fail | |- wp (fopen _ _ _) _ _ => fail | _ => wp_step end);
  try (apply wp_fopen; intros ?; intros; cbn [when andb negb]; try_opens).

End session.

(** Here a text compiles when its parentheses balance and the compiler has three
    descriptors; dividing by 0 kills the program. *)
Definition demo_lines : list (list ascii) :=
  [chars "int f() { return 1; }"; chars "f() + 1"; chars "int g("; chars "say()"; chars "1/0"; chars "2"].
Definition demo_gcc (used : nat) (text : list ascii) : bool :=
  bool_decide (used + 3 ≤ 20 ∧ length (filter (λ c, c = "("%char) text) = length (filter (λ c, c = ")"%char) text)).
Definition demo_load (text : list ascii) : library :=
  if decide ("/"%char ∈ text) then Loaded [] (Ends (Killed 8))
  else Loaded (if decide ("y"%char ∈ text) then chars "hi" else []) (Returns (Z.of_nat (length (filter (λ c, c = NEWLINE) text)))).
Definition demo_start : crepl := CreplState [] [] [] 3 0 [].

