(* ===== verification/Vme.v ===== *)
(** * Virtual memory (abstract-machine/am/src/x86/qemu/vme.c)

    The abstract machine's address spaces on x86: a page directory and its page
    tables, built in pages that the program gives.  The memory of these pages is
    a map from the address of a page to its words; every page lies in the area
    that the tables map to itself, so that an address is the same before and after
    paging is on.  The program's page allocator is an interface; what the
    processor makes of the tables is [translate]. *)
From S2P Require Import Prelude.

(** ** Constants of am.h and x86.h *)

Definition PGSIZE : Z := 4096.
Definition NR_PTE : nat := 1024.
Definition PTXSHFT : Z := 12.
Definition PDXSHFT : Z := 22.
Definition PTE_P : Z := 0x001.
Definition PTE_W : Z := 0x002.
Definition PTE_U : Z := 0x004.
Definition CR0_PG : Z := 0x80000000.
Definition PROT_NONE : Z := 1.
Definition PROT_WRITE : Z := 4.

Definition PDX (va : Z) : Z := Z.land (Z.shiftr (u32 va) PDXSHFT) 0x3ff.
Definition PTX (va : Z) : Z := Z.land (Z.shiftr (u32 va) PTXSHFT) 0x3ff.
Definition PTE_ADDR (pte : Z) : Z := Z.land (u32 pte) (u32 (Z.lnot 0xfff)).
Definition ROUNDDOWN (a sz : Z) : Z := Z.land a (u32 (Z.lnot (sz - 1))).

(** ** Areas *)

Record Area := MkArea { start : Z; end_ : Z }.
Record vm_area := VmArea { area : Area; physical : bool }.

Definition areas : list vm_area := [
  VmArea (MkArea 0x00000000 0x20000000) true; (* kernel code/data *)
  VmArea (MkArea 0x40000000 0x80000000) false; (* protected address space range *)
  VmArea (MkArea 0xf0000000 0x00000000) true (* system mmap area *)
].
Definition uvm_area : Area := MkArea 0x40000000 0x80000000.

Definition in_range (p : Z) (a : Area) : bool := bool_decide (start a ≤ p < end_ a)%Z.

(** A protected address space. *)
Record AddressSpace := MkSpace { pgsize : Z; as_area : Area; ptr : Z }.

(** ** The program's page allocator *)

(** A page of physical memory that the kernel's area covers. *)
Definition is_page (p : Z) : Prop := (p `mod` PGSIZE = 0 ∧ 0 < p < 0x20000000)%Z.

(** [holds a U]: the pages [U] are out; [room a]: how many more can go out.  An
    allocator with no room left may return a null pointer or halt. *)
Class PageAllocator (A : Type) := {
  pgalloc_usr : Z → M A Z;
  pgfree_usr : Z → M A unit;
  holds : A → gset Z → Prop;
  room : A → nat;
  pgalloc_law a U : holds a U →
    match pgalloc_usr PGSIZE a with
    | Ret (p, a') => holds a' (if decide (p = 0)%Z then U else {[p]} ∪ U) ∧
        (if decide (p = 0)%Z then room a = 0 else is_page p ∧ p ∉ U ∧ room a = S (room a'))
    | Err f => f = Halt ∧ room a = 0
    end;
  pgfree_law a U p : holds a U → p ∈ U → ∃ a', pgfree_usr p a = Ret (tt, a') ∧ holds a' (U ∖ {[p]})
}.

Record vme {A : Type} := Vme {
  frames : gmap Z (list Z); (* the words of the pages in use *)
  kpt : Z;
  cr3 : Z;
  cr0 : Z;
  pages : A
}.
Arguments vme : clear implicits.

Section vme.
Context {A : Type} `{PageAllocator A}.
#[local] Abbreviation MV := (M (vme A)).

Definition set_frames v (s : vme A) : vme A := Vme A v (kpt s) (cr3 s) (cr0 s) (pages s).
Definition set_kpt v (s : vme A) : vme A := Vme A (frames s) v (cr3 s) (cr0 s) (pages s).
Definition set_cr3 v (s : vme A) : vme A := Vme A (frames s) (kpt s) v (cr0 s) (pages s).
Definition set_cr0 v (s : vme A) : vme A := Vme A (frames s) (kpt s) (cr3 s) v (pages s).
Definition set_pages v (s : vme A) : vme A := Vme A (frames s) (kpt s) (cr3 s) (cr0 s) v.

(** [tab[i]] and [tab[i] = v] for a table at a page's address. *)
Definition rd (tab i : Z) : MV Z :=
  s ← get; l ← deref NullDeref (frames s !! tab); deref OutOfBounds (aget l i).
Definition wr (tab i v : Z) : MV unit :=
  s ← get; l ← deref NullDeref (frames s !! tab); l' ← deref OutOfBounds (aset l i v);
  modify (set_frames (<[tab := l']> (frames s))).

Definition pgalloc : MV Z :=
  ret ← zoom pages set_pages (pgalloc_usr PGSIZE);
  if decide (ret = 0)%Z then fail Halt
  else
    modify (λ s, set_frames (<[ret := replicate NR_PTE 0%Z]> (frames s)) s);;
    mret ret.

Definition pgfree (p : Z) : MV unit :=
  modify (λ s, set_frames (delete p (frames s)) s);;
  zoom pages set_pages (pgfree_usr p).

(** [for (va = from; va != to; va += step) body] on 32-bit addresses. *)
Fixpoint addr_loop (fuel : nat) (from to step : Z) (body : Z → MV unit) : MV unit :=
  match fuel with
  | O => fail OutOfFuel
  | S fuel' => if decide (from = to) then mret tt else body from;; addr_loop fuel' (u32 (from + step)) to step body
  end.
Definition addr_fuel (step : Z) : nat := Z.to_nat (2 ^ 32 / step).

(** The body of the loop of [vme_init]. *)
Definition init_page (pa : Z) : MV unit :=
  s ← get;
  pde ← rd (kpt s) (PDX pa);
  ptab ← (if decide (Z.land pde PTE_P = 0)%Z then
            t ← pgalloc;
            wr (kpt s) (PDX pa) (Z.lor (Z.lor PTE_P PTE_W) t);;
            mret t
          else mret (PTE_ADDR pde));
  wr ptab (PTX pa) (Z.lor (Z.lor PTE_P PTE_W) pa).

Definition percpu_initpg : MV unit :=
  s ← get;
  when (bool_decide (kpt s ≠ 0%Z))
    (modify (set_cr3 (kpt s));;
     modify (λ s, set_cr0 (Z.lor (cr0 s) CR0_PG) s)).

Definition vme_init (cpu : Z) : MV Z :=
  assert (bool_decide (cpu = 0)%Z);;
  k ← pgalloc;
  modify (set_kpt k);;
  for_each areas (λ seg, when (physical seg)
    (addr_loop (addr_fuel PGSIZE) (start (area seg)) (end_ (area seg)) PGSIZE init_page));;
  percpu_initpg;;
  mret 0%Z.

Definition protect : MV AddressSpace :=
  upt ← pgalloc;
  for_range 0 (Z.of_nat NR_PTE) (λ i, s ← get; e ← rd (kpt s) i; wr upt i e);;
  mret (MkSpace PGSIZE uvm_area upt).

Definition unprotect (p : AddressSpace) : MV unit :=
  addr_loop (addr_fuel (Z.shiftl 1 PDXSHFT)) (start uvm_area) (end_ uvm_area) (Z.shiftl 1 PDXSHFT) (λ va,
    pde ← rd (ptr p) (PDX va);
    when (bool_decide (Z.land pde PTE_P ≠ 0%Z)) (pgfree (PTE_ADDR pde)));;
  pgfree (ptr p).

Definition map (p : AddressSpace) (va pa prot : Z) : MV Z :=
  if decide (Z.land prot PROT_NONE ≠ 0 ∧ prot ≠ PROT_NONE)%Z then fail Halt
  else if decide (va ≠ ROUNDDOWN va PGSIZE ∨ pa ≠ ROUNDDOWN pa PGSIZE) then fail Halt
  else if negb (in_range va uvm_area) then mret 1%Z
  else
    pde ← rd (ptr p) (PDX va);
    when (bool_decide (Z.land pde PTE_P = 0%Z))
      (t ← pgalloc; wr (ptr p) (PDX va) (Z.lor (Z.lor (Z.lor PTE_P PTE_W) PTE_U) t));;
    pde ← rd (ptr p) (PDX va);
    let tab := PTE_ADDR pde in
    (if decide (Z.land prot PROT_NONE ≠ 0)%Z then wr tab (PTX va) 0%Z
     else wr tab (PTX va)
       (Z.lor (Z.lor (Z.lor PTE_P (if decide (Z.land prot PROT_WRITE ≠ 0)%Z then PTE_W else 0)) PTE_U) pa));;
    mret 0%Z.

(** ** What the processor makes of the tables *)

(** The physical address of [va] in the address space of a directory, and whether
    it can be written and reached from user code. *)
Definition translate (fr : gmap Z (list Z)) (dir va : Z) : option (Z * bool * bool) :=
  pd ← fr !! dir;
  pde ← aget pd (PDX va);
  if decide (Z.land pde PTE_P = 0)%Z then None
  else
    pt ← fr !! PTE_ADDR pde;
    pte ← aget pt (PTX va);
    if decide (Z.land pte PTE_P = 0)%Z then None
    else Some ((PTE_ADDR pte + va `mod` PGSIZE)%Z,
      bool_decide (Z.land (Z.land pde pte) PTE_W ≠ 0%Z), bool_decide (Z.land (Z.land pde pte) PTE_U ≠ 0%Z)).
End vme.
