(* ===== verification/VmeProps.v ===== *)
(** * Properties of the virtual memory

    The tables represent, for each address space, a finite map from pages to
    frames ([vm]): every operation changes that map as it should, the processor
    translates by it, and every page handed out is a table of a living space. *)
From S2P Require Import Prelude Faults Vme.

(** ** Bits of addresses and entries *)

Lemma page_mask x : (0 ≤ x < 2 ^ 32)%Z → Z.land x (u32 (Z.lnot 0xfff)) = (x - x `mod` 4096)%Z.
Proof.
  intros Hx. change 4096%Z with (2 ^ 12)%Z.
  enough (Hd : Z.land x (u32 (Z.lnot 0xfff)) = Z.ldiff x (Z.ones 12)).
  { rewrite Hd, Z.ldiff_ones_r, Z.shiftl_mul_pow2, Z.shiftr_div_pow2 by lia. pose proof (Z.div_mod x (2 ^ 12)). lia. }
  apply Z.bits_inj'. intros n Hn. rewrite Z.land_spec, Z.ldiff_spec.
  destruct (decide (n < 32)%Z) as [Hlt|Hge].
  - f_equal. unfold u32. rewrite Z.mod_pow2_bits_low, Z.lnot_spec by lia. done.
  - rewrite (Z.bits_above_log2 x n); [done|lia|]. destruct (decide (x = 0)%Z) as [->|]; [cbn; lia|].
    apply Z.log2_lt_pow2; [lia|]. apply Z.lt_le_trans with (2 ^ 32)%Z; [lia|]. apply Z.pow_le_mono_r; lia.
Qed.

Lemma PTE_ADDR_eq x : (0 ≤ x < 2 ^ 32)%Z → PTE_ADDR x = (x - x `mod` 4096)%Z.
Proof. intros. unfold PTE_ADDR. rewrite u32_small by done. by apply page_mask. Qed.

Lemma ROUNDDOWN_eq x : (0 ≤ x < 2 ^ 32)%Z → ROUNDDOWN x PGSIZE = (x - x `mod` 4096)%Z.
Proof. intros. unfold ROUNDDOWN. by apply page_mask. Qed.

Lemma PDX_eq va : (0 ≤ va < 2 ^ 32)%Z → PDX va = (va `div` 2 ^ 22)%Z.
Proof.
  intros Hva. unfold PDX. rewrite u32_small by done. change 0x3ff%Z with (Z.ones 10).
  rewrite Z.land_ones, Z.shiftr_div_pow2 by (unfold PDXSHFT; lia). unfold PDXSHFT. apply Z.mod_small.
  split; [apply Z.div_pos; lia|apply Z.div_lt_upper_bound; lia].
Qed.

Lemma PTX_eq va : (0 ≤ va < 2 ^ 32)%Z → PTX va = ((va `div` 2 ^ 12) `mod` 2 ^ 10)%Z.
Proof.
  intros Hva. unfold PTX. rewrite u32_small by done. change 0x3ff%Z with (Z.ones 10).
  by rewrite Z.land_ones, Z.shiftr_div_pow2 by (unfold PTXSHFT; lia).
Qed.

(** The number of a page and the addresses of its words. *)
Lemma page_split va : (0 ≤ va < 2 ^ 32)%Z →
  (0 ≤ PDX va < 1024)%Z ∧ (0 ≤ PTX va < 1024)%Z ∧ (va = PDX va * 2 ^ 22 + PTX va * 2 ^ 12 + va `mod` 4096)%Z.
Proof.
  intros Hva. rewrite PDX_eq, PTX_eq by done.
  pose proof (Z.div_mod va 4096). pose proof (Z.mod_pos_bound va 4096).
  pose proof (Z.div_mod (va `div` 2 ^ 12) (2 ^ 10)). pose proof (Z.mod_pos_bound (va `div` 2 ^ 12) (2 ^ 10)).
  assert (va `div` 2 ^ 22 = va `div` 2 ^ 12 `div` 2 ^ 10)%Z as Hdd by (rewrite Z.div_div by lia; done).
  change (2 ^ 12)%Z with 4096%Z in *. change (2 ^ 10)%Z with 1024%Z in *. lia.
Qed.

Lemma lor_flags p f : (p `mod` 4096 = 0 → 0 ≤ p → 0 ≤ f < 4096 → Z.lor f p = p + f)%Z.
Proof.
  intros Hp Hp0 Hf. assert (Hz : Z.land f p = 0%Z).
  { apply Z.bits_inj'. intros n Hn. rewrite Z.land_spec, Z.bits_0. destruct (decide (n < 12)%Z) as [Hlt|].
    - rewrite <-(Z.mod_pow2_bits_low p 12 n) by lia. change (2 ^ 12)%Z with 4096%Z. by rewrite Hp, Z.bits_0, andb_false_r.
    - destruct (decide (f = 0)%Z) as [->|]; [by rewrite Z.bits_0|].
      rewrite (Z.bits_above_log2 f n); [done|lia|]. apply Z.log2_lt_pow2; [lia|].
      apply Z.lt_le_trans with (2 ^ 12)%Z; [lia|]. apply Z.pow_le_mono_r; lia. }
  rewrite <-Z.lxor_lor by done. rewrite <-Z.add_nocarry_lxor by done. lia.
Qed.

Lemma land_flags p f g k : (p `mod` 2 ^ k = 0 → 0 ≤ k → 0 ≤ g < 2 ^ k → Z.land (p + f) g = Z.land f g)%Z.
Proof.
  intros Hp Hk Hg. assert (Hgk : Z.land (Z.ones k) g = g) by (rewrite Z.land_comm, Z.land_ones by lia; by apply Z.mod_small).
  rewrite <-Hgk, !Z.land_assoc, !Z.land_ones by lia. by rewrite <-Zplus_mod_idemp_l, Hp.
Qed.

(** ** Tables *)

(** The words of a page, from a function. *)
Definition table (f : Z → Z) : list Z := f <$> seqZ 0 1024.

Lemma table_length f : length (table f) = 1024.
Proof. unfold table. by rewrite length_fmap, length_seqZ. Qed.

Lemma ptable_get f i : (0 ≤ i < 1024)%Z → aget (table f) i = Some (f i).
Proof.
  intros Hi. unfold aget, table. rewrite decide_True by lia. rewrite list_lookup_fmap, lookup_seqZ_lt by lia.
  cbn. f_equal. f_equal. lia.
Qed.

Lemma table_ext f g : (∀ i, (0 ≤ i < 1024)%Z → f i = g i) → table f = table g.
Proof. intros He. apply list_fmap_ext. intros k i Hk%lookup_seqZ. apply He. lia. Qed.

Lemma table_set f i v : (0 ≤ i < 1024)%Z → aset (table f) i v = Some (table (λ j, if decide (j = i) then v else f j)).
Proof.
  intros Hi. unfold aset. rewrite table_length, decide_True by lia. f_equal. apply list_eq. intros k. unfold table.
  destruct (decide (k = Z.to_nat i)) as [->|Hk].
  - rewrite list_lookup_insert_eq by (rewrite length_fmap, length_seqZ; lia).
    rewrite list_lookup_fmap, lookup_seqZ_lt by lia. cbn. rewrite decide_True by lia. done.
  - rewrite list_lookup_insert_ne by done. rewrite !list_lookup_fmap. destruct (seqZ 0 1024 !! k) as [j|] eqn:Hj; [|done].
    apply lookup_seqZ in Hj as [-> ?]. cbn. rewrite decide_False by lia. done.
Qed.

Lemma table_zero : replicate NR_PTE 0%Z = table (λ _, 0%Z).
Proof. reflexivity. Qed.

(** ** What the tables represent *)

(** The pages of a space, each with its frame and whether it can be written. *)
Abbreviation mapping := (gmap Z (Z * bool)).

(** What a page is used for: the kernel's directory, its table for a directory
    index, a space's directory, its table for an index. *)
Inductive kind := KDir | KTab (i : Z) | Dir | Tab (d i : Z).

#[export] Instance kind_eq_dec : EqDecision kind.
Proof. solve_decision. Defined.

Record ghost := Ghost {
  own : gmap Z kind;
  ktabs : gmap Z Z;
  kmap : Z → bool; (* the kernel's page numbers *)
  tabs : gmap (Z * Z) Z;
  spaces : gmap Z mapping
}.

Definition user (i : Z) : Prop := (256 ≤ i < 512)%Z.
#[export] Instance user_dec i : Decision (user i).
Proof. unfold user. apply _. Defined.

Definition pte_of (o : option (Z * bool)) : Z :=
  match o with Some (pa, w) => (pa + if (w : bool) then 7 else 5)%Z | None => 0%Z end.
Definition page_of (i j : Z) : Z := (i * 2 ^ 22 + j * 2 ^ 12)%Z.

Definition kentry (g : ghost) (i : Z) : Z := from_option (λ t, t + 3)%Z 0%Z (ktabs g !! i).
Definition entry (g : ghost) (p : Z) (k : kind) (i : Z) : Z :=
  match k with
  | KDir => kentry g i
  | KTab i0 => if kmap g (i0 * 1024 + i)%Z then (page_of i0 i + 3)%Z else 0%Z
  | Dir => if decide (user i) then from_option (λ t, t + 7)%Z 0%Z (tabs g !! (p, i)) else kentry g i
  | Tab d i0 => pte_of (spaces g !! d ≫= λ m, m !! page_of i0 i)
  end.

Section vme.
Context {A : Type} `{PageAllocator A}.
Implicit Types (s : vme A) (g : ghost).

Record vm g s : Prop := {
  v_frames p : frames s !! p = (λ k, table (entry g p k)) <$> own g !! p;
  v_holds : holds (pages s) (dom (own g));
  v_page p k : own g !! p = Some k → is_page p;
  v_kdir p : own g !! p = Some KDir ↔ p = kpt s;
  v_ktabs i t : own g !! t = Some (KTab i) ↔ ktabs g !! i = Some t;
  v_dirs d : own g !! d = Some Dir ↔ is_Some (spaces g !! d);
  v_tabs d i t : own g !! t = Some (Tab d i) ↔ tabs g !! (d, i) = Some t;
  v_ktab i t : ktabs g !! i = Some t → (0 ≤ i < 128 ∨ 960 ≤ i < 1024)%Z;
  v_kmap n : kmap g n = true → is_Some (ktabs g !! (n `div` 1024)%Z);
  v_tab d i t : tabs g !! (d, i) = Some t → is_Some (spaces g !! d) ∧ user i;
  v_map d m va pa w : spaces g !! d = Some m → m !! va = Some (pa, w) →
    (va `mod` 4096 = 0 ∧ 0x40000000 ≤ va < 0x80000000 ∧ pa `mod` 4096 = 0 ∧ 0 ≤ pa < 2 ^ 32)%Z ∧ is_Some (tabs g !! (d, PDX va))
}.

(** The translation in a space that maps [m] over the kernel's pages [km]. *)
Definition expected (km : Z → bool) (m : mapping) (va : Z) : option (Z * bool * bool) :=
  if decide (0x40000000 ≤ va < 0x80000000)%Z
  then (λ '(pa, w), ((pa + va `mod` 4096)%Z, w, true)) <$> m !! (va - va `mod` 4096)%Z
  else if km (va `div` 4096)%Z then Some (va, true, false) else None.

Lemma entry_page p f : is_page p → (0 ≤ f < 4096)%Z → PTE_ADDR (p + f) = p.
Proof.
  intros [Hp Hr] Hf. unfold PGSIZE in Hp. rewrite PTE_ADDR_eq by lia.
  rewrite <-Zplus_mod_idemp_l, Hp, Z.mod_small; lia.
Qed.

Lemma flag_and p q a b c : (p `mod` 4096 = 0 → q `mod` 4096 = 0 → 0 ≤ c < 4096 →
  Z.land (Z.land (p + a) (q + b)) c = Z.land (Z.land a b) c)%Z.
Proof.
  intros Hp Hq Hc. assert (0 ≤ Z.land b c < 4096)%Z.
  { replace (Z.land b c) with (Z.land b c `mod` 2 ^ 12)%Z; [apply Z.mod_pos_bound; lia|].
    rewrite <-Z.land_ones, <-Z.land_assoc, (Z.land_ones c 12), Z.mod_small by (done || lia). done. }
  rewrite <-!Z.land_assoc, (land_flags q b c 12), (land_flags p a _ 12) by (done || lia). done.
Qed.

Lemma translate_absent fr dir va f : (0 ≤ va < 2 ^ 32)%Z →
  fr !! dir = Some (table f) → f (PDX va) = 0%Z → translate fr dir va = None.
Proof.
  intros Hva Hd Hf. destruct (page_split va Hva) as (Hi & _ & _). unfold translate.
  rewrite Hd. cbn. rewrite ptable_get, Hf by done. done.
Qed.

Lemma translate_present fr dir va f t fl h : (0 ≤ va < 2 ^ 32)%Z →
  fr !! dir = Some (table f) → f (PDX va) = (t + fl)%Z → is_page t → (0 ≤ fl < 4096)%Z → Z.land fl 1 = 1%Z →
  fr !! t = Some (table h) →
  (h (PTX va) = 0%Z → translate fr dir va = None) ∧
  (∀ q fl', h (PTX va) = (q + fl')%Z → (q `mod` 4096 = 0 ∧ 0 ≤ q < 2 ^ 32)%Z → (0 ≤ fl' < 4096)%Z → Z.land fl' 1 = 1%Z →
    translate fr dir va = Some ((q + va `mod` 4096)%Z, bool_decide (Z.land (Z.land fl fl') 2 ≠ 0%Z), bool_decide (Z.land (Z.land fl fl') 4 ≠ 0%Z))).
Proof.
  intros Hva Hd Hf Ht Hfl Hp Hh. destruct (page_split va Hva) as (Hi & Hj & _).
  assert (Htm : (t `mod` 4096 = 0)%Z) by apply Ht.
  unfold translate. rewrite Hd. cbn. rewrite ptable_get, Hf by done. cbn.
  rewrite (land_flags t fl PTE_P 12) by (done || lia). unfold PTE_P. rewrite Hp. rewrite decide_False by done.
  rewrite entry_page, Hh by done. cbn. rewrite ptable_get by done. cbn. split.
  - intros ->. done.
  - intros q fl' -> [Hq Hqr] Hfl' Hp'. rewrite (land_flags q fl' 1 12) by (done || lia). rewrite Hp'. rewrite decide_False by done.
    pose proof (Z.div_mod q 4096). rewrite PTE_ADDR_eq by lia. rewrite <-(Zplus_mod_idemp_l q), Hq, (Z.mod_small fl') by done.
    unfold PTE_W, PTE_U. rewrite !flag_and by (done || lia). f_equal. f_equal. f_equal. unfold PGSIZE. lia.
Qed.

Lemma page_of_eq va : (0 ≤ va < 2 ^ 32)%Z → page_of (PDX va) (PTX va) = (va - va `mod` 4096)%Z.
Proof. intros Hva. unfold page_of. destruct (page_split va Hva) as (_ & _ & ?). lia. Qed.

Lemma page_of_bounds i j : (0 ≤ i < 1024)%Z → (0 ≤ j < 1024)%Z → (page_of i j `mod` 4096 = 0 ∧ 0 ≤ page_of i j < 2 ^ 32)%Z.
Proof.
  intros Hi Hj. unfold page_of. split; [|lia].
  replace (i * 2 ^ 22 + j * 2 ^ 12)%Z with ((i * 1024 + j) * 4096)%Z by lia. apply Z.mod_mul. lia.
Qed.

Lemma page_number va : (0 ≤ va < 2 ^ 32)%Z → (PDX va * 1024 + PTX va = va `div` 4096)%Z.
Proof. intros Hva. destruct (page_split va Hva) as (_ & _ & Hs). pose proof (Z.div_mod va 4096). pose proof (Z.mod_pos_bound va 4096). lia. Qed.

Lemma page_dir va : (0 ≤ va < 2 ^ 32)%Z → (va `div` 4096 `div` 1024 = PDX va)%Z.
Proof. intros Hva. rewrite PDX_eq, Z.div_div by lia. done. Qed.

Lemma user_area va : (0 ≤ va < 2 ^ 32)%Z → user (PDX va) ↔ (0x40000000 ≤ va < 0x80000000)%Z.
Proof. intros Hva. unfold user. destruct (page_split va Hva) as (? & ? & Hs). pose proof (Z.mod_pos_bound va 4096). lia. Qed.

Lemma page_used g s p k : vm g s → own g !! p = Some k → frames s !! p = Some (table (entry g p k)) ∧ is_page p.
Proof. intros Hv Hp. split; [by rewrite (v_frames _ _ Hv), Hp|by eapply v_page]. Qed.

(** The kernel's part of any directory. *)
Lemma translate_kernel g s dir k va : vm g s → own g !! dir = Some k → (0 ≤ va < 2 ^ 32)%Z →
  entry g dir k (PDX va) = kentry g (PDX va) →
  translate (frames s) dir va = if kmap g (va `div` 4096)%Z then Some (va, true, false) else None.
Proof.
  intros Hv Hd Hva He. destruct (page_used _ _ _ _ Hv Hd) as [Hf Hpg]. destruct (page_split va Hva) as (Hi & Hj & Hs).
  unfold kentry in He. destruct (ktabs g !! PDX va) as [t|] eqn:Ht; cbn in He.
  - pose proof (proj2 (v_ktabs _ _ Hv _ _) Ht) as Hown. destruct (page_used _ _ _ _ Hv Hown) as [Hft Hpt].
    destruct (translate_present _ _ va _ t 3%Z _ Hva Hf He Hpt ltac:(lia) eq_refl Hft) as [Hno Hyes]. cbn [entry] in Hno, Hyes.
    rewrite page_number in Hno, Hyes by done. destruct (kmap g (va `div` 4096)%Z); [|by apply Hno].
    rewrite (Hyes _ 3%Z eq_refl (page_of_bounds _ _ Hi Hj) ltac:(lia) eq_refl), page_of_eq by done.
    replace (va - va `mod` 4096 + va `mod` 4096)%Z with va by lia. done.
  - rewrite (translate_absent _ _ va _ Hva Hf He). destruct (kmap g _) eqn:Hk; [|done].
    apply (v_kmap _ _ Hv) in Hk. rewrite page_dir, Ht in Hk by done. by destruct Hk.
Qed.

Lemma translate_space g s d m va : vm g s → spaces g !! d = Some m → (0 ≤ va < 2 ^ 32)%Z →
  translate (frames s) d va = expected (kmap g) m va.
Proof.
  intros Hv Hm Hva. assert (Hd : own g !! d = Some Dir) by (apply (v_dirs _ _ Hv); by eexists).
  unfold expected. case_decide as Hu.
  2:{ apply (translate_kernel g s d Dir); [done..|]. cbn [entry]. rewrite decide_False; [done|]. by rewrite user_area. }
  destruct (page_used _ _ _ _ Hv Hd) as [Hf Hpg]. destruct (page_split va Hva) as (Hi & Hj & Hs).
  assert (He : entry g d Dir (PDX va) = from_option (λ t, t + 7)%Z 0%Z (tabs g !! (d, PDX va)))
    by (cbn [entry]; rewrite decide_True; [done|by apply user_area]).
  rewrite <-page_of_eq by done. destruct (tabs g !! (d, PDX va)) as [t|] eqn:Ht; cbn in He.
  - pose proof (proj2 (v_tabs _ _ Hv _ _ _) Ht) as Hown. destruct (page_used _ _ _ _ Hv Hown) as [Hft Hpt].
    destruct (translate_present _ _ va _ t 7%Z _ Hva Hf He Hpt ltac:(lia) eq_refl Hft) as [Hno Hyes].
    cbn [entry] in Hno, Hyes. rewrite Hm in Hno, Hyes. cbn in Hno, Hyes.
    destruct (m !! page_of (PDX va) (PTX va)) as [[pa w]|] eqn:Hl; cbn in *; [|by apply Hno].
    destruct (v_map _ _ Hv _ _ _ _ _ Hm Hl) as [(_ & _ & ? & ?) _].
    rewrite (Hyes pa _ eq_refl ltac:(done)) by (destruct w; (lia || done)). by destruct w.
  - rewrite (translate_absent _ _ va _ Hva Hf He). destruct (m !! page_of _ _) as [[pa w]|] eqn:Hl; [|done]. exfalso.
    destruct (v_map _ _ Hv _ _ _ _ _ Hm Hl) as [_ Hx]. rewrite page_of_eq in Hx by done.
    replace (PDX (va - va `mod` 4096)) with (PDX va) in Hx; [rewrite Ht in Hx; by destruct Hx|].
    pose proof (Z.mod_pos_bound va 4096). pose proof (Z.mod_le va 4096). rewrite !PDX_eq by lia.
    pose proof (Z.div_mod va 4096). replace (va - va `mod` 4096)%Z with (va `div` 4096 * 4096)%Z by lia.
    change (2 ^ 22)%Z with (4096 * 1024)%Z. rewrite <-!Z.div_div, Z.div_mul by lia. done.
Qed.

(** ** Reading and writing tables *)

Lemma wp_vrd tab f i (Q : Z → vme A → Prop) s :
  frames s !! tab = Some (table f) → (0 ≤ i < 1024)%Z → Q (f i) s → wp (rd tab i) Q s.
Proof.
  intros Hf Hi HQ. unfold rd. wp_step. wp_step. wp_step.
  eapply wp_deref; [done|]. eapply wp_deref; [by apply ptable_get|done].
Qed.

Lemma wp_vwr tab f i v (Q : unit → vme A → Prop) s :
  frames s !! tab = Some (table f) → (0 ≤ i < 1024)%Z →
  Q tt (set_frames (<[tab := table (λ j, if decide (j = i) then v else f j)]> (frames s)) s) → wp (wr tab i v) Q s.
Proof.
  intros Hf Hi HQ. unfold wr. wp_step. wp_step. wp_step.
  eapply wp_deref; [done|]. wp_step. eapply wp_deref; [by apply table_set|]. by wp_step.
Qed.

(** The fault of an allocation when the allocator of [s] has no room. *)
Definition no_room s (f : fault) : Prop := f = Halt ∧ room (pages s) = 0.

Lemma wpe_pgalloc U s (Q : Z → vme A → Prop) : holds (pages s) U →
  (∀ t a', is_page t → t ∉ U → holds a' ({[t]} ∪ U) → room (pages s) = S (room a') →
    Q t (set_frames (<[t := table (λ _, 0%Z)]> (frames s)) (set_pages a' s))) → wpe (no_room s) pgalloc Q s.
Proof.
  intros Hh HQ. pose proof (pgalloc_law _ _ Hh) as Hl. unfold pgalloc. apply wpe_bind.
  unfold wpe, zoom at 1. destruct (pgalloc_usr PGSIZE (pages s)) as [[t a']|f]; [|done].
  destruct Hl as [Hh' Hl]. case_decide as Ht; [done|]. destruct Hl as (Hp & Hn & Hr).
  rewrite table_zero. by apply HQ.
Qed.

Lemma wp_pgfree U p s (Q : unit → vme A → Prop) : holds (pages s) U → p ∈ U →
  (∀ a', holds a' (U ∖ {[p]}) → Q tt (set_pages a' (set_frames (delete p (frames s)) s))) → wp (pgfree p) Q s.
Proof.
  intros Hh Hp HQ. destruct (pgfree_law _ _ _ Hh Hp) as (a' & Hrun & Hh'). unfold pgfree. wp_steps.
  unfold wp, zoom. cbn. rewrite Hrun. by apply HQ.
Qed.

Lemma page_of_inj i j i' j' : (0 ≤ j < 1024)%Z → (0 ≤ j' < 1024)%Z → page_of i j = page_of i' j' → i = i' ∧ j = j'.
Proof. unfold page_of. lia. Qed.

Lemma PDX_page_of i j : (0 ≤ i < 1024)%Z → (0 ≤ j < 1024)%Z → PDX (page_of i j) = i.
Proof.
  intros Hi Hj. pose proof (page_of_bounds i j Hi Hj) as [_ Hb]. rewrite PDX_eq by done. unfold page_of.
  symmetry. apply (Z.div_unique _ _ _ (j * 2 ^ 12)); lia.
Qed.

(** ** A table for a part of a space *)

Definition with_tab (d i t : Z) g : ghost :=
  Ghost (<[t := Tab d i]> (own g)) (ktabs g) (kmap g) (<[(d, i) := t]> (tabs g)) (spaces g).

Lemma vm_with_tab g s d m i t a' : vm g s → spaces g !! d = Some m → user i → tabs g !! (d, i) = None →
  is_page t → t ∉ dom (own g) → holds a' ({[t]} ∪ dom (own g)) →
  vm (with_tab d i t g) (set_frames (<[d := table (λ j, if decide (j = i) then (t + 7)%Z else entry g d Dir j)]>
    (<[t := table (λ _, 0%Z)]> (frames s))) (set_pages a' s)).
Proof.
  intros Hv Hm Hu Hno Hpt Hfresh Hh. rewrite not_elem_of_dom in Hfresh.
  assert (Hd : own g !! d = Some Dir) by (apply (v_dirs _ _ Hv); by eexists).
  assert (Htd : t ≠ d) by congruence.
  split; cbn [own ktabs kmap tabs spaces with_tab frames set_frames pages set_pages kpt].
  - intros p. destruct (decide (p = d)) as [->|Hpd].
    { rewrite lookup_insert_eq, lookup_insert_ne, Hd by done. cbn. f_equal. apply table_ext. intros j Hj. cbn.
      case_decide as Hji.
      - subst j. rewrite decide_True, lookup_insert_eq by done. done.
      - case_decide; [|done]. by rewrite lookup_insert_ne by congruence. }
    rewrite lookup_insert_ne by done. destruct (decide (p = t)) as [->|Hpt'].
    { rewrite !lookup_insert_eq. cbn. f_equal. apply table_ext. intros j Hj. cbn. rewrite Hm. cbn.
      destruct (m !! page_of i j) as [[pa w]|] eqn:Hl; [|done]. exfalso.
      destruct (v_map _ _ Hv _ _ _ _ _ Hm Hl) as [_ [x Hx]]. unfold user in Hu.
      rewrite PDX_page_of in Hx by lia. congruence. }
    rewrite !lookup_insert_ne, (v_frames _ _ Hv) by done. destruct (own g !! p) as [k|] eqn:Hk; [|done]. cbn. f_equal.
    apply table_ext. intros j Hj. destruct k; cbn; [done|done| |done].
    case_decide; [|done]. by rewrite lookup_insert_ne by congruence.
  - by rewrite dom_insert_L.
  - intros p k [[<- <-]|[_ Hk]]%lookup_insert_Some; [done|by eapply v_page].
  - intros p. rewrite <-(v_kdir _ _ Hv). destruct (decide (p = t)) as [->|]; [|by rewrite lookup_insert_ne].
    rewrite lookup_insert_eq. split; [done|congruence].
  - intros i0 p. rewrite <-(v_ktabs _ _ Hv). destruct (decide (p = t)) as [->|]; [|by rewrite lookup_insert_ne].
    rewrite lookup_insert_eq. split; [done|congruence].
  - intros p. rewrite <-(v_dirs _ _ Hv). destruct (decide (p = t)) as [->|]; [|by rewrite lookup_insert_ne].
    rewrite lookup_insert_eq. split; [done|congruence].
  - intros d0 i0 p. rewrite !lookup_insert_Some, (v_tabs _ _ Hv). split.
    + intros [[-> [= -> ->]]|[? Hx]]; [by left|]. right. split; [congruence|done].
    + intros [[[= -> ->] ->]|[? Hx]]; [by left|]. right. split; [|done]. intros <-.
      apply (v_tabs _ _ Hv) in Hx. congruence.
  - apply (v_ktab _ _ Hv).
  - apply (v_kmap _ _ Hv).
  - intros d0 i0 p [[[= <- <-] <-]|[_ Hx]]%lookup_insert_Some; [by split|by eapply v_tab].
  - intros d0 m0 va pa w Hm0 Hl. destruct (v_map _ _ Hv _ _ _ _ _ Hm0 Hl) as [? [x Hx]]. split; [done|].
    rewrite lookup_insert. case_decide; by eexists.
Qed.

(** ** An entry of a space's table *)

Definition with_space (d : Z) (m : mapping) g : ghost :=
  Ghost (own g) (ktabs g) (kmap g) (tabs g) (<[d := m]> (spaces g)).

Lemma vm_with_entry g s d m i j t x : vm g s → spaces g !! d = Some m → tabs g !! (d, i) = Some t → (0 ≤ j < 1024)%Z →
  (∀ pa w, x = Some (pa, w) → pa `mod` 4096 = 0 ∧ 0 ≤ pa < 2 ^ 32)%Z →
  vm (with_space d (partial_alter (λ _, x) (page_of i j) m) g)
    (set_frames (<[t := table (λ k, if decide (k = j) then pte_of x else entry g t (Tab d i) k)]> (frames s)) s).
Proof.
  intros Hv Hm Ht Hj Hx. pose proof (proj2 (v_tabs _ _ Hv _ _ _) Ht) as Hown.
  destruct (v_tab _ _ Hv _ _ _ Ht) as [_ Hu]. unfold user in Hu.
  split; cbn [own ktabs kmap tabs spaces with_space frames set_frames pages set_pages kpt].
  - intros p. destruct (decide (p = t)) as [->|Hpt].
    { rewrite lookup_insert_eq, Hown. cbn. f_equal. apply table_ext. intros k Hk. cbn.
      rewrite lookup_insert_eq, Hm. cbn. case_decide as Hkj.
      - subst k. by rewrite lookup_partial_alter_eq.
      - rewrite lookup_partial_alter_ne; [done|]. intros ?%page_of_inj; [|done..]. naive_solver. }
    rewrite lookup_insert_ne, (v_frames _ _ Hv) by done. destruct (own g !! p) as [k|] eqn:Hk; [|done]. cbn. f_equal.
    apply table_ext. intros q Hq. destruct k as [| | |d0 i0]; cbn; [done..|].
    destruct (decide (d0 = d)) as [->|]; [|by rewrite lookup_insert_ne].
    rewrite lookup_insert_eq, Hm. cbn. rewrite lookup_partial_alter_ne; [done|]. intros [-> ->]%page_of_inj; [|done..].
    apply (v_tabs _ _ Hv) in Hk. congruence.
  - apply (v_holds _ _ Hv).
  - apply (v_page _ _ Hv).
  - apply (v_kdir _ _ Hv).
  - apply (v_ktabs _ _ Hv).
  - intros d0. rewrite (v_dirs _ _ Hv), lookup_insert. case_decide; [subst|done]. rewrite Hm. naive_solver.
  - apply (v_tabs _ _ Hv).
  - apply (v_ktab _ _ Hv).
  - apply (v_kmap _ _ Hv).
  - intros d0 i0 p Hp. destruct (v_tab _ _ Hv _ _ _ Hp) as [Hs ?]. split; [|done]. rewrite lookup_insert. by case_decide.
  - intros d0 m0 va pa w [[<- <-]|[Hne Hm0]]%lookup_insert_Some Hl; [|by eapply v_map].
    destruct (decide (va = page_of i j)) as [->|]; [|rewrite lookup_partial_alter_ne in Hl by done; by eapply v_map].
    rewrite lookup_partial_alter_eq in Hl. destruct (Hx _ _ Hl) as [? ?].
    destruct (page_of_bounds i j ltac:(lia) Hj) as [? ?]. rewrite PDX_page_of by lia. split; [|by eexists].
    split_and!; [done|unfold page_of; lia..|done|lia|lia].
Qed.

(** ** Loops over addresses *)

Lemma addr_loop_for_each to step body : ∀ n fuel from k s, n < fuel →
  (∀ j, (k ≤ j < k + Z.of_nat n)%Z → u32 (from + j * step) ≠ to) → u32 (from + (k + Z.of_nat n) * step) = to →
  addr_loop (A := A) fuel (u32 (from + k * step)) to step body s =
    for_each (seqZ k (Z.of_nat n)) (λ j, body (u32 (from + j * step))) s.
Proof.
  induction n as [|n IH]; intros [|fuel] from k s Hf Hne Hto; [lia|..|lia|]; cbn [addr_loop].
  - rewrite decide_True by (rewrite <-Hto; do 2 f_equal; lia). done.
  - rewrite decide_False by (apply Hne; lia). rewrite seqZ_cons by lia. cbn [for_each].
    unfold mbind, M_bind. destruct (body _ s) as [[[] s1]|]; [|done].
    replace (u32 (u32 (from + k * step) + step)) with (u32 (from + (k + 1) * step)).
    2:{ unfold u32. rewrite Zplus_mod_idemp_l. f_equal. lia. }
    replace (Z.pred (Z.of_nat (S n))) with (Z.of_nat n) by lia.
    apply IH; [lia|intros j Hj; apply Hne; lia|]. rewrite <-Hto. do 2 f_equal. lia.
Qed.

Lemma wp_addr_loop (I : Z → vme A → Prop) fuel from to step n body (Q : unit → vme A → Prop) s :
  (0 ≤ n < Z.of_nat fuel)%Z → (0 ≤ from < 2 ^ 32)%Z →
  (∀ j, (0 ≤ j < n)%Z → u32 (from + j * step) ≠ to) → u32 (from + n * step) = to →
  I 0%Z s → (∀ k s', (0 ≤ k < n)%Z → I k s' → wp (body (u32 (from + k * step))) (λ _ s'', I (k + 1)%Z s'') s') →
  (∀ s', I n s' → Q tt s') → wp (addr_loop fuel from to step body) Q s.
Proof.
  intros Hn Hfrom Hne Hto H0 Hstep HQ.
  pose proof (addr_loop_for_each to step body (Z.to_nat n) fuel from 0 s ltac:(lia)) as Heq.
  rewrite Z.mul_0_l, Z.add_0_r, (u32_small from) in Heq by done. unfold wp. rewrite Heq.
  - rewrite Z2Nat.id by lia. replace (seqZ 0 n) with (seqZ 0 (n - 0)) by (f_equal; lia).
    fold (for_range 0 n (λ j, body (u32 (from + j * step)))). eapply (wp_mono (for_range _ _ _) (λ _ s', I n s')); [|by intros []].
    apply (wp_for_range I); [lia|done|]. intros k s' Hk HI. apply Hstep; [lia|done].
  - intros j Hj. apply Hne. lia.
  - rewrite <-Hto. by rewrite Z.add_0_l, Z2Nat.id by lia.
Qed.

End vme.
