(* ===== verification/VmeSpaces.v ===== *)
(** * Address spaces: their operations and their lives

    Each operation of vme.c against the maps it works on ([vm] of VmeProps.v), and
    what follows for every sequence of operations. *)
From S2P Require Import Prelude Faults Vme VmeProps.

Section spaces.
Context {A : Type} `{PageAllocator A}.
Implicit Types (s : vme A) (g : ghost).

(** What operations on spaces leave of the kernel's part. *)
Definition same_kernel g s g' s' : Prop :=
  ktabs g' = ktabs g ∧ kmap g' = kmap g ∧ kpt s' = kpt s.

(** ** [map] *)

(** The entry that [map] makes; [None] takes a page out. *)
Definition new_entry (pa prot : Z) : option (Z * bool) :=
  if decide (Z.land prot PROT_NONE ≠ 0)%Z then None else Some (pa, bool_decide (Z.land prot PROT_WRITE ≠ 0%Z)).

Definition bad_map (va pa prot : Z) : Prop :=
  (Z.land prot PROT_NONE ≠ 0 ∧ prot ≠ PROT_NONE ∨ va `mod` PGSIZE ≠ 0 ∨ pa `mod` PGSIZE ≠ 0)%Z.

Lemma map_panics p va pa prot s : (0 ≤ va < 2 ^ 32)%Z → (0 ≤ pa < 2 ^ 32)%Z →
  bad_map va pa prot → map p va pa prot s = Err Halt.
Proof.
  intros Hva Hpa Hbad. unfold map. case_decide as Hprot; [done|]. rewrite !ROUNDDOWN_eq by done.
  rewrite decide_True; [done|]. unfold bad_map, PGSIZE in Hbad. destruct Hbad as [|[?|?]]; [tauto|left; lia|right; lia].
Qed.

Lemma pde_present t : is_page t → Z.land (t + 7) PTE_P ≠ 0%Z.
Proof. intros [Ht _]. unfold PTE_P. by rewrite (land_flags t 7 1 12). Qed.

Lemma page_range p : is_page p → (0 ≤ p)%Z ∧ (p `mod` 4096 = 0)%Z.
Proof. intros [? ?]. unfold PGSIZE in *. lia. Qed.

Lemma dir_entry g d i : user i → entry g d Dir i = from_option (λ t, t + 7)%Z 0%Z (tabs g !! (d, i)).
Proof. intros Hu. cbn. by rewrite decide_True. Qed.

(** A table for the address is there when the entry is made. *)
Lemma wpe_need_table E g s d m i (Q : unit → vme A → Prop) :
  vm g s → spaces g !! d = Some m → user i → (∀ f, no_room s f → E f) →
  (∀ g' s' t, vm g' s' → same_kernel g s g' s' → spaces g' = spaces g → tabs g' !! (d, i) = Some t → Q tt s') →
  wpe E (pde ← rd d i;
    when (bool_decide (Z.land pde PTE_P = 0%Z)) (t ← pgalloc; wr d i (Z.lor (Z.lor (Z.lor PTE_P PTE_W) PTE_U) t))) Q s.
Proof.
  intros Hv Hm Hu HE HQ. assert (Hd : own g !! d = Some Dir) by (apply (v_dirs _ _ Hv); by eexists).
  assert (Hi : (0 ≤ i < 1024)%Z) by (unfold user in Hu; lia).
  destruct (page_used _ _ _ _ Hv Hd) as [Hf _]. apply wpe_bind, wp_wpe. apply (wp_vrd _ _ _ _ _ Hf Hi).
  rewrite dir_entry by done. destruct (tabs g !! (d, i)) as [t|] eqn:Ht; cbn [from_option].
  - pose proof (proj2 (v_tabs _ _ Hv _ _ _) Ht) as Hown. destruct (page_used _ _ _ _ Hv Hown) as [_ Hpt].
    rewrite bool_decide_eq_false_2 by (by apply pde_present). by apply (HQ g s t).
  - rewrite bool_decide_eq_true_2 by done. cbn [when]. apply wpe_bind.
    assert (Hmono : ∀ Q', wpe (no_room s) pgalloc Q' s → wpe E pgalloc Q' s).
    { intros Q'. unfold wpe. destruct (pgalloc s) as [[]|]; auto. }
    apply Hmono. eapply wpe_pgalloc; [apply (v_holds _ _ Hv)|]. intros t a' Hpt Hfresh Hh Hr. apply wp_wpe.
    assert (t ≠ d) by (intros ->; apply Hfresh, elem_of_dom; by eexists).
    eapply wp_vwr; [cbn; rewrite lookup_insert_ne by done; exact Hf|done|].
    destruct (page_range _ Hpt) as [Ht0 Htm]. change (Z.lor (Z.lor PTE_P PTE_W) PTE_U) with 7%Z. rewrite lor_flags by (done || lia).
    eapply (HQ (with_tab d i t g) _ t); [by eapply vm_with_tab|done|done|]. cbn. by rewrite lookup_insert_eq.
Qed.

Lemma wpe_map E g s d m va pa prot (Q : Z → vme A → Prop) : vm g s → spaces g !! d = Some m →
  (0 ≤ va < 2 ^ 32)%Z → (0 ≤ pa < 2 ^ 32)%Z → ¬ bad_map va pa prot → (∀ f, no_room s f → E f) →
  (∀ r g' s', vm g' s' → same_kernel g s g' s' →
    (if in_range va uvm_area then r = 0%Z ∧ spaces g' = <[d := partial_alter (λ _, new_entry pa prot) va m]> (spaces g)
     else r = 1%Z ∧ spaces g' = spaces g) → Q r s') →
  wpe E (map (MkSpace PGSIZE uvm_area d) va pa prot) Q s.
Proof.
  intros Hv Hm Hva Hpa Hok HE HQ. unfold map. cbn [ptr]. unfold bad_map in Hok.
  rewrite decide_False by tauto. rewrite !ROUNDDOWN_eq by done. unfold PGSIZE in Hok.
  assert (Hvm : (va `mod` 4096 = 0)%Z) by lia. assert (Hpm : (pa `mod` 4096 = 0)%Z) by lia.
  rewrite decide_False by lia. destruct (in_range va uvm_area) eqn:Hin; cbn [negb]; [|by apply (HQ 1%Z g s)].
  unfold in_range, uvm_area in Hin. apply bool_decide_eq_true in Hin. cbn in Hin. rewrite <-user_area in Hin by done.
  assert (Hassoc : ∀ B C (x : M (vme A) B) (y : B → M (vme A) unit) (z : M (vme A) C) Q',
    wpe E (x ≫= y) (λ _ s', wpe E z Q' s') s → wpe E (a ← x; y a;; z) Q' s).
  { intros B C x y z Q'. unfold wpe, mbind, M_bind. destruct (x s) as [[b s1]|]; [|done]. by destruct (y b s1) as [[[] s2]|]. }
  apply Hassoc. eapply wpe_need_table; [done..|]. intros g1 s1 t Hv1 Hk1 Hs1 Ht1. rewrite <-Hs1 in Hm.
  assert (Hd : own g1 !! d = Some Dir) by (apply (v_dirs _ _ Hv1); by eexists).
  destruct (page_used _ _ _ _ Hv1 Hd) as [Hf _]. pose proof (proj2 (v_tabs _ _ Hv1 _ _ _) Ht1) as Hown.
  destruct (page_used _ _ _ _ Hv1 Hown) as [Hft Hpt]. destruct (page_split va Hva) as (Hi & Hj & _).
  apply wpe_bind, wp_wpe. eapply wp_vrd; [done|done|]. rewrite dir_entry, Ht1 by done. cbn [from_option].
  rewrite entry_page by (done || lia). apply wpe_bind.
  pose proof (vm_with_entry g1 s1 d m (PDX va) (PTX va) t (new_entry pa prot) Hv1 Hm Ht1 Hj) as Hv2.
  rewrite page_of_eq, Hvm, Z.sub_0_r in Hv2 by done.
  apply (wpe_mono _ _ (λ _ s', s' = set_frames (<[t := table (λ k, if decide (k = PTX va) then pte_of (new_entry pa prot)
    else entry g1 t (Tab d (PDX va)) k)]> (frames s1)) s1)).
  - unfold new_entry. case_decide; apply wp_wpe; (eapply wp_vwr; [done|done|]); [done|].
    cbn [pte_of]. do 2 f_equal. apply table_ext. intros k Hk. destruct (decide (k = PTX va)); [|done].
    destruct (decide (Z.land prot PROT_WRITE ≠ 0%Z)); [rewrite bool_decide_eq_true_2 by done|rewrite bool_decide_eq_false_2 by done].
    + change (Z.lor (Z.lor PTE_P PTE_W) PTE_U) with 7%Z. apply lor_flags; [done|lia|lia].
    + change (Z.lor (Z.lor PTE_P 0) PTE_U) with 5%Z. apply lor_flags; [done|lia|lia].
  - intros [] s2 ->. apply wpe_ret. eapply (HQ 0%Z); [apply Hv2| |].
    + intros pa' w Hx. unfold new_entry in Hx. case_decide; [done|]. injection Hx as <- _. done.
    + done.
    + split; [done|]. cbn. by rewrite Hs1.
Qed.

(** ** [protect] *)

Definition with_dir (d : Z) g : ghost :=
  Ghost (<[d := Dir]> (own g)) (ktabs g) (kmap g) (tabs g) (<[d := ∅]> (spaces g)).

Lemma vm_with_dir g s d a' : vm g s → is_page d → d ∉ dom (own g) → holds a' ({[d]} ∪ dom (own g)) →
  vm (with_dir d g) (set_frames (<[d := table (kentry g)]> (frames s)) (set_pages a' s)).
Proof.
  intros Hv Hpd Hfresh Hh. rewrite not_elem_of_dom in Hfresh.
  assert (Hnt : ∀ i t, tabs g !! (d, i) = Some t → False).
  { intros i t Ht. destruct (v_tab _ _ Hv _ _ _ Ht) as [Hs _]. apply (v_dirs _ _ Hv) in Hs. congruence. }
  assert (Hne : ∀ p k, own g !! p = Some k → p ≠ d) by congruence.
  assert (Hsp : ∀ x, is_Some (spaces g !! x) → x ≠ d) by (intros x Hx%(v_dirs _ _ Hv); by eapply Hne).
  assert (Hkind : ∀ p k, k ≠ Dir → (<[d := Dir]> (own g) !! p = Some k ↔ own g !! p = Some k)).
  { intros p k Hk. rewrite lookup_insert_Some. split; [intros [[_ ?]|[_ ?]]; congruence|]. intros Hp. right. split; [|done]. by apply not_eq_sym, (Hne _ k). }
  split; cbn [own ktabs kmap tabs spaces with_dir frames set_frames pages set_pages kpt].
  - intros p. destruct (decide (p = d)) as [->|Hpd'].
    { rewrite !lookup_insert_eq. cbn. f_equal. apply table_ext. intros i Hi. cbn. case_decide as Hu; [|done].
      destruct (tabs g !! (d, i)) eqn:Ht; [by apply Hnt in Ht|]. unfold kentry.
      destruct (ktabs g !! i) eqn:Hk; [|done]. apply (v_ktab _ _ Hv) in Hk. unfold user in Hu. lia. }
    rewrite !lookup_insert_ne, (v_frames _ _ Hv) by done. destruct (own g !! p) as [k|] eqn:Hk; [|done]. cbn. f_equal.
    apply table_ext. intros i Hi. destruct k as [| | |d0 i0]; cbn; [done..|].
    destruct (decide (d0 = d)) as [->|]; [|by rewrite lookup_insert_ne]. exfalso. apply (v_tabs _ _ Hv) in Hk. by eapply Hnt.
  - by rewrite dom_insert_L.
  - intros p k [[<- <-]|[_ Hk]]%lookup_insert_Some; [done|by eapply v_page].
  - intros p. rewrite Hkind by done. apply (v_kdir _ _ Hv).
  - intros i t. rewrite Hkind by done. apply (v_ktabs _ _ Hv).
  - intros p. rewrite !lookup_insert. case_decide; [by split|apply (v_dirs _ _ Hv)].
  - intros d0 i t. rewrite Hkind by done. apply (v_tabs _ _ Hv).
  - apply (v_ktab _ _ Hv).
  - apply (v_kmap _ _ Hv).
  - intros d0 i t Ht. destruct (v_tab _ _ Hv _ _ _ Ht) as [Hs ?]. split; [|done].
    rewrite lookup_insert_ne; [done|]. by apply not_eq_sym, Hsp.
  - intros d0 m va pa w [[<- <-]|[_ Hm]]%lookup_insert_Some Hl; [done|by eapply v_map].
Qed.

Lemma wpe_protect g s (Q : AddressSpace → vme A → Prop) : vm g s →
  (∀ d g' s', d ∉ dom (own g) → vm g' s' → same_kernel g s g' s' → spaces g' = <[d := ∅]> (spaces g) →
    room (pages s) = S (room (pages s')) → Q (MkSpace PGSIZE uvm_area d) s') → wpe (no_room s) protect Q s.
Proof.
  intros Hv HQ. unfold protect. change (Z.of_nat NR_PTE) with 1024%Z. apply wpe_bind. eapply wpe_pgalloc; [apply (v_holds _ _ Hv)|].
  intros d a' Hpd Hfresh Hh Hr. apply wpe_bind.
  assert (Hk : frames s !! kpt s = Some (table (kentry g))) by (by rewrite (v_frames _ _ Hv), (proj2 (v_kdir _ _ Hv _) eq_refl)).
  assert (Hkd : kpt s ≠ d) by (intros <-; apply Hfresh, elem_of_dom; eexists; by apply (v_kdir _ _ Hv)).
  eapply wpe_mono; [apply wp_wpe, (wp_for_range (λ k s', s' = set_frames (<[d := table (λ i, if decide (i < k)%Z then kentry g i else 0%Z)]>
    (frames s)) (set_pages a' s))); [lia| |]|].
  - apply (f_equal (λ l, set_frames (<[d := l]> (frames s)) (set_pages a' s))), table_ext. intros i Hi. by rewrite decide_False by lia.
  - intros k s1 Hkr ->. wp_step. wp_step. wp_step. eapply wp_vrd; [cbn; rewrite lookup_insert_ne by done; exact Hk|lia|].
    eapply wp_vwr; [cbn; by rewrite lookup_insert_eq|lia|]. cbn. rewrite insert_insert_eq.
    apply (f_equal (λ l, set_frames (<[d := l]> (frames s)) (set_pages a' s))), table_ext. intros i Hi. destruct (decide (i = k)) as [->|]; [by rewrite decide_True by lia|].
    destruct (decide (i < k)%Z); [by rewrite decide_True by lia|by rewrite decide_False by lia].
  - intros [] s1 ->. apply wpe_ret. apply (HQ d (with_dir d g)); [done| |done|done|done].
    replace (table _) with (table (kentry g)); [by apply vm_with_dir|]. apply table_ext. intros i Hi. by rewrite decide_True by lia.
Qed.

(** ** [unprotect] *)

(** The pages that go when the tables of [d] below index [256 + k] have gone. *)
Definition gone (d k : Z) (x : kind) : bool :=
  match x with Tab d' i => bool_decide (d' = d) && bool_decide (i < 256 + k)%Z | _ => false end.
Definition left_after (d k : Z) (o : gmap Z kind) : gmap Z kind := filter (λ '(_, x), gone d k x = false) o.

Lemma left_lookup d k o p x : left_after d k o !! p = Some x ↔ o !! p = Some x ∧ gone d k x = false.
Proof. unfold left_after. by rewrite map_lookup_filter_Some. Qed.

Definition without (d : Z) g : ghost :=
  Ghost (delete d (left_after d 256 (own g))) (ktabs g) (kmap g)
    (filter (λ '((d', _), _), d' ≠ d) (tabs g)) (delete d (spaces g)).

Lemma without_own g s d p x : vm g s → own (without d g) !! p = Some x ↔
  own g !! p = Some x ∧ p ≠ d ∧ (∀ i, x ≠ Tab d i).
Proof.
  intros Hv. cbn. rewrite lookup_delete_Some, left_lookup. split.
  - intros (Hne & Hp & Hg). split_and!; [done|done|]. intros i ->. apply (v_tabs _ _ Hv), (v_tab _ _ Hv) in Hp as [_ Hu].
    cbn in Hg. unfold user in Hu. rewrite !bool_decide_eq_true_2 in Hg by (done || lia). done.
  - intros (Hp & Hne & Hx). split_and!; [done..|]. destruct x; [done..|]. cbn.
    rewrite bool_decide_eq_false_2; [done|]. intros ->. by eapply Hx.
Qed.

Lemma vm_without g s d a' : vm g s → is_Some (spaces g !! d) → holds a' (dom (own (without d g))) →
  ∀ fr, (∀ p, fr !! p = if decide (is_Some (own (without d g) !! p)) then frames s !! p else None) →
  vm (without d g) (set_frames fr (set_pages a' s)).
Proof.
  intros Hv Hd Hh fr Hfr. pose proof (λ p x, without_own g s d p x Hv) as Ho.
  assert (Hdir : own g !! d = Some Dir) by (by apply (v_dirs _ _ Hv)).
  assert (Htab : ∀ d0 i t, tabs (without d g) !! (d0, i) = Some t ↔ tabs g !! (d0, i) = Some t ∧ d0 ≠ d)
    by (intros d0 i t; cbn; by rewrite map_lookup_filter_Some).
  split; cbn [ktabs kmap spaces frames set_frames pages set_pages kpt].
  - intros p. rewrite Hfr. destruct (own (without d g) !! p) as [x|] eqn:Hx; [rewrite decide_True by done|by rewrite decide_False by (by apply eq_None_not_Some)].
    pose proof (proj1 (Ho _ _) Hx) as (Hp & Hne & Hnt). rewrite (v_frames _ _ Hv), Hp. cbn [fmap option_fmap option_map]. f_equal.
    apply table_ext. intros i Hi. destruct x as [| | |d0 i0]; cbn [entry]; [done|done| |].
    + case_decide; [|done]. f_equal. apply option_eq. intros t. rewrite Htab. naive_solver.
    + cbn. rewrite lookup_delete_ne; [done|]. intros ->. by eapply Hnt.
  - done.
  - intros p x (Hp & _)%Ho. by eapply v_page.
  - intros p. rewrite Ho, (v_kdir _ _ Hv). split; [by intros [-> _]|]. intros ->. split_and!; [done| |done].
    intros <-. pose proof (proj2 (v_kdir _ _ Hv _) eq_refl). congruence.
  - intros i t. rewrite Ho, (v_ktabs _ _ Hv). split; [by intros [? _]|]. intros Ht. split_and!; [done| |done].
    intros ->. apply (v_ktabs _ _ Hv) in Ht. congruence.
  - intros p. cbn. rewrite Ho, (v_dirs _ _ Hv), lookup_delete. case_decide; [subst; naive_solver|]. naive_solver.
  - intros d0 i t. rewrite Ho, (v_tabs _ _ Hv), Htab. split.
    + intros (? & ? & Hnt). split; [done|]. intros ->. by eapply Hnt.
    + intros [Ht Hne]. split_and!; [done| |congruence]. intros ->. apply (v_tabs _ _ Hv) in Ht. congruence.
  - apply (v_ktab _ _ Hv).
  - apply (v_kmap _ _ Hv).
  - intros d0 i t [Ht Hne]%Htab. cbn. rewrite lookup_delete_ne by done. by eapply v_tab.
  - intros d0 m va pa w Hm Hl. cbn [spaces without] in Hm. apply lookup_delete_Some in Hm as [Hne Hm]. destruct (v_map _ _ Hv _ _ _ _ _ Hm Hl) as [? [t Ht]].
    split; [done|]. exists t. by apply Htab.
Qed.

(** The state after the loop of [unprotect] passed [k] indices. *)
Definition freeing d k g s s' : Prop :=
  (∀ p, frames s' !! p = if decide (is_Some (left_after d k (own g) !! p)) then frames s !! p else None) ∧
  ∃ a', s' = set_frames (frames s') (set_pages a' s) ∧ holds a' (dom (left_after d k (own g))).

Lemma freeing_start d g s : vm g s → freeing d 0 g s s.
Proof.
  intros Hv. assert (Hl : left_after d 0 (own g) = own g).
  { apply map_eq. intros p. apply option_eq. intros x. rewrite left_lookup. split; [by intros [? _]|]. intros Hp. split; [done|].
    destruct x as [| | |d0 i]; [done..|]. apply (v_tabs _ _ Hv), (v_tab _ _ Hv) in Hp as [_ Hu]. unfold user in Hu.
    cbn. rewrite (bool_decide_eq_false_2 (i < _)%Z) by lia. apply andb_false_r. }
  split.
  - intros p. rewrite Hl, (v_frames _ _ Hv). destruct (own g !! p); [by rewrite decide_True|by rewrite decide_False by apply is_Some_None].
  - exists (pages s). rewrite Hl. split; [by destruct s|apply (v_holds _ _ Hv)].
Qed.

Lemma gone_step d k x : gone d (k + 1) x = gone d k x || bool_decide (x = Tab d (256 + k)%Z).
Proof.
  destruct x as [| | |d0 i]; cbn; [done..|]. apply eq_bool_prop_intro. rewrite orb_True, !andb_True, !bool_decide_spec.
  split; [intros [-> ?]; destruct (decide (i = 256 + k)%Z); [right; by subst|left; lia]|intros [[-> ?]|[= -> ->]]; lia].
Qed.

Lemma wp_unprotect g s d (Q : unit → vme A → Prop) : vm g s → is_Some (spaces g !! d) →
  (∀ g' s', vm g' s' → same_kernel g s g' s' → spaces g' = delete d (spaces g) → Q tt s') →
  wp (unprotect (MkSpace PGSIZE uvm_area d)) Q s.
Proof.
  intros Hv Hd HQ. assert (Hdir : own g !! d = Some Dir) by (by apply (v_dirs _ _ Hv)).
  destruct (page_used _ _ _ _ Hv Hdir) as [Hf Hpd]. unfold unprotect. cbn [ptr]. wp_step.
  assert (Hdl : ∀ k, left_after d k (own g) !! d = Some Dir) by (intros k; by apply left_lookup).
  apply (wp_addr_loop (λ k s', freeing d k g s s') _ _ _ _ 256); [vm_compute; split; done|vm_compute; split; done| |done|by apply freeing_start| |].
  { intros j Hj. cbn [start end_ uvm_area]. change (Z.shiftl 1 PDXSHFT) with 4194304%Z. rewrite u32_small by lia. lia. }
  - intros k s1 Hk (Hfr & a1 & Hs1 & Hh1). change (Z.shiftl 1 PDXSHFT) with 4194304%Z. cbn [start uvm_area].
    rewrite u32_small by lia. replace (0x40000000 + k * 4194304)%Z with (page_of (256 + k) 0) by (unfold page_of; lia).
    rewrite PDX_page_of by lia. wp_step. eapply (wp_vrd d (entry g d Dir)); [rewrite Hfr, Hdl, decide_True by done; done|lia|].
    rewrite dir_entry by (unfold user; lia). destruct (tabs g !! (d, 256 + k)%Z) as [t|] eqn:Ht; cbn [from_option].
    + pose proof (proj2 (v_tabs _ _ Hv _ _ _) Ht) as Hown. destruct (page_used _ _ _ _ Hv Hown) as [_ Hpt].
      rewrite bool_decide_eq_true_2 by (by apply pde_present). cbn [when]. rewrite entry_page by (done || lia).
      assert (Hlt : left_after d k (own g) !! t = Some (Tab d (256 + k)%Z)).
      { apply left_lookup. split; [done|]. cbn. rewrite (bool_decide_eq_false_2 (_ < _)%Z) by lia. apply andb_false_r. }
      assert (Hdel : left_after d (k + 1) (own g) = delete t (left_after d k (own g))).
      { apply map_eq. intros p. apply option_eq. intros x. rewrite lookup_delete_Some, !left_lookup, gone_step, orb_false_iff, bool_decide_eq_false.
        split; [|intros (Hne & Hp & ?); split_and!; [done..|]; intros ->; apply (v_tabs _ _ Hv) in Hp; congruence].
        intros (Hp & ? & Hx). split_and!; [|done..]. intros ->. congruence. }
      eapply wp_pgfree; [rewrite Hs1; exact Hh1|by apply elem_of_dom_2 in Hlt|]. intros a2 Hh2. split.
      * intros p. cbn. rewrite Hdel. destruct (decide (p = t)) as [->|Hpt']; [by rewrite !lookup_delete_eq, decide_False by apply is_Some_None|].
        by rewrite !lookup_delete_ne, Hfr.
      * exists a2. split; [by rewrite Hs1|]. by rewrite Hdel, dom_delete_L.
    + rewrite bool_decide_eq_false_2 by (intros []; done). cbn [when]. wp_step.
      assert (Hsame : left_after d (k + 1) (own g) = left_after d k (own g)).
      { apply map_eq. intros p. apply option_eq. intros x. rewrite !left_lookup, gone_step, orb_false_iff, bool_decide_eq_false.
        split; [naive_solver|]. intros [Hp ?]. split_and!; [done..|]. intros ->. apply (v_tabs _ _ Hv) in Hp. congruence. }
      split; [by rewrite Hsame|]. exists a1. by rewrite Hsame.
  - intros s1 (Hfr & a1 & Hs1 & Hh1). eapply wp_pgfree; [rewrite Hs1; exact Hh1|by eapply elem_of_dom_2|]. intros a2 Hh2.
    rewrite Hs1. eapply (HQ (without d g)); [|done|done]. apply (vm_without g s d a2 Hv Hd).
    + cbn. by rewrite dom_delete_L.
    + intros p. cbn [own without frames set_frames set_pages]. destruct (decide (p = d)) as [->|Hpd'].
      * by rewrite !lookup_delete_eq, decide_False by apply is_Some_None.
      * by rewrite !lookup_delete_ne, Hfr by done.
Qed.

End spaces.
