(* ===== verification/VmeInit.v ===== *)
(** * The kernel's own tables

    [vme_init] maps the kernel's areas to themselves, in one directory and 192
    tables, and turns paging on. *)
From S2P Require Import Prelude Faults Vme VmeProps VmeSpaces.

(** The page numbers of the physical areas, and the indices of their tables. *)
Definition kernel_page (n : Z) : bool := bool_decide (0 ≤ n < 0x20000 ∨ 0xf0000 ≤ n < 0x100000)%Z.
Definition kern_index (i : Z) : Prop := (0 ≤ i < 128 ∨ 960 ≤ i < 1024)%Z.
Definition kern_indices : gset Z := list_to_set (seqZ 0 128 ++ seqZ 960 64).

Lemma kern_indices_spec i : i ∈ kern_indices ↔ kern_index i.
Proof. unfold kern_indices, kern_index. rewrite elem_of_list_to_set, elem_of_app, !elem_of_seqZ. lia. Qed.

Lemma kern_number n : kernel_page n = true → kern_index (n `div` 1024).
Proof.
  unfold kernel_page, kern_index. rewrite bool_decide_eq_true. pose proof (Z.div_mod n 1024). pose proof (Z.mod_pos_bound n 1024). lia.
Qed.

Lemma kern_indices_size : size kern_indices = 192.
Proof. vm_compute. reflexivity. Qed.

Section init.
Context {A : Type} `{PageAllocator A}.
Implicit Types (s : vme A) (g : ghost).

Definition with_ktab (i t : Z) g : ghost :=
  Ghost (<[t := KTab i]> (own g)) (<[i := t]> (ktabs g)) (kmap g) (tabs g) (spaces g).
Definition with_kpage (n : Z) g : ghost :=
  Ghost (own g) (ktabs g) (λ x, bool_decide (x = n) || kmap g x) (tabs g) (spaces g).

(** Before any space there are only pages of the kernel. *)
Lemma no_spaces g s p x : vm g s → spaces g = ∅ → own g !! p = Some x → x ≠ Dir ∧ ∀ d i, x ≠ Tab d i.
Proof.
  intros Hv Hs Hp. split; [intros ->|intros d i ->].
  - apply (v_dirs _ _ Hv) in Hp. rewrite Hs, lookup_empty in Hp. by destruct Hp.
  - apply (v_tabs _ _ Hv), (v_tab _ _ Hv) in Hp as [Hp _]. rewrite Hs, lookup_empty in Hp. by destruct Hp.
Qed.

Lemma vm_with_ktab g s i t a' : vm g s → spaces g = ∅ → kern_index i → ktabs g !! i = None →
  is_page t → t ∉ dom (own g) → holds a' ({[t]} ∪ dom (own g)) →
  vm (with_ktab i t g) (set_frames (<[kpt s := table (λ j, if decide (j = i) then (t + 3)%Z else kentry g j)]>
    (<[t := table (λ _, 0%Z)]> (frames s))) (set_pages a' s)).
Proof.
  intros Hv Hs Hi Hno Hpt Hfresh Hh. rewrite not_elem_of_dom in Hfresh.
  pose proof (proj2 (v_kdir _ _ Hv _) eq_refl) as Hk. assert (Htk : t ≠ kpt s) by congruence.
  assert (Hkind : ∀ p k, k ≠ KTab i → (<[t := KTab i]> (own g) !! p = Some k ↔ own g !! p = Some k)).
  { intros p k Hki. rewrite lookup_insert_Some. split; [intros [[_ ?]|[_ ?]]; congruence|]. intros Hp. right. split; congruence. }
  split; cbn [own ktabs kmap tabs spaces with_ktab frames set_frames pages set_pages kpt].
  - intros p. destruct (decide (p = kpt s)) as [->|Hpk].
    { rewrite lookup_insert_eq, lookup_insert_ne, Hk by done. cbn. f_equal. apply table_ext. intros j Hj. cbn [entry]. unfold kentry. cbn [ktabs with_ktab].
      rewrite lookup_insert. destruct (decide (j = i)) as [->|]; [by rewrite decide_True|by rewrite decide_False]. }
    rewrite lookup_insert_ne by done. destruct (decide (p = t)) as [->|Hpt'].
    { rewrite !lookup_insert_eq. cbn. f_equal. apply table_ext. intros j Hj.
      cbn [entry kmap with_ktab]. destruct (kmap g (i * 1024 + j)%Z) eqn:Hm; [|done]. apply (v_kmap _ _ Hv) in Hm.
      rewrite Z.div_add_l, Z.div_small, Z.add_0_r, Hno in Hm by lia. by destruct Hm. }
    rewrite !lookup_insert_ne, (v_frames _ _ Hv) by done. destruct (own g !! p) as [k|] eqn:Hkp; [|done]. cbn. f_equal.
    destruct (no_spaces _ _ _ _ Hv Hs Hkp) as [? Hnt]. destruct k as [| | |d0 i0]; [|done|done|by edestruct Hnt].
    apply (v_kdir _ _ Hv) in Hkp. done.
  - by rewrite dom_insert_L.
  - intros p k [[<- <-]|[_ Hp]]%lookup_insert_Some; [done|by eapply v_page].
  - intros p. rewrite Hkind by done. apply (v_kdir _ _ Hv).
  - intros i0 p. rewrite !lookup_insert_Some, (v_ktabs _ _ Hv). split.
    + intros [[-> [= ->]]|[? Hp]]; [by left|]. right. split; congruence.
    + intros [[-> ->]|[? Hp]]; [by left|]. right. split; [|done]. intros <-. apply (v_ktabs _ _ Hv) in Hp. congruence.
  - intros p. rewrite Hkind by done. apply (v_dirs _ _ Hv).
  - intros d i0 p. rewrite Hkind by done. apply (v_tabs _ _ Hv).
  - intros i0 p [[<- <-]|[_ Hp]]%lookup_insert_Some; [done|by eapply v_ktab].
  - intros n Hn%(v_kmap _ _ Hv). rewrite lookup_insert. by case_decide.
  - apply (v_tab _ _ Hv).
  - apply (v_map _ _ Hv).
Qed.

Lemma page_of_number n : page_of (n `div` 1024) (n `mod` 1024) = (n * 4096)%Z.
Proof. unfold page_of. pose proof (Z.div_mod n 1024). lia. Qed.

Lemma vm_with_kpage g s n t : vm g s → ktabs g !! (n `div` 1024)%Z = Some t →
  vm (with_kpage n g) (set_frames (<[t := table (λ j, if decide (j = n `mod` 1024)%Z then (n * 4096 + 3)%Z
    else entry g t (KTab (n `div` 1024)) j)]> (frames s)) s).
Proof.
  intros Hv Ht. pose proof (proj2 (v_ktabs _ _ Hv _ _) Ht) as Hown.
  split; cbn [own ktabs kmap tabs spaces with_kpage frames set_frames pages set_pages kpt].
  - intros p. destruct (decide (p = t)) as [->|Hpt].
    + rewrite lookup_insert_eq, Hown. cbn [fmap option_fmap option_map]. f_equal. apply table_ext. intros j Hj. cbn [entry kmap with_kpage].
      pose proof (Z.div_mod n 1024). pose proof (Z.mod_pos_bound n 1024). case_decide as Hjn.
      * subst j. rewrite bool_decide_eq_true_2 by lia. cbn [orb]. by rewrite page_of_number.
      * by rewrite bool_decide_eq_false_2 by lia.
    + rewrite lookup_insert_ne, (v_frames _ _ Hv) by done. destruct (own g !! p) as [k|] eqn:Hk; [|done]. cbn [fmap option_fmap option_map]. f_equal.
      apply table_ext. intros j Hj. destruct k as [|i| |]; cbn [entry kmap with_kpage]; [done| |done|done].
      rewrite bool_decide_eq_false_2; [done|]. intros Heq. assert (i = n `div` 1024)%Z as -> by (apply (Z.div_unique _ _ _ j); lia).
      apply (v_ktabs _ _ Hv) in Hk. congruence.
  - apply (v_holds _ _ Hv).
  - apply (v_page _ _ Hv).
  - apply (v_kdir _ _ Hv).
  - apply (v_ktabs _ _ Hv).
  - apply (v_dirs _ _ Hv).
  - apply (v_tabs _ _ Hv).
  - apply (v_ktab _ _ Hv).
  - intros x Hx. apply orb_true_iff in Hx as [Hx|Hx]; [|by eapply v_kmap]. apply bool_decide_eq_true in Hx as ->. by eexists.
  - apply (v_tab _ _ Hv).
  - apply (v_map _ _ Hv).
Qed.
(** ** The loops of [vme_init] *)

Lemma ktabs_size g s : vm g s → dom (ktabs g) ⊆ kern_indices.
Proof. intros Hv i [t Ht]%elem_of_dom. apply kern_indices_spec. by apply (v_ktab _ _ Hv) in Ht. Qed.

Section loops.
Variables (a0 : A) (c : Z).
Hypothesis enough : 193 ≤ room a0.

(** While the kernel's tables are made, from the allocator [a0]. *)
Record making g s : Prop := {
  k_vm : vm g s;
  k_spaces : spaces g = ∅;
  k_room : room a0 = room (pages s) + 1 + size (ktabs g);
  k_cr0 : cr0 s = c
}.

Lemma making_room g s i : making g s → kern_index i → ktabs g !! i = None → 0 < room (pages s).
Proof.
  intros [Hv _ Hr _] Hi Hno. pose proof (ktabs_size _ _ Hv) as Hsub.
  assert (Hlt : size (dom (ktabs g)) < size kern_indices).
  { apply subset_size. split; [done|]. intros Hsup. apply kern_indices_spec, Hsup, elem_of_dom in Hi. rewrite Hno in Hi. by destruct Hi. }
  rewrite kern_indices_size, size_dom in Hlt. lia.
Qed.

Lemma wp_pgalloc_room U s (Q : Z → vme A → Prop) : holds (pages s) U → 0 < room (pages s) →
  (∀ t a', is_page t → t ∉ U → holds a' ({[t]} ∪ U) → room (pages s) = S (room a') →
    Q t (set_frames (<[t := table (λ _, 0%Z)]> (frames s)) (set_pages a' s))) → wp pgalloc Q s.
Proof.
  intros Hh Hr HQ. pose proof (wpe_pgalloc U s Q Hh HQ) as Hw. unfold wpe in Hw. unfold wp.
  destruct (pgalloc s) as [[t s']|f]; [done|]. destruct Hw. lia.
Qed.

Lemma wp_kernel_entry g s n t : making g s → ktabs g !! (n `div` 1024)%Z = Some t → (0 ≤ n < 2 ^ 20)%Z →
  wp (wr t (n `mod` 1024) (n * 4096 + 3)) (λ _ s', ∃ g', making g' s' ∧ ∀ x, kmap g' x = bool_decide (x = n) || kmap g x) s.
Proof.
  intros [Hv Hs Hr Hc] Ht Hn. pose proof (proj2 (v_ktabs _ _ Hv _ _) Ht) as Hown.
  destruct (page_used _ _ _ _ Hv Hown) as [Hf _].
  eapply wp_vwr; [exact Hf|by apply Z.mod_pos_bound|]. exists (with_kpage n g). split; [|done].
  split; [by apply vm_with_kpage|done|done|done].
Qed.

Lemma wp_init_page g s n : making g s → kern_index (n `div` 1024) → (0 ≤ n < 2 ^ 20)%Z →
  wp (init_page (n * 4096)) (λ _ s', ∃ g', making g' s' ∧ ∀ x, kmap g' x = bool_decide (x = n) || kmap g x) s.
Proof.
  intros Hm Hi Hn. pose proof (k_vm _ _ Hm) as Hv. pose proof (proj2 (v_kdir _ _ Hv _) eq_refl) as Hk.
  destruct (page_used _ _ _ _ Hv Hk) as [Hf _]. unfold init_page.
  assert (Hd : PDX (n * 4096) = (n `div` 1024)%Z).
  { rewrite PDX_eq by lia. change (2 ^ 22)%Z with (1024 * 4096)%Z. by rewrite Z.div_mul_cancel_r by lia. }
  assert (Hx : PTX (n * 4096) = (n `mod` 1024)%Z) by (rewrite PTX_eq, Z.div_mul by lia; done).
  assert (Hr : (0 ≤ n `div` 1024 < 1024)%Z) by (unfold kern_index in Hi; lia).
  rewrite Hd, Hx. change (Z.lor PTE_P PTE_W) with 3%Z. rewrite (lor_flags (n * 4096) 3) by (apply Z.mod_mul || lia; lia).
  wp_step. wp_step. wp_step. eapply wp_vrd; [exact Hf|exact Hr|]. cbn [entry]. unfold kentry.
  destruct (ktabs g !! (n `div` 1024)%Z) as [t|] eqn:Ht; cbn [from_option]; wp_step.
  - pose proof (proj2 (v_ktabs _ _ Hv _ _) Ht) as Hown. destruct (page_used _ _ _ _ Hv Hown) as [_ Hpt].
    destruct (page_range _ Hpt) as [_ Htm]. rewrite (land_flags t 3 PTE_P 12) by (done || (unfold PTE_P; lia)).
    rewrite decide_False by done. wp_step. rewrite entry_page by (done || lia). by apply wp_kernel_entry.
  - rewrite decide_True by done. wp_step.
    eapply wp_pgalloc_room; [apply (v_holds _ _ Hv)|by eapply making_room|]. intros t a' Hpt Hfresh Hh Hrm.
    assert (t ≠ kpt s) by (intros ->; apply Hfresh, elem_of_dom; by eexists).
    destruct (page_range _ Hpt) as [Ht0 Htm]. wp_step. rewrite lor_flags by (done || lia).
    eapply wp_vwr; [cbn; rewrite lookup_insert_ne by done; exact Hf|exact Hr|]. wp_step.
    eapply (wp_kernel_entry (with_ktab (n `div` 1024) t g)); [|cbn; by rewrite lookup_insert_eq|done].
    split; [by apply vm_with_ktab; [|apply Hm|..]|apply Hm| |apply Hm].
    + cbn [ktabs with_ktab pages set_frames set_pages]. rewrite map_size_insert_None by done. pose proof (k_room _ _ Hm). lia.
Qed.

(** One area: [n] pages from number [p]. *)
Lemma wp_area p n to s g (Q : unit → vme A → Prop) : making g s →
  (∀ k, 0 ≤ k < n → kern_index ((p + k) `div` 1024))%Z → (0 ≤ p)%Z → (0 < n)%Z → (p + n ≤ 2 ^ 20)%Z → (n < 2 ^ 20)%Z →
  to = u32 ((p + n) * 4096) →
  (∀ g' s', making g' s' → (∀ x, kmap g' x = bool_decide (p ≤ x < p + n)%Z || kmap g x) → Q tt s') →
  wp (addr_loop (addr_fuel PGSIZE) (p * 4096) to PGSIZE init_page) Q s.
Proof.
  intros Hm Hi Hp Hn0 Hn Hn' -> HQ.
  apply (wp_addr_loop (λ k s', ∃ g', making g' s' ∧ ∀ x, kmap g' x = bool_decide (p ≤ x < p + k)%Z || kmap g x) _ _ _ _ n).
  - unfold addr_fuel. change (2 ^ 32 / PGSIZE)%Z with (2 ^ 20)%Z. lia.
  - lia.
  - intros j Hj. unfold PGSIZE. rewrite u32_small by lia. unfold u32.
    destruct (decide (p + n = 2 ^ 20)%Z) as [Heq|]; [rewrite Heq|rewrite Z.mod_small by lia; lia].
    change ((2 ^ 20 * 4096) `mod` 2 ^ 32)%Z with 0%Z. lia.
  - unfold PGSIZE. f_equal. lia.
  - exists g. split; [done|]. intros x. by rewrite bool_decide_eq_false_2 by lia.
  - intros k s1 Hk (g1 & Hm1 & Hk1). unfold PGSIZE. rewrite u32_small by lia.
    replace (p * 4096 + k * 4096)%Z with ((p + k) * 4096)%Z by lia.
    eapply wp_mono; [apply (wp_init_page g1 s1 (p + k) Hm1); [by apply Hi|lia]|].
    intros [] s2 (g2 & Hm2 & Hk2). exists g2. split; [done|]. intros x. rewrite Hk2, Hk1, orb_assoc. f_equal.
    apply eq_bool_prop_intro. rewrite orb_True, !bool_decide_spec. lia.
  - intros s1 (g1 & Hm1 & Hk1). by eapply HQ.
Qed.

Lemma vm_paging g s v w : vm g s → vm g (set_cr0 v (set_cr3 w s)).
Proof. intros []. by split. Qed.

(** The kernel's tables over the allocator [a0], with paging on. *)
Record kernel_made g s : Prop := {
  km_vm : vm g s;
  km_spaces : spaces g = ∅;
  km_map x : kmap g x = kernel_page x;
  km_room : room a0 = room (pages s) + 193;
  km_size : size (frames s) = 193;
  km_cr3 : cr3 s = kpt s;
  km_cr0 : cr0 s = Z.lor c CR0_PG
}.

Lemma made_tables g s : vm g s → (∀ x, kmap g x = kernel_page x) → dom (ktabs g) = kern_indices.
Proof.
  intros Hv Hm. apply set_eq. intros i. split; [by apply (ktabs_size _ _ Hv)|]. intros Hi%kern_indices_spec. apply elem_of_dom.
  replace i with ((i * 1024) `div` 1024)%Z by (by apply Z.div_mul). apply (v_kmap _ _ Hv). rewrite Hm.
  unfold kernel_page, kern_index in *. apply bool_decide_eq_true. lia.
Qed.

(** One page for the directory and one for each table. *)
Lemma own_size g s : vm g s → spaces g = ∅ → size (own g) = S (size (ktabs g)).
Proof.
  intros Hv Hs. pose proof (proj2 (v_kdir _ _ Hv _) eq_refl) as Hk.
  rewrite <-(size_dom (own g)).
  replace (dom (own g)) with ({[kpt s]} ∪ (list_to_set (map_to_list (ktabs g)).*2 : gset Z)).
  2:{ apply set_eq. intros p. rewrite elem_of_union, elem_of_singleton, elem_of_list_to_set, elem_of_dom, list_elem_of_fmap. split.
      - intros [->|((i & t) & -> & Ht%elem_of_map_to_list)]; [by eexists|]. exists (KTab i). by apply (v_ktabs _ _ Hv).
      - intros [x Hx]. destruct (no_spaces _ _ _ _ Hv Hs Hx) as [? Hnt]. destruct x as [|i| |d i]; [| |done|by edestruct Hnt].
        + left. by apply (v_kdir _ _ Hv).
        + right. exists (i, p). split; [done|]. apply elem_of_map_to_list. by apply (v_ktabs _ _ Hv). }
  rewrite size_union.
  - rewrite size_singleton, size_list_to_set; [by rewrite length_fmap, length_map_to_list|].
    apply NoDup_fmap_2_strong; [|apply NoDup_map_to_list].
    intros [i t] [i' t'] Ht%elem_of_map_to_list Ht'%elem_of_map_to_list. cbn. intros <-.
    apply (v_ktabs _ _ Hv) in Ht, Ht'. congruence.
  - apply disjoint_singleton_l. rewrite elem_of_list_to_set, list_elem_of_fmap. intros ((i & t) & Heq & Ht%elem_of_map_to_list).
    cbn in Heq. subst t. apply (v_ktabs _ _ Hv) in Ht. congruence.
Qed.

Lemma frames_dom g s : vm g s → dom (frames s) = dom (own g).
Proof.
  intros Hv. apply set_eq. intros p. rewrite !elem_of_dom, (v_frames _ _ Hv). apply fmap_is_Some.
Qed.

Lemma wp_vme_init (Q : Z → vme A → Prop) : holds a0 ∅ →
  (∀ g s, kernel_made g s → Q 0%Z s) → wp (vme_init 0) Q (Vme A ∅ 0 0 c a0).
Proof.
  intros Hh HQ. unfold vme_init. wp_step. apply wp_assert; [done|]. wp_step.
  eapply wp_pgalloc_room; [exact Hh|cbn; lia|]. intros k a1 Hpk _ Hh1 Hr1. cbn [pages] in Hr1. wp_step. wp_step. wp_step.
  set (s1 := set_kpt k _). set (g1 := Ghost {[k := KDir]} ∅ (λ _, false) ∅ ∅).
  assert (Hm1 : making g1 s1).
  { split; [|done|cbn; rewrite map_size_empty; lia|done]. split; cbn [own ktabs kmap tabs spaces g1 s1 frames set_kpt set_frames pages set_pages kpt].
    - intros p. destruct (decide (p = k)) as [->|]; [by rewrite lookup_insert_eq, lookup_singleton_eq|].
      by rewrite lookup_insert_ne, lookup_singleton_ne by done.
    - rewrite dom_singleton_L. by rewrite (right_id_L ∅ (∪)) in Hh1.
    - intros p x [-> _]%lookup_singleton_Some. done.
    - intros p. rewrite lookup_singleton_Some. split; [by intros [-> _]|by intros ->].
    - intros i t. rewrite lookup_singleton_Some, lookup_empty. naive_solver.
    - intros d. rewrite lookup_singleton_Some, lookup_empty. split; [naive_solver|by intros []].
    - intros d i t. rewrite lookup_singleton_Some, lookup_empty. naive_solver.
    - done.
    - done.
    - done.
    - done. }
  cbn [areas for_each physical when area start end_]. wp_step.
  apply (wp_area 0 0x20000 _ _ g1); [done|intros k' ?; apply kern_number, bool_decide_eq_true; lia|lia..|done|]. intros g2 s2 Hm2 Hk2.
  wp_step. wp_step. wp_step.
  apply (wp_area 0xf0000 0x10000 _ _ g2); [done|intros k' ?; apply kern_number, bool_decide_eq_true; lia|lia..|done|]. intros g3 s3 Hm3 Hk3.
  wp_step. wp_step. pose proof (k_vm _ _ Hm3) as Hv3. pose proof (proj2 (v_kdir _ _ Hv3 _) eq_refl) as Hk.
  destruct (page_used _ _ _ _ Hv3 Hk) as [_ [_ Hp]]. unfold percpu_initpg. wp_step. wp_step.
  rewrite bool_decide_eq_true_2 by lia. cbn [when]. wp_steps.
  assert (Hmap : ∀ x, kmap g3 x = kernel_page x).
  { intros x. rewrite Hk3, Hk2. unfold kernel_page. cbn [kmap g1]. apply eq_bool_prop_intro. rewrite orb_false_r, !orb_True, !bool_decide_spec. lia. }
  pose proof (made_tables _ _ Hv3 Hmap) as Hdom. assert (Hsz : size (ktabs g3) = 192) by (by rewrite <-size_dom, Hdom, kern_indices_size).
  apply (HQ g3). split; [by apply vm_paging|apply Hm3|done| | |done|].
  - pose proof (k_room _ _ Hm3). cbn. lia.
  - cbn. rewrite <-size_dom, (frames_dom _ _ Hv3), size_dom, (own_size _ _ Hv3), Hsz by apply Hm3. done.
  - cbn. by rewrite (k_cr0 _ _ Hm3).
Qed.
End loops.
End init.
