(* ===== verification/AddressSpaces.v ===== *)
(** * Sequences of operations on address spaces

    What a program that protects, maps and unprotects sees: each space translates
    by the finite map of what was mapped in it, over the kernel's area, and pages
    come back when spaces end. *)
From S2P Require Import Prelude Faults Vme VmeProps VmeSpaces VmeInit.

Inductive vop := Protect | Unprotect (d : Z) | Map (d va pa prot : Z).

(** The space of a directory. *)
Definition space (d : Z) : AddressSpace := MkSpace PGSIZE uvm_area d.

Definition do_vop {A} `{PageAllocator A} (op : vop) : M (vme A) Z :=
  match op with
  | Protect => p ← protect; mret (ptr p)
  | Unprotect d => unprotect (space d);; mret 0%Z
  | Map d va pa prot => map (space d) va pa prot
  end.

(** The spaces, by directory, after an operation that returned [r]. *)
Definition next_spaces (op : vop) (r : Z) (sp : gmap Z mapping) : gmap Z mapping :=
  match op with
  | Protect => <[r := ∅]> sp
  | Unprotect d => delete d sp
  | Map d va pa prot => if in_range va uvm_area then alter (partial_alter (λ _, new_entry pa prot) va) d sp else sp
  end.
Definition returns (op : vop) (sp : gmap Z mapping) (r : Z) : Prop :=
  match op with
  | Protect => sp !! r = None
  | Unprotect _ => r = 0%Z
  | Map _ va _ _ => r = if in_range va uvm_area then 0%Z else 1%Z
  end.

(** An operation on a living space, with 32-bit addresses. *)
Definition usable (sp : gmap Z mapping) (op : vop) : Prop :=
  match op with
  | Protect => True
  | Unprotect d => is_Some (sp !! d)
  | Map d va pa _ => is_Some (sp !! d) ∧ (0 ≤ va < 2 ^ 32)%Z ∧ (0 ≤ pa < 2 ^ 32)%Z
  end.
Definition bad_op (op : vop) : Prop := match op with Map _ va pa prot => bad_map va pa prot | _ => False end.

Section steps.
Context {A : Type} `{PageAllocator A}.
Implicit Types (s : vme A) (g : ghost).

Inductive vsteps : vme A → gmap Z mapping → vme A → gmap Z mapping → Prop :=
  | vsteps_nil s sp : vsteps s sp s sp
  | vsteps_cons s sp op r s1 s' sp' :
      usable sp op → do_vop op s = Ret (r, s1) → vsteps s1 (next_spaces op r sp) s' sp' → vsteps s sp s' sp'.

#[export] Instance bad_op_dec op : Decision (bad_op op).
Proof. destruct op; cbn; unfold bad_map; apply _. Defined.

(** One operation against the maps. *)
Lemma wpe_do_vop g s op : vm g s → usable (spaces g) op →
  wpe (λ f, f = Halt ∧ (bad_op op ∨ room (pages s) = 0)) (do_vop op)
    (λ r s', ¬ bad_op op ∧ returns op (spaces g) r ∧
      ∃ g', vm g' s' ∧ same_kernel g s g' s' ∧ spaces g' = next_spaces op r (spaces g)) s.
Proof.
  intros Hv Hu. destruct op as [|d|d va pa prot]; cbn [do_vop usable bad_op returns next_spaces] in *.
  - apply wpe_bind. pose proof (wpe_protect g s (λ p s', ptr p ∉ dom (own g) ∧ ∃ g', vm g' s' ∧ same_kernel g s g' s' ∧
      spaces g' = <[ptr p := ∅]> (spaces g)) Hv) as Hw. unfold wpe in *.
    destruct (protect s) as [[p s']|f].
    + destruct Hw as [Hd (g' & ? & ? & ?)]; [intros d g' s1 ? ? ? ? _; split; [done|]; by exists g'|].
      split; [by intros []|]. split; [|by exists g'].
      destruct (spaces g !! ptr p) eqn:Hs; [|done]. exfalso. apply Hd, elem_of_dom. exists Dir. apply (v_dirs _ _ Hv). by eexists.
    + destruct Hw as [-> ?]; [intros d g' s1 ? ? ? ? _; split; [done|]; by exists g'|]. split; [done|by right].
  - apply wp_wpe. wp_step. apply (wp_unprotect g s d); [done|done|]. intros g' s' Hv' Hk Hs. wp_step.
    split; [by intros []|]. split; [done|]. by exists g'.
  - destruct Hu as ([m Hm] & Hva & Hpa). destruct (decide (bad_map va pa prot)) as [Hb|Hb].
    { unfold wpe. rewrite map_panics by done. split; [done|by left]. }
    eapply wpe_map; [exact Hv|exact Hm|done|done|done| |].
    + intros f [-> ?]. split; [done|by right].
    + intros r g' s' Hv' Hk Hr. split; [done|]. destruct (in_range va uvm_area); destruct Hr as [-> Hs].
      * split; [done|]. exists g'. split_and!; [done..|]. rewrite Hs. apply map_eq. intros x.
        rewrite lookup_insert, lookup_alter. case_decide; [subst; by rewrite Hm|done].
      * split; [done|]. by exists g'.
Qed.

Lemma same_kernel_trans g1 s1 g2 s2 g3 s3 :
  same_kernel g1 s1 g2 s2 → same_kernel g2 s2 g3 s3 → same_kernel g1 s1 g3 s3.
Proof. unfold same_kernel. intros (? & ? & ?) (? & ? & ?). split_and!; congruence. Qed.

Lemma vsteps_vm s sp s' sp' : vsteps s sp s' sp' → ∀ g, vm g s → spaces g = sp →
  ∃ g', vm g' s' ∧ spaces g' = sp' ∧ same_kernel g s g' s'.
Proof.
  induction 1 as [s sp|s sp op r s1 s' sp' Hu Hrun _ IH]; intros g Hv Hs; [by exists g|]. subst sp.
  pose proof (wpe_do_vop g s op Hv Hu) as Hw. apply (wpe_run _ _ _ _ _ _ Hw) in Hrun as (_ & _ & g1 & Hv1 & Hk1 & Hs1).
  destruct (IH g1 Hv1 Hs1) as (g2 & Hv2 & Hs2 & Hk2). exists g2. split_and!; [done..|]. by eapply same_kernel_trans.
Qed.

Lemma after_init a0 c s0 s sp : holds a0 ∅ → 193 ≤ room a0 →
  vme_init 0 (Vme A ∅ 0 0 c a0) = Ret (0%Z, s0) → vsteps s0 ∅ s sp →
  ∃ g0 g, kernel_made a0 c g0 s0 ∧ vm g s ∧ spaces g = sp ∧ same_kernel g0 s0 g s.
Proof.
  intros Hh Hr Hrun Hst.
  pose proof (wp_vme_init a0 c Hr (λ _ s, ∃ g, kernel_made a0 c g s) Hh (λ g s1 Hg, ex_intro _ g Hg)) as Hw.
  unfold wp in Hw. rewrite Hrun in Hw. destruct Hw as [g0 Hm].
  destruct (vsteps_vm _ _ _ _ Hst g0 (km_vm _ _ _ _ Hm) (km_spaces _ _ _ _ Hm)) as (g & ? & ? & ?). by exists g0, g.
Qed.

Lemma kernel_own_same g0 s0 g s : vm g0 s0 → vm g s → spaces g0 = ∅ → spaces g = ∅ → same_kernel g0 s0 g s →
  own g = own g0.
Proof.
  assert (Hone : ∀ g1 s1 g2 s2 p x, vm g1 s1 → vm g2 s2 → spaces g1 = ∅ → ktabs g1 = ktabs g2 → kpt s1 = kpt s2 →
    own g1 !! p = Some x → own g2 !! p = Some x).
  { intros g1 s1 g2 s2 p x Hv1 Hv2 Hs Hk Hp Hx. destruct (no_spaces _ _ _ _ Hv1 Hs Hx) as [? Hnt].
    destruct x as [|i| |d i]; [| |done|by edestruct Hnt].
    - apply (v_kdir _ _ Hv1) in Hx. apply (v_kdir _ _ Hv2). congruence.
    - apply (v_ktabs _ _ Hv1) in Hx. apply (v_ktabs _ _ Hv2). congruence. }
  intros Hv0 Hv Hs0 Hs (Hk & _ & Hp). apply map_eq. intros p. apply option_eq. intros x. split; intros Hx.
  - by apply (Hone g s g0 s0).
  - by apply (Hone g0 s0 g s).
Qed.

(** With room for one more page a space can be made. *)
Lemma space_after_init a0 c : holds a0 ∅ → 195 ≤ room a0 →
  ∃ s0 s1 d, vme_init 0 (Vme A ∅ 0 0 c a0) = Ret (0%Z, s0) ∧ do_vop Protect s0 = Ret (d, s1) ∧ 0 < room (pages s1).
Proof.
  intros Hh Hroom.
  pose proof (wp_vme_init a0 c ltac:(lia) (λ r s, r = 0%Z ∧ ∃ g, kernel_made a0 c g s) Hh
    (λ g s Hg, conj eq_refl (ex_intro _ g Hg))) as Hw.
  apply wp_run in Hw as (r & s0 & Hrun & -> & g & Hg). exists s0.
  pose proof (wpe_protect g s0 (λ _ s', room (pages s0) = S (room (pages s'))) (km_vm _ _ _ _ Hg)) as Hp.
  pose proof (km_room _ _ _ _ Hg) as Hr. unfold wpe in Hp. cbn [do_vop]. unfold mbind, M_bind.
  destruct (protect s0) as [[p s1]|f].
  - exists s1, (ptr p). split; [done|]. split; [done|]. specialize (Hp ltac:(auto)). lia.
  - destruct Hp; [auto|lia].
Qed.

(** C9. [vme_init] makes the kernel's address space: it returns with paging on, and
    the processor then translates every address of the kernel's areas to itself,
    writable and out of reach of user code, and no other address; it uses 193
    pages. *)
Theorem kernel_identity a0 c : holds a0 ∅ → 193 ≤ room a0 →
  ∃ s, vme_init 0 (Vme A ∅ 0 0 c a0) = Ret (0%Z, s) ∧ cr3 s = kpt s ∧ cr0 s = Z.lor c CR0_PG ∧
    size (frames s) = 193 ∧ room a0 = room (pages s) + 193 ∧
    ∀ va, (0 ≤ va < 2 ^ 32)%Z →
      translate (frames s) (cr3 s) va = if kernel_page (va `div` 4096) then Some (va, true, false) else None.
Proof.
  intros Hh Hr. apply (wp_run_ret (A := Z)). apply (wp_vme_init a0 c Hr _ Hh).
  intros g s [Hv Hs Hm Hrm Hsz H3 H0]. split; [done|]. split_and!; [done..|].
  intros va Hva. rewrite H3, (translate_kernel g s (kpt s) KDir va), Hm; [done|done|by apply (v_kdir _ _ Hv)|done|done].
Qed.

(** C7. After any sequence of operations on address spaces, each living space
    translates every address by the finite map of what was mapped in it, over the
    kernel's area; a further operation returns what it should, and changes only
    the map it should, or stops on its arguments or for want of a page. *)
Theorem spaces_translate a0 c s0 s sp : holds a0 ∅ → 193 ≤ room a0 →
  vme_init 0 (Vme A ∅ 0 0 c a0) = Ret (0%Z, s0) → vsteps s0 ∅ s sp →
  (∀ d m va, sp !! d = Some m → (0 ≤ va < 2 ^ 32)%Z → translate (frames s) d va = expected kernel_page m va) ∧
  (∀ op, usable sp op → match do_vop op s with
    | Ret (r, _) => ¬ bad_op op ∧ returns op sp r
    | Err f => f = Halt ∧ (bad_op op ∨ room (pages s) = 0)
    end).
Proof.
  intros Hh Hr Hrun Hst. destruct (after_init _ _ _ _ _ Hh Hr Hrun Hst) as (g0 & g & Hm & Hv & <- & (_ & Hk & _)). split.
  - intros d m va Hd Hva. rewrite (translate_space g s d m va) by done. unfold expected.
    by rewrite Hk, (km_map _ _ _ _ Hm).
  - intros op Hu. pose proof (wpe_do_vop g s op Hv Hu) as Hw. unfold wpe in Hw.
    destruct (do_vop op s) as [[r s']|f]; [|done]. by destruct Hw as (? & ? & _).
Qed.

(** C8. Pages are not lost: whatever was done with address spaces, when none is left
    the pages in use are those that [vme_init] took, and the allocator holds no
    other page to be out. *)
Theorem pages_come_back a0 c s0 s : holds a0 ∅ → 193 ≤ room a0 →
  vme_init 0 (Vme A ∅ 0 0 c a0) = Ret (0%Z, s0) → vsteps s0 ∅ s ∅ →
  dom (frames s) = dom (frames s0) ∧ holds (pages s) (dom (frames s0)).
Proof.
  intros Hh Hr Hrun Hst. destruct (after_init _ _ _ _ _ Hh Hr Hrun Hst) as (g0 & g & Hm & Hv & Hs & Hk).
  pose proof (km_vm _ _ _ _ Hm) as Hv0. pose proof (km_spaces _ _ _ _ Hm) as Hs0.
  pose proof (kernel_own_same _ _ _ _ Hv0 Hv Hs0 Hs Hk) as Ho.
  rewrite (frames_dom _ _ Hv), (frames_dom _ _ Hv0), Ho. split; [done|]. rewrite <-Ho. apply (v_holds _ _ Hv).
Qed.
End steps.

(** ** An example: a stack of free pages *)

Definition stack_holds (l : list Z) (U : gset Z) : Prop :=
  NoDup l ∧ (∀ p, p ∈ l → is_page p ∧ p ∉ U) ∧ ∀ p, p ∈ U → is_page p.

#[export] Instance stack_pages : PageAllocator (list Z).
Proof.
  refine {| pgalloc_usr _ := λ l, match l with [] => Ret (0%Z, []) | p :: l' => Ret (p, l') end;
            pgfree_usr p := λ l, Ret (tt, p :: l); holds := stack_holds; room := length |}.
  - intros [|p l] U (Hnd & Hl & HU); [by rewrite !decide_True|].
    apply NoDup_cons in Hnd as [Hp Hnd]. destruct (Hl p) as [Hpp HpU]; [left|].
    rewrite !decide_False by (intros ->; destruct Hpp; lia). split; [|done]. split_and!; [done| |].
    + intros q Hq. destruct (Hl q) as [? ?]; [by right|]. split; [done|]. rewrite elem_of_union, elem_of_singleton.
      intros [->|?]; done.
    + intros q [->%elem_of_singleton|Hq]%elem_of_union; [done|by apply HU].
  - intros l U p (Hnd & Hl & HU) Hp. eexists. split; [done|]. split_and!.
    + apply NoDup_cons. split; [|done]. intros Hpl. by apply Hl in Hpl as [_ []].
    + intros q [->|Hq]%elem_of_cons; [split; [by apply HU|set_solver]|]. destruct (Hl q Hq). split; [done|set_solver].
    + intros q [Hq _]%elem_of_difference. by apply HU.
Defined.

#[local] Opaque vme_init protect unprotect map addr_loop.

Definition demo_pages : list Z := (λ k, k * 4096)%Z <$> seqZ 1 300.

Lemma demo_holds : holds demo_pages ∅.
Proof.
  cbn. split_and!; [|intros p Hp|by intros p ?%elem_of_empty].
  - apply NoDup_fmap_2; [intros x y; lia|apply NoDup_seqZ].
  - unfold demo_pages in Hp. apply list_elem_of_fmap in Hp as (k & -> & Hk%elem_of_seqZ).
    split; [|apply not_elem_of_empty]. unfold is_page, PGSIZE. rewrite Z.mod_mul by lia. lia.
Qed.

Lemma demo_room : 193 ≤ room demo_pages.
Proof. vm_compute. lia. Qed.

Lemma demo_more : 195 ≤ room demo_pages.
Proof. vm_compute. lia. Qed.

Lemma kernel_identity_witness : ∃ s, vme_init 0 (Vme _ ∅ 0 0 0x11 demo_pages) = Ret (0%Z, s) ∧
  translate (frames s) (cr3 s) 0x1234567 = Some (0x1234567%Z, true, false) ∧ translate (frames s) (cr3 s) 0x40000000 = None.
Proof.
  destruct (kernel_identity demo_pages 0x11 demo_holds demo_room) as (s & Hrun & _ & _ & _ & _ & Ht).
  exists s. split; [exact Hrun|]. split; (rewrite Ht; [vm_compute; reflexivity|lia]).
Defined.

Lemma demo_good d : ¬ bad_op (Map d 0x40001000 0x1e000 2).
Proof. cbn. intros [[[] _]|[[]|[]]]; reflexivity. Qed.

(** A page mapped for reading, at two addresses of it; its neighbour is not mapped. *)
Lemma spaces_translate_witness : ∃ (s : vme (list Z)) d,
  translate (frames s) d 0x40001004 = Some (0x1e004%Z, false, true) ∧ translate (frames s) d 0x40002000 = None ∧
  translate (frames s) d 0xfee00020 = Some (0xfee00020%Z, true, false).
Proof.
  destruct (space_after_init demo_pages 0x11 demo_holds demo_more) as (s0 & s1 & d & Hinit & Hp & Hr).
  assert (H1 : vsteps s0 ∅ s1 {[d := ∅]}) by (eapply (vsteps_cons _ _ Protect); [exact I|exact Hp|apply vsteps_nil]).
  destruct (spaces_translate demo_pages 0x11 s0 s1 _ demo_holds demo_room Hinit H1) as [_ Hnext].
  assert (Hu : usable {[d := ∅]} (Map d 0x40001000 0x1e000 2)) by (split; [rewrite lookup_singleton_eq; by eexists|lia]).
  specialize (Hnext _ Hu). destruct (do_vop (Map d 0x40001000 0x1e000 2) s1) as [[r s2]|f] eqn:Hmap.
  2:{ exfalso. destruct Hnext as [_ [Hbad|Hroom]]; [by apply (demo_good d)|lia]. }
  assert (H2 : vsteps s0 ∅ s2 {[d := {[0x40001000 := (0x1e000, false)]}]}%Z).
  { eapply (vsteps_cons _ _ Protect); [exact I|exact Hp|].
    eapply vsteps_cons; [exact Hu|exact Hmap|].
    replace (next_spaces _ _ _) with ({[d := {[0x40001000 := (0x1e000, false)]}]} : gmap Z mapping)%Z; [apply vsteps_nil|].
    cbn [next_spaces]. change (in_range 0x40001000 uvm_area) with true. cbn iota.
    rewrite insert_empty, alter_singleton_eq. reflexivity. }
  destruct (spaces_translate demo_pages 0x11 s0 s2 _ demo_holds demo_room Hinit H2) as [Ht _].
  pose proof (λ va, Ht d _ va (lookup_singleton_eq d _)) as Hd. exists s2, d.
  split; [|split]; (rewrite Hd; [vm_compute; reflexivity|lia]).
Defined.

(** A space that lives and ends. *)
Lemma pages_come_back_witness : ∃ s0 s2 : vme (list Z), size (frames s0) = 193 ∧ dom (frames s2) = dom (frames s0) ∧ vsteps s0 ∅ s2 ∅.
Proof.
  destruct (space_after_init demo_pages 0x11 demo_holds demo_more) as (s0 & s1 & d & Hinit & Hp & Hr).
  assert (H1 : vsteps s0 ∅ s1 {[d := ∅]}) by (eapply (vsteps_cons _ _ Protect); [exact I|exact Hp|apply vsteps_nil]).
  destruct (after_init _ _ _ _ _ demo_holds demo_room Hinit H1) as (g0 & g & Hm & Hv & Hs & _).
  pose proof (wp_unprotect g s1 d (λ _ _, True) Hv ltac:(rewrite Hs, lookup_singleton_eq; by eexists) ltac:(done)) as Hw.
  destruct (proj1 (wp_run _ _ _) Hw) as ([] & s2 & Hrun & _). exists s0, s2.
  assert (H2 : vsteps s0 ∅ s2 ∅).
  { eapply (vsteps_cons _ _ Protect); [exact I|exact Hp|].
    eapply (vsteps_cons _ _ (Unprotect d) 0%Z s2); [cbn; rewrite lookup_insert_eq; by eexists| |].
    - cbn [do_vop]. unfold mbind, M_bind. unfold space. by rewrite Hrun.
    - cbn [next_spaces]. rewrite insert_empty, delete_singleton_eq. apply vsteps_nil. }
  split; [apply (km_size _ _ _ _ Hm)|]. split; [|exact H2].
  exact (proj1 (pages_come_back demo_pages 0x11 s0 s2 demo_holds demo_room Hinit H2)).
Defined.
