(* ===== verification/Cte.v ===== *)
(** * Interrupts and contexts (abstract-machine/am/src/x86/qemu/cte.c, cte_trap.S)

    An interrupt pushes a trap frame, the C code turns it into a context and an
    event, the program's handler chooses a context, and the processor resumes it.
    A machine is its registers and the words of memory at multiples of four; the
    C code's own stack frames lie below the trap frame and are left out.  The
    program's handler works on a state [K] of its own. *)
From S2P Require Import Prelude Vme.

(** ** Constants of x86.h and am.h *)

Definition DPL_KERN : Z := 0x0.
Definition DPL_USER : Z := 0x3.
Definition FL_IF : Z := 0x200.
Definition SEG_KCODE : Z := 1.
Definition SEG_KDATA : Z := 2.
Definition SEG_UCODE : Z := 3.
Definition SEG_UDATA : Z := 4.
Definition KSEL (desc : Z) : Z := Z.lor (Z.shiftl desc 3) DPL_KERN.
Definition USEL (desc : Z) : Z := Z.lor (Z.shiftl desc 3) DPL_USER.
Definition T_IRQ0 : Z := 32.
Definition EX_DIV : Z := 0.
Definition EX_UD : Z := 6.
Definition EX_NM : Z := 7.
Definition EX_DF : Z := 8.
Definition EX_TS : Z := 10.
Definition EX_NP : Z := 11.
Definition EX_SS : Z := 12.
Definition EX_GP : Z := 13.
Definition EX_PF : Z := 14.
Definition EX_SYSCALL : Z := 0x80.
Definition EVENT_NULL : Z := 0.
Definition EVENT_ERROR : Z := 1.
Definition EVENT_IRQ_TIMER : Z := 2.
Definition EVENT_IRQ_IODEV : Z := 3.
Definition EVENT_PAGEFAULT : Z := 4.
Definition EVENT_YIELD : Z := 5.
Definition EVENT_SYSCALL : Z := 6.
Definition PROT_READ : Z := 2.

Definition STS_TG32 : Z := 0xF.
Definition NR_IRQ : nat := 256.
Definition IRQ_KBD : Z := 1.

(** [IRQS]: the vectors with a gate of their own, the ring that may call them, and
    whether the processor pushes an error code for them ([ERR]). *)
Definition IRQS : list (Z * Z * bool) :=
  ((λ v, (v, DPL_KERN, false)) <$> [0; 1; 2; 3; 4; 5; 6; 7]%Z) ++
  [(8, DPL_KERN, true); (9, DPL_KERN, false); (10, DPL_KERN, true); (11, DPL_KERN, true);
   (12, DPL_KERN, true); (13, DPL_KERN, true); (14, DPL_KERN, true); (15, DPL_KERN, false);
   (16, DPL_KERN, false); (19, DPL_KERN, false); (31, DPL_KERN, false)]%Z ++
  ((λ v, (v, DPL_KERN, false)) <$> [32; 33; 34; 35; 36; 37; 38; 39; 40; 41; 42; 43; 44; 45; 46; 47]%Z) ++
  [(128%Z, DPL_USER, false)].
Definition has_err (vec : Z) : bool := existsb (λ '(id, _, err), bool_decide (id = vec) && err) IRQS.
Definition has_gate (vec : Z) : bool := existsb (λ '(id, _, _), bool_decide (id = vec)) IRQS.

(** ** The interrupt table *)

Record GateDesc := MkGate {
  off_15_0 : Z; g_cs : Z; g_args : Z; g_rsv1 : Z; g_type : Z; g_s : Z; g_dpl : Z; g_p : Z; off_31_16 : Z
}.
Definition GATE (type sel entry dpl : Z) : GateDesc :=
  MkGate (Z.land (u32 entry) 0xffff) sel 0 0 type 0 dpl 1 (Z.shiftr (u32 entry) 16).

Record cte := MkCte {
  idt : list GateDesc;
  handler_set : bool; (* user_handler is not null *)
  idtr : option (list GateDesc); (* the table the processor uses *)
  ioapic : list Z (* the device interrupts enabled, the last first *)
}.

Section table.
Variable irqall : Z. (* the addresses of the entry points of cte_trap.S *)
Variable irq : Z → Z.

Definition set_gate (i : Z) (g : GateDesc) : M cte unit :=
  s ← get; l ← deref OutOfBounds (aset (idt s) i g);
  modify (λ s, MkCte l (handler_set s) (idtr s) (ioapic s)).

Definition percpu_initirq : M cte unit :=
  s ← get;
  when (handler_set s)
    (modify (λ s, MkCte (idt s) (handler_set s) (idtr s) (IRQ_KBD :: ioapic s));;
     modify (λ s, MkCte (idt s) (handler_set s) (Some (idt s)) (ioapic s))).

Definition cte_init (cpu : Z) (handler : bool) : M cte Z :=
  assert (bool_decide (cpu = 0)%Z);;
  for_range 0 (Z.of_nat NR_IRQ) (λ i, set_gate i (GATE STS_TG32 (KSEL SEG_KCODE) irqall DPL_KERN));;
  for_each IRQS (λ '(id, dpl, _), set_gate id (GATE STS_TG32 (KSEL SEG_KCODE) (irq id) dpl));;
  modify (λ s, MkCte (idt s) handler (idtr s) (ioapic s));;
  percpu_initirq;;
  mret 0%Z.
End table.

(** ** Data *)

Record Context := MkContext {
  prot : option AddressSpace;
  eax : Z; ebx : Z; ecx : Z; edx : Z; esi : Z; edi : Z; ebp : Z; esp3 : Z;
  eip : Z; eflags : Z; cs : Z; ds : Z; es : Z; ss : Z; ss0 : Z; esp0 : Z
}.

Record Event := MkEvent { event : Z; cause : Z; ref : Z; msg : string }.

(** The words of a trap frame, from its address up. *)
Record TrapFrame := MkFrame {
  f_edi : Z; f_esi : Z; f_ebp : Z; f_esp_ : Z; f_ebx : Z; f_edx : Z; f_ecx : Z; f_eax : Z;
  f_es : Z; f_ds : Z; f_irq : Z; f_err : Z; f_eip : Z; f_cs : Z; f_eflags : Z; f_esp : Z; f_ss : Z
}.
Definition SIZEOF_FRAME : Z := 68.

Record regs := Regs {
  r_eax : Z; r_ebx : Z; r_ecx : Z; r_edx : Z; r_esi : Z; r_edi : Z; r_ebp : Z; r_esp : Z;
  r_eip : Z; r_eflags : Z; r_cs : Z; r_ds : Z; r_es : Z; r_ss : Z
}.

Section machine.
Context {K : Type}.

Record machine := Machine {
  rg : regs;
  mem : Z → Z;
  cr2 : Z;
  m_cr3 : Z;
  tss_ss0 : Z; tss_esp0 : Z; (* the stack of this processor's task segment *)
  cpu_prot : option AddressSpace; (* CPU->prot *)
  eois : nat; (* ends of interrupt sent to the local controller *)
  kern : K
}.

Definition set_rg v (s : machine) := Machine v (mem s) (cr2 s) (m_cr3 s) (tss_ss0 s) (tss_esp0 s) (cpu_prot s) (eois s) (kern s).
Definition set_mem v (s : machine) := Machine (rg s) v (cr2 s) (m_cr3 s) (tss_ss0 s) (tss_esp0 s) (cpu_prot s) (eois s) (kern s).
Definition set_mcr3 v (s : machine) := Machine (rg s) (mem s) (cr2 s) v (tss_ss0 s) (tss_esp0 s) (cpu_prot s) (eois s) (kern s).
Definition set_tss v w (s : machine) := Machine (rg s) (mem s) (cr2 s) (m_cr3 s) v w (cpu_prot s) (eois s) (kern s).
Definition set_prot v (s : machine) := Machine (rg s) (mem s) (cr2 s) (m_cr3 s) (tss_ss0 s) (tss_esp0 s) v (eois s) (kern s).
Definition set_eois v (s : machine) := Machine (rg s) (mem s) (cr2 s) (m_cr3 s) (tss_ss0 s) (tss_esp0 s) (cpu_prot s) v (kern s).
Definition set_kern v (s : machine) := Machine (rg s) (mem s) (cr2 s) (m_cr3 s) (tss_ss0 s) (tss_esp0 s) (cpu_prot s) (eois s) v.

Definition with_esp v r := Regs (r_eax r) (r_ebx r) (r_ecx r) (r_edx r) (r_esi r) (r_edi r) (r_ebp r) v (r_eip r) (r_eflags r) (r_cs r) (r_ds r) (r_es r) (r_ss r).
Definition with_stack v w r := Regs (r_eax r) (r_ebx r) (r_ecx r) (r_edx r) (r_esi r) (r_edi r) (r_ebp r) w (r_eip r) (r_eflags r) (r_cs r) (r_ds r) (r_es r) v.
Definition with_flags v r := Regs (r_eax r) (r_ebx r) (r_ecx r) (r_edx r) (r_esi r) (r_edi r) (r_ebp r) (r_esp r) (r_eip r) v (r_cs r) (r_ds r) (r_es r) (r_ss r).
Definition with_code v w r := Regs (r_eax r) (r_ebx r) (r_ecx r) (r_edx r) (r_esi r) (r_edi r) (r_ebp r) (r_esp r) w (r_eflags r) v (r_ds r) (r_es r) (r_ss r).
Definition with_data a v w r := Regs a (r_ebx r) (r_ecx r) (r_edx r) (r_esi r) (r_edi r) (r_ebp r) (r_esp r) (r_eip r) (r_eflags r) (r_cs r) v w (r_ss r).

(** ** Instructions *)

Definition put_word (a v : Z) (m : Z → Z) : Z → Z := λ b, if decide (b = a) then v else m b.

Definition push (v : Z) : M machine unit :=
  modify (λ s, let e := u32 (r_esp (rg s) - 4) in set_rg (with_esp e (rg s)) (set_mem (put_word e v (mem s)) s)).
Definition pop : M machine Z :=
  s ← get;
  modify (set_rg (with_esp (u32 (r_esp (rg s) + 4)) (rg s)));;
  mret (mem s (r_esp (rg s))).

(** [pushal], and [popal], which leaves [esp] as it is. *)
Definition pushal : M machine unit :=
  s ← get; let r := rg s in
  for_each [r_eax r; r_ecx r; r_edx r; r_ebx r; r_esp r; r_ebp r; r_esi r; r_edi r] push.
Definition popal : M machine unit :=
  di ← pop; si ← pop; bp ← pop; _ ← pop; bx ← pop; dx ← pop; cx ← pop; ax ← pop;
  modify (λ s, let r := rg s in
    set_rg (Regs ax bx cx dx si di bp (r_esp r) (r_eip r) (r_eflags r) (r_cs r) (r_ds r) (r_es r) (r_ss r)) s).

Definition user_cs (sel : Z) : bool := bool_decide (Z.land sel DPL_USER ≠ 0%Z).

(** [iret]: back to the stack of the user's ring when the code goes there. *)
Definition iret : M machine unit :=
  ip ← pop; sel ← pop; fl ← pop;
  modify (λ s, set_rg (with_flags fl (with_code sel ip (rg s))) s);;
  when (user_cs sel) (sp ← pop; sg ← pop; modify (λ s, set_rg (with_stack sg sp (rg s)) s)).

(** The exceptions for which the processor pushes an error code. *)
Definition pushes_err (vec : Z) : bool := bool_decide (vec ∈ [8; 10; 11; 12; 13; 14; 17; 21; 29; 30]%Z).

(** What the processor does on interrupt [vec], through a trap gate of [cte_init]. *)
Definition interrupt (vec err : Z) : M machine unit :=
  s ← get; let r := rg s in
  when (user_cs (r_cs r))
    (modify (λ s, set_rg (with_stack (tss_ss0 s) (tss_esp0 s) (rg s)) s);; push (r_ss r);; push (r_esp r));;
  push (r_eflags r);; push (r_cs r);; push (r_eip r);;
  when (pushes_err vec) (push err);;
  modify (λ s, set_rg (with_code (KSEL SEG_KCODE) (r_eip (rg s)) (rg s)) s).

(** [irq<id>] and [irqall], then [trap], up to the call of [irq_handle]: the address
    of the trap frame. *)
Definition trap_entry (vec : Z) : M machine Z :=
  modify (λ s, set_rg (with_flags (Z.land (r_eflags (rg s)) (u32 (Z.lnot FL_IF))) (rg s)) s);;
  when (negb (has_err vec)) (push 0%Z);;
  push (if has_gate vec then vec else u32 (-1));;
  s ← get; push (r_ds (rg s));;
  s ← get; push (r_es (rg s));;
  pushal;;
  modify (λ s, let r := rg s in
    set_rg (with_data (Z.lor (Z.land (r_eax r) 0xffff0000) (KSEL SEG_KDATA)) (KSEL SEG_KDATA) (KSEL SEG_KDATA) r) s);;
  s ← get; mret (r_esp (rg s)).

(** ** The C code *)

Definition read_frame (tf : Z) (m : Z → Z) : TrapFrame :=
  MkFrame (m tf) (m (u32 (tf + 4))) (m (u32 (tf + 8))) (m (u32 (tf + 12))) (m (u32 (tf + 16))) (m (u32 (tf + 20))) (m (u32 (tf + 24)))
    (m (u32 (tf + 28))) (m (u32 (tf + 32))) (m (u32 (tf + 36))) (i32 (m (u32 (tf + 40)))) (m (u32 (tf + 44))) (m (u32 (tf + 48)))
    (m (u32 (tf + 52))) (m (u32 (tf + 56))) (m (u32 (tf + 60))) (m (u32 (tf + 64))).

(** The context made of a trap frame. *)
Definition save_context (tfp : Z) (tf : TrapFrame) (p : option AddressSpace) : Context :=
  let top := u32 (tfp + SIZEOF_FRAME) in
  let user := user_cs (f_cs tf) in
  MkContext p (f_eax tf) (f_ebx tf) (f_ecx tf) (f_edx tf) (f_esi tf) (f_edi tf) (f_ebp tf)
    (if user then f_esp tf else 0) (f_eip tf) (f_eflags tf) (f_cs tf) (f_ds tf) (f_es tf)
    (if user then f_ss tf else 0) (KSEL SEG_KDATA) (if user then top else u32 (top - 4 * 2)).

(** The event of an interrupt. *)
Definition irq_event (tf : TrapFrame) (c2 : Z) : Event :=
  let irq := f_irq tf in
  let ev e m := MkEvent e 0 0 m in
  if decide (irq = T_IRQ0 + 0)%Z then ev EVENT_IRQ_TIMER "timer interrupt (lapic)"%string
  else if decide (irq = T_IRQ0 + 1)%Z then ev EVENT_IRQ_IODEV "I/O device IRQ1 (keyboard)"%string
  else if decide (irq = EX_SYSCALL) then
    ev (if decide (i32 (f_eax tf) = -1)%Z then EVENT_YIELD else EVENT_SYSCALL) "int $0x80 trap: _yield() or system call"%string
  else if decide (irq = EX_DIV) then ev EVENT_ERROR "divide by zero"%string
  else if decide (irq = EX_UD) then ev EVENT_ERROR "UD #6 invalid opcode"%string
  else if decide (irq = EX_NM) then ev EVENT_ERROR "NM #7 coprocessor error"%string
  else if decide (irq = EX_DF) then ev EVENT_ERROR "DF #8 double fault"%string
  else if decide (irq = EX_TS) then ev EVENT_ERROR "TS #10 invalid TSS"%string
  else if decide (irq = EX_NP) then ev EVENT_ERROR "NP #11 segment/gate not present"%string
  else if decide (irq = EX_SS) then ev EVENT_ERROR "SS #12 stack fault"%string
  else if decide (irq = EX_GP) then ev EVENT_ERROR "GP #13, general protection fault"%string
  else if decide (irq = EX_PF) then
    MkEvent EVENT_PAGEFAULT
      (Z.lor (if decide (Z.land (f_err tf) 0x1 ≠ 0)%Z then PROT_NONE else 0)
             (if decide (Z.land (f_err tf) 0x2 ≠ 0)%Z then PROT_WRITE else PROT_READ))
      c2 "PF #14, page fault, @cause: _PROT_XXX"%string
  else MkEvent EVENT_ERROR (f_err tf) 0 "unrecognized interrupt/exception"%string.

(** Return to a context: its registers go on its stack and are popped. *)
Definition return_to (c : Context) : M machine unit :=
  modify (set_prot (prot c));;
  (if user_cs (cs c) then
     (match prot c with Some p => modify (set_mcr3 (ptr p)) | None => mret tt end);;
     modify (set_tss (ss0 c) (esp0 c));;
     modify (λ s, set_rg (with_esp (esp0 c) (rg s)) s);;
     for_each [ss c; esp3 c] push
   else modify (λ s, set_rg (with_esp (esp0 c) (rg s)) s));;
  for_each [eflags c; cs c; eip c; ds c; es c; eax c; ecx c; edx c; ebx c; esp0 c; ebp c; esi c; edi c] push;;
  popal;;
  e ← pop; d ← pop;
  modify (λ s, set_rg (with_data (r_eax (rg s)) d e (rg s)) s);;
  iret.

(** The handler given to [cte_init]; its answer is a context or null. *)
Variable user_handler : option (Event → Context → M K (option Context)).

Definition irq_handle (tfp : Z) : M machine unit :=
  s ← get;
  let tf := read_frame tfp (mem s) in
  let ctx := save_context tfp tf (cpu_prot s) in
  when (bool_decide (T_IRQ0 + 0 ≤ f_irq tf < T_IRQ0 + 32)%Z) (modify (λ s, set_eois (S (eois s)) s));;
  s ← get;
  let ev := irq_event tf (cr2 s) in
  ret_ctx ← (match user_handler with
    | Some h => next ← zoom kern set_kern (h ev ctx); match next with Some c => mret c | None => fail Halt end
    | None => mret ctx
    end);
  return_to ret_ctx.

(** An interrupt from its arrival to the return. *)
Definition take_irq (vec err : Z) : M machine unit :=
  interrupt vec err;; tfp ← trap_entry vec; irq_handle tfp.

(** [yield], [intr_read] and [intr_write]; [int $0x80] is an interrupt that [eip] is
    already past. *)
Definition need_handler : M machine unit := assert (bool_decide (is_Some user_handler)).
Definition yield : M machine unit :=
  need_handler;;
  modify (λ s, set_rg (with_data (u32 (-1)) (r_ds (rg s)) (r_es (rg s)) (rg s)) s);;
  take_irq EX_SYSCALL 0.
Definition intr_read : M machine Z :=
  need_handler;; s ← get; mret (if decide (Z.land (r_eflags (rg s)) FL_IF ≠ 0)%Z then 1 else 0)%Z.
Definition intr_write (enable : Z) : M machine unit :=
  need_handler;;
  if decide (enable ≠ 0)%Z then modify (λ s, set_rg (with_flags (Z.lor (r_eflags (rg s)) FL_IF) (rg s)) s)
  else modify (λ s, set_rg (with_flags (Z.land (r_eflags (rg s)) (u32 (Z.lnot FL_IF))) (rg s)) s).

(** ** New contexts *)

(** [kcontext]: the context of a new thread, with the words it puts on its stack
    ([panic_on_return] is the address of that function). *)
Definition kcontext (panic_on_return : Z) (stack : Area) (entry arg : Z) : M machine Context :=
  let values := [panic_on_return; arg] in
  let top := u32 (end_ stack - 4 * Z.of_nat (length values)) in
  for_range 0 (Z.of_nat (length values)) (λ i,
    v ← deref OutOfBounds (aget values i); modify (λ s, set_mem (put_word (u32 (top + 4 * i)) v (mem s)) s));;
  mret (MkContext None 0 0 0 0 0 0 0 0 entry FL_IF (KSEL SEG_KCODE) (KSEL SEG_KDATA) (KSEL SEG_KDATA) (KSEL SEG_KDATA) 0 top).

(** [ucontext] of vme.c. *)
Definition ucontext (p : AddressSpace) (ustack kstack : Area) (entry args : Z) : Context :=
  MkContext (Some p) args 0 0 0 0 0 0 (end_ ustack) entry FL_IF (USEL SEG_UCODE) (USEL SEG_UDATA) (USEL SEG_UDATA)
    (USEL SEG_UDATA) (KSEL SEG_KDATA) (end_ kstack).
End machine.
Arguments machine : clear implicits.
