(* ===== verification/CteProps.v ===== *)
(** * Properties of interrupts

    Pushing words on a stack and popping them ([stacked]); what an interrupt saves
    is what a return to it restores; how a new thread begins. *)
From S2P Require Import Prelude Vme Cte.

(** Memory after the words [l] were pushed on a stack whose top was [e]. *)
Fixpoint stacked (e : Z) (l : list Z) (m : Z → Z) : Z → Z :=
  match l with [] => m | x :: l' => stacked (e - 4) l' (put_word (e - 4) x m) end.

Lemma stacked_other l : ∀ e m a, (a < e - 4 * Z.of_nat (length l) ∨ e ≤ a)%Z → stacked e l m a = m a.
Proof.
  induction l as [|x l IH]; intros e m a Ha; cbn [stacked length] in *; [done|].
  rewrite IH by lia. unfold put_word. by rewrite decide_False by lia.
Qed.

Lemma stacked_get l : ∀ e m i x, l !! i = Some x → stacked e l m (e - 4 * (Z.of_nat i + 1)) = x.
Proof.
  induction l as [|y l IH]; intros e m [|i] x Hl; cbn [stacked] in *; [done|done|..].
  - injection Hl as <-. rewrite stacked_other by lia. unfold put_word. by rewrite decide_True by lia.
  - replace (e - 4 * (Z.of_nat (S i) + 1))%Z with (e - 4 - 4 * (Z.of_nat i + 1))%Z by lia. by apply IH.
Qed.

Lemma stacked_app l1 l2 : ∀ e m, stacked e (l1 ++ l2) m = stacked (e - 4 * Z.of_nat (length l1)) l2 (stacked e l1 m).
Proof.
  induction l1 as [|x l1 IH]; intros e m; cbn [app stacked length]; [f_equal; lia|]. rewrite IH. f_equal. lia.
Qed.

Section machine.
Context {K : Type}.
Implicit Types (s : machine K).

(** The state after pushing [l]. *)
Definition pushed (l : list Z) s : machine K :=
  set_rg (with_esp (r_esp (rg s) - 4 * Z.of_nat (length l)) (rg s)) (set_mem (stacked (r_esp (rg s)) l (mem s)) s).

Lemma pushed_app l1 l2 s : pushed l2 (pushed l1 s) = pushed (l1 ++ l2) s.
Proof.
  unfold pushed. cbn. rewrite stacked_app, length_app.
  by replace (r_esp (rg s) - 4 * Z.of_nat (length l1) - 4 * Z.of_nat (length l2))%Z
    with (r_esp (rg s) - 4 * Z.of_nat (length l1 + length l2))%Z by lia.
Qed.

Lemma wp_push v (Q : unit → machine K → Prop) s : (4 ≤ r_esp (rg s) < 2 ^ 32)%Z → Q tt (pushed [v] s) → wp (push v) Q s.
Proof.
  intros He HQ. unfold push. apply wp_modify. rewrite u32_small by lia. exact HQ.
Qed.

Lemma wp_push1 v (Q : unit → machine K → Prop) s : (4 ≤ r_esp (rg s) < 2 ^ 32)%Z →
  Q tt (set_rg (with_esp (r_esp (rg s) - 4) (rg s)) (set_mem (put_word (r_esp (rg s) - 4) v (mem s)) s)) → wp (push v) Q s.
Proof. intros He HQ. unfold push. apply wp_modify. by rewrite u32_small by lia. Qed.

Lemma wp_pushes l (Q : unit → machine K → Prop) : ∀ s, (4 * Z.of_nat (length l) ≤ r_esp (rg s) < 2 ^ 32)%Z →
  Q tt (pushed l s) → wp (for_each l push) Q s.
Proof.
  induction l as [|x l IH]; intros s He HQ; cbn [for_each length] in *.
  - wp_step. unfold pushed in HQ. cbn in HQ. rewrite Z.sub_0_r in HQ. by destruct s, rg.
  - wp_step. apply wp_push; [lia|]. apply IH; [cbn; lia|]. by rewrite pushed_app.
Qed.

Lemma wp_pop (Q : Z → machine K → Prop) s v : (0 ≤ r_esp (rg s) < 2 ^ 32 - 4)%Z → mem s (r_esp (rg s)) = v →
  Q v (set_rg (with_esp (r_esp (rg s) + 4) (rg s)) s) → wp pop Q s.
Proof. intros He <- HQ. unfold pop. wp_steps. by rewrite u32_small by lia. Qed.
Lemma wp_pop_stacked e0 l m i x (Q : Z → machine K → Prop) s : mem s = stacked e0 l m → l !! i = Some x →
  (r_esp (rg s) = e0 - 4 * (Z.of_nat i + 1))%Z → (0 ≤ r_esp (rg s) < 2 ^ 32 - 4)%Z →
  Q x (set_rg (with_esp (e0 - 4 * Z.of_nat i) (rg s)) s) → wp pop Q s.
Proof.
  intros Hm Hl He Hr HQ. apply (wp_pop _ _ x Hr); [by rewrite Hm, He; apply stacked_get|].
  by replace (r_esp (rg s) + 4)%Z with (e0 - 4 * Z.of_nat i)%Z by lia.
Qed.

(** ** Returning to a context *)

Definition return_words (c : Context) : list Z :=
  (if user_cs (cs c) then [ss c; esp3 c] else []) ++
  [eflags c; cs c; eip c; ds c; es c; eax c; ecx c; edx c; ebx c; esp0 c; ebp c; esi c; edi c].

(** The registers of a context; in the kernel the stack segment stays. *)
Definition regs_of (c : Context) (sg : Z) : regs :=
  Regs (eax c) (ebx c) (ecx c) (edx c) (esi c) (edi c) (ebp c) (if user_cs (cs c) then esp3 c else esp0 c)
    (eip c) (eflags c) (cs c) (ds c) (es c) (if user_cs (cs c) then ss c else sg).

(** The machine [s] after a return to [c]. *)
Definition resumed (c : Context) s : machine K :=
  let user := user_cs (cs c) in
  Machine (regs_of c (r_ss (rg s))) (stacked (esp0 c) (return_words c) (mem s)) (cr2 s)
    (if user then match prot c with Some p => ptr p | None => m_cr3 s end else m_cr3 s)
    (if user then ss0 c else tss_ss0 s) (if user then esp0 c else tss_esp0 s) (prot c) (eois s) (kern s).

Definition good_stack (e : Z) : Prop := (256 ≤ e < 2 ^ 32 - 256 ∧ e `mod` 4 = 0)%Z.

(** Keep the machine's state in the form of a record. *)
Ltac tidy := cbv beta iota zeta delta [set_rg set_mem set_prot set_mcr3 set_tss set_eois set_kern with_esp with_stack with_flags with_code with_data
  rg mem cr2 m_cr3 tss_ss0 tss_esp0 cpu_prot eois kern
  r_eax r_ebx r_ecx r_edx r_esi r_edi r_ebp r_esp r_eip r_eflags r_cs r_ds r_es r_ss].

Lemma post_eq (Q : Z → machine K → Prop) x y a b : Q x y → a = x → b = y → Q a b.
Proof. by intros ? -> ->. Qed.

(** Run to the end of the pushes; [HQ] has the state they reach. *)
Ltac arrive HQ :=
  repeat first [wp_step; tidy | apply wp_push1; [tidy; lia|]; tidy];
  apply (post_eq _ _ _ _ _ HQ); [lia|]; tidy; cbn [stacked]; f_equal; [f_equal; lia|]; repeat (f_equal; try lia).

(** Pop the words from index [k] down to [last] of the list that [Hm] says is there. *)
Ltac pop_words k last Hm :=
  try wp_step; eapply (wp_pop_stacked _ _ _ k); [exact Hm|reflexivity|cbn; lia|cbn; lia|]; tidy;
  lazymatch k with
  | last => idtac
  | S ?k' => pop_words k' last Hm
  end.

(** Popping what [return_words] put there. *)
Lemma wp_unwind c s m (Q : unit → machine K → Prop) : good_stack (esp0 c) →
  mem s = stacked (esp0 c) (return_words c) m → r_esp (rg s) = (esp0 c - 4 * Z.of_nat (length (return_words c)))%Z →
  Q tt (set_rg (regs_of c (r_ss (rg s))) s) →
  wp (popal;; e ← pop; d ← pop; modify (λ s, set_rg (with_data (r_eax (rg s)) d e (rg s)) s);; iret) Q s.
Proof.
  intros [He _] Hm Hsp HQ. unfold return_words, popal, iret, regs_of in *.
  destruct s as [[ax bx cx dx si di bp sp ip fl sc sd se sg] mm c2 c3 t0 t1 cp eo kn]. cbn [rg mem r_esp r_ss] in *. subst sp.
  destruct (user_cs (cs c)) eqn:Hu; cbn [app length] in *.
  - wp_step. pop_words 14 7 Hm. do 2 wp_step. tidy. pop_words 6 5 Hm. do 2 wp_step. tidy. pop_words 4 2 Hm. do 2 wp_step. tidy.
    rewrite Hu. cbn [when]. wp_step. pop_words 1 0 Hm. wp_step. tidy. exact HQ.
  - wp_step. pop_words 12 5 Hm. do 2 wp_step. tidy. pop_words 4 3 Hm. do 2 wp_step. tidy. pop_words 2 0 Hm. do 2 wp_step. tidy.
    rewrite Hu. cbn [when]. wp_step. rewrite Z.sub_0_r. exact HQ.
Qed.

Lemma wp_return_to c s (Q : unit → machine K → Prop) : good_stack (esp0 c) → Q tt (resumed c s) → wp (return_to c) Q s.
Proof.
  intros Hg HQ. pose proof Hg as [He _]. destruct s as [[ax bx cx dx si di bp sp ip fl sc sd se sg] mm c2 c3 t0 t1 cp eo kn].
  unfold return_to. wp_step. wp_step. tidy. unfold resumed in HQ. cbn [mem rg r_ss m_cr3 tss_ss0 tss_esp0 cr2 eois kern] in HQ.
  wp_step. destruct (user_cs (cs c)) eqn:Hu.
  - wp_step. apply (wp_mono _ (λ _ s', s' = Machine (Regs ax bx cx dx si di bp sp ip fl sc sd se sg) mm c2
      (match prot c with Some p => ptr p | None => c3 end) t0 t1 (prot c) eo kn)).
    { destruct (prot c); by wp_step. }
    intros [] s1 ->. wp_step. wp_step. wp_step. wp_step. tidy.
    apply wp_pushes; [cbn; lia|]. wp_step. apply wp_pushes; [cbn; lia|]. rewrite pushed_app.
    eapply (wp_unwind c); [done| | |].
    + unfold return_words. rewrite Hu. reflexivity.
    + unfold return_words. rewrite Hu. reflexivity.
    + unfold return_words in HQ. rewrite Hu in HQ. exact HQ.
  - wp_step. tidy. wp_step. apply wp_pushes; [cbn; lia|].
    eapply (wp_unwind c); [done| | |].
    + unfold return_words. rewrite Hu. reflexivity.
    + unfold return_words. rewrite Hu. reflexivity.
    + unfold return_words in HQ. rewrite Hu in HQ. exact HQ.
Qed.

(** ** Arriving at the handler *)

(** The stack on which an interrupt of [s] puts its frame. *)
Definition stack_top s : Z := if user_cs (r_cs (rg s)) then tss_esp0 s else r_esp (rg s).

(** The context of the interrupted code, and the frame that the handler sees. *)
Definition context_of s : Context :=
  let r := rg s in let user := user_cs (r_cs r) in
  MkContext (cpu_prot s) (r_eax r) (r_ebx r) (r_ecx r) (r_edx r) (r_esi r) (r_edi r) (r_ebp r) (if user then r_esp r else 0)
    (r_eip r) (r_eflags r) (r_cs r) (r_ds r) (r_es r) (if user then r_ss r else 0) (KSEL SEG_KDATA) (stack_top s).
Definition vector (vec : Z) : Z := if has_gate vec then vec else u32 (-1).
Definition frame_words (vec err : Z) s : list Z :=
  let r := rg s in
  (if user_cs (r_cs r) then [r_ss r; r_esp r] else []) ++
  [r_eflags r; r_cs r; r_eip r; if has_err vec then err else 0%Z; vector vec; r_ds r; r_es r; r_eax r; r_ecx r; r_edx r; r_ebx r;
   (stack_top s - (if user_cs (r_cs r) then 36 else 28))%Z; r_ebp r; r_esi r; r_edi r].

(** The machine at the call of [irq_handle]. *)
Definition arrived (vec err : Z) s : machine K :=
  Machine (Regs (Z.lor (Z.land (r_eax (rg s)) 0xffff0000) (KSEL SEG_KDATA)) (r_ebx (rg s)) (r_ecx (rg s)) (r_edx (rg s)) (r_esi (rg s))
      (r_edi (rg s)) (r_ebp (rg s)) (stack_top s - 4 * Z.of_nat (length (frame_words vec err s))) (r_eip (rg s))
      (Z.land (r_eflags (rg s)) (u32 (Z.lnot FL_IF))) (KSEL SEG_KCODE) (KSEL SEG_KDATA) (KSEL SEG_KDATA)
      (if user_cs (r_cs (rg s)) then tss_ss0 s else r_ss (rg s)))
    (stacked (stack_top s) (frame_words vec err s) (mem s)) (cr2 s) (m_cr3 s) (tss_ss0 s) (tss_esp0 s) (cpu_prot s) (eois s) (kern s).

(** The entry point of [vec] knows whether the processor pushes an error code. *)
Definition framed (vec : Z) : Prop := pushes_err vec = has_err vec.

Lemma framed_except vec : (0 ≤ vec < 256)%Z → framed vec ↔ vec ∉ [17; 21; 29; 30]%Z.
Proof.
  intros Hv. assert (Hall : Forall (λ v, framed v ↔ v ∉ [17; 21; 29; 30]%Z) (seqZ 0 256)) by (apply (bool_decide_unpack _); vm_compute; exact I).
  apply (proj1 (Forall_forall _ _) Hall), elem_of_seqZ. lia.
Qed.

Lemma wp_arrive vec err s (Q : Z → machine K → Prop) : framed vec → good_stack (stack_top s) →
  Q (stack_top s - 4 * Z.of_nat (length (frame_words vec err s)))%Z (arrived vec err s) →
  wp (interrupt vec err;; trap_entry vec) Q s.
Proof.
  intros Hf [He _] HQ. destruct s as [[ax bx cx dx si di bp sp ip fl sc sd se sg] mm c2 c3 t0 t1 cp eo kn].
  unfold arrived, frame_words, stack_top in *. cbn [rg r_cs r_esp tss_esp0] in *.
  unfold interrupt, trap_entry, pushal. rewrite Hf. wp_step. wp_step. wp_step. tidy. wp_step.
  destruct (user_cs sc) eqn:Hu; destruct (has_err vec) eqn:Herr; cbn [when negb app for_each length] in *; arrive HQ.
Qed.

(** ** The handler's part *)

Definition frame_of (vec err : Z) s : TrapFrame :=
  let r := rg s in let user := user_cs (r_cs r) in
  MkFrame (r_edi r) (r_esi r) (r_ebp r) (stack_top s - (if user then 36 else 28)) (r_ebx r) (r_edx r) (r_ecx r) (r_eax r)
    (r_es r) (r_ds r) (i32 (vector vec)) (if has_err vec then err else 0) (r_eip r) (r_cs r) (r_eflags r)
    (if user then r_esp r else mem s (stack_top s)) (if user then r_ss r else mem s (stack_top s + 4)%Z).

Ltac word i := match goal with Hget : ∀ k i x, _, Hu : user_cs _ = _ |- _ => apply (Hget _ i); [unfold frame_words; rewrite Hu; reflexivity|lia] end.

Lemma read_arrived vec err s : good_stack (stack_top s) →
  read_frame (stack_top s - 4 * Z.of_nat (length (frame_words vec err s))) (mem (arrived vec err s)) = frame_of vec err s.
Proof.
  intros [He _]. cbn [arrived mem]. assert (Hget : ∀ k i x, frame_words vec err s !! i = Some x →
    (k = 4 * (Z.of_nat (length (frame_words vec err s)) - 1 - Z.of_nat i))%Z →
    stacked (stack_top s) (frame_words vec err s) (mem s) (u32 (stack_top s - 4 * Z.of_nat (length (frame_words vec err s)) + k)) = x).
  { intros k i x Hx ->. pose proof (lookup_lt_Some _ _ _ Hx) as Hlt.
    assert (length (frame_words vec err s) ≤ 17) by (unfold frame_words; destruct (user_cs _); cbn; lia).
    rewrite u32_small by lia. rewrite <-(stacked_get _ (stack_top s) (mem s) _ _ Hx). f_equal. lia. }
  assert (Hout : ∀ k, (0 ≤ k < 16)%Z → mem s (stack_top s + k)%Z = stacked (stack_top s) (frame_words vec err s) (mem s) (u32 (stack_top s + k))).
  { intros k Hk. rewrite u32_small by lia. symmetry. apply stacked_other. lia. }
  assert (Hlen : Z.of_nat (length (frame_words vec err s)) = if user_cs (r_cs (rg s)) then 17%Z else 15%Z)
    by (unfold frame_words; by destruct (user_cs _)).
  rewrite Hlen in *. unfold read_frame, frame_of.
  rewrite <-(u32_small (stack_top s - _)) at 1 by (destruct (user_cs _); lia).
  rewrite <-(Z.add_0_r (stack_top s - 4 * _)) at 1.
  destruct (user_cs (r_cs (rg s))) eqn:Hu.
  - f_equal; [word 16|word 15|word 14|word 13|word 12|word 11|word 10|word 9|word 8|word 7|f_equal; word 6|word 5|word 4|word 3|word 2|word 1|word 0].
  - f_equal; [word 14|word 13|word 12|word 11|word 10|word 9|word 8|word 7|word 6|word 5|f_equal; word 4|word 3|word 2|word 1|word 0|..].
    + transitivity (mem s (stack_top s + 0)%Z); [|f_equal; lia]. rewrite Hout by lia. do 2 f_equal. lia.
    + rewrite Hout by lia. do 2 f_equal. lia.
Qed.

Lemma saved_context vec err s : good_stack (stack_top s) →
  save_context (stack_top s - 4 * Z.of_nat (length (frame_words vec err s))) (frame_of vec err s) (cpu_prot s) = context_of s.
Proof.
  intros [He _]. unfold save_context, context_of, frame_of, frame_words, SIZEOF_FRAME. cbn [f_cs f_eax f_ebx f_ecx f_edx f_esi f_edi f_ebp f_esp f_eip f_eflags f_ds f_es f_ss].
  destruct (user_cs (r_cs (rg s))) eqn:Hu; cbn [app length]; f_equal.
  - rewrite u32_small by lia. lia.
  - rewrite (u32_small (_ + 68)) by lia. rewrite u32_small by lia. lia.
Qed.

(** What the handler is told. *)
Definition event_of (vec err : Z) s : Event := irq_event (frame_of vec err s) (cr2 s).

Definition told (vec err : Z) s : machine K :=
  set_eois (if bool_decide (32 ≤ i32 (vector vec) < 64)%Z then S (eois s) else eois s) (arrived vec err s).

Variable h : Event → Context → M K (option Context).

Lemma wp_take_irq vec err s c k' (Q : unit → machine K → Prop) : framed vec → good_stack (stack_top s) → good_stack (esp0 c) →
  h (event_of vec err s) (context_of s) (kern s) = Ret (Some c, k') →
  Q tt (resumed c (set_kern k' (told vec err s))) → wp (take_irq (Some h) vec err) Q s.
Proof.
  intros Hf Hg Hgc Hh HQ. unfold take_irq.
  assert (Hassoc : ∀ (m : M (machine K) unit) (m2 : M (machine K) Z) (m3 : Z → M (machine K) unit),
    wp (m;; m2) (λ a s', wp (m3 a) Q s') s → wp (m;; a ← m2; m3 a) Q s).
  { intros m m2 m3. unfold wp, mbind, M_bind. destruct (m s) as [[u s1]|]; [|done]. by destruct (m2 s1) as [[a s2]|]. }
  apply Hassoc, wp_arrive; [done|done|]. unfold irq_handle. wp_step. wp_step. cbv zeta.
  rewrite read_arrived by done. change (cpu_prot (arrived vec err s)) with (cpu_prot s). rewrite saved_context by done.
  wp_step. apply (wp_mono _ (λ _ s', s' = told vec err s)).
  { change (f_irq (frame_of vec err s)) with (i32 (vector vec)). change (T_IRQ0 + 0)%Z with 32%Z. change (32 + 32)%Z with 64%Z.
    unfold told. destruct (bool_decide _); cbn [when]; wp_step; done. }
  intros [] s1 ->. wp_step. wp_step. change (irq_event (frame_of vec err s) (cr2 (told vec err s))) with (event_of vec err s).
  wp_step. wp_step. apply wp_zoom. unfold wp. change (kern (told vec err s)) with (kern s). rewrite Hh. by apply wp_return_to.
Qed.

(** C10. What an interrupt saves is what a return restores: when the handler, told of
    an interrupt of [s], answers the context that an interrupt of [s0] once gave it
    ([s] itself, or another thread), the processor goes on with the registers of
    [s0], all of them, in its address space; only the two stacks' words below
    their tops have changed.  All but four exceptions are [framed]. *)
Theorem switch_back vec err s s0 k' : framed vec → good_stack (stack_top s) → good_stack (stack_top s0) →
  h (event_of vec err s) (context_of s) (kern s) = Ret (Some (context_of s0), k') →
  ∃ s', take_irq (Some h) vec err s = Ret (tt, s') ∧
    rg s' = with_stack (if user_cs (r_cs (rg s0)) then r_ss (rg s0) else r_ss (rg (arrived vec err s))) (r_esp (rg s0)) (rg s0) ∧
    kern s' = k' ∧ cpu_prot s' = cpu_prot s0 ∧
    (∀ p, user_cs (r_cs (rg s0)) = true → cpu_prot s0 = Some p → m_cr3 s' = ptr p ∧ tss_esp0 s' = stack_top s0) ∧
    (∀ a, (a < stack_top s - 68 ∨ stack_top s ≤ a)%Z → (a < stack_top s0 - 68 ∨ stack_top s0 ≤ a)%Z → mem s' a = mem s a).
Proof.
  intros Hf Hg Hg0 Hh. apply (wp_run_ret (A := unit)). apply (wp_take_irq vec err s (context_of s0) k'); [done|done|done|exact Hh|].
  split; [done|]. split; [|split; [done|split; [done|split]]].
  - cbn [resumed rg]. unfold regs_of. cbn [context_of cs eax ebx ecx edx esi edi ebp esp3 esp0 eip eflags ds es ss].
    unfold with_stack, stack_top. by destruct (user_cs (r_cs (rg s0))).
  - intros p Hu Hp. unfold resumed. cbn [context_of cs prot m_cr3 tss_esp0 esp0]. by rewrite Hu, Hp.
  - intros a Ha Ha0. cbn [resumed mem]. rewrite stacked_other; [|cbn [esp0 context_of]; unfold return_words; destruct (user_cs _); cbn; lia].
    cbn [set_kern told set_eois arrived mem]. apply stacked_other. unfold frame_words. destruct (user_cs _); cbn; lia.
Qed.

(** C11. A new thread begins: when the handler answers a context that [kcontext] made,
    and the two words that it put on the thread's stack are still there, the
    processor goes on at the entry point in the kernel's segments with interrupts
    on, finding its argument above a return address that stops the machine. *)
Theorem thread_begins vec err s k' pr stk entry arg s1 c s2 : framed vec → good_stack (stack_top s) → good_stack (end_ stk - 8) →
  kcontext pr stk entry arg s1 = Ret (c, s2) →
  h (event_of vec err s) (context_of s) (kern s) = Ret (Some c, k') →
  (∀ a, (end_ stk - 8 ≤ a < end_ stk)%Z → mem s a = mem s2 a ∧ ¬ (stack_top s - 68 ≤ a < stack_top s)%Z) →
  ∃ s', take_irq (Some h) vec err s = Ret (tt, s') ∧
    r_eip (rg s') = entry ∧ r_esp (rg s') = (end_ stk - 8)%Z ∧ r_eflags (rg s') = FL_IF ∧
    r_cs (rg s') = KSEL SEG_KCODE ∧ r_ds (rg s') = KSEL SEG_KDATA ∧ r_es (rg s') = KSEL SEG_KDATA ∧
    mem s' (r_esp (rg s')) = pr ∧ mem s' (r_esp (rg s') + 4)%Z = arg ∧ cpu_prot s' = None ∧ kern s' = k'.
Proof.
  intros Hf Hg [He Hm4] Hk Hh Hmem. unfold kcontext in Hk. cbn [length] in Hk. change (4 * Z.of_nat 2)%Z with 8%Z in Hk.
  rewrite (u32_small (end_ stk - 8)) in Hk by lia. unfold for_range in Hk. change (seqZ 0 (Z.of_nat 2 - 0)) with [0; 1]%Z in Hk.
  cbn in Hk. rewrite Z.add_0_r, !u32_small in Hk by lia.
  injection Hk as <- <-. apply (wp_run_ret (A := unit)).
  eapply wp_take_irq; [done|done| |exact Hh|]; [by split|]. split; [done|].
  assert (Hat : ∀ a, (end_ stk - 8 ≤ a < end_ stk)%Z →
    mem (resumed (MkContext None 0 0 0 0 0 0 0 0 entry FL_IF (KSEL SEG_KCODE) (KSEL SEG_KDATA) (KSEL SEG_KDATA) (KSEL SEG_KDATA) 0 (end_ stk - 8))
      (set_kern k' (told vec err s))) a = put_word (end_ stk - 8 + 4) arg (put_word (end_ stk - 8) pr (mem s1)) a).
  { intros a Ha. destruct (Hmem a Ha) as [Hs Hd]. cbn [resumed mem]. rewrite stacked_other by (cbn; lia).
    cbn [set_kern told set_eois arrived mem]. rewrite stacked_other; [done|]. unfold frame_words. destruct (user_cs _); cbn; lia. }
  cbn [resumed rg regs_of r_eip r_esp r_eflags r_cs r_ds r_es cpu_prot kern set_kern].
  change (user_cs _) with false. cbn iota. split_and!; try done.
  - cbn [esp0]. rewrite Hat by lia. unfold put_word. by rewrite decide_False, decide_True by lia.
  - cbn [esp0]. rewrite Hat by lia. unfold put_word. by rewrite decide_True by lia.
Qed.
End machine.

(** ** The interrupt table *)

Lemma gate_entry type sel entry dpl : (off_15_0 (GATE type sel entry dpl) + 2 ^ 16 * off_31_16 (GATE type sel entry dpl))%Z = u32 entry.
Proof.
  unfold GATE. cbn [off_15_0 off_31_16]. change 0xffff%Z with (Z.ones 16). rewrite Z.land_ones, Z.shiftr_div_pow2 by lia.
  pose proof (Z.div_mod (u32 entry) (2 ^ 16)). lia.
Qed.

Lemma wp_set_gate i g (s : cte) (Q : unit → cte → Prop) : (0 ≤ i < Z.of_nat (length (idt s)))%Z →
  Q tt (MkCte (<[Z.to_nat i := g]> (idt s)) (handler_set s) (idtr s) (ioapic s)) → wp (set_gate i g) Q s.
Proof. intros Hi HQ. unfold set_gate. wp_step. wp_step. rewrite aset_Some by done. wp_step. by wp_step. Qed.

Lemma wp_all_gates g (s : cte) (Q : unit → cte → Prop) : length (idt s) = NR_IRQ →
  Q tt (MkCte (replicate NR_IRQ g) (handler_set s) (idtr s) (ioapic s)) →
  wp (for_range 0 (Z.of_nat NR_IRQ) (λ i, set_gate i g)) Q s.
Proof.
  intros Hlen HQ. eapply wp_mono; [apply (wp_for_range (λ i s', s' =
    MkCte (replicate (Z.to_nat i) g ++ drop (Z.to_nat i) (idt s)) (handler_set s) (idtr s) (ioapic s)))|].
  - lia.
  - by destruct s.
  - intros i s' Hi ->. unfold NR_IRQ in *.
    apply wp_set_gate; cbn [idt handler_set idtr ioapic]; rewrite ?length_app, ?length_replicate, ?length_drop; [lia|].
    f_equal. replace (Z.to_nat (i + 1)) with (S (Z.to_nat i)) by lia.
    rewrite insert_app_r_alt by (rewrite length_replicate; lia). rewrite length_replicate, Nat.sub_diag.
    destruct (lookup_lt_is_Some_2 (idt s) (Z.to_nat i)) as [x Hx]; [lia|].
    by rewrite (drop_S _ _ _ Hx), replicate_S_end, <-app_assoc.
  - intros [] s' ->. rewrite drop_ge, app_nil_r, Nat2Z.id by lia. exact HQ.
Qed.

Lemma own_gates (G : Z → Z → GateDesc) g0 b r io :
  for_each IRQS (λ '(id, dpl, _), set_gate id (G id dpl)) (MkCte (replicate NR_IRQ g0) b r io) =
  Ret (tt, MkCte ((λ vec, if has_gate vec then G vec (if decide (vec = EX_SYSCALL) then DPL_USER else DPL_KERN) else g0) <$> seqZ 0 256) b r io).
Proof. vm_compute. reflexivity. Qed.

Lemma wp_of_run {S A} (m : M S A) (Q : A → S → Prop) s r : m s = Ret r → Q r.1 r.2 → wp m Q s.
Proof. unfold wp. intros ->. by destruct r. Qed.

(** After [cte_init] every vector goes to its own entry of cte_trap.S, or to [irqall];
    only the system call can be made from user code. *)
Lemma gates_installed irqall irq (s : cte) : length (idt s) = NR_IRQ →
  ∃ s', cte_init irqall irq 0 true s = Ret (0%Z, s') ∧ idtr s' = Some (idt s') ∧
    ∀ vec, (0 ≤ vec < 256)%Z → ∃ g, aget (idt s') vec = Some g ∧
      (off_15_0 g + 2 ^ 16 * off_31_16 g)%Z = u32 (if has_gate vec then irq vec else irqall) ∧
      g_cs g = KSEL SEG_KCODE ∧ g_type g = STS_TG32 ∧ g_dpl g = if decide (vec = EX_SYSCALL) then DPL_USER else DPL_KERN.
Proof.
  intros Hlen. apply (wp_run_ret (A := Z) _ (λ s', idtr s' = Some (idt s') ∧ _)). unfold cte_init.
  wp_step. wp_step; [done|]. wp_step. apply wp_all_gates; [done|]. wp_step.
  apply (wp_of_run _ _ _ _ (own_gates (λ id dpl, GATE STS_TG32 (KSEL SEG_KCODE) (irq id) dpl) _ _ _ _)).
  wp_step. unfold percpu_initirq. wp_step. cbn [handler_set when]. wp_step. wp_step. wp_step.
  split; [done|]. split; [done|]. cbn [idt snd]. intros vec Hv. eexists. split.
  - apply aget_Some. split; [lia|]. rewrite list_lookup_fmap. rewrite lookup_seqZ_lt by lia. reflexivity.
  - replace (0 + Z.of_nat (Z.to_nat vec))%Z with vec by lia.
    assert (Hsys : has_gate vec = false → vec ≠ EX_SYSCALL) by (intros Hf ->; vm_compute in Hf; discriminate).
    destruct (has_gate vec); [|rewrite decide_False by auto]; rewrite gate_entry; done.
Qed.

(** ** An example: two threads that yield to each other *)

(** The handler keeps the contexts of the waiting threads and answers the first. *)
Definition demo_handler (ev : Event) (c : Context) : M (list Context) (option Context) :=
  q ← get; match q with [] => mret None | n :: q' => modify (λ _, q' ++ [c]);; mret (Some n) end.

Definition demo_regs (ax sp ip : Z) : regs := Regs ax 2 3 4 5 6 7 sp ip 0x202 (KSEL SEG_KCODE) (KSEL SEG_KDATA) (KSEL SEG_KDATA) (KSEL SEG_KDATA).
(** A thread that runs [int $0x80] with -1 in [eax]; another that was interrupted. *)
Definition demo_one (q : list Context) : machine (list Context) :=
  Machine (demo_regs 0xffffffff 0x20000 0x1000) (λ _, 0%Z) 0 0 0 0 None 0 q.
Definition demo_two : machine (list Context) := Machine (demo_regs 1 0x30000 0x2000) (λ _, 0%Z) 0 0 0 0 None 0 [].

Lemma switch_back_witness : event (event_of 0x80 0 (demo_one [])) = EVENT_YIELD ∧
  ∃ s', take_irq (Some demo_handler) 0x80 0 (demo_one [context_of demo_two]) = Ret (tt, s') ∧
    rg s' = demo_regs 1 0x30000 0x2000 ∧ kern s' = [context_of (demo_one [])].
Proof.
  split; [vm_compute; reflexivity|].
  destruct (switch_back demo_handler 0x80 0 (demo_one [context_of demo_two]) demo_two [context_of (demo_one [])]) as (s' & Hrun & Hr & Hk & _).
  - reflexivity.
  - vm_compute. intuition discriminate.
  - vm_compute. intuition discriminate.
  - reflexivity.
  - exists s'. split; [exact Hrun|]. split; [rewrite Hr; vm_compute; reflexivity|exact Hk].
Defined.

(** The alignment check (17) is not [framed]: the frame is a word off, and the return
    takes the error code for the address and the address for the code segment. *)
Example alignment_check_shifted : ∃ s', take_irq None 17 0 (demo_one []) = Ret (tt, s') ∧ r_eip (rg s') = 0%Z ∧ r_cs (rg s') = 0x1000%Z.
Proof.
  assert (Hrun : match take_irq None 17 0 (demo_one []) with Ret (_, s') => r_eip (rg s') = 0 ∧ r_cs (rg s') = 0x1000 | Err _ => False end%Z)
    by (vm_compute; done).
  destruct (take_irq None 17 0 (demo_one [])) as [[[] s']|]; [by exists s'|done].
Qed.

Definition demo_stack : Area := MkArea 0x50000 0x51000.
Definition demo_made : machine (list Context) := state_of demo_two (kcontext 0x999 demo_stack 0x4000 77 demo_two).
Definition demo_thread : Context :=
  MkContext None 0 0 0 0 0 0 0 0 0x4000 FL_IF (KSEL SEG_KCODE) (KSEL SEG_KDATA) (KSEL SEG_KDATA) (KSEL SEG_KDATA) 0 0x50ff8.

Lemma thread_begins_witness : kcontext 0x999 demo_stack 0x4000 77 demo_two = Ret (demo_thread, demo_made) ∧
  ∃ s', take_irq (Some demo_handler) 0x80 0 (set_kern [demo_thread] demo_made) = Ret (tt, s') ∧
    r_eip (rg s') = 0x4000%Z ∧ mem s' (r_esp (rg s')) = 0x999%Z ∧ mem s' (r_esp (rg s') + 4)%Z = 77%Z.
Proof.
  split; [reflexivity|].
  destruct (thread_begins demo_handler 0x80 0 (set_kern [demo_thread] demo_made) [context_of (set_kern [demo_thread] demo_made)]
    0x999 demo_stack 0x4000 77 demo_two demo_thread demo_made) as (s' & Hrun & Hip & _ & _ & _ & _ & _ & Hr & Ha & _).
  - reflexivity.
  - vm_compute. intuition discriminate.
  - vm_compute. intuition discriminate.
  - reflexivity.
  - reflexivity.
  - intros a Ha. split; [reflexivity|]. change (stack_top _) with 0x30000%Z. cbn in Ha. lia.
  - exists s'. split; [exact Hrun|]. split; [exact Hip|]. split; [exact Hr|exact Ha].
Defined.
