(* ===== verification/Boot.v ===== *)
(** * The boot loader (abstract-machine/am/src/x86/qemu/boot/main.c)

    Reads an ELF image that begins at the second sector of the disk, puts its
    segments in memory and jumps to its entry point.  The disk controller answers
    at its ports as an ATA disk does: it is busy for a while after a command
    ([latency]), then hands out the bytes of the sector ([disk]). *)
From S2P Require Import Prelude Bytes.

Definition SECTSIZE : Z := 512.

Record boot := Boot {
  mem : Z → Z; (* bytes *)
  taskfile : list Z; (* the bytes last sent to ports 0x1F2 to 0x1F6 *)
  buffer : list Z; (* what the controller has still to hand out *)
  busy : nat (* polls until it is ready *)
}.
Definition set_mem v s := Boot v (taskfile s) (buffer s) (busy s).
Definition set_taskfile v s := Boot (mem s) v (buffer s) (busy s).
Definition set_buffer v s := Boot (mem s) (taskfile s) v (busy s).
Definition set_busy v s := Boot (mem s) (taskfile s) (buffer s) v.

Section disk.
Variable disk : Z → Z.
Variable latency : Z → nat.

Definition sector (n : Z) : list Z := slice (SECTSIZE * n) (Z.to_nat SECTSIZE) disk.

(** ** Ports *)

(** Reading 0x1F7: the busy bit as a [char], or the ready bit. *)
Definition in_byte (port : Z) : M boot Z :=
  s ← get;
  match busy s with
  | O => mret 0x40%Z
  | S n => modify (set_busy n);; mret (-128)%Z
  end.

(** Reading 0x1F0: the next four bytes. *)
Definition in_long (port : Z) : M boot Z :=
  s ← get;
  match busy s, buffer s with
  | O, b0 :: b1 :: b2 :: b3 :: l => modify (set_buffer l);; mret (i32 (unle [b0; b1; b2; b3]))
  | _, _ => mret 0%Z
  end.

(** The sector that the registers select. *)
Definition selected (t : list Z) : Z :=
  match t with [_; a; b; c; d] => unle [a; b; c; Z.land d 0x0f] | _ => 0%Z end.

Definition out_byte (port data : Z) : M boot unit :=
  let v := u8 data in
  if decide (port = 0x1F7)%Z then
    when (bool_decide (v = 0x20)%Z)
      (modify (λ s, let n := selected (taskfile s) in set_busy (latency n) (set_buffer (sector n) s)))
  else
    s ← get; t ← deref OutOfBounds (aset (taskfile s) (port - 0x1F2) v); modify (set_taskfile t).

(** ** Reading the disk *)

Fixpoint wait_loop (fuel : nat) : M boot unit :=
  match fuel with
  | O => fail OutOfFuel
  | S fuel' => st ← in_byte 0x1F7; if decide (Z.land st 0xC0 ≠ 0x40)%Z then wait_loop fuel' else mret tt
  end.
Definition waitdisk : M boot unit := s ← get; wait_loop (S (busy s)).

Definition readsect (dst offset : Z) : M boot unit :=
  waitdisk;;
  out_byte 0x1F2 1;;
  out_byte 0x1F3 offset;;
  out_byte 0x1F4 (Z.shiftr offset 8);;
  out_byte 0x1F5 (Z.shiftr offset 16);;
  out_byte 0x1F6 (Z.lor (Z.shiftr offset 24) 0xE0);;
  out_byte 0x1F7 0x20;;
  waitdisk;;
  for_range 0 (Z.quot SECTSIZE 4) (λ i, w ← in_long 0x1F0; modify (λ s, set_mem (blit (u32 (dst + 4 * i)) (le 4 w) (mem s)) s)).

(** [for(; pa < epa; pa += SECTSIZE, offset ++) readsect(pa, offset);] *)
Fixpoint seg_loop (fuel : nat) (pa epa offset : Z) : M boot unit :=
  match fuel with
  | O => fail OutOfFuel
  | S fuel' =>
      if decide (pa < epa)%Z then readsect pa offset;; seg_loop fuel' (u32 (pa + SECTSIZE)) epa (offset + 1) else mret tt
  end.

Definition readseg (pa count offset : Z) : M boot unit :=
  let epa := u32 (pa + count) in
  let pa := u32 (pa - Z.rem offset SECTSIZE) in
  seg_loop (Z.to_nat ((epa - pa) `div` SECTSIZE + 2)) pa epa (Z.quot offset SECTSIZE + 1).

(** ** The headers *)

Definition rd16 (a : Z) (m : Z → Z) : Z := unle (slice a 2 m).
Definition rd32 (a : Z) (m : Z → Z) : Z := unle (slice a 4 m).

Definition ELF : Z := 0x8000.
Definition e_entry (m : Z → Z) : Z := rd32 (ELF + 24) m.
Definition e_phoff (m : Z → Z) : Z := rd32 (ELF + 28) m.
Definition e_phnum (m : Z → Z) : Z := rd16 (ELF + 44) m.
Definition SIZEOF_PH : Z := 32.
Definition p_off (ph : Z) (m : Z → Z) : Z := rd32 (ph + 4) m.
Definition p_paddr (ph : Z) (m : Z → Z) : Z := rd32 (ph + 12) m.
Definition p_filesz (ph : Z) (m : Z → Z) : Z := rd32 (ph + 16) m.
Definition p_memsz (ph : Z) (m : Z → Z) : Z := rd32 (ph + 20) m.

(** [for (i = pa + ph->filesz; i < pa + ph->memsz; *i ++ = 0);] from [i] on. *)
Fixpoint zero_loop (fuel : nat) (ph pa i : Z) : M boot unit :=
  match fuel with
  | O => fail OutOfFuel
  | S fuel' =>
      s ← get;
      if decide (i < u32 (pa + p_memsz ph (mem s)))%Z then
        modify (λ s, set_mem (blit i [0%Z] (mem s)) s);; zero_loop fuel' ph pa (u32 (i + 1))
      else mret tt
  end.

(** The segment of the program header at [ph]; its fields are read from memory. *)
Definition load_segment (ph : Z) : M boot unit :=
  s ← get; let pa := p_paddr ph (mem s) in
  readseg pa (i32 (p_filesz ph (mem s))) (i32 (p_off ph (mem s)));;
  s ← get;
  zero_loop (S (Z.to_nat (p_memsz ph (mem s)))) ph pa (u32 (pa + p_filesz ph (mem s))).

Fixpoint load_loop (fuel : nat) (ph eph : Z) : M boot unit :=
  match fuel with
  | O => fail OutOfFuel
  | S fuel' => if decide (ph < eph)%Z then load_segment ph;; load_loop fuel' (u32 (ph + SIZEOF_PH)) eph else mret tt
  end.

(** The address that [bootmain] jumps to. *)
Definition bootmain : M boot Z :=
  s ← get;
  if decide (rd32 0x7000 (mem s) = 1)%Z then mret (rd32 0x7004 (mem s))
  else
    readseg ELF 4096 0;;
    s ← get;
    let ph := u32 (ELF + e_phoff (mem s)) in
    let n := e_phnum (mem s) in
    load_loop (S (Z.to_nat n)) ph (u32 (ph + SIZEOF_PH * n));;
    s ← get;
    mret (e_entry (mem s)).
End disk.
