(* ===== verification/BootProps.v ===== *)
(** * Properties of the boot loader

    What a sector, a run of sectors and a segment put in memory, and that the
    segments of an image whose parts do not touch each other are all there when
    the loader jumps. *)
From S2P Require Import Prelude Bytes Boot.

Lemma le_unle l : Forall (λ b, 0 ≤ b < 256)%Z l → le (length l) (unle l) = l.
Proof.
  induction 1 as [|b l Hb _ IH]; cbn; [done|]. f_equal.
  - rewrite Z.mul_comm, Z_mod_plus_full, Z.mod_small by lia. done.
  - rewrite Z.mul_comm, Z_div_plus_full, Z.div_small by lia. by rewrite Z.add_0_l.
Qed.

Lemma le_add n k : ∀ v, le n (v + k * 256 ^ Z.of_nat n) = le n v.
Proof.
  induction n as [|n IH]; intros v; [done|]. cbn [le]. rewrite Nat2Z.inj_succ, Z.pow_succ_r by lia.
  replace (v + k * (256 * 256 ^ Z.of_nat n))%Z with (v + (k * 256 ^ Z.of_nat n) * 256)%Z by lia. f_equal.
  - by rewrite Z_mod_plus_full.
  - rewrite Z_div_plus_full by lia. apply IH.
Qed.

Lemma le_i32 v : le 4 (i32 v) = le 4 v.
Proof.
  unfold i32. pose proof (Z.div_mod (v + 2 ^ 31) (2 ^ 32)) as Hd.
  replace ((v + 2 ^ 31) `mod` 2 ^ 32 - 2 ^ 31)%Z with (v + - ((v + 2 ^ 31) `div` 2 ^ 32) * 256 ^ Z.of_nat 4)%Z; [apply le_add|].
  change (256 ^ Z.of_nat 4)%Z with (2 ^ 32)%Z. lia.
Qed.

Section disk.
Variable disk : Z → Z.
Variable latency : Z → nat.
Hypothesis disk_bytes : ∀ a, (0 ≤ disk a < 256)%Z.
Implicit Types (s : boot).

(** ** Sectors *)

Lemma wp_waitdisk s (Q : unit → boot → Prop) : Q tt (set_busy 0 s) → wp waitdisk Q s.
Proof.
  intros HQ. unfold waitdisk. wp_step. wp_step. assert (Hb : ∃ n, busy s = n) by eauto. destruct Hb as [n Hn]. rewrite Hn.
  revert s HQ Hn. induction n as [|n IH]; intros s HQ Hn; cbn [wait_loop]; unfold in_byte; wp_step; wp_step; wp_step; rewrite Hn.
  - wp_step. rewrite decide_False by (vm_compute; tauto). wp_step. destruct s. cbn in *. by subst.
  - wp_step. wp_step. wp_step. rewrite decide_True by done. by apply IH.
Qed.

(** [m'] is [m] with the bytes from [lo] to [hi] taken from the disk at a distance [d]. *)
Definition copied (lo hi d : Z) (m m' : Z → Z) : Prop :=
  ∀ a, m' a = if decide (lo ≤ a < hi)%Z then disk (a + d)%Z else m a.

Lemma sector_take n k : (0 ≤ k < 128)%Z → drop (Z.to_nat (4 * k)) (sector disk n) =
  disk (512 * n + 4 * k)%Z :: disk (512 * n + 4 * k + 1)%Z :: disk (512 * n + 4 * k + 2)%Z :: disk (512 * n + 4 * k + 3)%Z ::
    drop (Z.to_nat (4 * (k + 1))) (sector disk n).
Proof.
  intros Hk. unfold sector, SECTSIZE. assert (Hl : ∀ i, i < 512 → slice (512 * n) (Z.to_nat 512) disk !! i = Some (disk (512 * n + Z.of_nat i)%Z))
    by (intros i Hi; by apply slice_lookup).
  replace (Z.to_nat (4 * (k + 1))) with (S (S (S (S (Z.to_nat (4 * k)))))) by lia.
  rewrite !(drop_S _ (disk (512 * n + 4 * k)%Z) (Z.to_nat (4 * k))) by (rewrite Hl by lia; do 2 f_equal; lia).
  rewrite (drop_S _ (disk (512 * n + 4 * k + 1)%Z) (S _)) by (rewrite Hl by lia; do 2 f_equal; lia).
  rewrite (drop_S _ (disk (512 * n + 4 * k + 2)%Z) (S _)) by (rewrite Hl by lia; do 2 f_equal; lia).
  rewrite (drop_S _ (disk (512 * n + 4 * k + 3)%Z) (S _)) by (rewrite Hl by lia; do 2 f_equal; lia). done.
Qed.
(** Splitting a sector number over the registers and putting it together again. *)
Lemma selected_sector n a : (0 ≤ n < 2 ^ 28)%Z →
  selected [a; u8 n; u8 (Z.shiftr n 8); u8 (Z.shiftr n 16); u8 (Z.lor (Z.shiftr n 24) 0xE0)] = n.
Proof.
  intros Hn. unfold selected, u8. rewrite !Z.shiftr_div_pow2 by lia.
  assert (Hd : (0 ≤ n `div` 2 ^ 24 < 16)%Z) by (split; [apply Z.div_pos; lia|apply Z.div_lt_upper_bound; lia]).
  assert (Hl : Z.land (Z.lor (n `div` 2 ^ 24) 0xE0 `mod` 2 ^ 8) 0x0f = (n `div` 2 ^ 24)%Z).
  { assert (Hc : ∀ x, (0 ≤ x < 16)%Z → Z.land (Z.lor x 0xE0 `mod` 2 ^ 8) 0x0f = x).
    { intros x Hx. assert (Hall : forallb (λ y, Z.land (Z.lor y 0xE0 `mod` 2 ^ 8) 0x0f =? y)%Z (seqZ 0 16) = true) by (vm_compute; done).
      rewrite forallb_forall in Hall. apply Z.eqb_eq, Hall, list_elem_of_In, elem_of_seqZ. lia. }
    by apply Hc. }
  rewrite Hl. cbn [unle]. rewrite !Z.mod_eq by lia.
  replace (n `div` 2 ^ 16)%Z with (n `div` 2 ^ 8 `div` 2 ^ 8)%Z by (rewrite Z.div_div by lia; done).
  replace (n `div` 2 ^ 24)%Z with (n `div` 2 ^ 8 `div` 2 ^ 8 `div` 2 ^ 8)%Z by (rewrite !Z.div_div by lia; done).
  change (2 ^ 8)%Z with 256%Z. lia.
Qed.

Lemma wp_out port v s t (Q : unit → boot → Prop) : port ≠ 0x1F7%Z → aset (taskfile s) (port - 0x1F2) (u8 v) = Some t →
  Q tt (set_taskfile t s) → wp (out_byte disk latency port v) Q s.
Proof. intros Hp Ht HQ. unfold out_byte. cbv zeta. rewrite decide_False by done.
  wp_step. wp_step. wp_step. eapply wp_deref; [exact Ht|]. by wp_step. Qed.

Lemma wp_readsect dst n s (Q : unit → boot → Prop) : length (taskfile s) = 5 →
  (0 ≤ n < 2 ^ 28)%Z → (0 ≤ dst ∧ dst + 512 < 2 ^ 32)%Z →
  (∀ s', length (taskfile s') = 5 → copied dst (dst + 512) (512 * n - dst) (mem s) (mem s') → Q tt s') →
  wp (readsect disk latency dst n) Q s.
Proof.
  intros Ht Hn Hd HQ. unfold readsect. wp_step. apply wp_waitdisk. destruct s as [m t b k]. cbn [taskfile mem set_busy buffer] in *.
  destruct t as [|t1 [|t2 [|t3 [|t4 [|t5 [|]]]]]]; try done.
  do 5 (wp_step; eapply wp_out; [done|reflexivity|]). cbn [set_taskfile taskfile mem buffer busy Z.to_nat].
  wp_step. unfold out_byte. cbv zeta. rewrite decide_True, bool_decide_eq_true_2 by done. cbn [when]. wp_step. cbv zeta. cbn [taskfile set_busy set_buffer mem busy buffer].
  match goal with |- context [selected ?l] => replace (selected l) with n by (symmetry; by apply (selected_sector n)) end.
  wp_step. apply wp_waitdisk. cbn [set_busy taskfile mem buffer busy].
  set (tf := [u8 1; u8 n; u8 (Z.shiftr n 8); u8 (Z.shiftr n 16); u8 (Z.lor (Z.shiftr n 24) 0xE0)]). change (Z.quot SECTSIZE 4) with 128%Z.
  eapply wp_mono; [apply (wp_for_range (λ i s', ∃ m', s' = Boot m' tf (drop (Z.to_nat (4 * i)) (sector disk n)) 0 ∧
    copied dst (dst + 4 * i) (512 * n - dst) m m')); [lia| |]|].
  - exists m. split; [reflexivity|]. intros a. by rewrite decide_False by lia.
  - intros i s1 Hi (m' & -> & Hm'). wp_step. unfold in_long. wp_step. wp_step. cbn [busy buffer].
    rewrite sector_take by done. wp_step. wp_step. wp_step. wp_step. cbn [set_buffer set_mem mem taskfile busy buffer].
    eexists. split; [reflexivity|]. rewrite le_i32.
    rewrite (le_unle [disk _; disk _; disk _; disk _]) by (repeat constructor; apply disk_bytes).
    rewrite u32_small by lia. intros a. destruct (decide (dst + 4 * i ≤ a < dst + 4 * i + 4)%Z) as [Ha|Ha].
    + rewrite decide_True by lia.
      assert (Hk : ∃ j, (0 ≤ j < 4)%Z ∧ a = (dst + 4 * i + j)%Z) by (exists (a - (dst + 4 * i))%Z; lia). destruct Hk as (j & Hj & ->).
      rewrite (blit_in _ _ _ _ (disk (dst + 4 * i + j + (512 * n - dst))%Z)); [done| |lia].
      replace (dst + 4 * i + j - (dst + 4 * i))%Z with j by lia.
      assert (j = 0 ∨ j = 1 ∨ j = 2 ∨ j = 3)%Z as [->|[->|[->| ->]]] by lia; apply (f_equal Some), (f_equal disk); lia.
    + rewrite blit_out by (cbn [length]; lia). rewrite Hm'.
      destruct (decide (dst ≤ a < dst + 4 * i)%Z); [by rewrite decide_True by lia|by rewrite decide_False by lia].
  - intros [] s1 (m' & -> & Hm'). apply HQ; [done|]. exact Hm'.
Qed.

(** ** Runs of sectors *)

Lemma copied_trans lo mid hi d m1 m2 m3 : (lo ≤ mid ≤ hi)%Z → copied lo mid d m1 m2 → copied mid hi d m2 m3 → copied lo hi d m1 m3.
Proof.
  intros Hle H1 H2 a. rewrite H2, H1. repeat case_decide; try done; lia.
Qed.

Lemma copied_nil lo d m : copied lo lo d m m.
Proof. intros a. by rewrite decide_False by lia. Qed.

Lemma wp_seg_loop n : ∀ fuel pa epa off s (Q : unit → boot → Prop), n < fuel → length (taskfile s) = 5 →
  (0 ≤ pa ∧ pa + 512 * Z.of_nat n < 2 ^ 32)%Z → (epa ≤ pa + 512 * Z.of_nat n)%Z → (∀ k : nat, k < n → (pa + 512 * Z.of_nat k < epa)%Z) →
  (0 ≤ off ∧ off + Z.of_nat n ≤ 2 ^ 28)%Z →
  (∀ s', length (taskfile s') = 5 → copied pa (pa + 512 * Z.of_nat n) (512 * off - pa) (mem s) (mem s') → Q tt s') →
  wp (seg_loop disk latency fuel pa epa off) Q s.
Proof.
  induction n as [|n IH]; intros [|fuel] pa epa off s Q Hf Ht Hpa Hend Hin Hoff HQ; [lia|..|lia|]; cbn [seg_loop].
  - rewrite decide_False by lia. wp_step. apply HQ; [done|]. rewrite Z.mul_0_r, Z.add_0_r. apply copied_nil.
  - pose proof (Hin 0 ltac:(lia)). rewrite decide_True by lia. wp_step.
    apply wp_readsect; [done|lia|lia|]. intros s1 Ht1 Hc1. unfold SECTSIZE. rewrite u32_small by lia.
    apply IH; [lia|done|lia|lia| |lia|].
    + intros k Hk. specialize (Hin (S k) ltac:(lia)). lia.
    + intros s2 Ht2 Hc2. apply HQ; [done|].
      replace (512 * (off + 1) - (pa + 512))%Z with (512 * off - pa)%Z in Hc2 by lia.
      replace (pa + 512 + 512 * Z.of_nat n)%Z with (pa + 512 * Z.of_nat (S n))%Z in Hc2 by lia.
      eapply copied_trans; [|exact Hc1|exact Hc2]. lia.
Qed.

(** The sectors that [readseg] reads for [count] bytes at [off] of the image. *)
Definition sectors (count off : Z) : Z := ((count + off `mod` 512 + 511) `div` 512)%Z.

Lemma wp_readseg pa count off s (Q : unit → boot → Prop) (lo := (pa - off `mod` 512)%Z) : length (taskfile s) = 5 →
  (0 ≤ count < 2 ^ 31)%Z → (0 ≤ off < 2 ^ 31)%Z → (0 ≤ lo)%Z → (lo + 512 * sectors count off < 2 ^ 32)%Z →
  (∀ s', length (taskfile s') = 5 → copied lo (lo + 512 * sectors count off) (512 + off - pa) (mem s) (mem s') → Q tt s') →
  wp (readseg disk latency pa count off) Q s.
Proof.
  intros Ht Hc Hoff Hlo Hhi HQ. unfold readseg. cbv zeta. unfold SECTSIZE. rewrite Z.rem_mod_nonneg, Z.quot_div_nonneg by lia. fold lo.
  pose proof (Z.mod_pos_bound off 512) as Hm. pose proof (Z.div_mod off 512) as Hd. unfold sectors in *.
  pose proof (Z.div_mod (count + off `mod` 512 + 511) 512) as Hq. pose proof (Z.mod_pos_bound (count + off `mod` 512 + 511) 512) as Hr.
  set (q := ((count + off `mod` 512 + 511) `div` 512)%Z) in *.
  assert (Hq0 : (0 ≤ q)%Z) by (apply Z.div_pos; lia).
  assert (Hepa : (pa + count ≤ lo + 512 * q)%Z) by lia.
  rewrite (u32_small (pa + count)), (u32_small lo) by lia.
  apply (wp_seg_loop (Z.to_nat q)); rewrite ?Z2Nat.id by done; [|done|lia|lia|intros k Hk; lia| |].
  - pose proof (Z.div_mod (pa + count - lo) 512). pose proof (Z.mod_pos_bound (pa + count - lo) 512). lia.
  - split; [pose proof (Z.div_pos off 512); lia|]. lia.
  - intros s' Ht' Hc'. apply HQ; [done|]. replace (512 + off - pa)%Z with (512 * (off `div` 512 + 1) - lo)%Z by lia. done.
Qed.

(** ** Segments *)

Record segment := Seg { g_off : Z; g_paddr : Z; g_filesz : Z; g_memsz : Z }.
Definition seg_at (ph : Z) (m : Z → Z) : segment := Seg (p_off ph m) (p_paddr ph m) (p_filesz ph m) (p_memsz ph m).

(** The bytes of memory that loading writes, whole sectors and zeros, and those that
    belong to the segment. *)
Definition seg_lo g : Z := (g_paddr g - g_off g `mod` 512)%Z.
Definition seg_hi g : Z := (seg_lo g + 512 * sectors (g_filesz g) (g_off g))%Z.
Definition touched g (a : Z) : Prop := (seg_lo g ≤ a < seg_hi g ∨ g_paddr g + g_filesz g ≤ a < g_paddr g + g_memsz g)%Z.
Definition used g (a : Z) : Prop := (g_paddr g ≤ a < g_paddr g + Z.max (g_filesz g) (g_memsz g))%Z.

(** A segment that fits in memory and on the disk. *)
Definition good_seg g : Prop :=
  (0 ≤ g_off g < 2 ^ 31 ∧ 0 ≤ g_filesz g < 2 ^ 31 ∧ 0 ≤ seg_lo g ∧ seg_hi g < 2 ^ 32 ∧ 0 ≤ g_memsz g ∧ g_paddr g + g_memsz g < 2 ^ 32)%Z.

(** What the image says of a byte of a segment. *)
Definition byte_of g (a : Z) : Z :=
  if decide (a < g_paddr g + g_filesz g)%Z then disk (512 + g_off g + (a - g_paddr g))%Z else 0%Z.
Definition loaded g (m : Z → Z) : Prop := ∀ a, used g a → m a = byte_of g a.

Lemma seg_at_ext ph m m' : (∀ k, (ph ≤ k < ph + 32)%Z → m k = m' k) → seg_at ph m = seg_at ph m'.
Proof.
  intros Heq. unfold seg_at, p_off, p_paddr, p_filesz, p_memsz, rd32.
  f_equal; f_equal; apply slice_ext; intros k Hk; apply Heq; lia.
Qed.

Lemma wp_zero_loop ph pa sz n : ∀ fuel i s (Q : unit → boot → Prop), n < fuel → (0 ≤ i)%Z → (0 ≤ pa + sz < 2 ^ 32)%Z →
  ((i + Z.of_nat n = pa + sz)%Z ∨ n = 0 ∧ (pa + sz ≤ i)%Z) → p_memsz ph (mem s) = sz →
  (∀ a, (i ≤ a < pa + sz)%Z → ¬ (ph ≤ a < ph + 32)%Z) →
  (∀ s', taskfile s' = taskfile s → (∀ a, mem s' a = if decide (i ≤ a < pa + sz)%Z then 0%Z else mem s a) → Q tt s') →
  wp (zero_loop fuel ph pa i) Q s.
Proof.
  induction n as [|n IH]; intros [|fuel] i s Q Hf Hi Hb Hn Hsz Hout HQ; [lia|..|lia|]; cbn [zero_loop]; wp_step; wp_step;
    rewrite Hsz, u32_small by lia.
  - rewrite decide_False by lia. wp_step. apply HQ; [done|]. intros a. by rewrite decide_False by lia.
  - rewrite decide_True by lia. wp_step. wp_step. rewrite u32_small by lia. apply IH; [lia|lia|done|lia| |intros a Ha; apply Hout; lia|].
    + cbn [set_mem mem]. rewrite <-Hsz. unfold p_memsz, rd32. f_equal. apply slice_ext. intros k Hk. apply blit_out. cbn [length].
      destruct (decide (k = i)) as [->|]; [|lia]. specialize (Hout i). lia.
    + intros s' Ht Hm. apply HQ; [done|]. intros a. rewrite Hm. cbn [set_mem mem].
      destruct (decide (i + 1 ≤ a < pa + sz)%Z); [by rewrite decide_True by lia|].
      destruct (decide (a = i)) as [->|]; [|rewrite blit_out by (cbn [length]; lia); by rewrite decide_False by lia].
      rewrite decide_True by lia. apply blit_in; [by rewrite Z.sub_diag|lia].
Qed.

Lemma seg_file g : good_seg g → (g_paddr g + g_filesz g ≤ seg_hi g ∧ seg_lo g ≤ g_paddr g)%Z.
Proof.
  intros (? & ? & _). unfold seg_hi, seg_lo, sectors. pose proof (Z.mod_pos_bound (g_off g) 512).
  pose proof (Z.div_mod (g_filesz g + g_off g `mod` 512 + 511) 512). pose proof (Z.mod_pos_bound (g_filesz g + g_off g `mod` 512 + 511) 512). lia.
Qed.

Lemma wp_load_segment ph g s (Q : unit → boot → Prop) : length (taskfile s) = 5 → seg_at ph (mem s) = g → good_seg g →
  (∀ a, touched g a → ¬ (ph ≤ a < ph + 32)%Z) →
  (∀ s', length (taskfile s') = 5 → loaded g (mem s') → (∀ a, ¬ touched g a → mem s' a = mem s a) → Q tt s') →
  wp (load_segment disk latency ph) Q s.
Proof.
  intros Ht Hg Hgood Hph HQ. pose proof (seg_file g Hgood) as [Hfile Hlo]. destruct Hgood as (Ho & Hfs & Hl0 & Hh & Hms & Hpm).
  assert (Hf : p_off ph (mem s) = g_off g ∧ p_paddr ph (mem s) = g_paddr g ∧ p_filesz ph (mem s) = g_filesz g ∧ p_memsz ph (mem s) = g_memsz g)
    by (rewrite <-Hg; done).
  destruct Hf as (Eo & Ea & Ef & Em). unfold load_segment. wp_step. wp_step. cbv zeta. rewrite Eo, Ea, Ef. rewrite !i32_small by lia. wp_step.
  apply wp_readseg; [done|lia|lia|exact Hl0|exact Hh|]. intros s1 Ht1 Hc1. wp_step. wp_step.
  fold (seg_lo g) in Hc1. fold (seg_hi g) in Hc1.
  assert (Hs1 : seg_at ph (mem s1) = g).
  { rewrite <-Hg. apply seg_at_ext. intros k Hk. rewrite Hc1, decide_False; [done|]. intros Hin. by apply (Hph k); [left|]. }
  assert (Ef1 : p_filesz ph (mem s1) = g_filesz g) by (by rewrite <-Hs1).
  assert (Em1 : p_memsz ph (mem s1) = g_memsz g) by (by rewrite <-Hs1).
  rewrite Ef1, Em1, u32_small by lia.
  apply (wp_zero_loop ph (g_paddr g) (g_memsz g) (Z.to_nat (g_memsz g - g_filesz g))); [lia|lia|lia|lia|done| |].
  - intros a Ha. apply Hph. by right.
  - intros s2 Ht2 Hm2. apply HQ; [by rewrite Ht2| |].
    + intros a Ha. unfold used in Ha. unfold byte_of. rewrite Hm2, Hc1.
      destruct (decide (a < g_paddr g + g_filesz g)%Z).
      * rewrite decide_False, decide_True by lia. f_equal. lia.
      * rewrite decide_True by lia. done.
    + intros a Ha. unfold touched in Ha. rewrite Hm2, Hc1, !decide_False; [done|tauto|tauto].
Qed.

(** ** All the segments *)

(** The page that holds the headers, as the image has it. *)
Definition header (a : Z) : Prop := (ELF ≤ a < ELF + 4096)%Z.
Definition image (a : Z) : Z := disk (512 + (a - ELF))%Z.

(** The segments that the image's program headers describe. *)
Definition segments : list segment :=
  (λ k, seg_at (ELF + e_phoff image + SIZEOF_PH * k) image) <$> seqZ 0 (e_phnum image).

(** Each segment fits and keeps off the headers, and loading a later one does not
    write over an earlier one. *)
Fixpoint apart (l : list segment) : Prop :=
  match l with
  | [] => True
  | g :: l' => good_seg g ∧ (∀ a, touched g a → ¬ header a) ∧ (∀ g', g' ∈ l' → ∀ a, touched g' a → ¬ used g a) ∧ apart l'
  end.

Lemma wp_load_loop : ∀ l fuel ph s (Q : unit → boot → Prop), length l < fuel → length (taskfile s) = 5 →
  (ELF ≤ ph ∧ ph + 32 * Z.of_nat (length l) ≤ ELF + 4096)%Z → (∀ a, header a → mem s a = image a) → apart l →
  (∀ i g, l !! i = Some g → g = seg_at (ph + 32 * Z.of_nat i) image) →
  (∀ s', (∀ a, header a → mem s' a = image a) → (∀ g, g ∈ l → loaded g (mem s')) →
    (∀ a, (∀ g, g ∈ l → ¬ touched g a) → mem s' a = mem s a) → Q tt s') →
  wp (load_loop disk latency fuel ph (ph + 32 * Z.of_nat (length l))) Q s.
Proof.
  induction l as [|g l IH]; intros [|fuel] ph s Q Hf Ht Hph Hh Hap Hl HQ; [cbn in Hf; lia|..|cbn in Hf; lia|]; cbn [load_loop length] in *.
  - rewrite decide_False by lia. wp_step. apply HQ; [done| |done]. by intros g ?%not_elem_of_nil.
  - unfold ELF in Hph. rewrite decide_True by lia. destruct Hap as (Hg & Hgh & Hgl & Hap).
    pose proof (Hl 0 g eq_refl) as Hg0. rewrite Z.mul_0_r, Z.add_0_r in Hg0. wp_step.
    assert (Hin : ∀ a, (ph ≤ a < ph + 32)%Z → header a) by (intros a Ha; unfold header, ELF; lia).
    eapply (wp_load_segment ph g); [done| |done|by intros a Ha Hp; eapply Hgh; [|apply Hin]|].
    { rewrite Hg0. apply seg_at_ext. intros k Hk. by apply Hh, Hin. }
    intros s1 Ht1 Hload Hrest. unfold SIZEOF_PH. rewrite u32_small by lia.
    replace (ph + 32 * Z.of_nat (S (length l)))%Z with (ph + 32 + 32 * Z.of_nat (length l))%Z by lia.
    apply IH; [lia|done|unfold ELF; lia| |done| |].
    + intros a Ha. rewrite Hrest; [by apply Hh|]. intros Hta. by apply (Hgh a).
    + intros i g' Hg'. rewrite (Hl (S i) g') by done. f_equal. lia.
    + intros s2 Hh2 Hload2 Hrest2. apply HQ; [done| |].
      * intros g' [->|Hg']%elem_of_cons; [|by apply Hload2]. intros a Ha.
        rewrite Hrest2; [by apply Hload|]. intros g' Hg' Hta. by apply (Hgl g' Hg' a).
      * intros a Ha. rewrite Hrest2 by (intros g' Hg'; apply Ha; by right). apply Hrest, Ha. by left.
Qed.

Lemma header_ext m a n : (∀ k, header k → m k = image k) → (ELF ≤ a)%Z → (a + Z.of_nat n ≤ ELF + 4096)%Z →
  slice a n m = slice a n image.
Proof. intros Heq Ha Hn. apply slice_ext. intros k Hk. apply Heq. unfold header. lia. Qed.

Lemma image_bytes a n : Forall (λ b, 0 ≤ b < 256)%Z (slice a n image).
Proof. unfold slice. apply Forall_fmap, Forall_forall. intros i _. apply disk_bytes. Qed.

(** C12. The boot loader loads the program: on a disk whose second sector begins an ELF
    image with its headers in the first page, whose segments fit in memory, keep
    off the page of the headers and do not have their sectors over an earlier
    segment, it jumps to the image's entry point with every byte of every segment
    as the image has it, zeros after the file's part, and with no byte changed
    that is neither a header nor in the sectors or zeros of a segment. *)
Theorem boot_loads s : rd32 0x7000 (mem s) ≠ 1%Z → length (taskfile s) = 5 →
  (e_phoff image + SIZEOF_PH * e_phnum image ≤ 4096)%Z → apart segments →
  ∃ s', bootmain disk latency s = Ret (e_entry image, s') ∧
    (∀ g, g ∈ segments → loaded g (mem s')) ∧
    (∀ a, ¬ header a → (∀ g, g ∈ segments → ¬ touched g a) → mem s' a = mem s a).
Proof.
  intros Hbsp Ht Hroom Hap. apply (wp_run_ret _ (λ s', (∀ g, g ∈ segments → loaded g (mem s')) ∧
    (∀ a, ¬ header a → (∀ g, g ∈ segments → ¬ touched g a) → mem s' a = mem s a))).
  pose proof (unle_bound _ (image_bytes (ELF + 28) 4)) as Hoff. pose proof (unle_bound _ (image_bytes (ELF + 44) 2)) as Hnum.
  rewrite slice_length in Hoff, Hnum. fold (rd32 (ELF + 28) image) in Hoff. fold (rd16 (ELF + 44) image) in Hnum.
  fold (e_phoff image) in Hoff. fold (e_phnum image) in Hnum. unfold SIZEOF_PH in Hroom.
  unfold bootmain. wp_step. wp_step. rewrite decide_False by done. wp_step.
  apply wp_readseg; [done|lia|lia|vm_compute; discriminate|vm_compute; reflexivity|].
  change (ELF - 0 `mod` 512)%Z with ELF. change (512 * sectors 4096 0)%Z with 4096%Z. intros s1 Ht1 Hc1.
  assert (Hh : ∀ a, header a → mem s1 a = image a).
  { intros a Ha. unfold header in Ha. rewrite Hc1, decide_True by done. unfold image. f_equal. lia. }
  wp_step. wp_step. cbv zeta.
  assert (E1 : e_phoff (mem s1) = e_phoff image) by (unfold e_phoff, rd32; f_equal; apply header_ext; [done|lia|lia]).
  assert (E2 : e_phnum (mem s1) = e_phnum image) by (unfold e_phnum, rd16; f_equal; apply header_ext; [done|lia|lia]).
  rewrite E1, E2. wp_step. unfold ELF, SIZEOF_PH. rewrite !u32_small by lia. fold ELF.
  assert (Hlen : length segments = Z.to_nat (e_phnum image)) by (unfold segments; by rewrite length_fmap, length_seqZ).
  replace (32 * e_phnum image)%Z with (32 * Z.of_nat (length segments))%Z by lia.
  apply (wp_load_loop segments); [lia|done|unfold ELF in *; lia|done|done| |].
  - intros i g Hg. unfold segments in Hg. rewrite list_lookup_fmap, fmap_Some in Hg. destruct Hg as (k & Hk & ->).
    apply lookup_seqZ in Hk as [-> _]. unfold SIZEOF_PH, ELF. by f_equal.
  - intros s2 Hh2 Hload Hrest. wp_step. wp_step. wp_step. split; [|split; [done|]].
    + unfold e_entry, rd32. f_equal. apply header_ext; [done|lia|lia].
    + intros a Hna Ha. rewrite Hrest by done. rewrite Hc1. apply decide_False. done.
Qed.
End disk.

(** ** An example: an image of two segments *)

Definition demo_header : list Z :=
  le 4 0x464c457f ++ replicate 12 0%Z ++ le 2 2 ++ le 2 3 ++ le 4 1 ++ le 4 0x100040 ++ le 4 52 ++ le 4 0 ++ le 4 0 ++ le 2 52 ++ le 2 32 ++ le 2 2 ++
  replicate 6 0%Z.
Definition demo_ph (off addr fsz msz : Z) : list Z := le 4 1 ++ le 4 off ++ le 4 addr ++ le 4 addr ++ le 4 fsz ++ le 4 msz ++ le 4 5 ++ le 4 4096.
Definition demo_image : list Z :=
  demo_header ++ demo_ph 0x1040 0x100040 600 600 ++ demo_ph 0x1400 0x101400 3 40.
(** Beyond the headers the image's bytes follow their address. *)
Definition demo_disk (a : Z) : Z :=
  if decide (512 ≤ a < 512 + 4096)%Z then default 0%Z (aget demo_image (a - 512)) else (a `mod` 251)%Z.
Definition demo_boot : boot := Boot (λ _, 7%Z) [0; 0; 0; 0; 0]%Z [] 3.

Lemma boot_demo_bytes a : (0 ≤ demo_disk a < 256)%Z.
Proof.
  unfold demo_disk. case_decide; [|pose proof (Z.mod_pos_bound a 251); lia].
  destruct (aget demo_image (a - 512)) as [b|] eqn:Hb; [|cbn; lia].
  assert (Hall : Forall (λ b, 0 ≤ b < 256)%Z demo_image) by (apply (bool_decide_unpack _); vm_compute; exact I).
  apply aget_Some in Hb as [_ Hb]. by eapply (proj1 (Forall_lookup _ _) Hall).
Qed.

Lemma demo_segments : segments demo_disk = [Seg 0x1040 0x100040 600 600; Seg 0x1400 0x101400 3 40].
Proof. vm_compute. reflexivity. Qed.

Lemma demo_apart : apart (segments demo_disk).
Proof.
  rewrite demo_segments. cbn [apart]. unfold good_seg, touched, used, header, seg_hi, seg_lo, sectors, ELF. cbn [g_off g_paddr g_filesz g_memsz].
  change (0x1040 `mod` 512)%Z with 64%Z. change (0x1400 `mod` 512)%Z with 0%Z.
  change ((600 + 64 + 511) `div` 512)%Z with 2%Z. change ((3 + 0 + 511) `div` 512)%Z with 1%Z.
  split_and!; try lia; try (intros a Ha; lia); [|by intros g' []%not_elem_of_nil].
  intros g' ->%list_elem_of_singleton a. cbn [g_off g_paddr g_filesz g_memsz].
  change (0x1400 `mod` 512)%Z with 0%Z. change ((3 + 0 + 511) `div` 512)%Z with 1%Z. lia.
Qed.

(** The program is there, the first bytes of the second segment and the zeros after it. *)
Lemma boot_loads_witness : ∃ s', bootmain demo_disk (λ n, Z.to_nat n) demo_boot = Ret (0x100040%Z, s') ∧
  mem s' 0x100040 = demo_disk (512 + 0x1040) ∧ mem s' 0x101402 = demo_disk (512 + 0x1402) ∧ mem s' 0x101403 = 0%Z ∧ mem s' 0x200000 = 7%Z.
Proof.
  destruct (boot_loads demo_disk (λ n, Z.to_nat n) boot_demo_bytes demo_boot) as (s' & Hrun & Hload & Hrest).
  - vm_compute. discriminate.
  - reflexivity.
  - vm_compute. discriminate.
  - exact demo_apart.
  - exists s'. rewrite demo_segments in Hload, Hrest. split; [exact Hrun|].
    split; [|split; [|split]].
    + rewrite (Hload (Seg 0x1040 0x100040 600 600)); [reflexivity|left|unfold used; cbn; lia].
    + rewrite (Hload (Seg 0x1400 0x101400 3 40)); [reflexivity|right; left|unfold used; cbn; lia].
    + rewrite (Hload (Seg 0x1400 0x101400 3 40)); [reflexivity|right; left|unfold used; cbn; lia].
    + apply Hrest; [unfold header, ELF; lia|]. intros g [->|[->|[]%not_elem_of_nil]%elem_of_cons]%elem_of_cons; vm_compute; intuition discriminate.
Defined.
